(* ===== verification/_CoqProject ===== *)
-Q . S2P
Prelude.v
State.v
Spinlock.v
Str.v
Cprintf.v
Kalloc.v
Proc.v
Mlf.v
Sched.v
Bio.v
Blocks.v
Log.v
LogSpec.v
Tx.v
Crash.v
Fs.v
FsTx.v
Balloc.v
Inode.v
Contents.v
Paths.v
Mkfs.v
Pipe.v
File.v
Vm.v
PageTable.v
AddrSpace.v
Ports.v
Mp.v
Screen.v
Seg.v
ProcLife.v
Life.v
Fork.v
Console.v
Line.v
Exec.v
Boot.v
Syscall.v
Sysfile.v
Trap.v
IdePort.v
Irq.v
Preempt.v
Grep.v
Umalloc.v
Sh.v
ShSpec.v
ShParse.v
User.v
Programs.v
ShRun.v
