(* ===== verification/Prelude.v ===== *)
(** * A verification of a teaching operating system

    The program is a kernel for multiprocessor x86 machines: xv6 with a
    multilevel feedback queue ([ptable.mlf], [MLF_LEVELS] levels,
    [MAX_QUANTUM] clock ticks) in place of its round-robin scheduler, and the
    system calls [procstat] and [set_priority]; its user programs (a C library, a
    shell, small tools); and the tool that builds its disk image.  This library
    models the C code as functions on explicit states and proves what makes its
    parts correct.

    ** The parts of the program, and the files

    - [Prelude]: machine integers, record update, the outcome monad ([Ret],
      [Panic], [Undef], [Wait], [NoFuel]), its rules and tactics.
    - [State]: the constants and structures of param.h, proc.h, fs.h, file.h,
      buf.h, spinlock.h, mmu.h, memlayout.h, x86.h, and [kstate], the state of
      the whole kernel: CPUs, locks, process table, memory, buffer cache, log,
      inodes, files, pipes, console, disk.
    - [Spinlock] (spinlock.c): [acquire], [release], [pushcli], [popcli], and a
      machine of CPUs that take turns.
    - [Str] (string.c), [Cprintf] (console.c: [printint], [cprintf]).
    - [Kalloc] (kalloc.c): the free list in the pages themselves.
    - [Proc] (proc.c: queues, scheduler, [sleep], [wakeup], [kill],
      [allocproc]); [Mlf], its linked queues as lists, and the steps of the
      process table; [Sched], what each operation does to them; [ProcLife]
      ([fork], [exit], [wait], [userinit], [growproc], [procdump]); [Life]: what
      [exit] and [wait] do; [Fork]: what [fork] does.
    - [Bio] (bio.c, memide.c): the buffer cache over a disk, which is the class
      [disk] with laws [disk_laws]; [memide] is its instance.  [Blocks]: what
      one call of the block layer changes.
    - [Log] (log.c); [LogSpec], [Tx]: transactions; [Crash]: power failures.
    - [Fs] (fs.c); [FsTx]: looking at and changing a sector in a transaction;
      [Balloc]: the block bitmap; [Inode]: encoding and reference counts;
      [Contents]: bytes of files; [Paths]: directories and path names.
    - [Mkfs] (mkfs.c): the image as a list of sectors, and the files in it.
    - [Pipe] (pipe.c), [File] (file.c).
    - [Vm] (vm.c), [PageTable]: what the hardware translates; [AddrSpace]:
      address spaces as wholes, from [setupkvm] to [freevm].
    - [Console] (console.c, kbd.c), [Line]: the line discipline.
    - [Ports] (x86.h): port input and output on a machine [mach] whose devices
      are a parameter (the class [ports]), and the laws of an ATA drive (the class
      [ata]); [Boot] (bootmain.c); [IdePort] (ide.c at the level of the ports);
      [Screen] (console.c: [cgaputc], [consputc]; uart.c); [Mp] (mp.c);
      [Seg] (mmu.h, [seginit], [tvinit]: segment and gate descriptors); [Irq]
      (picirq.c, ioapic.c, lapic.c, timer.c).
    - [Exec] (exec.c), [Syscall] (syscall.c, sysproc.c), [Sysfile] (sysfile.c
      and the dispatch of system calls), [Trap] (trap.c, ide.c), [Preempt]:
      clock interrupts and scheduler together.
    - [Grep] (user/grep.c): its regular expression matcher; [Umalloc]
      (user/umalloc.c): the heap; [Sh] (user/sh.c): the parser on the shell's own
      memory; [ShSpec]: the grammar and the meaning of command lines;
      [ShParse]: the parser against the grammar; [User] (user/ulib.c,
      user/printf.c): the library and programs that make system calls;
      [Programs]: cat, wc, grep, echo, ls, init and the others; [ShRun]: the
      shell's [runcmd] against the meaning of a line.

    ** How the code is translated

    Each C function of the kernel is a function of type [KM A], from a state to
    an outcome.  A C integer is a [Z], with [u32], [s32] and the like where its
    width matters; a pointer to an entry of a static table is the index of the
    entry and an address of memory a number; pages, page tables and the free list
    are the bytes and words of one memory.  [panic] is the outcome [Panic]; a null
    dereference or an index outside an array is [Undef].  At [swtch], and while
    a CPU spins on a lock, the outcome is [Wait]: it gives the state reached and
    a function from whatever state the rest of the machine leaves to the rest of
    the run, so that nothing is assumed there that a theorem does not say.

    User programs run on memory of their own ([Umalloc.ustate]); where they call
    the kernel they are trees of calls ([User.call]) whose continuation takes the
    result, so that a theorem quantifies over what the kernel may answer.

    Code that drives devices ([Ports] and the files after it) is of type [M (mach D
    G) A]: [D] is the type of device states, of which only the documented laws
    named in a class ([ata], [crtc], [pics]) are used, and [G] the variables of the
    driver.  Each class has an instance in the file that states it or uses it.

    Loops whose length the data bound are recursive on that bound; the bound of
    a loop that is not structural (the blocks of a request, the pages of a
    range, the elements of a path, the entries of a directory, the tokens of a
    line) is computed from its arguments, and the theorems show that it is never
    what ends the loop.  The free bounds are [more_wakes], the number of times
    one call goes round a sleep or spin loop: a loop that finds its condition true
    needs no such round, and theorems about calls that wait speak of one wait at a
    time; [patience], the number of times a driver reads the status of a drive,
    which the theorems ask to be more than the drive is ever busy; and the turns
    of the loop of [mpinit], more than the entries of the table.

    ** What the theorems show

    - Log: a commit is atomic under a crash after any prefix of its writes;
      recovery may itself be interrupted ([Crash]).
    - Scheduling: the queues always represent lists in step with the process
      states ([Sched.mlf_invariant]); what dispatch, [yield], [sleep],
      [wakeup], [kill], [allocproc] do; a time slice is [MAX_QUANTUM] ticks; a
      process at the lowest level can keep the others waiting ([Preempt]).
    - Processes: the child of [fork] is a copy of its parent, in memory of its
      own ([Fork]); [exit] misses neither the parent nor the orphans, [wait]
      gives back all the memory of a child and cannot miss an exit ([Life]).
    - Locks: mutual exclusion for every interleaving; misuse panics.
    - Memory: pages are conserved ([Kalloc]); [mappages] changes the
      translation of exactly the pages it maps ([PageTable]); [copyuvm],
      [allocuvm], [freevm] against the translation and the free pages
      ([AddrSpace]); pointers from user programs are accepted exactly within the
      process ([Syscall]).
    - Files: allocation and freeing of blocks against the bitmap ([Balloc]);
      reference counts ([Inode]); bytes written are read back, through direct
      and indirect blocks ([Contents]); a name linked is found, and paths are
      walked element by element ([Paths]); the image mkfs builds holds the files
      it was given, in the form the kernel reads ([Mkfs]).
    - Buffer cache, pipes, console: each call against the contents of the
      sectors, a byte queue, a line editor ([Bio], [Pipe], [Line]).
    - User programs: blocks of [malloc] never overlap ([Umalloc]); the shell
      accepts exactly the lines of its grammar and runs exactly the programs a
      line means ([ShParse], [ShRun]); the matcher and the filters ([Grep],
      [Programs]); the library routines ([User], [Str], [Cprintf]).

    - Devices: the boot loader brings every segment of the kernel to its place
      ([Boot]); the port commands of the disk driver do what its request queue
      takes a disk to do ([IdePort]); the screen is a terminal ([Screen]); the
      processors are those of the tables in memory ([Mp]); the descriptors mean
      what the kernel relies on, and only the system call gate is open to user
      code ([Seg]); exactly the enabled lines are not masked ([Irq]).

    Each theorem with hypotheses is followed by an instance at a concrete state
    ([..._witness]); the states come from the modules named [..._demo] and
    [demo].  Some theorems state defects: [set_priority_unchecked],
    [kill_unused_entry], [balloc_takes_log_block], [argptr_negative_size],
    [lowest_level_hogs], [allocuvm_ignores_failure], [mkfs_root_block_missing],
    [grep_repeats_lines], [malloc_wraps], [mpinit_unknown_hangs].

    ** What is not modelled

    Assembly (the entry code, trap entries, [swtch]); main.c, which calls the
    initialisation routines and starts the other CPUs; what [panic] prints;
    usertests.c, which is a list of test scripts.  The disk of the file system is
    any that satisfies [disk_laws]; [Trap.ide], the interrupt-driven driver, is
    modelled without a proof that it does.  [Cprintf] collects characters where
    [Screen] has their way to the devices.  The call stacks that [acquire] records
    are left out.

    Definitions without theorems of their own: most of [File], [Exec], [Sysfile]
    and [Trap], the I/O and local APIC in [Irq], and in [Fs] the truncation of
    inodes and the path walk as a whole; [Contents] is about files whose blocks
    are allocated. *)
From stdpp Require Import base numbers gmap strings option list.
From Stdlib Require Import ZArith Lia.

#[global] Open Scope Z_scope.
#[global] Coercion Z.of_nat : nat >-> Z.

(** ** Machine integers *)

Definition u8 (x : Z) : Z := x mod 2 ^ 8.
Definition u16 (x : Z) : Z := x mod 2 ^ 16.
Definition u32 (x : Z) : Z := x mod 2 ^ 32.
Definition s16 (x : Z) : Z := (x + 2 ^ 15) mod 2 ^ 16 - 2 ^ 15.
Definition s32 (x : Z) : Z := (x + 2 ^ 31) mod 2 ^ 32 - 2 ^ 31.

(** ** Record update *)

(** [mkEta] rebuilds a record from its projections; a setter is obtained by
    abstracting one projection out of that term. *)
Class Settable (R : Type) := mkEta : R → R.
Class Setter {R T : Type} (proj : R → T) := set : (T → T) → R → R.
Arguments set {R T} proj {_} _ _ /.
Arguments mkEta R {_} _ /.

Ltac build_setter :=
  lazymatch goal with
  | |- @Setter ?R ?T ?proj =>
      let e := eval cbv delta [mkEta] in (@mkEta R _) in
      let e := eval hnf in e in
      let e := eval pattern proj in e in
      lazymatch e with
      | ?g _ =>
          let body := eval cbv beta in (fun (f : T → T) => g (fun r => f (proj r))) in
          exact body
      end
  end.

#[export] Hint Extern 1 (Setter _) => build_setter : typeclass_instances.

Declare Scope rec_scope.
Notation "x <| proj := v |>" := (set proj (λ _, v) x)
  (at level 1, left associativity, format "x  <| proj  :=  v |>") : rec_scope.
Notation "x <| proj ::= f |>" := (set proj f x)
  (at level 1, left associativity,
   format "x  <| proj  ::=  f |>") : rec_scope.
#[global] Open Scope rec_scope.

(** ** Effects *)

(** Why an operation gives the processor away before it returns: it spins on
    a lock another CPU holds, or it has switched stacks with [swtch]. *)
Inductive wait_reason := Spin | Swtch.

(** The result of running C code on a state: a value and the final state, a
    call of [panic], undefined behaviour (a null dereference or an array
    index out of range), a point where the rest of the machine runs before
    the code continues in whatever state it then finds, or the exhaustion of
    the bound on the number of such points in one loop. *)
Inductive outcome (S A : Type) :=
| Ret (a : A) (s : S)
| Panic (msg : string) (s : S)
| Undef (why : string)
| Wait (w : wait_reason) (s : S) (k : S → outcome S A)
| NoFuel.
Arguments Ret {S A} _ _.
Arguments Panic {S A} _ _.
Arguments Undef {S A} _.
Arguments Wait {S A} _ _ _.
Arguments NoFuel {S A}.

Definition M (S A : Type) : Type := S → outcome S A.

Fixpoint obind {S A B} (o : outcome S A) (f : A → M S B) : outcome S B :=
  match o with
  | Ret a s => f a s
  | Panic m s => Panic m s
  | Undef w => Undef w
  | Wait w s k => Wait w s (λ s', obind (k s') f)
  | NoFuel => NoFuel
  end.

Definition ret {S A} (a : A) : M S A := λ s, Ret a s.
Definition bind {S A B} (c : M S A) (f : A → M S B) : M S B := λ s, obind (c s) f.
Definition panic {S A} (msg : string) : M S A := λ s, Panic msg s.
Definition undef {S A} (why : string) : M S A := λ _, Undef why.
Definition gets {S A} (f : S → A) : M S A := λ s, Ret (f s) s.
Definition modify {S} (f : S → S) : M S unit := λ s, Ret tt (f s).
Definition pause {S} (w : wait_reason) : M S unit := λ s, Wait w s (Ret tt).

(** The value of a lookup that is undefined behaviour when it fails. *)
Definition deref {S A} (why : string) (o : option A) : M S A :=
  match o with Some a => ret a | None => undef why end.

Declare Scope m_scope.
Delimit Scope m_scope with M.
Notation "'let*' x ':=' c 'in' k" := (bind c (λ x, k))
  (at level 10, x binder, c at level 200, k at level 200,
   format "'[v' 'let*'  x  ':='  c  'in' '/' k ']'") : m_scope.
Notation "'do*' c 'in' k" := (bind c (λ _ : unit, k))
  (at level 10, c at level 200, k at level 200,
   format "'[v' 'do*'  c  'in' '/' k ']'") : m_scope.
#[global] Open Scope m_scope.

(** [while cond body] with a bound on the number of iterations. *)
Fixpoint while {S} (fuel : nat) (cond : M S bool) (body : M S unit) : M S unit :=
  match fuel with
  | O => λ _, NoFuel
  | Datatypes.S n =>
      let* b := cond in
      if b then do* body in while n cond body else ret tt
  end.

(** [for x in l: body x]; C loops over a fixed index range. *)
Fixpoint for_each {S A} (l : list A) (body : A → M S unit) : M S unit :=
  match l with
  | [] => ret tt
  | x :: l' => do* body x in for_each l' body
  end.

(** ** Specifications of effectful code *)

(** [returns c s Q]: from [s] the code runs to its end without waiting,
    panicking or undefined behaviour, and [Q] holds of the result. *)
Definition returns {S A} (c : M S A) (s : S) (Q : A → S → Prop) : Prop :=
  ∃ a s', c s = Ret a s' ∧ Q a s'.

(** [sat G R Q o]: the code never panics and has no undefined behaviour; at
    each point where it waits [G] holds of the state it leaves; and if the
    rest of the machine only makes changes allowed by [R], it ends in [Q]. *)
Fixpoint sat {S A} (G : wait_reason → S → Prop) (R : wait_reason → S → S → Prop)
    (Q : A → S → Prop) (o : outcome S A) : Prop :=
  match o with
  | Ret a s => Q a s
  | Panic _ _ => False
  | Undef _ => False
  | Wait w s k => G w s ∧ ∀ s', R w s s' → sat G R Q (k s')
  | NoFuel => True
  end.

Section monad_lemmas.
Context {S : Type}.

Lemma bind_ret {A B} (c : M S A) (f : A → M S B) s a s' :
  c s = Ret a s' → bind c f s = f a s'.
Proof. unfold bind. by intros ->. Qed.

Lemma bind_wait {A B} (c : M S A) (f : A → M S B) s w s' k :
  c s = Wait w s' k → bind c f s = Wait w s' (λ t, obind (k t) f).
Proof. unfold bind. by intros ->. Qed.

Lemma bind_panic {A B} (c : M S A) (f : A → M S B) s m s' :
  c s = Panic m s' → bind c f s = Panic m s'.
Proof. unfold bind. by intros ->. Qed.

Lemma bind_undef {A B} (c : M S A) (f : A → M S B) s m :
  c s = Undef m → bind c f s = Undef m.
Proof. unfold bind. by intros ->. Qed.

(** Running a known prefix of a sequence of commands. *)
Lemma bind_run {A B C} (c : M S A) (f : A → M S B) (g : B → M S C) s b t :
  bind c f s = Ret b t → bind c (λ a, bind (f a) g) s = g b t.
Proof. unfold bind. destruct (c s); try done. cbn. by intros ->. Qed.

Lemma bind_run2 {A B C D} (c : M S A) (f : A → M S B) (g : A → B → M S C) (h : C → M S D) s x t :
  bind c (λ a, bind (f a) (g a)) s = Ret x t → bind c (λ a, bind (f a) (λ b, bind (g a b) h)) s = h x t.
Proof. unfold bind. destruct (c s) as [a u| | | |]; try done. cbn. destruct (f a u); try done. cbn. by intros ->. Qed.

Lemma bind_run3 {A B C D E} (c : M S A) (f : A → M S B) (g : A → B → M S C) (h : A → B → C → M S D) (i : D → M S E) s x t :
  bind c (λ a, bind (f a) (λ b, bind (g a b) (h a b))) s = Ret x t →
  bind c (λ a, bind (f a) (λ b, bind (g a b) (λ d, bind (h a b d) i))) s = i x t.
Proof.
  unfold bind. destruct (c s) as [a u| | | |]; try done. cbn. destruct (f a u) as [b v| | | |]; try done. cbn.
  destruct (g a b v); try done. cbn. by intros ->.
Qed.

Lemma returns_ret {A} (a : A) s (Q : A → S → Prop) : Q a s → returns (ret a) s Q.
Proof. intros. by exists a, s. Qed.

Lemma returns_bind {A B} (c : M S A) (f : A → M S B) s Q :
  returns c s (λ a s', returns (f a) s' Q) → returns (bind c f) s Q.
Proof.
  intros (a & s' & Hc & b & s'' & Hf & HQ). exists b, s''.
  split; [|done]. by rewrite (bind_ret _ _ _ _ _ Hc).
Qed.

Lemma returns_mono {A} (c : M S A) s (P Q : A → S → Prop) :
  returns c s P → (∀ a s', P a s' → Q a s') → returns c s Q.
Proof. intros (a & s' & ? & ?) ?. exists a, s'. eauto. Qed.

Lemma returns_eq {A} (c : M S A) s a s' (Q : A → S → Prop) :
  c s = Ret a s' → Q a s' → returns c s Q.
Proof. intros. by exists a, s'. Qed.

Lemma returns_gets {A} (f : S → A) s (Q : A → S → Prop) :
  Q (f s) s → returns (gets f) s Q.
Proof. intros. by exists (f s), s. Qed.

Lemma returns_modify (f : S → S) s (Q : unit → S → Prop) :
  Q tt (f s) → returns (modify f) s Q.
Proof. intros. by exists tt, (f s). Qed.

Lemma while_done n (cond : M S bool) body s s' :
  cond s = Ret false s' → while (Datatypes.S n) cond body s = Ret tt s'.
Proof. intros H. cbn. by rewrite (bind_ret _ _ _ _ _ H). Qed.

Lemma sat_bind {A B} G R (P : A → S → Prop) (Q : B → S → Prop) o f :
  sat G R P o → (∀ a s, P a s → sat G R Q (f a s)) → sat G R Q (obind o f).
Proof.
  intros Ho Hf. revert Ho. induction o; simpl; naive_solver.
Qed.

Lemma sat_mono {A} G R (P Q : A → S → Prop) o :
  sat G R P o → (∀ a s, P a s → Q a s) → sat G R Q o.
Proof. intros Ho Hf. revert Ho. induction o; simpl; naive_solver. Qed.

(** A loop invariant rule for [for_each]: [I] holds of the elements done. *)
Lemma returns_for_each {A} (l : list A) (body : A → M S unit) (I : list A → S → Prop) s :
  I [] s →
  (∀ done x rest t, l = done ++ x :: rest → I done t →
    returns (body x) t (λ _ t', I (done ++ [x]) t')) →
  returns (for_each l body) s (λ _ t, I l t).
Proof.
  intros H0 Hb.
  assert (∀ rest done t, l = done ++ rest → I done t →
    returns (for_each rest body) t (λ _ t', I l t')) as HH; [|by apply (HH l [])].
  induction rest as [|x rest IH]; intros dn t -> Hi; simpl.
  - apply returns_ret. by rewrite app_nil_r.
  - apply returns_bind. eapply returns_mono; [by eapply Hb|].
    intros ? t' Ht'. apply (IH (dn ++ [x])); [|done]. by rewrite <-app_assoc.
Qed.
End monad_lemmas.

(** [step H] runs the first command of a sequence, where [H] is an equation
    giving its result. *)
Tactic Notation "step" uconstr(H) := erewrite bind_ret; [|eapply H]; cbv beta.

(** [mstep] runs a first command that reads or changes the state directly. *)
Ltac mstep := erewrite bind_ret; [|reflexivity]; cbv beta.

(** Run the monad's own commands, leaving record updates folded. *)
Ltac mred :=
  cbv beta iota delta [bind obind gets modify ret undef panic deref pause id].

Create HintDb m.
#[export] Hint Resolve returns_ret returns_gets returns_modify : m.

(** ** Generic lemmas *)

Ltac Zify.zify_post_hook ::= Z.div_mod_to_equations.

Lemma u32_small x : 0 ≤ x < 2 ^ 32 → u32 x = x.
Proof. intros. by apply Z.mod_small. Qed.

Lemma u32_range x : 0 ≤ u32 x < 2 ^ 32.
Proof. unfold u32. lia. Qed.

Lemma s32_small x : - 2 ^ 31 ≤ x < 2 ^ 31 → s32 x = x.
Proof. intros. unfold s32. lia. Qed.

(** Clearing a flag leaves it clear; setting it leaves it set. *)
Lemma land_ldiff_same a f : Z.land (Z.ldiff a f) f = 0.
Proof.
  apply Z.bits_inj'. intros n Hn.
  rewrite Z.land_spec, Z.ldiff_spec, Z.bits_0. by destruct (Z.testbit a n), (Z.testbit f n).
Qed.

Lemma land_lor_same a f : Z.land (Z.lor a f) f = f.
Proof.
  apply Z.bits_inj'. intros n Hn.
  rewrite Z.land_spec, Z.lor_spec. by destruct (Z.testbit a n), (Z.testbit f n).
Qed.

(** Update of one element of a list, as a total function. *)
Lemma alter_lookup_eq {A} (f : A → A) (l : list A) i x :
  l !! i = Some x → alter f i l !! i = Some (f x).
Proof. intros H. by rewrite list_lookup_alter_eq, H. Qed.

Lemma alter_insert {A} (f : A → A) (l : list A) i x :
  l !! i = Some x → alter f i l = <[i := f x]> l.
Proof.
  intros H. apply list_eq. intros j.
  destruct (decide (i = j)) as [->|Hne].
  - rewrite list_lookup_alter_eq, H, list_lookup_insert_eq; [done|].
    by eapply lookup_lt_Some.
  - by rewrite list_lookup_alter_ne, list_lookup_insert_ne.
Qed.
