(* ===== verification/State.v ===== *)
(** The kernel's data: the constants of param.h, fs.h, file.h, buf.h,
    memlayout.h and mmu.h, the structures those headers and the kernel files
    declare, and the state the whole kernel runs on.

    Pointers to entries of a static table ([ptable.proc], [bcache.buf],
    [icache.inode], [ftable.file]) are indices of that table, and a nullable
    pointer is an [option]; addresses of memory are [Z]. *)
From stdpp Require Import base numbers gmap strings option countable list.
From S2P Require Import Prelude.

(** ** Constants *)

Definition NPROC : nat := 64.
Definition KSTACKSIZE : Z := 4096.
Definition NCPU : nat := 8.
Definition NOFILE : nat := 16.
Definition NFILE : nat := 100.
Definition NBUF : nat := 10.
Definition NINODE : nat := 50.
Definition NDEV : Z := 10.
Definition ROOTDEV : Z := 1.
Definition MAXARG : Z := 32.
Definition LOGSIZE : Z := 10.
Definition MAX_QUANTUM : Z := 4.
Definition MLF_LEVELS : Z := 4.

Definition EXTMEM : Z := 0x100000.
Definition PHYSTOP : Z := 0xE000000.
Definition DEVSPACE : Z := 0xFE000000.
Definition KERNBASE : Z := 0x80000000.
Definition KERNLINK : Z := KERNBASE + EXTMEM.
Definition v2p (a : Z) : Z := u32 (a - KERNBASE).
Definition p2v (a : Z) : Z := u32 (a + KERNBASE).

Definition FL_IF : Z := 0x200.
Definition PGSIZE : Z := 4096.
Definition PGROUNDUP (sz : Z) : Z := Z.land (u32 (sz + PGSIZE - 1)) (u32 (Z.lnot (PGSIZE - 1))).
Definition PGROUNDDOWN (a : Z) : Z := Z.land a (u32 (Z.lnot (PGSIZE - 1))).

Definition B_BUSY : Z := 1.
Definition B_VALID : Z := 2.
Definition B_DIRTY : Z := 4.

Definition ROOTINO : Z := 1.
Definition BSIZE : Z := 512.
Definition NDIRECT : Z := 12.
Definition NINDIRECT : Z := BSIZE / 4.
Definition MAXFILE : Z := NDIRECT + NINDIRECT.
Definition IPB : Z := BSIZE / 64.
Definition IBLOCK (i : Z) : Z := i / IPB + 2.
Definition BPB : Z := BSIZE * 8.
Definition BBLOCK (b ninodes : Z) : Z := b / BPB + ninodes / IPB + 3.
Definition DIRSIZ : Z := 14.
Definition I_BUSY : Z := 1.
Definition I_VALID : Z := 2.
Definition T_DIR : Z := 1.
Definition T_FILE : Z := 2.
Definition T_DEV : Z := 3.

(** What the linker and the boot code fix, and the bound on the number of
    times one loop of one call spins or sleeps: a loop that needs no waiting
    always has an iteration to spare. *)
Class kenv := {
  more_wakes : nat;
  end_addr : Z;
  data_addr : Z;
  forkret_addr : Z;
  trapret_addr : Z;
}.
Definition fuel `{kenv} : nat := S more_wakes.

(** The addresses of the kernel image built in the repository (kernel.sym). *)
Definition kenv_example : kenv :=
  Build_kenv 3 0x80112a1c 0x80109000 0x80104a4b 0x801064a0.

(** ** Locks and CPUs *)

Inductive lockid :=
| LkPtable | LkKmem | LkBcache | LkIcache | LkFtable | LkLog | LkTicks
| LkCons | LkInput | LkIde | LkPipe (p : Z).

#[export] Instance lockid_eq_dec : EqDecision lockid.
Proof. solve_decision. Defined.

#[export] Instance lockid_countable : Countable lockid.
Proof.
  refine (inj_countable'
    (λ l, match l with
          | LkPtable => inl 0%nat | LkKmem => inl 1%nat | LkBcache => inl 2%nat
          | LkIcache => inl 3%nat | LkFtable => inl 4%nat | LkLog => inl 5%nat
          | LkTicks => inl 6%nat | LkCons => inl 7%nat | LkInput => inl 8%nat
          | LkIde => inl 9%nat | LkPipe p => inr p end)
    (λ x, match x with
          | inl 0%nat => LkPtable | inl 1%nat => LkKmem | inl 2%nat => LkBcache
          | inl 3%nat => LkIcache | inl 4%nat => LkFtable | inl 5%nat => LkLog
          | inl 6%nat => LkTicks | inl 7%nat => LkCons | inl 8%nat => LkInput
          | inl _ => LkIde | inr p => LkPipe p end) _).
  by intros [].
Defined.

(** spinlock.h; the call stack kept for debugging is left out. *)
Record spinlock := mkSpinlock {
  locked : Z;
  lk_cpu : option nat;
}.
#[export] Instance eta_spinlock : Settable spinlock :=
  λ l, mkSpinlock (locked l) (lk_cpu l).

(** The per-CPU state of proc.h, with the registers the kernel reads and
    writes ([eflags], [tr], [cr3]) and the two fields of the task state it sets. *)
Record cpu := mkCpu {
  ncli : Z;
  intena : Z;
  eflags : Z;
  cpu_proc : option nat;
  ts_ss0 : Z;
  ts_esp0 : Z;
  tr : Z;
  cr3 : Z;
}.
#[export] Instance eta_cpu : Settable cpu :=
  λ c, mkCpu (ncli c) (intena c) (eflags c) (cpu_proc c) (ts_ss0 c) (ts_esp0 c) (tr c) (cr3 c).

(** ** Processes *)

(** Wait channels: the addresses the kernel passes to [sleep]. *)
Inductive channel :=
| ChProc (p : nat) | ChBuf (b : nat) | ChInode (i : nat) | ChLog | ChTicks
| ChPipeRead (p : Z) | ChPipeWrite (p : Z) | ChInput.

#[export] Instance channel_eq_dec : EqDecision channel.
Proof. solve_decision. Defined.

Inductive procstate := UNUSED | EMBRYO | SLEEPING | RUNNABLE | RUNNING | ZOMBIE.

#[export] Instance procstate_eq_dec : EqDecision procstate.
Proof. solve_decision. Defined.

(** The trap frame of x86.h, without the padding. *)
Record trapframe := mkTf {
  tf_edi : Z; tf_esi : Z; tf_ebp : Z; tf_oesp : Z;
  tf_ebx : Z; tf_edx : Z; tf_ecx : Z; tf_eax : Z;
  tf_gs : Z; tf_fs : Z; tf_es : Z; tf_ds : Z;
  tf_trapno : Z; tf_err : Z; tf_eip : Z; tf_cs : Z; tf_eflags : Z;
  tf_esp : Z; tf_ss : Z;
}.
#[export] Instance eta_tf : Settable trapframe :=
  λ t, mkTf (tf_edi t) (tf_esi t) (tf_ebp t) (tf_oesp t) (tf_ebx t) (tf_edx t)
         (tf_ecx t) (tf_eax t) (tf_gs t) (tf_fs t) (tf_es t) (tf_ds t)
         (tf_trapno t) (tf_err t) (tf_eip t) (tf_cs t) (tf_eflags t) (tf_esp t) (tf_ss t).
Definition tf_zero : trapframe := mkTf 0 0 0 0 0 0 0 0 0 0 0 0 0 0 0 0 0 0 0.

Record context := mkContext {
  cx_edi : Z; cx_esi : Z; cx_ebx : Z; cx_ebp : Z; cx_eip : Z;
}.
#[export] Instance eta_context : Settable context :=
  λ c, mkContext (cx_edi c) (cx_esi c) (cx_ebx c) (cx_ebp c) (cx_eip c).
Definition context_zero : context := mkContext 0 0 0 0 0.

(** [struct proc].  The trap frame and the context are kept by value, next
    to the addresses [p->tf] and [p->context] point to. *)
Record proc := mkProc {
  p_sz : Z;
  p_pgdir : Z;
  p_kstack : Z;
  p_state : procstate;
  p_pid : Z;
  p_parent : option nat;
  p_tf : Z;
  p_tframe : trapframe;
  p_context : Z;
  p_ctx : context;
  p_chan : option channel;
  p_killed : Z;
  p_ofile : list (option nat);
  p_cwd : option nat;
  p_name : list Z;
  p_quantum : Z;
  p_next : option nat;
  p_current_level : Z;
}.
#[export] Instance eta_proc : Settable proc :=
  λ p, mkProc (p_sz p) (p_pgdir p) (p_kstack p) (p_state p) (p_pid p) (p_parent p)
         (p_tf p) (p_tframe p) (p_context p) (p_ctx p) (p_chan p) (p_killed p)
         (p_ofile p) (p_cwd p) (p_name p) (p_quantum p) (p_next p) (p_current_level p).

(** An entry of a zeroed [ptable]. *)
Definition proc_zero : proc :=
  mkProc 0 0 0 UNUSED 0 None 0 tf_zero 0 context_zero None 0
    (replicate NOFILE None) None (replicate 16 0) 0 None 0.

(** [struct queue] of proc.c: one level of the multilevel feedback queue. *)
Record queue := mkQueue {
  q_first : option nat;
  q_last : option nat;
  q_size : Z;
}.
#[export] Instance eta_queue : Settable queue :=
  λ q, mkQueue (q_first q) (q_last q) (q_size q).
Definition queue_zero : queue := mkQueue None None 0.

Record ptable_t := mkPtable {
  pt_proc : list proc;
  pt_mlf : list queue;
  pt_size : Z;
  pt_nextpid : Z;
  pt_initproc : option nat;
}.
#[export] Instance eta_ptable : Settable ptable_t :=
  λ t, mkPtable (pt_proc t) (pt_mlf t) (pt_size t) (pt_nextpid t) (pt_initproc t).

(** ** The buffer cache, the log, inodes and files *)

Record buf := mkBuf {
  b_flags : Z;
  b_dev : Z;
  b_sector : Z;
  b_data : list Z;
}.
#[export] Instance eta_buf : Settable buf :=
  λ b, mkBuf (b_flags b) (b_dev b) (b_sector b) (b_data b).

(** [bcache]: the buffers and the doubly linked list through their [prev]
    and [next] fields, from the most to the least recently used; node
    [NBUF] of [bc_next] and [bc_prev] is [bcache.head]. *)
Record bcache_t := mkBcache {
  bc_buf : list buf;
  bc_next : list nat;
  bc_prev : list nat;
}.
#[export] Instance eta_bcache : Settable bcache_t :=
  λ c, mkBcache (bc_buf c) (bc_next c) (bc_prev c).

Record logheader := mkLogheader { lh_n : Z; lh_sector : list Z }.
#[export] Instance eta_logheader : Settable logheader :=
  λ h, mkLogheader (lh_n h) (lh_sector h).

Record log_t := mkLog {
  lg_start : Z;
  lg_size : Z;
  lg_busy : Z;
  lg_dev : Z;
  lg_lh : logheader;
}.
#[export] Instance eta_log : Settable log_t :=
  λ l, mkLog (lg_start l) (lg_size l) (lg_busy l) (lg_dev l) (lg_lh l).

Record superblock := mkSuperblock {
  sb_size : Z; sb_nblocks : Z; sb_ninodes : Z; sb_nlog : Z;
}.

Record inode := mkInode {
  i_dev : Z;
  i_inum : Z;
  i_ref : Z;
  i_flags : Z;
  i_type : Z;
  i_major : Z;
  i_minor : Z;
  i_nlink : Z;
  i_size : Z;
  i_addrs : list Z;
}.
#[export] Instance eta_inode : Settable inode :=
  λ i, mkInode (i_dev i) (i_inum i) (i_ref i) (i_flags i) (i_type i) (i_major i)
         (i_minor i) (i_nlink i) (i_size i) (i_addrs i).

Inductive ftype := FD_NONE | FD_PIPE | FD_INODE.
#[export] Instance ftype_eq_dec : EqDecision ftype.
Proof. solve_decision. Defined.

Record file := mkFile {
  f_type : ftype;
  f_ref : Z;
  f_readable : Z;
  f_writable : Z;
  f_pipe : Z;
  f_ip : option nat;
  f_off : Z;
}.
#[export] Instance eta_file : Settable file :=
  λ f, mkFile (f_type f) (f_ref f) (f_readable f) (f_writable f) (f_pipe f) (f_ip f) (f_off f).

(** pipe.c's [struct pipe]. *)
Definition PIPESIZE : Z := 512.
Record pipe := mkPipe {
  pi_data : list Z;
  pi_nread : Z;
  pi_nwrite : Z;
  pi_readopen : Z;
  pi_writeopen : Z;
}.
#[export] Instance eta_pipe : Settable pipe :=
  λ p, mkPipe (pi_data p) (pi_nread p) (pi_nwrite p) (pi_readopen p) (pi_writeopen p).

(** console.c's [input]: a circular buffer with read, write and edit marks. *)
Definition INPUT_BUF : Z := 128.
Record input_t := mkInput {
  in_buf : list Z;
  in_r : Z;
  in_w : Z;
  in_e : Z;
}.
#[export] Instance eta_input : Settable input_t :=
  λ i, mkInput (in_buf i) (in_r i) (in_w i) (in_e i).

(** ** The kernel state *)

Record kmem_t := mkKmem { use_lock : bool; freelist : Z }.
#[export] Instance eta_kmem : Settable kmem_t :=
  λ k, mkKmem (use_lock k) (freelist k).

(** [k_cpu] is the CPU that executes; [k_disk] holds the sectors of the
    disk and [k_writes] the sector writes made to it, oldest first (what a
    power failure can cut short), [k_mem] the bytes of memory by kernel
    virtual address, [k_console] the characters given to [consputc], oldest
    first.  [k_first] and [k_shift] are the static variables of [forkret] and
    [kbdgetc], [k_idequeue] the buffers linked through [qnext] from
    [idequeue], [k_havedisk1] ide.c's variable, [k_kbd] the scan codes waiting
    in the keyboard controller. *)
Record kstate := mkK {
  k_cpu : nat;
  k_cpus : list cpu;
  k_locks : gmap lockid spinlock;
  k_ptable : ptable_t;
  k_ticks : Z;
  k_mem : gmap Z Z;
  k_kmem : kmem_t;
  k_kpgdir : Z;
  k_disk : list (list Z);
  k_writes : list (Z * list Z);
  k_bcache : bcache_t;
  k_log : log_t;
  k_icache : list inode;
  k_ftable : list file;
  k_pipes : gmap Z pipe;
  k_console : list Z;
  k_cons_locking : bool;
  k_panicked : bool;
  k_input : input_t;
  k_first : bool;
  k_idequeue : list nat;
  k_havedisk1 : bool;
  k_shift : Z;
  k_kbd : list Z;
}.
#[export] Instance eta_kstate : Settable kstate :=
  λ k, mkK (k_cpu k) (k_cpus k) (k_locks k) (k_ptable k) (k_ticks k) (k_mem k)
         (k_kmem k) (k_kpgdir k) (k_disk k) (k_writes k) (k_bcache k) (k_log k) (k_icache k)
         (k_ftable k) (k_pipes k) (k_console k) (k_cons_locking k) (k_panicked k) (k_input k)
         (k_first k) (k_idequeue k) (k_havedisk1 k) (k_shift k) (k_kbd k).

Abbreviation KM := (M kstate).

(** Every table as it is in the kernel's zeroed bss. *)
Definition kstate_zero : kstate :=
  mkK 0 (replicate NCPU (mkCpu 0 0 0 None 0 0 0 0)) ∅
    (mkPtable (replicate NPROC proc_zero) (replicate (Z.to_nat MLF_LEVELS) queue_zero) 0 1 None)
    0 ∅ (mkKmem false 0) 0 [] []
    (mkBcache (replicate NBUF (mkBuf 0 0 0 (replicate (Z.to_nat BSIZE) 0))) [] [])
    (mkLog 0 0 0 0 (mkLogheader 0 (replicate (Z.to_nat LOGSIZE) 0)))
    (replicate NINODE (mkInode 0 0 0 0 0 0 0 0 0 (replicate 13 0)))
    (replicate NFILE (mkFile FD_NONE 0 0 0 0 None 0)) ∅ [] false false
    (mkInput (replicate (Z.to_nat INPUT_BUF) 0) 0 0 0) true [] false 0 [].

(** ** Access to the state *)

Definition get_cpu : KM cpu :=
  let* k := gets id in deref "cpu" (k_cpus k !! k_cpu k).
Definition upd_cpu (f : cpu → cpu) : KM unit :=
  let* _ := get_cpu in modify (λ k, k <| k_cpus ::= alter f (k_cpu k) |>).

Definition get_lock (l : lockid) : KM spinlock :=
  gets (λ k, default (mkSpinlock 0 None) (k_locks k !! l)).
Definition upd_lock (l : lockid) (f : spinlock → spinlock) : KM unit :=
  modify (λ k, k <| k_locks ::= λ m, <[l := f (default (mkSpinlock 0 None) (m !! l))]> m |>).

(** [proc], the process this CPU runs, and [*proc]. *)
Definition myproc : KM (option nat) := let* c := get_cpu in ret (cpu_proc c).
Definition curproc : KM nat := let* p := myproc in deref "proc" p.

Definition get_proc (i : nat) : KM proc :=
  let* k := gets id in deref "ptable.proc" (pt_proc (k_ptable k) !! i).
Definition upd_proc (i : nat) (f : proc → proc) : KM unit :=
  let* _ := get_proc i in modify (λ k, k <| k_ptable ::= set pt_proc (alter f i) |>).

Definition upd_ptable (f : ptable_t → ptable_t) : KM unit :=
  modify (λ k, k <| k_ptable ::= f |>).

(** ** Page arithmetic *)

Lemma land_page_mask x : 0 ≤ x < 2 ^ 32 → Z.land x 0xFFFFF000 = x / 4096 * 4096.
Proof.
  intros Hx. change 0xFFFFF000 with (Z.shiftl (Z.ones 20) 12).
  transitivity (Z.shiftl (Z.land (Z.shiftr x 12) (Z.ones 20)) 12).
  - apply Z.bits_inj'. intros n Hn. rewrite Z.land_spec, !Z.shiftl_spec by done.
    destruct (decide (n < 12)).
    + rewrite !(Z.testbit_neg_r _ (n - 12)) by lia. by rewrite andb_false_r.
    + rewrite Z.land_spec, Z.shiftr_spec by lia. do 2 f_equal; lia.
  - rewrite Z.land_ones, Z.shiftr_div_pow2, Z.shiftl_mul_pow2 by lia.
    rewrite Z.mod_small; [done|]. lia.
Qed.

Lemma PGROUNDDOWN_eq a : 0 ≤ a < 2 ^ 32 → PGROUNDDOWN a = a / PGSIZE * PGSIZE.
Proof. intros. unfold PGROUNDDOWN. change (u32 _) with 0xFFFFF000. by apply land_page_mask. Qed.

Lemma PGROUNDUP_eq a :
  0 ≤ a → a + PGSIZE - 1 < 2 ^ 32 → PGROUNDUP a = (a + PGSIZE - 1) / PGSIZE * PGSIZE.
Proof.
  intros H0 H1. unfold PGROUNDUP, PGSIZE in *. rewrite (u32_small (a + 4096 - 1)) by lia.
  change (u32 (Z.lnot _)) with 0xFFFFF000. apply land_page_mask. lia.
Qed.
