(* ===== verification/Spinlock.v ===== *)
(** Spin locks (spinlock.c): interrupt nesting with [pushcli]/[popcli], and
    [acquire]/[release] on the atomic [xchg] of x86.h. *)
From stdpp Require Import base numbers gmap strings option list.
From S2P Require Import Prelude State.

(** ** x86.h *)

Definition readeflags : KM Z := let* c := get_cpu in ret (eflags c).
Definition cli : KM unit := upd_cpu (λ c, c <| eflags ::= λ e, Z.ldiff e FL_IF |>).
Definition sti : KM unit := upd_cpu (λ c, c <| eflags ::= λ e, Z.lor e FL_IF |>).

(** Exchange the word [lk->locked] with [newval], in one step. *)
Definition xchg (l : lockid) (newval : Z) : KM Z :=
  let* lk := get_lock l in
  do* upd_lock l (λ lk, lk <| locked := newval |>) in
  ret (locked lk).

(** ** spinlock.c *)

Definition initlock (l : lockid) : KM unit := upd_lock l (λ _, mkSpinlock 0 None).

Definition holding (l : lockid) : KM bool :=
  let* lk := get_lock l in
  let* k := gets id in
  ret (negb (locked lk =? 0) && bool_decide (lk_cpu lk = Some (k_cpu k))).

Definition pushcli : KM unit :=
  let* e := readeflags in
  do* cli in
  let* c := get_cpu in
  do* upd_cpu (λ c, c <| ncli ::= λ n, n + 1 |>) in
  if ncli c =? 0 then upd_cpu (λ c, c <| intena := Z.land e FL_IF |>) else ret tt.

Definition popcli : KM unit :=
  let* e := readeflags in
  if negb (Z.land e FL_IF =? 0) then panic "popcli - interruptible" else
  do* upd_cpu (λ c, c <| ncli ::= λ n, n - 1 |>) in
  let* c := get_cpu in
  if ncli c <? 0 then panic "popcli" else
  if (ncli c =? 0) && negb (intena c =? 0) then sti else ret tt.

Section spinlock.
Context `{kenv}.

(** The loop of [acquire] from its first [xchg] on. *)
Definition acquire_spin (n : nat) (l : lockid) : KM unit :=
  do* while n (let* r := xchg l 1 in ret (negb (r =? 0))) (pause Spin) in
  let* k := gets id in
  upd_lock l (λ lk, lk <| lk_cpu := Some (k_cpu k) |>).

Definition acquire (l : lockid) : KM unit :=
  do* pushcli in
  let* h := holding l in
  if h then panic "acquire" else acquire_spin fuel l.

Definition release (l : lockid) : KM unit :=
  let* h := holding l in
  if negb h then panic "release" else
  do* upd_lock l (λ lk, lk <| lk_cpu := None |>) in
  let* _ := xchg l 0 in
  popcli.

End spinlock.

#[global] Arguments cli _ : simpl never.
#[global] Arguments sti _ : simpl never.
#[global] Arguments xchg _ _ _ : simpl never.
#[global] Arguments holding _ _ : simpl never.
#[global] Arguments pushcli _ : simpl never.
#[global] Arguments popcli _ : simpl never.
#[global] Arguments acquire_spin _ _ _ : simpl never.
#[global] Arguments acquire {_} _ _ : simpl never.
#[global] Arguments release _ _ : simpl never.

(** ** Specification *)

(** Interrupts are off while a CPU is inside a [pushcli]. *)
Definition cpu_good (c : cpu) : Prop :=
  0 ≤ ncli c ∧ (0 < ncli c → Z.land (eflags c) FL_IF = 0).

Definition cpu_wf (s : kstate) : Prop :=
  ∃ c, k_cpus s !! k_cpu s = Some c ∧ cpu_good c.

Definition lk_free : spinlock := mkSpinlock 0 None.
Definition lk_held (i : nat) : spinlock := mkSpinlock 1 (Some i).
Definition lock_free (l : lockid) (s : kstate) : Prop := k_locks s !! l = Some lk_free.
Definition lock_held (l : lockid) (s : kstate) : Prop := k_locks s !! l = Some (lk_held (k_cpu s)).

(** Two lists of CPUs that differ at most in the [intena] of CPU [i], which
    is dead while that CPU's nesting depth is zero. *)
Definition cpus_eqv (i : nat) (cs cs' : list cpu) : Prop :=
  ∃ v, cs' = alter (set intena (λ _, v)) i cs ∧
       ∀ c, cs !! i = Some c → 0 < ncli c → v = intena c.

(** What [pushcli] and a balanced [popcli] do to the CPU that runs them. *)
Definition cpu_push (c : cpu) : cpu :=
  c <| eflags ::= λ e, Z.ldiff e FL_IF |> <| ncli ::= λ n, n + 1 |>
    <| intena := if ncli c =? 0 then Z.land (eflags c) FL_IF else intena c |>.
Definition cpu_pushpop (c : cpu) : cpu :=
  c <| intena := if ncli c =? 0 then Z.land (eflags c) FL_IF else intena c |>.

Definition acq (l : lockid) (s : kstate) : kstate :=
  s <| k_cpus ::= alter cpu_push (k_cpu s) |>
    <| k_locks ::= <[l := lk_held (k_cpu s)]> |>.
Definition relcpus (s : kstate) : list cpu := alter cpu_pushpop (k_cpu s) (k_cpus s).

(** ** Lemmas *)

Section cpu_lemmas.
Implicit Types s : kstate.

Lemma get_cpu_eq s c : k_cpus s !! k_cpu s = Some c → get_cpu s = Ret c s.
Proof. intros H. unfold get_cpu, bind; cbn. by rewrite H. Qed.

Lemma upd_cpu_eq f s c :
  k_cpus s !! k_cpu s = Some c →
  upd_cpu f s = Ret tt (s <| k_cpus ::= alter f (k_cpu s) |>).
Proof. intros H. unfold upd_cpu. by rewrite (bind_ret _ _ _ _ _ (get_cpu_eq _ _ H)). Qed.

(** [upd_cpu] of a CPU whose contents are known, as an insertion. *)
Lemma upd_cpu_ins f s c :
  k_cpus s !! k_cpu s = Some c →
  upd_cpu f s = Ret tt (s <| k_cpus := <[k_cpu s := f c]> (k_cpus s) |>).
Proof.
  intros Hc. rewrite (upd_cpu_eq _ _ c) by done. cbn. by rewrite (alter_insert _ _ _ c).
Qed.

Lemma readeflags_eq s c : k_cpus s !! k_cpu s = Some c → readeflags s = Ret (eflags c) s.
Proof. intros Hc. unfold readeflags. by step (get_cpu_eq _ _ Hc). Qed.

Lemma set_cpus_twice s x y : s <| k_cpus := x |> <| k_cpus := y |> = s <| k_cpus := y |>.
Proof. done. Qed.

Lemma lookup_set_cpus s c c' :
  k_cpus s !! k_cpu s = Some c →
  k_cpus (s <| k_cpus := <[k_cpu s := c']> (k_cpus s) |>)
    !! k_cpu (s <| k_cpus := <[k_cpu s := c']> (k_cpus s) |>) = Some c'.
Proof. intros. cbn. apply list_lookup_insert_eq. by eapply lookup_lt_Some. Qed.

Lemma pushcli_eq s c :
  k_cpus s !! k_cpu s = Some c →
  pushcli s = Ret tt (s <| k_cpus ::= alter cpu_push (k_cpu s) |>).
Proof.
  intros Hc. unfold pushcli, cli.
  step (readeflags_eq _ _ Hc). step (upd_cpu_ins (set eflags (λ e, Z.ldiff e FL_IF)) _ _ Hc).
  step (get_cpu_eq _ _ (lookup_set_cpus _ _ _ Hc)).
  step (upd_cpu_ins (set ncli (λ n, n + 1)) _ _ (lookup_set_cpus _ _ _ Hc)). cbn.
  assert (Hl := lookup_lt_Some _ _ _ Hc).
  rewrite list_insert_insert_eq, (alter_insert _ _ _ c) by done.
  destruct (ncli c =? 0) eqn:E; unfold cpu_push; rewrite E.
  - erewrite upd_cpu_ins by (cbn; by apply list_lookup_insert_eq).
    cbn. by rewrite list_insert_insert_eq.
  - by destruct c.
Qed.

Lemma popcli_eq s c c' :
  k_cpus s !! k_cpu s = Some c →
  Z.land (eflags c) FL_IF = 0 → 0 < ncli c →
  c' = (if (ncli c =? 1) && negb (intena c =? 0)
        then c <| ncli ::= λ n, n - 1 |> <| eflags ::= λ e, Z.lor e FL_IF |>
        else c <| ncli ::= λ n, n - 1 |>) →
  popcli s = Ret tt (s <| k_cpus := <[k_cpu s := c']> (k_cpus s) |>).
Proof.
  intros Hc He Hn ->. unfold popcli. step (readeflags_eq _ _ Hc). rewrite He. cbn [negb Z.eqb].
  step (upd_cpu_ins (set ncli (λ n, n - 1)) _ _ Hc).
  step (get_cpu_eq _ _ (lookup_set_cpus _ _ _ Hc)). cbn.
  assert (Hl := lookup_lt_Some _ _ _ Hc).
  replace (ncli c - 1 <? 0) with false by lia.
  replace (ncli c - 1 =? 0) with (ncli c =? 1) by lia.
  destruct (_ && _) eqn:E; [|done].
  unfold sti. erewrite upd_cpu_ins by (cbn; by apply list_lookup_insert_eq).
  cbn. by rewrite list_insert_insert_eq.
Qed.

Lemma ldiff_FL_off e : Z.land e FL_IF = 0 → Z.ldiff e FL_IF = e.
Proof.
  intros H. apply Z.bits_inj'. intros n Hn. rewrite Z.ldiff_spec.
  assert (Hb := f_equal (λ z, Z.testbit z n) H). simpl in Hb.
  rewrite Z.land_spec, Z.bits_0 in Hb. by destruct (Z.testbit e n), (Z.testbit FL_IF n).
Qed.

(** [FL_IF] is a single bit, so a non-zero test of it means it is set. *)
Lemma lor_ldiff_FL_on e : Z.land e FL_IF ≠ 0 → Z.lor (Z.ldiff e FL_IF) FL_IF = e.
Proof.
  intros H. assert (Hbit : Z.testbit e 9 = true).
  { destruct (Z.testbit e 9) eqn:E; [done|]. destruct H. apply Z.bits_inj'. intros n Hn.
    rewrite Z.land_spec, Z.bits_0. change FL_IF with (2 ^ 9).
    rewrite Z.pow2_bits_eqb by lia. destruct (9 =? n) eqn:E9; [|by rewrite andb_false_r].
    apply Z.eqb_eq in E9 as <-. by rewrite E. }
  apply Z.bits_inj'. intros n Hn. rewrite Z.lor_spec, Z.ldiff_spec.
  change FL_IF with (2 ^ 9). rewrite Z.pow2_bits_eqb by lia.
  destruct (9 =? n) eqn:E9; [apply Z.eqb_eq in E9 as <-; by rewrite Hbit|].
  by destruct (Z.testbit e n).
Qed.

(** A [popcli] undoes the [pushcli] before it, up to [intena]. *)
Lemma popcli_push s c :
  k_cpus s !! k_cpu s = Some c → cpu_good c →
  popcli (s <| k_cpus ::= alter cpu_push (k_cpu s) |>) = Ret tt (s <| k_cpus := relcpus s |>).
Proof.
  intros Hc [Hn Hif]. assert (Hl := lookup_lt_Some _ _ _ Hc).
  erewrite (popcli_eq _ (cpu_push c)); [|by apply alter_lookup_eq|apply land_ldiff_same
    |cbn; lia|done]. cbn. unfold relcpus.
  rewrite !(alter_insert _ _ _ c), list_insert_insert_eq by done.
  repeat f_equal. unfold cpu_push, cpu_pushpop. destruct c as [n i e p t0 t1 t2 r]; cbn in *.
  replace (n + 1 - 1) with n by lia. replace (n + 1 =? 1) with (n =? 0) by lia.
  destruct (n =? 0) eqn:En; cbn.
  - destruct (Z.land e FL_IF =? 0) eqn:E; cbn.
    + rewrite ldiff_FL_off; [done|]. by apply Z.eqb_eq.
    + rewrite lor_ldiff_FL_on; [done|]. by apply Z.eqb_neq.
  - rewrite ldiff_FL_off; [done|]. apply Hif. lia.
Qed.
End cpu_lemmas.

Section lock_lemmas.
Context `{kenv}.
Implicit Types (s t : kstate) (l : lockid).

Lemma cpus_eqv_refl i cs : cpus_eqv i cs cs.
Proof.
  destruct (cs !! i) as [c|] eqn:E.
  - exists (intena c). split; [|naive_solver].
    rewrite (alter_insert _ _ _ c) by done.
    rewrite list_insert_id; [done|]. rewrite E. by destruct c.
  - exists 0. split; [|naive_solver].
    symmetry. apply list_eq. intros j. destruct (decide (i = j)) as [->|].
    + by rewrite list_lookup_alter_eq, E.
    + by rewrite list_lookup_alter_ne.
Qed.

Lemma cpus_eqv_trans i cs1 cs2 cs3 :
  cpus_eqv i cs1 cs2 → cpus_eqv i cs2 cs3 → cpus_eqv i cs1 cs3.
Proof.
  intros (v & -> & Hv) (w & -> & Hw). exists w. split.
  - rewrite list_alter_alter_eq. by apply list_alter_ext.
  - intros c Hc Hn. specialize (Hv c Hc Hn) as ->.
    rewrite (alter_lookup_eq _ _ _ c) in Hw by done. by apply (Hw _ eq_refl).
Qed.

#[export] Instance cpus_eqv_preorder i : PreOrder (cpus_eqv i).
Proof. split; [intros ?; apply cpus_eqv_refl|intros ???; apply cpus_eqv_trans]. Qed.

(** Inside a [pushcli], equivalent CPUs are equal. *)
Lemma cpus_eqv_nested i cs cs' c :
  cpus_eqv i cs cs' → cs !! i = Some c → 0 < ncli c → cs' = cs.
Proof.
  intros (v & -> & Hv) Hc Hn. rewrite (Hv c) by done.
  rewrite (alter_insert _ _ _ c) by done. rewrite list_insert_id; [done|].
  rewrite Hc. by destruct c.
Qed.

Lemma cpus_eqv_relcpus s : cpus_eqv (k_cpu s) (k_cpus s) (relcpus s).
Proof.
  unfold relcpus. destruct (k_cpus s !! k_cpu s) as [c|] eqn:E.
  - exists (intena (cpu_pushpop c)). split.
    + by rewrite !(alter_insert _ _ _ c).
    + intros c' [= <-]%(eq_trans (eq_sym E)) Hn. cbn.
      by destruct (ncli c =? 0) eqn:?; [lia|].
  - exists 0. split; [|naive_solver]. apply list_eq. intros j.
    destruct (decide (k_cpu s = j)) as [<-|].
    + by rewrite !list_lookup_alter_eq, E.
    + by rewrite !list_lookup_alter_ne.
Qed.

Lemma cpu_wf_eqv s cs :
  cpu_wf s → cpus_eqv (k_cpu s) (k_cpus s) cs → cpu_wf (s <| k_cpus := cs |>).
Proof.
  intros (c & Hc & Hg) (v & -> & _). exists (c <| intena := v |>). cbn.
  by rewrite (alter_lookup_eq _ _ _ c).
Qed.

(** [cpu_wf] depends on the CPUs only. *)
Lemma cpu_wf_ext s t : k_cpu t = k_cpu s → k_cpus t = k_cpus s → cpu_wf s → cpu_wf t.
Proof. unfold cpu_wf. by intros -> ->. Qed.

Lemma cpu_wf_acq l s : cpu_wf s → cpu_wf (acq l s).
Proof.
  intros (c & Hc & Hn & Hf). exists (cpu_push c). cbn. split.
  - by rewrite (alter_lookup_eq _ _ _ c).
  - split; cbn; [lia|]. intros _. apply land_ldiff_same.
Qed.

Lemma acquire_spin_free n l s :
  lock_free l s →
  acquire_spin (S n) l s = Ret tt (s <| k_locks ::= <[l := lk_held (k_cpu s)]> |>).
Proof.
  intros Hl. unfold acquire_spin.
  erewrite bind_ret; [|apply while_done; unfold xchg, bind; cbn; by rewrite Hl].
  unfold bind, upd_lock, modify; cbn. by rewrite lookup_insert_eq, insert_insert_eq.
Qed.

Lemma holding_eq l s lk :
  k_locks s !! l = Some lk →
  holding l s = Ret (negb (locked lk =? 0) && bool_decide (lk_cpu lk = Some (k_cpu s))) s.
Proof. intros Hl. unfold holding, bind; cbn. by rewrite Hl. Qed.

Lemma acquire_free l s :
  cpu_wf s → lock_free l s → acquire l s = Ret tt (acq l s).
Proof.
  intros (c & Hc & _) Hl. unfold acquire. step (pushcli_eq _ _ Hc).
  step (holding_eq _ _ lk_free); [|done]. unfold fuel. cbn. by rewrite acquire_spin_free.
Qed.

(** The state in which [release] ends, for any change of the rest of the
    state made while the lock was held. *)
Lemma release_acq l s t :
  cpu_wf s → lock_free l s →
  k_cpu t = k_cpu s → k_cpus t = k_cpus (acq l s) → k_locks t = k_locks (acq l s) →
  release l t = Ret tt (t <| k_cpus := relcpus s |> <| k_locks := k_locks s |>).
Proof.
  intros (c & Hc & Hg) Hl Hi Hcs Hls. unfold release.
  assert (Ht : k_locks t !! l = Some (lk_held (k_cpu s)))
    by (rewrite Hls; apply lookup_insert_eq).
  step (holding_eq _ _ _ Ht). cbn. rewrite Hi, bool_decide_true by done.
  unfold bind, xchg, upd_lock, modify; cbn. rewrite Ht. cbn.
  set (t1 := t <| k_locks := k_locks s |> <| k_cpus := k_cpus s |>).
  transitivity (popcli (t1 <| k_cpus ::= alter cpu_push (k_cpu t1) |>)).
  - f_equal. destruct t; unfold t1; cbn in *. subst. f_equal.
    rewrite lookup_insert_eq, !insert_insert_eq. cbn. by rewrite insert_id.
  - rewrite (popcli_push t1 c) by (unfold t1; cbn; by rewrite ?Hi).
    unfold t1, relcpus; cbn. by rewrite Hi.
Qed.

(** [release] of a lock this CPU holds, from any nesting depth. *)
Definition cpu_pop (c : cpu) : cpu :=
  if (ncli c =? 1) && negb (intena c =? 0)
  then c <| ncli ::= λ n, n - 1 |> <| eflags ::= λ e, Z.lor e FL_IF |>
  else c <| ncli ::= λ n, n - 1 |>.

Lemma release_held l s c :
  lock_held l s → k_cpus s !! k_cpu s = Some c → Z.land (eflags c) FL_IF = 0 → 0 < ncli c →
  release l s = Ret tt (s <| k_locks ::= <[l := lk_free]> |>
                          <| k_cpus := <[k_cpu s := cpu_pop c]> (k_cpus s) |>).
Proof.
  intros Hl Hc He Hn. unfold release. step (holding_eq _ _ _ Hl). cbn.
  rewrite bool_decide_true by done. unfold bind, xchg, upd_lock, modify; cbn. rewrite Hl. cbn.
  rewrite lookup_insert_eq, !insert_insert_eq. cbn. by rewrite (popcli_eq _ c (cpu_pop c)).
Qed.

(** [acquire] of a free lock inside another lock leaves the CPU's saved
    interrupt flag alone. *)
Lemma cpu_push_nested c :
  0 < ncli c → Z.land (eflags c) FL_IF = 0 → cpu_push c = c <| ncli ::= λ n, n + 1 |>.
Proof.
  intros Hn He. destruct c; unfold cpu_push; cbn in *. rewrite ldiff_FL_off by done.
  by case_match; [lia|].
Qed.
End lock_lemmas.

(** ** Mutual exclusion *)

(** What a CPU is doing with lock [l]: nothing, spinning in [acquire] with
    the given rest of the call, or running its critical section. *)
Inductive phase :=
| Outside
| Trying (k : kstate → outcome kstate unit)
| Inside.

Section mutex.
Context `{kenv} (l : lockid).

Definition config : Type := kstate * (nat → phase).
Definition set_phase (ph : nat → phase) (i : nat) (x : phase) : nat → phase :=
  λ j, if decide (j = i) then x else ph j.

(** CPU [i] starts or resumes [acquire], calls [release], or changes the
    state in a way that leaves the lock alone. *)
Inductive lstep : config → config → Prop :=
| lstep_enter s ph i s' :
    ph i = Outside → acquire l (s <| k_cpu := i |>) = Ret tt s' →
    lstep (s, ph) (s', set_phase ph i Inside)
| lstep_spin s ph i s' k :
    ph i = Outside → acquire l (s <| k_cpu := i |>) = Wait Spin s' k →
    lstep (s, ph) (s', set_phase ph i (Trying k))
| lstep_enter_late s ph i s' k :
    ph i = Trying k → k (s <| k_cpu := i |>) = Ret tt s' →
    lstep (s, ph) (s', set_phase ph i Inside)
| lstep_spin_more s ph i s' k k' :
    ph i = Trying k → k (s <| k_cpu := i |>) = Wait Spin s' k' →
    lstep (s, ph) (s', set_phase ph i (Trying k'))
| lstep_leave s ph i s' :
    ph i = Inside → release l (s <| k_cpu := i |>) = Ret tt s' →
    lstep (s, ph) (s', set_phase ph i Outside)
| lstep_other s ph s' :
    k_locks s' !! l = k_locks s !! l → lstep (s, ph) (s', ph).

Definition reachable_from (s : kstate) : config → Prop :=
  rtc lstep (s, λ _, Outside).

(** The lock word is the record of who is inside. *)
Definition mutex_inv (c : config) : Prop :=
  (k_locks c.1 !! l = Some lk_free ∧ (∀ i, c.2 i ≠ Inside) ∨
   ∃ j, k_locks c.1 !! l = Some (lk_held j) ∧ ∀ i, c.2 i = Inside ↔ i = j) ∧
  ∀ i k, c.2 i = Trying k → ∃ n, ∀ t, k t = acquire_spin n l t.

Lemma acquire_spin_busy n s j :
  k_locks s !! l = Some (lk_held j) →
  acquire_spin (S n) l s = Wait Spin s (acquire_spin n l).
Proof.
  intros Hl. unfold acquire_spin, bind, xchg, upd_lock, modify; cbn. rewrite Hl. cbn.
  rewrite insert_id by done. by destruct s.
Qed.

Lemma acquire_inv s o :
  acquire l s = o →
  o = Undef "cpu" ∨ (∃ m s', o = Panic m s') ∨
  ∃ s1, k_cpu s1 = k_cpu s ∧ k_locks s1 = k_locks s ∧ o = acquire_spin fuel l s1.
Proof.
  intros <-. unfold acquire. destruct (k_cpus s !! k_cpu s) as [c|] eqn:Hc.
  - right. step (pushcli_eq _ _ Hc). unfold bind at 1, holding, bind. cbn.
    destruct (_ && _); [left; eauto|right]. by exists (s <| k_cpus ::= alter cpu_push (k_cpu s) |>).
  - left. unfold pushcli, readeflags, get_cpu, bind; cbn. by rewrite Hc.
Qed.

Lemma popcli_locks s s' : popcli s = Ret tt s' → k_locks s' = k_locks s.
Proof.
  unfold popcli, readeflags, upd_cpu, get_cpu, bind; cbn.
  destruct (k_cpus s !! k_cpu s) as [c|] eqn:Hc; [|done]. cbn.
  destruct (negb _); [done|]. rewrite Hc. cbn.
  rewrite (alter_lookup_eq _ _ _ c) by done. cbn.
  destruct (_ <? 0); [done|]. destruct (_ && _); [|by intros [= <-]].
  unfold sti, upd_cpu, get_cpu, bind; cbn.
  rewrite (alter_lookup_eq _ _ _ c) by done. by intros [= <-].
Qed.

Lemma release_locks s s' :
  lock_held l s → release l s = Ret tt s' → k_locks s' !! l = Some lk_free.
Proof.
  intros Hl. unfold release. step (holding_eq _ _ _ Hl). cbn.
  rewrite bool_decide_true by done. unfold bind, xchg, upd_lock, modify; cbn.
  rewrite Hl. cbn. intros ->%popcli_locks. cbn.
  by rewrite !lookup_insert_eq.
Qed.

(** One attempt of CPU [i] on the lock word, from a state of the invariant. *)
Lemma acquire_spin_step n s ph i :
  mutex_inv (s, ph) → k_cpu s = i → ph i ≠ Inside →
  (∀ s', acquire_spin n l s = Ret tt s' → mutex_inv (s', set_phase ph i Inside)) ∧
  (∀ s' k, acquire_spin n l s = Wait Spin s' k → mutex_inv (s', set_phase ph i (Trying k))).
Proof.
  intros [Hl Hk] <- Hi. destruct n as [|n]; [done|].
  destruct Hl as [[Hl Hn]|(j & Hl & Hj)]; cbn in Hl.
  - rewrite acquire_spin_free by done. split; [|done]. intros s' [= <-]. split.
    + right. exists (k_cpu s). cbn. rewrite lookup_insert_eq. split; [done|].
      intros i. unfold set_phase. case_decide; naive_solver.
    + intros i k. cbn. unfold set_phase. case_decide; naive_solver.
  - rewrite (acquire_spin_busy _ _ j) by done. split; [done|]. intros s' k [= <- <-]. split.
    + right. exists j. split; [done|]. intros i. cbn in *. unfold set_phase.
      case_decide; naive_solver.
    + intros i k. cbn in *. unfold set_phase. case_decide; naive_solver.
Qed.

Lemma mutex_inv_cpu s t ph :
  k_locks t !! l = k_locks s !! l → mutex_inv (s, ph) → mutex_inv (t, ph).
Proof. unfold mutex_inv. cbn. by intros ->. Qed.

Lemma mutex_inv_step c c' : mutex_inv c → lstep c c' → mutex_inv c'.
Proof.
  intros Hinv Hstep. destruct Hstep as [s ph i s' Hi Ha|s ph i s' k Hi Ha|s ph i s' k Hi Ha
    |s ph i s' k k' Hi Ha|s ph i s' Hi Ha|s ph s' Hl].
  - apply acquire_inv in Ha as [?|[(?&?&?)|(s1 & Hc & Hs & Ha)]]; try done.
    symmetry in Ha. eapply (acquire_spin_step fuel s1); [|done|by rewrite Hi|done].
    eapply mutex_inv_cpu, Hinv. by rewrite Hs.
  - apply acquire_inv in Ha as [?|[(?&?&?)|(s1 & Hc & Hs & Ha)]]; try done.
    symmetry in Ha. eapply (acquire_spin_step fuel s1); [|done|by rewrite Hi|done].
    eapply mutex_inv_cpu, Hinv. by rewrite Hs.
  - destruct (proj2 Hinv i k Hi) as [n Hn]. rewrite Hn in Ha.
    eapply (acquire_spin_step n (s <| k_cpu := i |>)); [|done|by rewrite Hi|done].
    by eapply mutex_inv_cpu, Hinv.
  - destruct (proj2 Hinv i k Hi) as [n Hn]. rewrite Hn in Ha.
    eapply (acquire_spin_step n (s <| k_cpu := i |>)); [|done|by rewrite Hi|done].
    by eapply mutex_inv_cpu, Hinv.
  - destruct Hinv as [[[_ Hn]|(j & Hl & Hj)] Hk]; [by edestruct Hn|]. cbn in *.
    apply Hj in Hi as Hij. subst j. apply release_locks in Ha; [|done]. split; cbn.
    + left. split; [done|]. intros j. unfold set_phase. case_decide; naive_solver.
    + intros j k. unfold set_phase. case_decide; naive_solver.
  - by eapply mutex_inv_cpu, Hinv.
Qed.

Lemma mutex_inv_reachable s c : lock_free l s → reachable_from s c → mutex_inv c.
Proof.
  intros Hs Hr. assert (mutex_inv (s, λ _, Outside)) as Hinv.
  { split; [left; cbn; naive_solver|done]. }
  induction Hr; eauto using mutex_inv_step.
Qed.
End mutex.

(** ** Properties *)

(** [pushcli] and [popcli] around [c], [n] times. *)
Fixpoint nested_cli (n : nat) (c : KM unit) : KM unit :=
  match n with
  | O => c
  | S n => do* pushcli in do* nested_cli n c in popcli
  end.

(** [n] nested [pushcli]/[popcli] pairs return and leave the nesting depth
    and the interrupt flag of the CPU as they were, whether interrupts were on
    or off before: only the saved [intena] may differ, and only when the depth
    is zero, where it is dead. *)
Theorem nested_cli_restores n s :
  cpu_wf s →
  returns (nested_cli n (ret tt)) s
    (λ _ s', ∃ cs, cpus_eqv (k_cpu s) (k_cpus s) cs ∧ s' = s <| k_cpus := cs |>).
Proof.
  revert s. induction n as [|n IH]; intros s (c & Hc & Hg); cbn.
  - apply returns_ret. exists (k_cpus s). split; [apply cpus_eqv_refl|by destruct s].
  - set (s1 := s <| k_cpus ::= alter cpu_push (k_cpu s) |>).
    assert (Hs1 : k_cpus s1 !! k_cpu s1 = Some (cpu_push c)) by (by apply alter_lookup_eq).
    apply returns_bind. eapply returns_eq; [by eapply pushcli_eq|]. fold s1.
    apply returns_bind. eapply returns_mono; [apply IH|].
    { exists (cpu_push c). split; [done|]. split; cbn; [destruct Hg; lia|].
      intros _. apply land_ldiff_same. }
    intros _ s2 (cs & Hcs & ->).
    rewrite (cpus_eqv_nested _ _ _ _ Hcs Hs1) by (destruct Hg; cbn; lia).
    eapply returns_eq.
    + transitivity (popcli s1); [by destruct s|by eapply popcli_push].
    + exists (relcpus s). split; [apply cpus_eqv_relcpus|done].
Qed.

(** A CPU with interrupts on and every lock initialised. *)
Definition all_locks : list lockid :=
  [LkPtable; LkKmem; LkBcache; LkIcache; LkFtable; LkLog; LkTicks; LkCons; LkInput; LkIde].
Definition boot_state : kstate :=
  kstate_zero <| k_locks := list_to_map ((λ l, (l, lk_free)) <$> all_locks) |>
              <| k_cpus := replicate NCPU (mkCpu 0 0 FL_IF None 0 0 0 0) |>.

Lemma boot_cpu_wf : cpu_wf boot_state.
Proof. exists (mkCpu 0 0 FL_IF None 0 0 0 0). split; [done|]. split; cbn; lia. Qed.

Lemma nested_cli_restores_witness :
  returns (nested_cli 3 (ret tt)) boot_state
    (λ _ s', ∃ cs, cpus_eqv 0 (k_cpus boot_state) cs ∧ s' = boot_state <| k_cpus := cs |>).
Proof. apply (nested_cli_restores 3 boot_state), boot_cpu_wf. Defined.

Section props.
Context `{kenv}.

(** [acquire] of a free lock followed by [release] returns without
    spinning; in between the lock word records this CPU and interrupts are
    off; afterwards all locks, the nesting depth and the interrupt flag are
    as before. *)
Theorem acquire_release_restores l s :
  cpu_wf s → lock_free l s →
  returns (acquire l) s (λ _ t, lock_held l t ∧
    (∃ c, k_cpus t !! k_cpu t = Some c ∧ Z.land (eflags c) FL_IF = 0) ∧
    returns (release l) t (λ _ s', ∃ cs,
      cpus_eqv (k_cpu s) (k_cpus s) cs ∧ s' = s <| k_cpus := cs |>)).
Proof.
  intros Hc Hl. eapply returns_eq; [by apply acquire_free|]. split; [|split].
  - unfold lock_held. cbn. by rewrite lookup_insert_eq.
  - destruct Hc as (c & Hc & _). exists (cpu_push c). cbn.
    rewrite (alter_lookup_eq _ _ _ c) by done. split; [done|apply land_ldiff_same].
  - eapply returns_eq; [by apply (release_acq l s)|].
    exists (relcpus s). split; [apply cpus_eqv_relcpus|by destruct s].
Qed.

(** taking a lock the CPU already holds panics with "acquire", and
    releasing a lock it does not hold panics with "release", instead of
    deadlocking or unlocking someone else's critical section. *)
Theorem lock_misuse_panics l s :
  (∃ c, k_cpus s !! k_cpu s = Some c) →
  (lock_held l s → ∃ t, acquire l s = Panic "acquire" t) ∧
  (∀ lk, k_locks s !! l = Some lk → lk_cpu lk ≠ Some (k_cpu s) →
    release l s = Panic "release" s).
Proof.
  intros (c & Hc). split.
  - intros Hl. unfold acquire. step (pushcli_eq _ _ Hc).
    step (holding_eq l _ (lk_held (k_cpu s))); [|exact Hl].
    cbn. rewrite bool_decide_true by done. by eexists.
  - intros lk Hl Hne. unfold release. step (holding_eq _ _ _ Hl).
    by rewrite bool_decide_false, andb_false_r.
Qed.

End props.

Lemma acquire_release_restores_witness :
  returns (acquire (H := kenv_example) LkLog) boot_state (λ _ t, lock_held LkLog t ∧
      (∃ c, k_cpus t !! k_cpu t = Some c ∧ Z.land (eflags c) FL_IF = 0) ∧
      returns (release LkLog) t (λ _ s', ∃ cs,
        cpus_eqv 0 (k_cpus boot_state) cs ∧ s' = boot_state <| k_cpus := cs |>)).
Proof.
  apply (acquire_release_restores (H := kenv_example) LkLog boot_state);
    [apply boot_cpu_wf|reflexivity].
Defined.

Lemma lock_misuse_panics_witness :
  (lock_held LkLog boot_state → ∃ t, acquire (H := kenv_example) LkLog boot_state = Panic "acquire" t) ∧
  release LkLog boot_state = Panic "release" boot_state.
Proof.
  split.
  - apply (lock_misuse_panics (H := kenv_example) LkLog boot_state). eexists; reflexivity.
  - eapply (lock_misuse_panics (H := kenv_example) LkLog boot_state);
      [eexists; reflexivity|reflexivity|discriminate].
Defined.

