(* ===== verification/Str.v ===== *)
(** Byte memory and string.c.

    [memset] and [memmove] are modelled on byte-addressed memory, where their
    source and destination may overlap.  The routines on C strings and arrays
    ([memcmp], [strncmp], [strncpy], [safestrcpy], [strlen]) take arrays as
    lists of bytes, with [None] for an access outside the array. *)
From stdpp Require Import base numbers gmap strings option list.
From S2P Require Import Prelude.

(** ** Bytes and words of memory *)

Definition ldb (m : gmap Z Z) (a : Z) : Z := default 0 (m !! a).
Definition stb (m : gmap Z Z) (a v : Z) : gmap Z Z := <[a := u8 v]> m.

(** Little-endian 32-bit loads and stores. *)
Definition ld32 (m : gmap Z Z) (a : Z) : Z :=
  ldb m a + 2 ^ 8 * ldb m (a + 1) + 2 ^ 16 * ldb m (a + 2) + 2 ^ 24 * ldb m (a + 3).
Definition st32 (m : gmap Z Z) (a v : Z) : gmap Z Z :=
  stb (stb (stb (stb m a v) (a + 1) (Z.shiftr v 8)) (a + 2) (Z.shiftr v 16))
    (a + 3) (Z.shiftr v 24).

(** ** x86.h: rep stosb, rep stosl *)

Fixpoint stosb (m : gmap Z Z) (addr data : Z) (cnt : nat) : gmap Z Z :=
  match cnt with
  | O => m
  | S cnt => stosb (stb m addr data) (addr + 1) data cnt
  end.

Fixpoint stosl (m : gmap Z Z) (addr data : Z) (cnt : nat) : gmap Z Z :=
  match cnt with
  | O => m
  | S cnt => stosl (st32 m addr data) (addr + 4) data cnt
  end.

(** ** string.c on memory *)

Definition memset (m : gmap Z Z) (dst c n : Z) : gmap Z Z :=
  if (Z.rem (s32 dst) 4 =? 0) && (n mod 4 =? 0) then
    let c := Z.land c 0xFF in
    stosl m dst
      (Z.lor (Z.lor (Z.lor (Z.shiftl c 24) (Z.shiftl c 16)) (Z.shiftl c 8)) c)
      (Z.to_nat (n / 4))
  else stosb m dst c (Z.to_nat n).

(** The two loops of [memmove]: downwards from the ends, and upwards. *)
Fixpoint memmove_down (m : gmap Z Z) (d s : Z) (n : nat) : gmap Z Z :=
  match n with
  | O => m
  | S n => memmove_down (stb m (d - 1) (ldb m (s - 1))) (d - 1) (s - 1) n
  end.

Fixpoint memmove_up (m : gmap Z Z) (d s : Z) (n : nat) : gmap Z Z :=
  match n with
  | O => m
  | S n => memmove_up (stb m d (ldb m s)) (d + 1) (s + 1) n
  end.

Definition memmove (m : gmap Z Z) (dst src n : Z) : gmap Z Z :=
  if (src <? dst) && (dst <? src + n)
  then memmove_down m (dst + n) (src + n) (Z.to_nat n)
  else memmove_up m dst src (Z.to_nat n).

(** ** string.c on arrays *)

Fixpoint memcmp (v1 v2 : list Z) (n : nat) {struct n} : option Z :=
  match n with
  | O => Some 0
  | S n =>
      match v1, v2 with
      | a :: v1, b :: v2 => if negb (a =? b) then Some (a - b) else memcmp v1 v2 n
      | _, _ => None
      end
  end.

Fixpoint strncmp (p q : list Z) (n : nat) {struct n} : option Z :=
  match n with
  | O => Some 0
  | S n' =>
      match p with
      | [] => None
      | a :: p' =>
          if a =? 0 then b ← head q; Some (u8 a - u8 b)
          else b ← head q;
               if a =? b then strncmp p' (tail q) n' else Some (u8 a - u8 b)
      end
  end.

(** [while(n-- > 0 && ( *s++ = *t++) != 0)], then [while(n-- > 0) *s++ = 0]. *)
Fixpoint strncpy (s t : list Z) (n : nat) {struct n} : option (list Z) :=
  match n with
  | O => Some s
  | S n =>
      match s, t with
      | _ :: s, c :: t =>
          if c =? 0
          then if decide (n ≤ length s)%nat then Some (0 :: replicate n 0 ++ drop n s) else None
          else cons c <$> strncpy s t n
      | _, _ => None
      end
  end.

(** The loop of [safestrcpy] with [n] bytes of room left, [n > 0]. *)
Fixpoint safestrcpy_loop (s t : list Z) (n : nat) {struct n} : option (list Z) :=
  match n with
  | O => None
  | S O => match s with _ :: s => Some (0 :: s) | [] => None end
  | S n =>
      match s, t with
      | _ :: s, c :: t =>
          if c =? 0
          then match s with _ :: s => Some (0 :: 0 :: s) | [] => None end
          else cons c <$> safestrcpy_loop s t n
      | _, _ => None
      end
  end.

Definition safestrcpy (s t : list Z) (n : Z) : option (list Z) :=
  if n <=? 0 then Some s else safestrcpy_loop s t (Z.to_nat n).

Fixpoint strlen (s : list Z) : option Z :=
  match s with
  | [] => None
  | c :: s => if c =? 0 then Some 0 else Z.succ <$> strlen s
  end.

(** ** Lemmas on memory *)

Lemma ldb_stb_eq m a v : ldb (stb m a v) a = u8 v.
Proof. unfold ldb, stb. by rewrite lookup_insert_eq. Qed.

Lemma ldb_stb_ne m a b v : a ≠ b → ldb (stb m a v) b = ldb m b.
Proof. intros. unfold ldb, stb. by rewrite lookup_insert_ne. Qed.

Lemma ldb_stb m a b v : ldb (stb m a v) b = if decide (a = b) then u8 v else ldb m b.
Proof. case_decide; [subst; apply ldb_stb_eq|by apply ldb_stb_ne]. Qed.

Lemma u8_u8 x : u8 (u8 x) = u8 x.
Proof. unfold u8. by rewrite Z.mod_mod. Qed.

Lemma ldb_st32_ne m a b v : ¬ (a ≤ b < a + 4) → ldb (st32 m a v) b = ldb m b.
Proof. intros. unfold st32. by rewrite !ldb_stb_ne by lia. Qed.

Lemma ld32_st32_eq m a v : ld32 (st32 m a v) a = u32 v.
Proof.
  unfold ld32, st32. rewrite !ldb_stb.
  repeat (case_decide; [try lia|try lia]).
  rewrite !Z.shiftr_div_pow2 by lia. unfold u8, u32. lia.
Qed.

Lemma ld32_st32_ne m a b v : b + 4 ≤ a ∨ a + 4 ≤ b → ld32 (st32 m a v) b = ld32 m b.
Proof. intros. unfold ld32. by rewrite !ldb_st32_ne by lia. Qed.

Lemma ldb_stosb m a c n b :
  ldb (stosb m a c n) b = if decide (a ≤ b < a + n) then u8 c else ldb m b.
Proof.
  revert m a. induction n as [|n IH]; intros m a; cbn [stosb].
  - by rewrite decide_False by lia.
  - rewrite IH, ldb_stb. repeat case_decide; subst; (done || lia).
Qed.

(** The word stored by the fast path of [memset] has the byte [c] four times. *)
Lemma memset_word_bytes c i :
  0 ≤ c < 256 → i = 0 ∨ i = 8 ∨ i = 16 ∨ i = 24 →
  u8 (Z.shiftr (Z.lor (Z.lor (Z.lor (Z.shiftl c 24) (Z.shiftl c 16)) (Z.shiftl c 8)) c) i) = c.
Proof.
  intros Hc Hi.
  assert (Hall : forallb (λ c : Z, forallb (λ i,
    u8 (Z.shiftr (Z.lor (Z.lor (Z.lor (Z.shiftl c 24) (Z.shiftl c 16)) (Z.shiftl c 8)) c) i) =? c)
    [0; 8; 16; 24]) (Z.of_nat <$> seq 0 256) = true) by (vm_compute; reflexivity).
  rewrite forallb_forall in Hall. specialize (Hall c).
  rewrite forallb_forall in Hall. apply Z.eqb_eq, Hall; [|naive_solver].
  apply list_elem_of_In, list_elem_of_fmap. exists (Z.to_nat c).
  rewrite elem_of_seq. lia.
Qed.

Lemma ldb_stosl m a w c n b :
  (∀ i, i = 0 ∨ i = 8 ∨ i = 16 ∨ i = 24 → u8 (Z.shiftr w i) = c) →
  ldb (stosl m a w n) b = if decide (a ≤ b < a + 4 * n) then c else ldb m b.
Proof.
  intros Hw. revert m a. induction n as [|n IH]; intros m a; cbn [stosl].
  - by rewrite decide_False by lia.
  - rewrite IH. unfold st32.
    assert (Hw0 := Hw 0 ltac:(lia)). rewrite Z.shiftr_0_r in Hw0.
    rewrite !ldb_stb, !Hw, Hw0 by lia.
    repeat case_decide; (done || lia).
Qed.

(** [memset] fills exactly [n] bytes, on the word path and on the byte path. *)
Lemma ldb_memset m dst c n a :
  0 ≤ n → ldb (memset m dst c n) a = if decide (dst ≤ a < dst + n) then u8 c else ldb m a.
Proof.
  intros Hn. unfold memset. destruct (_ && _) eqn:E.
  - apply andb_true_iff in E as [_ E]. apply Z.eqb_eq in E.
    assert (Hc : Z.land c 0xFF = u8 c) by (change 0xFF with (Z.ones 8); by rewrite Z.land_ones).
    rewrite (ldb_stosl _ _ _ (u8 c)).
    + replace (4 * Z.to_nat (n / 4)) with n by lia. done.
    + intros i Hi. rewrite Hc. apply memset_word_bytes; [unfold u8; lia|done].
  - rewrite ldb_stosb. by rewrite Z2Nat.id by lia.
Qed.

Lemma ldb_memmove_up m d s (n : nat) a :
  (s < d → s + n ≤ d) →
  ldb (memmove_up m d s n) a =
    if decide (d ≤ a < d + n) then u8 (ldb m (s + (a - d))) else ldb m a.
Proof.
  revert m d s. induction n as [|n IH]; intros m d s Hds; cbn [memmove_up].
  - by rewrite decide_False by lia.
  - rewrite IH by lia. repeat case_decide; try lia.
    + rewrite ldb_stb_ne by lia. do 2 f_equal; lia.
    + assert (a = d) as -> by lia. rewrite ldb_stb_eq. do 2 f_equal; lia.
    + by rewrite ldb_stb_ne by lia.
Qed.

Lemma ldb_memmove_down m d s (n : nat) a :
  s < d →
  ldb (memmove_down m d s n) a =
    if decide (d - n ≤ a < d) then u8 (ldb m (s + (a - d))) else ldb m a.
Proof.
  revert m d s. induction n as [|n IH]; intros m d s Hds; cbn [memmove_down].
  - by rewrite decide_False by lia.
  - rewrite IH by lia. repeat case_decide; try lia.
    + rewrite ldb_stb_ne by lia. do 2 f_equal; lia.
    + assert (a = d - 1) as -> by lia. rewrite ldb_stb_eq. do 2 f_equal; lia.
    + by rewrite ldb_stb_ne by lia.
Qed.

(** [memmove] copies the [n] bytes that were at [src] before the call to
    [dst] and changes nothing else, for every overlap of the two ranges: the
    choice of direction never reads a byte it has already overwritten. *)
Theorem memmove_correct m dst src n a :
  0 ≤ n →
  ldb (memmove m dst src n) a =
    if decide (dst ≤ a < dst + n) then u8 (ldb m (src + (a - dst))) else ldb m a.
Proof.
  intros Hn. unfold memmove. destruct (_ && _) eqn:E.
  - rewrite ldb_memmove_down by lia. rewrite Z2Nat.id by lia.
    repeat case_decide; (done || lia || (do 2 f_equal; lia)).
  - rewrite ldb_memmove_up by lia. by rewrite Z2Nat.id by lia.
Qed.

(** An overlapping move one byte up: a loop in the other direction would smear. *)
Lemma memmove_correct_witness :
  ldb (memmove (list_to_map [(10, 1); (11, 2); (12, 3)]) 11 10 3) 13 = 3.
Proof. rewrite (memmove_correct _ 11 10 3 13); [reflexivity|lia]. Defined.

(** ** Lemmas on arrays *)

(** The C string in an array: the bytes before its first NUL. *)
Fixpoint cstr (s : list Z) : list Z :=
  match s with
  | [] => []
  | c :: s => if c =? 0 then [] else c :: cstr s
  end.

Lemma strlen_cstr s n : strlen s = Some n → n = length (cstr s).
Proof.
  revert n. induction s as [|c s IH]; intros n; cbn; [done|].
  destruct (c =? 0); [by intros [= <-]|].
  destruct (strlen s) as [m|]; [|done]. intros Hn. simplify_eq/=.
  specialize (IH m eq_refl). lia.
Qed.

Lemma strlen_Some s : 0 ∈ s → is_Some (strlen s).
Proof.
  induction s as [|c s IH]; [by intros ?%elem_of_nil|]. intros [<-|Hin]%elem_of_cons; [by eexists|].
  cbn. destruct (c =? 0); [by eexists|]. destruct (IH Hin) as [n ->]. by eexists.
Qed.

Lemma safestrcpy_loop_spec s t n :
  (0 < n)%nat → (n ≤ length s)%nat → (n ≤ length t)%nat ∨ 0 ∈ t →
  ∃ s', safestrcpy_loop s t n = Some s' ∧ length s' = length s ∧
    cstr s' = take (n - 1) (cstr t) ∧ drop n s' = drop n s ∧ 0 ∈ take n s'.
Proof.
  revert s t. induction n as [|n IH]; intros s t Hn Hs Ht; [lia|].
  destruct n as [|n].
  - destruct s as [|b s]; cbn in *; [lia|]. exists (0 :: s). cbn.
    split_and!; try done. set_solver.
  - destruct s as [|b s]; [cbn in *; lia|]. destruct t as [|c t].
    { destruct Ht as [|?%elem_of_nil]; [cbn in *; lia|done]. }
    change (safestrcpy_loop (b :: s) (c :: t) (S (S n))) with
      (if c =? 0 then match s with _ :: s => Some (0 :: 0 :: s) | [] => None end
       else cons c <$> safestrcpy_loop s t (S n)).
    destruct (c =? 0) eqn:Ec.
    + destruct s as [|b' s]; [cbn in *; lia|]. eexists. split; [done|].
      cbn. rewrite Ec. split_and!; try done. set_solver.
    + destruct (IH s t) as (s' & Hs' & Hl & Hc & Hd & H0); [lia|cbn in *; lia| |].
      { destruct Ht as [|[<-|]%elem_of_cons]; [left; cbn in *; lia|done|by right]. }
      rewrite Hs'. eexists. split; [done|]. cbn. rewrite Ec, Hc, Hl, Hd.
      split_and!; try done; [|set_solver]. by destruct n.
Qed.

(** [safestrcpy] into a buffer of [n] bytes always leaves a NUL within
    those [n] bytes, copies the source string or its longest prefix that
    fits, and does not touch the bytes after the buffer. *)
Theorem safestrcpy_correct s t n :
  0 < n ≤ length s → n ≤ length t ∨ 0 ∈ t →
  ∃ s', safestrcpy s t n = Some s' ∧ length s' = length s ∧
    cstr s' = take (Z.to_nat n - 1) (cstr t) ∧
    drop (Z.to_nat n) s' = drop (Z.to_nat n) s ∧ 0 ∈ take (Z.to_nat n) s'.
Proof.
  intros Hn Ht. unfold safestrcpy. replace (n <=? 0) with false by lia.
  apply safestrcpy_loop_spec; [lia|lia|]. destruct Ht; [left; lia|by right].
Qed.

Lemma safestrcpy_correct_witness :
  ∃ s', safestrcpy [9; 9; 9; 9; 7] [1; 2; 3; 4; 5; 0] 4 = Some s' ∧ length s' = 5%nat ∧
    cstr s' = [1; 2; 3] ∧ drop 4 s' = [7] ∧ 0 ∈ take 4 s'.
Proof.
  apply (safestrcpy_correct [9; 9; 9; 9; 7] [1; 2; 3; 4; 5; 0] 4); [cbn; lia|left; cbn; lia].
Defined.

(** [strncmp] and [memcmp]-style comparison of names: zero exactly when the
    strings agree up to their NUL or up to [n] bytes. *)
Lemma strncmp_zero p q n r :
  Forall (λ b, 0 ≤ b < 256) p → Forall (λ b, 0 ≤ b < 256) q →
  strncmp p q n = Some r → (r = 0 ↔ take n (cstr p) = take n (cstr q)).
Proof.
  revert q n. induction p as [|a p IH]; intros q n Hp Hq; destruct n as [|n]; cbn;
    try (intros [= <-]; by rewrite ?take_0).
  inv Hp. destruct q as [|b q].
  { by destruct (a =? 0). }
  inv Hq. assert (Hu : ∀ x, 0 ≤ x < 256 → u8 x = x) by (intros; unfold u8; lia). cbn.
  destruct (a =? 0) eqn:Ea.
  - intros [= <-]. rewrite !Hu by done. destruct (b =? 0) eqn:Eb; cbn.
    + split; [done|]. intros _. lia.
    + split; [lia|done].
  - destruct (a =? b) eqn:Eab.
    + intros Hr. replace (b =? 0) with false by lia. cbn.
      rewrite (IH q n) by done. assert (a = b) as -> by lia.
      split; [by intros ->|by intros [= ?]].
    + intros [= <-]. rewrite !Hu by done.
      destruct (b =? 0) eqn:Eb; cbn; split; try lia; try done. intros [= ?]; lia.
Qed.

Lemma strncpy_spec s t n :
  (n ≤ length s)%nat → (n ≤ length t)%nat ∨ 0 ∈ t →
  ∃ s', strncpy s t n = Some s' ∧ length s' = length s ∧
    take n s' = take n (cstr t ++ replicate n 0) ∧ drop n s' = drop n s.
Proof.
  revert s t. induction n as [|n IH]; intros s t Hs Ht; [by exists s|].
  destruct s as [|b s]; [cbn in *; lia|]. destruct t as [|c t].
  { destruct Ht as [|?%elem_of_nil]; [cbn in *; lia|done]. }
  cbn [strncpy]. destruct (c =? 0) eqn:Ec.
  - cbn in *. rewrite decide_True by lia. eexists. split; [done|]. rewrite Ec. cbn.
    rewrite length_app, length_replicate, length_drop. split_and!; [lia| |].
    + rewrite take_app_le by (rewrite length_replicate; lia). by rewrite take_ge by (by rewrite length_replicate).
    + rewrite drop_app_ge by (rewrite length_replicate; lia). by rewrite length_replicate, Nat.sub_diag.
  - destruct (IH s t) as (s' & Hs' & Hl & Hc & Hd); [cbn in *; lia| |].
    { destruct Ht as [|[<-|]%elem_of_cons]; [left; cbn in *; lia|done|by right]. }
    rewrite Hs'. eexists. split; [done|]. cbn. rewrite Ec, Hl, Hd. split_and!; try done.
    cbn. f_equal. rewrite Hc, replicate_cons_app, app_assoc.
    rewrite (take_app_le (cstr t ++ _)); [done|]. rewrite length_app, length_replicate. lia.
Qed.

Lemma cstr_bytes l : Forall (λ b : Z, 0 ≤ b < 256) l → Forall (λ b, 0 ≤ b < 256) (cstr l).
Proof.
  induction l as [|c l IH]; cbn; [done|]. inversion 1; subst.
  destruct (c =? 0); [done|]. constructor; auto.
Qed.

(** A string cut to [m] bytes and padded with NULs. *)
Lemma cstr_take_pad l m : take m (cstr (take m (cstr l ++ replicate m 0))) = take m (cstr l).
Proof.
  revert m. induction l as [|c l IH]; intros m; cbn.
  - destruct m; [done|]. by cbn.
  - destruct (c =? 0) eqn:Ec; cbn; [by destruct m|]. destruct m as [|m]; [done|]. cbn.
    rewrite Ec. cbn. f_equal. rewrite replicate_cons_app, app_assoc, take_app_le; [apply IH|].
    rewrite length_app, length_replicate. lia.
Qed.

(** the directory-name idiom of fs.c round-trips: a name copied with
    [strncpy] into an [n]-byte field compares equal to itself with [strncmp]
    over [n] bytes, and to another name only if both have the same first [n]
    bytes. *)
Theorem strncpy_strncmp_roundtrip s t u n r :
  (n ≤ length s)%nat → 0 ∈ t → Forall (λ b, 0 ≤ b < 256) s →
  Forall (λ b, 0 ≤ b < 256) t → Forall (λ b, 0 ≤ b < 256) u →
  ∃ s', strncpy s t n = Some s' ∧
    (strncmp u (take n s') n = Some r → (r = 0 ↔ take n (cstr u) = take n (cstr t))).
Proof.
  intros Hs Ht Fs Ft Fu.
  destruct (strncpy_spec s t n) as (s' & He & Hl & Hc & _); [done|by right|].
  exists s'. split; [done|]. intros Hr.
  rewrite Hc in Hr. apply strncmp_zero in Hr; [by rewrite cstr_take_pad in Hr|done|].
  apply Forall_take, Forall_app. split; [by apply cstr_bytes|]. apply Forall_replicate. lia.
Qed.

Lemma strncpy_strncmp_roundtrip_witness :
  ∃ s', strncpy [9; 9; 9] [97; 98; 0] 3 = Some s' ∧
    (strncmp [97; 98; 0] (take 3 s') 3 = Some 0 → (0 = 0 ↔ [97; 98] = [97; 98])).
Proof.
  apply (strncpy_strncmp_roundtrip [9; 9; 9] [97; 98; 0] [97; 98; 0] 3 0);
    [cbn; lia|set_solver|repeat constructor; lia..].
Defined.
