(* ===== verification/Cprintf.v ===== *)
(** Formatted output of console.c: [printint], [cprintf] and [consputc].
    The characters sent to the serial port and the screen are collected in
    [k_console]; [panic] is the [Panic] outcome of the prelude. *)
From stdpp Require Import base numbers gmap strings option list.
From S2P Require Import Prelude State Spinlock.

(** ** Definitions *)

(** The bytes of a string literal, without the final NUL. *)
Definition bytes (s : string) : list Z :=
  (λ a, Z.of_nat (Ascii.nat_of_ascii a)) <$> String.list_ascii_of_string s.

Definition consputc (c : Z) : KM unit :=
  let* k := gets id in
  if k_panicked k then do* cli in (λ _, NoFuel)
  else modify (λ k, k <| k_console ::= λ o, o ++ [c] |>).

Definition digits : list Z := bytes "0123456789abcdef".

(** The do-while loop of [printint]: [buf[i++] = digits[x % base]] until the
    quotient is zero; the digits come least significant first. *)
Fixpoint printint_loop (n : nat) (x base : Z) : list Z :=
  match n with
  | O => []
  | S n =>
      default 0 (digits !! Z.to_nat (x mod base)) ::
      (if x / base =? 0 then [] else printint_loop n (x / base) base)
  end.

(** The contents of [buf] when the digits and the sign are in it; 32 digits
    are enough for a 32-bit number in any base from 2 on. *)
Definition printint_buf (xx base : Z) (sign : bool) : list Z :=
  let neg := sign && (xx <? 0) in
  let x := if neg then u32 (- xx) else u32 xx in
  printint_loop 32 x base ++ (if neg then bytes "-" else []).

Definition printint (xx base : Z) (sign : bool) : KM unit :=
  for_each (rev (printint_buf xx base sign)) consputc.

(** A variadic argument: a word, or a pointer to a string ([None] is null). *)
Inductive parg := PInt (z : Z) | PStr (s : option (list Z)).

(** The bytes of a C string. *)
Fixpoint upto_nul (s : list Z) : list Z :=
  match s with
  | [] => []
  | c :: s => if c =? 0 then [] else c :: upto_nul s
  end.

Fixpoint cprintf_loop (fmt : list Z) (args : list parg) : KM unit :=
  match fmt with
  | [] => ret tt
  | c :: fmt' =>
      if Z.land c 0xff =? 0 then ret tt else
      if negb (Z.land c 0xff =? 37) then
        do* consputc (Z.land c 0xff) in cprintf_loop fmt' args
      else
      match fmt' with
      | [] => ret tt
      | d :: fmt'' =>
          let d := Z.land d 0xff in
          if d =? 0 then ret tt else
          if d =? 100 then
            match args with
            | PInt z :: args => do* printint (s32 z) 10 true in cprintf_loop fmt'' args
            | _ => undef "cprintf: argument"
            end
          else if (d =? 120) || (d =? 112) then
            match args with
            | PInt z :: args => do* printint (s32 z) 16 false in cprintf_loop fmt'' args
            | _ => undef "cprintf: argument"
            end
          else if d =? 115 then
            match args with
            | PStr s :: args =>
                do* for_each (upto_nul (default (bytes "(null)") s)) consputc in
                cprintf_loop fmt'' args
            | _ => undef "cprintf: argument"
            end
          else if d =? 37 then
            do* consputc 37 in cprintf_loop fmt'' args
          else
            do* consputc 37 in do* consputc d in cprintf_loop fmt'' args
      end
  end.

Section cprintf.
Context `{kenv}.

Definition cprintf (fmt : string) (args : list parg) : KM unit :=
  let* k := gets id in
  let locking := k_cons_locking k in
  do* (if locking then acquire LkCons else ret tt) in
  do* cprintf_loop (bytes fmt) args in
  if locking then release LkCons else ret tt.

End cprintf.
#[global] Arguments cprintf {_} _ _ _ : simpl never.

(** ** Specification *)

(** The text [cprintf] prints, as a pure function; [None] when an argument
    is missing or of the wrong kind. *)
Fixpoint format (fmt : list Z) (args : list parg) : option (list Z) :=
  match fmt with
  | [] => Some []
  | c :: fmt' =>
      if Z.land c 0xff =? 0 then Some [] else
      if negb (Z.land c 0xff =? 37) then cons (Z.land c 0xff) <$> format fmt' args else
      match fmt' with
      | [] => Some []
      | d :: fmt'' =>
          let d := Z.land d 0xff in
          if d =? 0 then Some [] else
          if d =? 100 then
            match args with
            | PInt z :: args => app (rev (printint_buf (s32 z) 10 true)) <$> format fmt'' args
            | _ => None
            end
          else if (d =? 120) || (d =? 112) then
            match args with
            | PInt z :: args => app (rev (printint_buf (s32 z) 16 false)) <$> format fmt'' args
            | _ => None
            end
          else if d =? 115 then
            match args with
            | PStr s :: args => app (upto_nul (default (bytes "(null)") s)) <$> format fmt'' args
            | _ => None
            end
          else if d =? 37 then cons 37 <$> format fmt'' args
          else (λ o, 37 :: d :: o) <$> format fmt'' args
      end
  end.

(** The console can be written to. *)
Definition cons_ok (s : kstate) : Prop :=
  k_panicked s = false ∧ (k_cons_locking s = true → lock_free LkCons s).

(** ** Lemmas *)

Lemma consputc_eq c s :
  k_panicked s = false → consputc c s = Ret tt (s <| k_console ::= λ o, o ++ [c] |>).
Proof. intros Hp. unfold consputc. mred. by rewrite Hp. Qed.

Lemma consputc_list l s :
  k_panicked s = false →
  for_each l consputc s = Ret tt (s <| k_console ::= λ o, o ++ l |>).
Proof.
  revert s. induction l as [|c l IH]; intros s Hp; cbn [for_each].
  - cbn. rewrite app_nil_r. by destruct s.
  - step (consputc_eq _ _ Hp). rewrite IH by done. cbn. by rewrite <-app_assoc.
Qed.

(** Printing [l] and going on with code that prints [out]. *)
Lemma consputc_list_then l (c : KM unit) out s :
  k_panicked s = false →
  (∀ t, k_panicked t = false → c t = Ret tt (t <| k_console ::= λ o, o ++ out |>)) →
  (do* for_each l consputc in c) s = Ret tt (s <| k_console ::= λ o, o ++ (l ++ out) |>).
Proof.
  intros Hp Hc. step (consputc_list _ _ Hp). rewrite Hc by done. cbn. by rewrite <-app_assoc.
Qed.

Lemma consputc_then a (c : KM unit) out s :
  k_panicked s = false →
  (∀ t, k_panicked t = false → c t = Ret tt (t <| k_console ::= λ o, o ++ out |>)) →
  (do* consputc a in c) s = Ret tt (s <| k_console ::= λ o, o ++ (a :: out) |>).
Proof.
  intros Hp Hc. step (consputc_eq _ _ Hp). rewrite Hc by done. cbn. by rewrite <-app_assoc.
Qed.

(** Two characters of the format are read at a time after a '%'. *)
Lemma format_ind (P : list Z → Prop) :
  P [] → (∀ c, P [c]) → (∀ c d l, P (d :: l) → P l → P (c :: d :: l)) → ∀ l, P l.
Proof.
  intros H0 H1 H2 l. enough (P l ∧ ∀ c, P (c :: l)) by tauto.
  induction l as [|d l [IH1 IH2]]; auto.
Qed.

Lemma cprintf_loop_eq fmt args out s :
  k_panicked s = false → format fmt args = Some out →
  cprintf_loop fmt args s = Ret tt (s <| k_console ::= λ o, o ++ out |>).
Proof.
  assert (Hnil : ∀ t : kstate, Ret tt t = Ret tt (t <| k_console ::= λ o, o ++ [] |>)).
  { intros t. cbn. rewrite app_nil_r. by destruct t. }
  revert args out s. induction fmt as [|c|c d fmt IH1 IH2] using format_ind;
    intros args out s Hp; cbn [cprintf_loop format].
  - intros [= <-]. apply Hnil.
  - destruct (_ =? 0); [intros [= <-]; apply Hnil|].
    destruct (negb _); [|intros [= <-]; apply Hnil].
    intros [= <-]. apply consputc_then; [done|]. intros t _. apply Hnil.
  - destruct (Z.land c _ =? 0); [intros [= <-]; apply Hnil|].
    destruct (negb _).
    { intros (o & Ho & ->)%fmap_Some. apply consputc_then; eauto. }
    destruct (_ =? 0); [intros [= <-]; apply Hnil|]. cbv zeta.
    destruct (_ =? 100); [|destruct (_ || _); [|destruct (_ =? 115); [|destruct (_ =? 37)]]].
    1-3: destruct args as [|[z|str] args]; try done;
      intros (o & Ho & ->)%fmap_Some; apply consputc_list_then; eauto.
    + intros (o & Ho & ->)%fmap_Some. apply consputc_then; eauto.
    + intros (o & Ho & ->)%fmap_Some. apply consputc_then; [done|].
      intros t Ht. apply consputc_then; eauto.
Qed.

(** [cprintf] prints its text; the console lock is free again afterwards. *)
Lemma cprintf_eq `{kenv} fmt args out s :
  cpu_wf s → cons_ok s → format (bytes fmt) args = Some out →
  ∃ cs, cpus_eqv (k_cpu s) (k_cpus s) cs ∧
    cprintf fmt args s = Ret tt (s <| k_cpus := cs |> <| k_console ::= λ o, o ++ out |>).
Proof.
  intros Hc [Hp Hl] Ho. unfold cprintf. mred.
  destruct (k_cons_locking s) eqn:El.
  - exists (relcpus s). split; [apply cpus_eqv_relcpus|].
    rewrite acquire_free by auto. rewrite (cprintf_loop_eq _ _ out) by done.
    erewrite release_acq; [|exact Hc|auto|done..]. by destruct s.
  - exists (k_cpus s). split; [apply cpus_eqv_refl|].
    rewrite (cprintf_loop_eq _ _ out) by done. by destruct s.
Qed.

(** ** Numbers round-trip *)

Definition digit_val (c : Z) : Z :=
  match list_find (λ d, d = c) digits with Some (i, _) => i | None => 0 end.

(** The number whose digits, least significant first, are given. *)
Definition num_of (base : Z) (l : list Z) : Z :=
  foldr (λ c a, digit_val c + base * a) 0 l.

Lemma digit_val_digits i : 0 ≤ i < 16 → digit_val (default 0 (digits !! Z.to_nat i)) = i.
Proof.
  intros Hi.
  assert (Hall : forallb (λ n, digit_val (default 0 (digits !! n)) =? Z.of_nat n) (seq 0 16) = true)
    by reflexivity.
  rewrite forallb_forall in Hall. specialize (Hall (Z.to_nat i)).
  rewrite Z.eqb_eq in Hall. rewrite Hall; [lia|]. apply list_elem_of_In, elem_of_seq. lia.
Qed.

Lemma printint_loop_num (n : nat) x base :
  2 ≤ base ≤ 16 → 0 ≤ x < 2 ^ n → (0 < n)%nat → num_of base (printint_loop n x base) = x.
Proof.
  intros Hb. revert x. induction n as [|n IH]; intros x Hx Hn; [lia|].
  cbn -[digits digit_val]. rewrite digit_val_digits by (pose proof (Z.mod_pos_bound x base); lia).
  destruct (x / base =? 0) eqn:E.
  - cbn. nia.
  - assert (x / base < 2 ^ n).
    { apply Z.div_lt_upper_bound; [lia|]. rewrite Nat2Z.inj_succ, Z.pow_succ_r in Hx by lia. nia. }
    assert (0 ≤ x / base) by (apply Z.div_pos; lia).
    destruct n as [|n]; [change (2 ^ 0%nat) with 1 in *; lia|].
    unfold num_of in IH. rewrite IH by lia. nia.
Qed.

Lemma printint_loop_length n x base (k : nat) :
  2 ≤ base → 0 ≤ x < base ^ k → (0 < k)%nat → (length (printint_loop n x base) ≤ k)%nat.
Proof.
  intros Hb. revert x k. induction n as [|n IH]; intros x k Hx Hk; cbn [printint_loop length]; [lia|].
  destruct (x / base =? 0) eqn:E; cbn [length]; [lia|].
  destruct k as [|k]; [lia|]. rewrite Nat2Z.inj_succ, Z.pow_succ_r in Hx by lia.
  assert (0 ≤ x / base < base ^ k).
  { split; [apply Z.div_pos; lia|]. apply Z.div_lt_upper_bound; lia. }
  destruct k as [|k]; [change (base ^ 0%nat) with 1 in *; lia|].
  apply le_n_S, IH; [done|lia].
Qed.

(** [printint] writes the decimal or hexadecimal representation of its
    argument: the digits in [buf] denote the absolute value, the sign is
    there exactly for a negative number printed signed, and the 16 bytes of
    [buf] are enough for every 32-bit number, [INT_MIN] included. *)
Theorem printint_correct xx base sign :
  - 2 ^ 31 ≤ xx < 2 ^ 31 → base = 10 ∨ base = 16 →
  ∃ ds, printint_buf xx base sign = ds ++ (if sign && (xx <? 0) then bytes "-" else []) ∧
    num_of base ds = (if sign then Z.abs xx else u32 xx) ∧
    (length (printint_buf xx base sign) ≤ 16)%nat.
Proof.
  intros Hx Hb. unfold printint_buf.
  set (x := if sign && (xx <? 0) then u32 (- xx) else u32 xx).
  assert (Hr : 0 ≤ x < 2 ^ 32) by (unfold x; destruct (_ && _); apply u32_range).
  exists (printint_loop 32 x base). split; [done|]. split.
  - rewrite printint_loop_num by lia. unfold x, u32. destruct sign, (xx <? 0) eqn:E; cbn; lia.
  - rewrite length_app.
    assert (length (printint_loop 32 x base) ≤ 10)%nat.
    { apply printint_loop_length; [lia| |lia]. split; [lia|]. eapply Z.lt_le_trans; [apply Hr|].
      destruct Hb as [->| ->]; vm_compute; congruence. }
    assert (length (if sign && (xx <? 0)%Z then bytes "-" else []) ≤ 1)%nat
      by (destruct (sign && _); vm_compute; lia). lia.
Qed.

Lemma printint_correct_witness :
  ∃ ds, printint_buf (- 2 ^ 31) 10 true = ds ++ bytes "-" ∧
    num_of 10 ds = 2147483648 ∧ (length (printint_buf (- 2 ^ 31) 10 true) ≤ 16)%nat.
Proof. apply (printint_correct (- 2 ^ 31) 10 true); [lia|by left]. Defined.

(** with the console lock free, [cprintf] prints exactly the text its
    format and arguments denote, whatever mix of %d, %x, %p, %s, %% and
    unknown conversions it has, and gives the lock back. *)
Theorem cprintf_correct `{kenv} fmt args out s :
  cpu_wf s → cons_ok s → format (bytes fmt) args = Some out →
  returns (cprintf fmt args) s (λ _ s',
    k_console s' = k_console s ++ out ∧ k_locks s' = k_locks s ∧ k_ptable s' = k_ptable s).
Proof.
  intros Hc Hl Ho. destruct (cprintf_eq fmt args out s Hc Hl Ho) as (cs & _ & He).
  by eapply returns_eq.
Qed.

Lemma cprintf_correct_witness :
  returns (cprintf (H := kenv_example) "pid %d %s %x%%" [PInt 12; PStr (Some (bytes "sh")); PInt 255])
    (boot_state <| k_cons_locking := true |>) (λ _ s',
      k_console s' = bytes "pid 12 sh ff%" ∧ k_locks s' = k_locks boot_state ∧
      k_ptable s' = k_ptable boot_state).
Proof.
  refine (cprintf_correct (H := kenv_example) "pid %d %s %x%%"
    [PInt 12; PStr (Some (bytes "sh")); PInt 255] (bytes "pid 12 sh ff%")
    (boot_state <| k_cons_locking := true |>) _ _ _).
  - apply boot_cpu_wf.
  - split; [reflexivity|]. intros _. reflexivity.
  - reflexivity.
Defined.
