(* ===== verification/Kalloc.v ===== *)
(** The physical page allocator (kalloc.c): a free list threaded through the
    first word of each free page. *)
From stdpp Require Import base numbers gmap strings option list.
From S2P Require Import Prelude State Spinlock Str.

(** ** Definitions *)

Section kalloc.
Context `{kenv}.

Definition kmem_acquire : KM unit :=
  let* k := gets id in if use_lock (k_kmem k) then acquire LkKmem else ret tt.
Definition kmem_release : KM unit :=
  let* k := gets id in if use_lock (k_kmem k) then release LkKmem else ret tt.

Definition kfree (v : Z) : KM unit :=
  if negb (v mod PGSIZE =? 0) || (v <? end_addr) || (PHYSTOP <=? v2p v) then panic "kfree" else
  do* modify (λ k, k <| k_mem ::= λ m, memset m v 1 PGSIZE |>) in
  do* kmem_acquire in
  do* modify (λ k, k <| k_mem ::= λ m, st32 m v (freelist (k_kmem k)) |>) in
  do* modify (λ k, k <| k_kmem ::= set freelist (λ _, v) |>) in
  kmem_release.

Definition kalloc : KM Z :=
  do* kmem_acquire in
  let* k := gets id in
  let r := freelist (k_kmem k) in
  do* (if negb (r =? 0)
       then modify (λ k, k <| k_kmem ::= set freelist (λ _, ld32 (k_mem k) r) |>)
       else ret tt) in
  do* kmem_release in
  ret r.

(** The loop of [freerange]; the number of whole pages left bounds it. *)
Fixpoint freerange_loop (n : nat) (p vend : Z) : KM unit :=
  match n with
  | O => λ _, NoFuel
  | S n => if p + PGSIZE <=? vend then do* kfree p in freerange_loop n (p + PGSIZE) vend
           else ret tt
  end.

Definition freerange (vstart vend : Z) : KM unit :=
  let p := PGROUNDUP vstart in
  freerange_loop (S (Z.to_nat ((vend - p) / PGSIZE))) p vend.

Definition kinit1 (vstart vend : Z) : KM unit :=
  do* initlock LkKmem in
  do* modify (λ k, k <| k_kmem ::= set use_lock (λ _, false) |>) in
  freerange vstart vend.

Definition kinit2 (vstart vend : Z) : KM unit :=
  do* freerange vstart vend in
  modify (λ k, k <| k_kmem ::= set use_lock (λ _, true) |>).

End kalloc.
#[global] Arguments kfree {_} _ _ : simpl never.
#[global] Arguments kalloc {_} _ : simpl never.

(** ** Specification *)

(** The pages on the list that starts at [p]. *)
Fixpoint chain (m : gmap Z Z) (p : Z) (l : list Z) : Prop :=
  match l with
  | [] => p = 0
  | v :: l => p = v ∧ chain m (ld32 m v) l
  end.

Section spec.
Context `{kenv}.

(** A page the allocator manages. *)
Definition valid_page (v : Z) : Prop :=
  v mod PGSIZE = 0 ∧ end_addr ≤ v ∧ KERNBASE ≤ v < KERNBASE + PHYSTOP.

(** [l] is the list of free pages, without repetition. *)
Definition free_ok (s : kstate) (l : list Z) : Prop :=
  chain (k_mem s) (freelist (k_kmem s)) l ∧ NoDup l ∧ Forall valid_page l.

Definition kmem_sync (s : kstate) : Prop :=
  use_lock (k_kmem s) = true → cpu_wf s ∧ lock_free LkKmem s.

(** ** Lemmas *)

Lemma valid_page_apart u v : valid_page u → valid_page v → u ≠ v → u + PGSIZE ≤ v ∨ v + PGSIZE ≤ u.
Proof. intros (Hu & _) (Hv & _) Hne. unfold PGSIZE in *. lia. Qed.

Lemma valid_page_nonzero v : valid_page v → v ≠ 0.
Proof. intros (_ & _ & Hv). unfold KERNBASE in Hv. lia. Qed.

Lemma chain_ext m m' p l :
  (∀ v, v ∈ l → ld32 m' v = ld32 m v) → chain m p l → chain m' p l.
Proof.
  revert p. induction l as [|v l IH]; intros p Hm; [done|]. intros [-> Hc]. split; [done|].
  rewrite Hm by set_solver. apply IH; [|done]. intros w Hw. apply Hm. set_solver.
Qed.

(** What freeing a page does to memory: the link, then junk to the end. *)
Lemma ldb_kfree m v w a :
  valid_page v →
  ldb (st32 (memset m v 1 PGSIZE) v w) a =
    if decide (v ≤ a < v + 4) then ldb (st32 m v w) a
    else if decide (v ≤ a < v + PGSIZE) then 1 else ldb m a.
Proof.
  intros _. case_decide.
  - unfold st32. rewrite !ldb_stb. repeat case_decide; try done. lia.
  - rewrite ldb_st32_ne by done. rewrite ldb_memset by done. by case_decide.
Qed.

Lemma kfree_ld32 m u v w :
  valid_page u → valid_page v → u ≠ v →
  ld32 (st32 (memset m v 1 PGSIZE) v w) u = ld32 m u.
Proof.
  intros Hu Hv Hne. destruct (valid_page_apart u v) as [Hd|Hd]; try done;
    unfold PGSIZE in Hd; (rewrite ld32_st32_ne by lia); unfold ld32;
    rewrite !ldb_memset by done; unfold PGSIZE; by rewrite !decide_False by lia.
Qed.

(** The bracket of [kmem_acquire] and [kmem_release] around a section that
    only touches memory and the list. *)
Lemma kmem_bracket s f :
  kmem_sync s → (∀ t, k_cpu (f t) = k_cpu t ∧ k_cpus (f t) = k_cpus t ∧
    k_locks (f t) = k_locks t ∧ use_lock (k_kmem (f t)) = use_lock (k_kmem t)) →
  ∃ cs, cpus_eqv (k_cpu s) (k_cpus s) cs ∧ ∃ t,
    kmem_acquire s = Ret tt t ∧ k_mem t = k_mem s ∧ k_kmem t = k_kmem s ∧
    kmem_release (f t) = Ret tt ((f t) <| k_cpus := cs |> <| k_locks := k_locks s |>) ∧
    t = s <| k_cpus := k_cpus t |> <| k_locks := k_locks t |>.
Proof.
  intros Hs Hf. unfold kmem_acquire, kmem_release. mred.
  destruct (use_lock (k_kmem s)) eqn:E.
  - destruct (Hs E) as [Hc Hl]. exists (relcpus s). split; [apply cpus_eqv_relcpus|].
    exists (acq LkKmem s). split_and!; [by apply acquire_free|done|done| |done].
    destruct (Hf (acq LkKmem s)) as (H1 & H2 & H3 & H4). rewrite H4. cbn -[release]. rewrite E.
    by apply release_acq.
  - exists (k_cpus s). split; [apply cpus_eqv_refl|]. exists s.
    destruct (Hf s) as (H1 & H2 & H3 & H4). rewrite H4, E. split_and!; try done.
    + destruct (f s); cbn in *. by subst.
    + by destruct s.
Qed.

Lemma kfree_eq s v l :
  kmem_sync s → free_ok s l → valid_page v → v ∉ l →
  ∃ cs, cpus_eqv (k_cpu s) (k_cpus s) cs ∧
    kfree v s = Ret tt (s <| k_cpus := cs |>
      <| k_mem := st32 (memset (k_mem s) v 1 PGSIZE) v (freelist (k_kmem s)) |>
      <| k_kmem ::= set freelist (λ _, v) |>).
Proof.
  intros Hs _ (Hal & He & Hr) _. unfold kfree.
  replace (_ || _) with false; last first.
  { unfold v2p, u32, KERNBASE, PHYSTOP, PGSIZE in *. symmetry.
    rewrite !orb_false_iff, negb_false_iff. lia. }
  set (s1 := s <| k_mem ::= λ m, memset m v 1 PGSIZE |>).
  destruct (kmem_bracket s1 (λ t, t <| k_mem ::= λ m, st32 m v (freelist (k_kmem t)) |>
    <| k_kmem ::= set freelist (λ _, v) |>)) as (cs & Hcs & t & Ha & Hm & Hk & Hrel & Ht);
    [done|done|].
  exists cs. split; [done|]. change (modify _ s) with (Ret tt s1).
  unfold bind at 1. cbn [obind modify]. fold s1. step Ha. mred. rewrite Hrel.
  rewrite Ht. by destruct s.
Qed.

Lemma kalloc_eq s l :
  kmem_sync s → free_ok s l →
  ∃ cs, cpus_eqv (k_cpu s) (k_cpus s) cs ∧
    kalloc s = Ret (default 0 (head l)) (s <| k_cpus := cs |>
      <| k_kmem ::= set freelist (λ f, match l with [] => f | v :: _ => ld32 (k_mem s) v end) |>).
Proof.
  intros Hs (Hch & _ & Hv). unfold kalloc.
  destruct (kmem_bracket s (λ t, match l with [] => t | v :: _ =>
    t <| k_kmem ::= set freelist (λ _, ld32 (k_mem t) v) |> end))
    as (cs & Hcs & t & Ha & Hm & Hk & Hrel & Ht); [done|by destruct l|].
  exists cs. split; [done|]. step Ha. mred. rewrite Hk. destruct l as [|v l]; cbn in Hch.
  - rewrite Hch. cbn -[kmem_release]. rewrite Hrel, Ht. by destruct s as [??????[]].
  - destruct Hch as [Hf _]. rewrite Hf. apply Forall_inv, valid_page_nonzero in Hv.
    replace (v =? 0) with false by lia. cbn [negb]. rewrite Hrel, Ht. by destruct s.
Qed.

Lemma free_ok_kalloc s v l cs :
  free_ok s (v :: l) →
  free_ok (s <| k_cpus := cs |> <| k_kmem ::= set freelist (λ _, ld32 (k_mem s) v) |>) l.
Proof.
  intros ([_ Hc] & [_ Hn]%NoDup_cons & [_ Hv]%Forall_cons). by split_and!.
Qed.

(** Writing to an allocated page, as its owner does, keeps the free list. *)
Lemma free_ok_st32 s t l v a x :
  free_ok s (v :: l) → freelist (k_kmem t) = ld32 (k_mem s) v →
  v ≤ a → a + 4 ≤ v + PGSIZE → k_mem t = st32 (k_mem s) a x → free_ok t l.
Proof.
  intros ([_ Hc] & [Hv Hn]%NoDup_cons & [Hp Hps]%Forall_cons) Hf H1 H2 Hm.
  split_and!; [|done|done]. rewrite Hf, Hm. eapply chain_ext; [|exact Hc].
  intros w Hw. rewrite Forall_forall in Hps. apply ld32_st32_ne.
  destruct (valid_page_apart v w Hp (Hps w Hw)); [by intros ->|right|left];
    unfold PGSIZE in *; lia.
Qed.

Lemma free_ok_kfree s v l cs :
  free_ok s l → valid_page v → v ∉ l →
  free_ok (s <| k_cpus := cs |>
    <| k_mem := st32 (memset (k_mem s) v 1 PGSIZE) v (freelist (k_kmem s)) |>
    <| k_kmem ::= set freelist (λ _, v) |>) (v :: l).
Proof.
  intros (Hc & Hn & Hv) Hp Hni. split_and!; [|by constructor|by constructor].
  cbn. split; [done|]. rewrite ld32_st32_eq.
  assert (Hr : 0 ≤ freelist (k_kmem s) < 2 ^ 32).
  { destruct l as [|w l]; cbn in Hc; [rewrite Hc; lia|]. destruct Hc as [-> _].
    apply Forall_inv in Hv as (_ & _ & ?). unfold KERNBASE, PHYSTOP in *. lia. }
  rewrite u32_small by done. eapply chain_ext, Hc. intros w Hw.
  rewrite Forall_forall in Hv. apply kfree_ld32; [by apply Hv|done|set_solver].
Qed.

Lemma kmem_sync_ext s t :
  kmem_sync s → k_cpu t = k_cpu s → cpus_eqv (k_cpu s) (k_cpus s) (k_cpus t) →
  k_locks t = k_locks s → use_lock (k_kmem t) = use_lock (k_kmem s) → kmem_sync t.
Proof.
  intros Hs Hi Hcs Hl Hk E. rewrite Hk in E. destruct (Hs E) as [Hc Hf].
  split; [|by unfold lock_free; rewrite Hl].
  eapply (cpu_wf_ext (s <| k_cpus := k_cpus t |>)); [done|done|]. by apply cpu_wf_eqv.
Qed.

(** Only memory, the free list and the interrupt state of idle CPUs differ. *)
Record mem_only (s t : kstate) : Prop := {
  mo_eq : t = s <| k_cpus := k_cpus t |> <| k_mem := k_mem t |> <| k_kmem := k_kmem t |>;
  mo_cpus : cpus_eqv (k_cpu s) (k_cpus s) (k_cpus t);
  mo_use : use_lock (k_kmem t) = use_lock (k_kmem s);
}.

Lemma mem_only_cpu s t : mem_only s t → k_cpu t = k_cpu s ∧ k_locks t = k_locks s.
Proof. intros [E _ _]. by rewrite E. Qed.

#[global] Instance mem_only_preorder : PreOrder mem_only.
Proof.
  split.
  - intros s. split; [by destruct s|done|done].
  - intros s t u [E1 C1 U1] [E2 C2 U2]. split; [|rewrite E1 in C2; by etransitivity|congruence].
    rewrite E2. rewrite E1 at 1. done.
Qed.

Lemma mem_only_set s t f : mem_only s t → mem_only s (t <| k_mem ::= f |>).
Proof. intros Hm. etransitivity; [exact Hm|]. by split. Qed.

Lemma mem_only_sync s t : mem_only s t → kmem_sync s → kmem_sync t.
Proof. intros Hm Hs. destruct (mem_only_cpu _ _ Hm), Hm. by eapply kmem_sync_ext. Qed.

Lemma kalloc_returns s l :
  kmem_sync s → free_ok s l →
  returns kalloc s (λ v s', v = default 0 (head l) ∧ (v = 0 ↔ l = []) ∧
    free_ok s' (tail l) ∧ k_mem s' = k_mem s ∧ mem_only s s').
Proof.
  intros Hs Hl. destruct (kalloc_eq s l Hs Hl) as (cs & Hcs & He).
  eapply returns_eq; [exact He|]. destruct l as [|v l]; cbn.
  - split_and!; try done; by split.
  - split_and!; try done.
    + destruct Hl as (_ & _ & Hv). apply Forall_inv, valid_page_nonzero in Hv. done.
    + by apply (free_ok_kalloc _ _ _ cs) in Hl.
Qed.

Lemma kfree_returns s v l :
  kmem_sync s → free_ok s l → valid_page v → v ∉ l →
  returns (kfree v) s (λ _ s', free_ok s' (v :: l) ∧ mem_only s s' ∧
    (∀ a, v + 4 ≤ a < v + PGSIZE → ldb (k_mem s') a = 1) ∧
    (∀ a, ¬ (v ≤ a < v + PGSIZE) → ldb (k_mem s') a = ldb (k_mem s) a)).
Proof.
  intros Hs Hl Hv Hni. destruct (kfree_eq s v l) as (cs & Hcs & He); try done.
  eapply returns_eq; [exact He|]. split_and!.
  - by apply free_ok_kfree.
  - by split.
  - intros a Ha. cbn -[st32 memset]. rewrite ldb_kfree by done.
    rewrite decide_False by lia. by rewrite decide_True by lia.
  - intros a Ha. cbn -[st32 memset]. rewrite ldb_kfree by done. unfold PGSIZE in *.
    by rewrite !decide_False by lia.
Qed.
End spec.

(** ** Properties *)

Section props.
Context `{kenv}.

(** [kalloc] hands out the most recently freed page and unlinks it, or
    returns 0 exactly when no page is free; it changes no byte of memory,
    and the remaining pages still form the free list. *)
Theorem kalloc_correct s l :
  kmem_sync s → free_ok s l →
  returns kalloc s (λ v s', v = default 0 (head l) ∧ (v = 0 ↔ l = []) ∧
    free_ok s' (tail l) ∧ kmem_sync s' ∧ k_mem s' = k_mem s ∧ k_locks s' = k_locks s).
Proof.
  intros Hs Hl. eapply returns_mono; [by apply kalloc_returns|]. intros v t (? & ? & ? & ? & Hm).
  destruct (mem_only_cpu _ _ Hm). split_and!; try done. by eapply mem_only_sync.
Qed.

(** freeing a page that is not free puts it at the head of the list,
    fills the rest of the page with the junk byte 1 and leaves every other
    byte of memory alone. *)
Theorem kfree_correct s v l :
  kmem_sync s → free_ok s l → valid_page v → v ∉ l →
  returns (kfree v) s (λ _ s', free_ok s' (v :: l) ∧ kmem_sync s' ∧
    (∀ a, v + 4 ≤ a < v + PGSIZE → ldb (k_mem s') a = 1) ∧
    (∀ a, ¬ (v ≤ a < v + PGSIZE) → ldb (k_mem s') a = ldb (k_mem s) a)).
Proof.
  intros Hs Hl Hv Hn. eapply returns_mono; [by apply (kfree_returns s v l)|]. intros _ t (? & Hm & ? & ?).
  split_and!; try done. by eapply mem_only_sync.
Qed.

(** [kfree] panics on an address that is not page aligned, lies below
    the end of the kernel, or is above the top of physical memory. *)
Theorem kfree_rejects s v :
  v mod PGSIZE ≠ 0 ∨ v < end_addr ∨ PHYSTOP ≤ v2p v → kfree v s = Panic "kfree" s.
Proof.
  intros Hv. unfold kfree. replace (_ || _) with true; [done|].
  symmetry. rewrite !orb_true_iff, negb_true_iff. lia.
Qed.

(** The pages [freerange] frees, first to last. *)
Definition pages (p : Z) (n : nat) : list Z := (λ i : nat, p + i * PGSIZE) <$> seq 0 n.

Lemma pages_S p n : pages p (S n) = p :: pages (p + PGSIZE) n.
Proof.
  unfold pages. cbn. f_equal; [lia|]. rewrite <-fmap_S_seq, <-list_fmap_compose.
  apply list_fmap_ext. intros i x _. cbn. lia.
Qed.

Lemma elem_of_pages p n v : v ∈ pages p n → ∃ i : nat, (i < n)%nat ∧ v = p + i * PGSIZE.
Proof. unfold pages. intros (i & -> & Hi%elem_of_seq)%list_elem_of_fmap. exists i. split; [lia|done]. Qed.

Lemma freerange_loop_spec (n : nat) p vend s l :
  p mod PGSIZE = 0 → end_addr ≤ p → KERNBASE ≤ p → vend ≤ KERNBASE + PHYSTOP →
  p + n * PGSIZE ≤ vend < p + (n + 1) * PGSIZE →
  kmem_sync s → free_ok s l → (∀ v, v ∈ pages p n → v ∉ l) →
  returns (freerange_loop (S n) p vend) s (λ _ s',
    free_ok s' (rev (pages p n) ++ l) ∧ kmem_sync s' ∧
    ∀ a, ¬ (p ≤ a < vend) → ldb (k_mem s') a = ldb (k_mem s) a).
Proof.
  revert p s l. induction n as [|n IH]; intros p s l Hal He Hp Hvend Hn Hs Hl Hd.
  - cbn [freerange_loop]. replace (p + PGSIZE <=? vend) with false by lia.
    by apply returns_ret.
  - remember (S n) as m eqn:Em. cbn [freerange_loop].
    replace (p + PGSIZE <=? vend) with true by (unfold PGSIZE in *; lia). subst m.
    rewrite pages_S in *. apply returns_bind. eapply returns_mono.
    { apply (kfree_returns s p l); try done; [|set_solver].
      split_and!; try done. unfold PGSIZE in *. lia. }
    intros _ s1 (Hl1 & Hs1%mem_only_sync & _ & Hm1); [|done]. eapply returns_mono.
    { apply (IH _ _ (p :: l)); unfold PGSIZE in *; try (done || lia).
      intros v Hv [->|Hvl]%elem_of_cons; [|set_solver].
      apply elem_of_pages in Hv as (i & _ & Hv). unfold PGSIZE in Hv. lia. }
    intros _ s2 (Hl2 & Hs2 & Hm2). cbn [rev]. rewrite <-app_assoc. split_and!; [done|done|].
    intros a Ha. rewrite Hm2, Hm1; unfold PGSIZE in *; lia.
Qed.

(** [freerange vstart vend] frees every page that lies entirely within
    the range, once, and no byte outside the range is written: the pages
    end up on the free list in descending order of address. *)
Theorem freerange_correct vstart vend s l n :
  0 ≤ vstart → vstart + PGSIZE - 1 < 2 ^ 32 →
  let p := PGROUNDUP vstart in
  end_addr ≤ p → KERNBASE ≤ p ≤ vend → vend ≤ KERNBASE + PHYSTOP →
  n = Z.to_nat ((vend - p) / PGSIZE) →
  kmem_sync s → free_ok s l → (∀ v, v ∈ pages p n → v ∉ l) →
  returns (freerange vstart vend) s (λ _ s',
    free_ok s' (rev (pages p n) ++ l) ∧ kmem_sync s' ∧
    ∀ a, ¬ (p ≤ a < vend) → ldb (k_mem s') a = ldb (k_mem s) a).
Proof.
  intros H0 Hr p He Hp Hvend -> Hs Hl Hd. unfold freerange. fold p.
  assert (p mod PGSIZE = 0).
  { unfold p. rewrite PGROUNDUP_eq by done. by rewrite Z.mod_mul. }
  apply freerange_loop_spec; unfold PGSIZE in *; try (done || lia).
Qed.

(** The kernel using the allocator: it allocates, frees a page it holds,
    and writes into pages it holds; the list is the pages it holds. *)
Inductive kuse : kstate * list Z → kstate * list Z → Prop :=
| kuse_alloc s a v s' :
    kalloc s = Ret v s' → kuse (s, a) (s', if v =? 0 then a else v :: a)
| kuse_free s a1 v a2 s' :
    kfree v s = Ret tt s' → kuse (s, a1 ++ v :: a2) (s', a1 ++ a2)
| kuse_write s a v addr b :
    v ∈ a → v ≤ addr < v + PGSIZE →
    kuse (s, a) (s <| k_mem ::= λ m, stb m addr b |>, a).

(** Every page is held or free, and no page is both or twice either. *)
Definition pages_inv (l0 : list Z) (c : kstate * list Z) : Prop :=
  ∃ l, free_ok c.1 l ∧ kmem_sync c.1 ∧ c.2 ++ l ≡ₚ l0.

Lemma pages_inv_step l0 c c' :
  NoDup l0 → Forall valid_page l0 → pages_inv l0 c → kuse c c' → pages_inv l0 c'.
Proof.
  intros Hnd Hvp (l & Hl & Hs & Hp) Hstep.
  assert (Hall : ∀ v, v ∈ c.2 ++ l → valid_page v).
  { intros v Hv. rewrite Hp in Hv. by eapply (Forall_forall valid_page l0). }
  rewrite <-Hp in Hnd. destruct Hstep as [s a v s' He|s a1 v a2 s' He|s a v addr b Hv Ha]; cbn in *.
  - destruct (kalloc_returns s l Hs Hl) as (v' & t & He' & -> & Hz & Hl' & _ & Hs'%mem_only_sync); [|done].
    rewrite He in He'. simplify_eq. exists (tail l). destruct l as [|v l]; cbn in *.
    + by split_and!.
    + replace (v =? 0) with false by (destruct (Z.eqb_spec v 0); naive_solver).
      split_and!; [done..|]. rewrite <-Hp. by rewrite <-Permutation_middle.
  - destruct (kfree_returns s v l) as (? & t & He' & Hl' & Hs'%mem_only_sync & _); try done.
    { apply Hall. set_solver. }
    { apply NoDup_app in Hnd as (_ & Hd & _). apply Hd. set_solver. }
    rewrite He in He'. simplify_eq. exists (v :: l). split_and!; [done..|].
    rewrite <-Hp, <-(app_assoc a1 a2), <-(app_assoc a1 (v :: a2)). cbn. apply Permutation_app_head.
    symmetry. apply Permutation_middle.
  - exists l. split_and!; [|done|done]. destruct Hl as (Hc & Hn & Hf). split_and!; try done.
    cbn. eapply chain_ext, Hc. intros w Hw. assert (v ≠ w) as Hne.
    { intros ->. apply NoDup_app in Hnd as (_ & Hd & _). by apply (Hd w). }
    destruct (valid_page_apart v w) as [Hd|Hd]; [apply Hall; set_solver..|done| |];
      unfold PGSIZE in *; unfold ld32; by rewrite !ldb_stb_ne by lia.
Qed.

(** C27: whatever sequence of allocations, frees of held pages and writes
    into held pages the kernel performs, no page is ever handed out while
    it is held, none is lost, and the free list stays intact: held and free
    pages together are always exactly the initial free pages. *)
Theorem pages_conserved s0 l0 s a :
  kmem_sync s0 → free_ok s0 l0 → rtc kuse (s0, []) (s, a) →
  NoDup a ∧ ∃ l, free_ok s l ∧ a ++ l ≡ₚ l0.
Proof.
  intros Hs Hl Hr. assert (Hinv : pages_inv l0 (s, a)).
  { assert (pages_inv l0 (s0, [])) as H0 by (by exists l0).
    destruct Hl as (_ & Hn & Hv). revert H0. generalize Hr. generalize (s0, @nil Z) (s, a).
    clear Hr. induction 1; eauto using pages_inv_step. }
  destruct Hinv as (l & Hfl & _ & Hp). split; [|eauto].
  destruct Hl as (_ & Hn & _). cbn in Hp. rewrite <-Hp in Hn. by apply NoDup_app in Hn as [? _].
Qed.
End props.

(** ** Witnesses *)

#[local] Existing Instance kenv_example.

(** Page 0x80113000 is the first page after the kernel image. *)
Definition page1 : Z := 0x80113000.
Definition page2 : Z := 0x80114000.

Lemma valid_page1 : valid_page page1.
Proof. unfold valid_page. vm_compute. intuition congruence. Qed.
Lemma valid_page2 : valid_page page2.
Proof. unfold valid_page. vm_compute. intuition congruence. Qed.

Lemma boot_free_ok : free_ok boot_state [].
Proof. by split_and!; [|constructor|constructor]. Qed.

(** A state with exactly [page1] free and locking on. *)
Definition one_page : kstate :=
  boot_state <| k_kmem := mkKmem true page1 |>.

Lemma one_page_sync : kmem_sync one_page.
Proof. intros _. split; [apply boot_cpu_wf|reflexivity]. Qed.

Lemma one_page_free_ok : free_ok one_page [page1].
Proof.
  split_and!; [by vm_compute|apply NoDup_singleton|].
  apply Forall_singleton, valid_page1.
Qed.

Lemma kalloc_correct_witness :
  returns kalloc one_page (λ v s', v = page1 ∧ (v = 0 ↔ [page1] = []) ∧
    free_ok s' [] ∧ kmem_sync s' ∧ k_mem s' = k_mem one_page ∧ k_locks s' = k_locks one_page).
Proof. apply (kalloc_correct one_page [page1]); [apply one_page_sync|apply one_page_free_ok]. Defined.

Lemma kfree_correct_witness :
  returns (kfree page2) one_page (λ _ s', free_ok s' [page2; page1] ∧ kmem_sync s' ∧
    (∀ a, page2 + 4 ≤ a < page2 + PGSIZE → ldb (k_mem s') a = 1) ∧
    (∀ a, ¬ (page2 ≤ a < page2 + PGSIZE) → ldb (k_mem s') a = ldb (k_mem one_page) a)).
Proof.
  apply (kfree_correct one_page page2 [page1]);
    [apply one_page_sync|apply one_page_free_ok|apply valid_page2|].
  apply not_elem_of_cons. split; [discriminate|apply not_elem_of_nil].
Defined.

Lemma kfree_rejects_witness : kfree 0x80113004 boot_state = Panic "kfree" boot_state.
Proof. apply (kfree_rejects boot_state 0x80113004). left. vm_compute. discriminate. Defined.

Lemma freerange_correct_witness :
  let p := PGROUNDUP 0x80112a1c in
  rev (pages p 2) ++ [] = [page2; page1] ∧
  returns (freerange 0x80112a1c 0x80115800) boot_state (λ _ s',
    free_ok s' (rev (pages p 2) ++ []) ∧ kmem_sync s' ∧
    ∀ a, ¬ (p ≤ a < 0x80115800) → ldb (k_mem s') a = ldb (k_mem boot_state) a).
Proof.
  intros p. split; [by vm_compute|].
  apply (freerange_correct 0x80112a1c 0x80115800 boot_state [] 2).
  - lia.
  - unfold PGSIZE. lia.
  - vm_compute. congruence.
  - vm_compute. intuition congruence.
  - vm_compute. congruence.
  - by vm_compute.
  - discriminate.
  - apply boot_free_ok.
  - intros v _. apply not_elem_of_nil.
Defined.

(** The page is taken, written to and given back. *)
Lemma pages_conserved_witness :
  ∃ s a, rtc kuse (one_page, []) (s, a) ∧ a = [page1] ∧
    NoDup a ∧ ∃ l, free_ok s l ∧ a ++ l ≡ₚ [page1].
Proof.
  destruct (kalloc_returns one_page [page1]) as (v & s & He & -> & _);
    [apply one_page_sync|apply one_page_free_ok|].
  assert (Hr : rtc kuse (one_page, []) (s <| k_mem ::= λ m, stb m (page1 + 8) 7 |>, [page1])).
  { eapply rtc_l; [by apply kuse_alloc|]. eapply rtc_l; [|apply rtc_refl].
    apply (kuse_write _ _ page1); [set_solver|vm_compute; intuition congruence]. }
  eexists _, _. split; [exact Hr|]. split; [reflexivity|].
  eapply (pages_conserved one_page [page1]); [apply one_page_sync|apply one_page_free_ok|exact Hr].
Defined.
