(* ===== verification/Proc.v ===== *)
(** Processes and the multilevel feedback scheduler (proc.c, with
    [switchuvm]/[switchkvm] of vm.c): the process table, its four FIFO levels
    of runnable processes, and the operations that move a process between
    states under [ptable.lock]. *)
From stdpp Require Import base numbers gmap strings option list.
From S2P Require Import Prelude State Spinlock Str Cprintf Kalloc.

(** ** The queue *)

(** The level one up or one down from a process's own. *)
Definition up (p : proc) : Z :=
  if 0 <? p_current_level p then p_current_level p - 1 else p_current_level p.
Definition down (p : proc) : Z :=
  if p_current_level p <? MLF_LEVELS - 1 then p_current_level p + 1 else p_current_level p.

(** [ptable.mlf[level]]; any other level is outside the array. *)
Definition in_levels (level : Z) : bool := (0 <=? level) && (level <? MLF_LEVELS).
Definition get_queue (level : Z) : KM queue :=
  let* k := gets id in
  deref "ptable.mlf" (if in_levels level then pt_mlf (k_ptable k) !! Z.to_nat level else None).
Definition upd_queue (level : Z) (f : queue → queue) : KM unit :=
  let* _ := get_queue level in
  upd_ptable (set pt_mlf (alter f (Z.to_nat level))).

Definition encolar (p : nat) (level : Z) : KM unit :=
  do* upd_ptable (set pt_size (λ n, n + 1)) in
  let* q := get_queue level in
  match q_first q with
  | None =>
      do* upd_queue level (set q_last (λ _, Some p)) in
      do* upd_queue level (set q_first (λ _, Some p)) in
      do* upd_queue level (set q_size (λ n, n + 1)) in
      upd_proc p (set p_current_level (λ _, level))
  | Some _ =>
      let* l := deref "mlf[level].last" (q_last q) in
      do* upd_proc l (set p_next (λ _, Some p)) in
      do* upd_queue level (set q_last (λ _, Some p)) in
      do* upd_queue level (set q_size (λ n, n + 1)) in
      upd_proc p (set p_current_level (λ _, level))
  end.

Definition desencolar (p : nat) : KM unit :=
  do* upd_ptable (set pt_size (λ n, n - 1)) in
  let* pr := get_proc p in
  let level := p_current_level pr in
  let* q := get_queue level in
  let* l := deref "mlf[level].last" (q_last q) in
  let* f := deref "mlf[level].first" (q_first q) in
  let* pl := get_proc l in
  let* pf := get_proc f in
  if p_pid pl =? p_pid pf then
    do* upd_queue level (set q_last (λ _, None)) in
    do* upd_queue level (set q_first (λ _, None)) in
    upd_queue level (set q_size (λ n, n - 1))
  else
    do* upd_queue level (set q_first (λ _, p_next pr)) in
    upd_queue level (set q_size (λ n, n - 1)).

Definition make_runnable (p : nat) (level : Z) : KM unit :=
  do* encolar p level in
  upd_proc p (set p_state (λ _, RUNNABLE)).

Definition make_running (p : nat) : KM unit :=
  do* desencolar p in
  upd_proc p (set p_state (λ _, RUNNING)).

Section proc.
Context `{kenv}.

Definition sizeLevels : KM unit :=
  let* k := gets id in
  let n i := default 0 (q_size <$> pt_mlf (k_ptable k) !! i) in
  if negb (n 0%nat =? 0) || negb (n 1%nat =? 0) || negb (n 2%nat =? 0) || negb (n 3%nat =? 0)
  then cprintf "nivel 0 : [%d] ; nivel 1 : [%d] ; nivel 2 : [%d] ; nivel 3 : [%d]  
"
         [PInt (n 0%nat); PInt (n 1%nat); PInt (n 2%nat); PInt (n 3%nat)]
  else ret tt.

Definition set_priority (p : nat) (param : Z) : KM unit :=
  do* upd_proc p (set p_current_level (λ _, param)) in
  let* pr := get_proc p in
  cprintf "----> name proc set_priority: %s 
" [PStr (Some (p_name pr))].

Definition pinit : KM unit := initlock LkPtable.

(** ** Allocation *)

(** The first entry of [ptable.proc] that satisfies a test. *)
Definition find_proc (P : proc → bool) : KM (option nat) :=
  gets (λ k, fst <$> list_find P (pt_proc (k_ptable k))).

(** The sizes of [struct trapframe] and [struct context]. *)
Definition sizeof_trapframe : Z := 76.
Definition sizeof_context : Z := 20.

Definition allocproc : KM (option nat) :=
  do* acquire LkPtable in
  let* o := find_proc (λ p, bool_decide (p_state p = UNUSED)) in
  match o with
  | None => do* release LkPtable in ret None
  | Some p =>
      do* upd_proc p (set p_state (λ _, EMBRYO)) in
      let* k := gets id in
      do* upd_proc p (set p_pid (λ _, pt_nextpid (k_ptable k))) in
      do* upd_ptable (set pt_nextpid (λ n, s32 (n + 1))) in
      do* release LkPtable in
      let* ks := kalloc in
      do* upd_proc p (set p_kstack (λ _, ks)) in
      if ks =? 0 then do* upd_proc p (set p_state (λ _, UNUSED)) in ret None else
      let sp := ks + KSTACKSIZE in
      let sp := sp - sizeof_trapframe in
      do* upd_proc p (set p_tf (λ _, sp)) in
      let sp := sp - 4 in
      do* modify (λ k, k <| k_mem ::= λ m, st32 m sp trapret_addr |>) in
      let sp := sp - sizeof_context in
      do* upd_proc p (set p_context (λ _, sp)) in
      do* upd_proc p (set p_ctx (λ _, context_zero)) in
      do* upd_proc p (set p_ctx (set cx_eip (λ _, forkret_addr))) in
      ret (Some p)
  end.

(** ** Address spaces (vm.c) *)

Definition SEG_KDATA : Z := 2.
Definition SEG_TSS : Z := 6.

Definition switchkvm : KM unit :=
  let* k := gets id in upd_cpu (set cr3 (λ _, v2p (k_kpgdir k))).

(** The TSS descriptor in the GDT is the same at every call and left out. *)
Definition switchuvm (p : nat) : KM unit :=
  do* pushcli in
  do* upd_cpu (set ts_ss0 (λ _, Z.shiftl SEG_KDATA 3)) in
  let* c := curproc in
  let* cp := get_proc c in
  do* upd_cpu (set ts_esp0 (λ _, u32 (p_kstack cp + KSTACKSIZE))) in
  do* upd_cpu (set tr (λ _, Z.shiftl SEG_TSS 3)) in
  let* pr := get_proc p in
  if p_pgdir pr =? 0 then panic "switchuvm: no pgdir" else
  do* upd_cpu (set cr3 (λ _, v2p (p_pgdir pr))) in
  popcli.

(** ** The scheduler *)

(** One turn of the inner loop of [scheduler] at level [indice]; the result
    is the level the loop goes on with. *)
Definition scheduler_step (indice : Z) : KM Z :=
  let* q := get_queue indice in
  do* match q_first q with
      | Some p =>
          let* pr := get_proc p in
          if negb (bool_decide (p_state pr = RUNNABLE))
          then panic "This proces is not RUNNABLE" else
          do* upd_cpu (set cpu_proc (λ _, Some p)) in
          do* switchuvm p in
          do* make_running p in
          do* upd_proc p (set p_quantum (λ _, 0)) in
          do* pause Swtch in
          do* switchkvm in
          upd_cpu (set cpu_proc (λ _, None))
      | None => ret tt
      end in
  let* q := get_queue indice in
  match q_first q with None => ret (indice + 1) | Some _ => ret indice end.

(** [while(indice < MLF_LEVELS)], for at most [n] turns. *)
Fixpoint scheduler_levels (n : nat) (indice : Z) : KM unit :=
  if indice <? MLF_LEVELS then
    match n with
    | O => λ _, NoFuel
    | S n => let* i := scheduler_step indice in scheduler_levels n i
    end
  else ret tt.

(** One iteration of the endless loop of [scheduler]. *)
Definition scheduler_round (n : nat) : KM unit :=
  do* sti in
  do* acquire LkPtable in
  do* scheduler_levels n 0 in
  release LkPtable.

Definition sched : KM unit :=
  let* h := holding LkPtable in
  if negb h then panic "sched ptable.lock" else
  let* c := get_cpu in
  if negb (ncli c =? 1) then panic "sched locks" else
  let* p := curproc in
  let* pr := get_proc p in
  if bool_decide (p_state pr = RUNNING) then panic "sched running" else
  let* e := readeflags in
  if negb (Z.land e FL_IF =? 0) then panic "sched interruptible" else
  do* pause Swtch in
  upd_cpu (set intena (λ _, intena c)).

Definition yield : KM unit :=
  do* acquire LkPtable in
  let* p := curproc in
  let* pr := get_proc p in
  do* make_runnable p (down pr) in
  do* sched in
  release LkPtable.

(** ** Sleep and wakeup *)

Definition sleep (chan : channel) (lk : option lockid) : KM unit :=
  let* op := myproc in
  match op with
  | None => panic "sleep"
  | Some _ =>
    match lk with
    | None => panic "sleep without lk"
    | Some lk =>
      do* (if bool_decide (lk ≠ LkPtable)
           then do* acquire LkPtable in release lk else ret tt) in
      let* p := curproc in
      do* upd_proc p (set p_chan (λ _, Some chan)) in
      do* upd_proc p (set p_state (λ _, SLEEPING)) in
      do* sched in
      let* p := curproc in
      do* upd_proc p (set p_chan (λ _, None)) in
      if bool_decide (lk ≠ LkPtable)
      then do* release LkPtable in acquire lk else ret tt
    end
  end.

Definition wakeup1 (chan : channel) : KM unit :=
  for_each (seq 0 NPROC) (λ i,
    let* p := get_proc i in
    if bool_decide (p_state p = SLEEPING) && bool_decide (p_chan p = Some chan)
    then make_runnable i (up p) else ret tt).

Definition wakeup (chan : channel) : KM unit :=
  do* acquire LkPtable in
  do* wakeup1 chan in
  release LkPtable.

Definition kill (pid : Z) : KM Z :=
  do* acquire LkPtable in
  let* o := find_proc (λ p, p_pid p =? pid) in
  match o with
  | Some i =>
      do* upd_proc i (set p_killed (λ _, 1)) in
      let* p := get_proc i in
      do* (if bool_decide (p_state p = SLEEPING) then
             do* cprintf "El proceso %s pasa a RUNNABLE por KILL 
" [PStr (Some (p_name p))] in
             make_runnable i (p_current_level p)
           else ret tt) in
      do* release LkPtable in
      ret 0
  | None => do* release LkPtable in ret (-1)
  end.

End proc.
#[global] Arguments get_queue _ _ : simpl never.
#[global] Arguments upd_queue _ _ _ : simpl never.
#[global] Arguments encolar _ _ _ : simpl never.
#[global] Arguments desencolar _ _ : simpl never.
#[global] Arguments make_runnable _ _ _ : simpl never.
#[global] Arguments make_running _ _ : simpl never.
#[global] Arguments wakeup1 _ _ : simpl never.
#[global] Arguments wakeup {_} _ _ : simpl never.
#[global] Arguments sched _ : simpl never.
#[global] Arguments sleep {_} _ _ _ : simpl never.
#[global] Arguments switchuvm _ _ : simpl never.
#[global] Arguments switchkvm _ : simpl never.
