(* ===== verification/Mlf.v ===== *)
(** The multilevel feedback queue of proc.c against its specification: the
    linked lists in [ptable] represent four FIFO queues of process numbers,
    [encolar] and [desencolar] are the queue operations, and every step the
    kernel makes on the table keeps the representation. *)
From stdpp Require Import base numbers gmap strings option list.
From S2P Require Import Prelude State Spinlock Str Cprintf Kalloc Proc.

(** ** Specification: four FIFO queues *)

(** The abstract scheduler state: for each level, the processes that wait
    there, in the order in which they will run. *)
Abbreviation queues := (list (list nat)).

(** [p->next] leads from each process of [l] to the following one. *)
Definition linked (ps : list proc) (l : list nat) : Prop :=
  ∀ i a b, l !! i = Some a → l !! S i = Some b → (p_next <$> ps !! a) = Some (Some b).

(** Queue [q] holds exactly the processes of [l]. *)
Definition segment (ps : list proc) (q : queue) (l : list nat) : Prop :=
  q_first q = head l ∧ q_last q = last l ∧ q_size q = length l ∧ linked ps l.

Definition level_ok (p : proc) : Prop := 0 ≤ p_current_level p < MLF_LEVELS.

(** The process table represents the queues [qs]. *)
Record mlf_rel (pt : ptable_t) (qs : queues) : Prop := {
  rel_procs : length (pt_proc pt) = NPROC;
  rel_mlf : length (pt_mlf pt) = Z.to_nat MLF_LEVELS;
  rel_qs : length qs = Z.to_nat MLF_LEVELS;
  rel_segment : ∀ i q l, pt_mlf pt !! i = Some q → qs !! i = Some l → segment (pt_proc pt) q l;
  rel_member : ∀ (i : nat) (l : list nat) p, qs !! i = Some l → p ∈ l →
    ∃ pr, pt_proc pt !! p = Some pr ∧ p_state pr = RUNNABLE ∧ p_current_level pr = i;
  rel_complete : ∀ p pr, pt_proc pt !! p = Some pr → p_state pr = RUNNABLE →
    ∃ (i : nat) (l : list nat), qs !! i = Some l ∧ p ∈ l;
  rel_nodup : ∀ (i : nat) (l : list nat), qs !! i = Some l → NoDup l;
  rel_pids : ∀ p p' pr pr', pt_proc pt !! p = Some pr → pt_proc pt !! p' = Some pr' →
    p_state pr ≠ UNUSED → p_state pr' ≠ UNUSED → p_pid pr = p_pid pr' → p = p';
  rel_pid : ∀ p pr, pt_proc pt !! p = Some pr → p_pid pr < pt_nextpid pt;
  rel_level : ∀ p pr, pt_proc pt !! p = Some pr →
    p_state pr = SLEEPING ∨ p_state pr = RUNNING → level_ok pr;
  rel_size : pt_size pt = sum_list (length <$> qs);
}.

(** ** The queue operations as functions of the table *)

Definition pt_enq (p : nat) (level : Z) (pt : ptable_t) : ptable_t :=
  let q := default queue_zero (pt_mlf pt !! Z.to_nat level) in
  pt <| pt_size ::= λ n, n + 1 |>
     <| pt_mlf ::= alter (λ q, mkQueue (match q_first q with None => Some p | f => f end)
                                 (Some p) (q_size q + 1)) (Z.to_nat level) |>
     <| pt_proc ::= λ ps,
          alter (λ x, x <| p_current_level := level |> <| p_state := RUNNABLE |>) p
            (match q_first q, q_last q with
             | Some _, Some l => alter (set p_next (λ _, Some p)) l ps
             | _, _ => ps
             end) |>.

Definition pt_deq (p : nat) (pt : ptable_t) : ptable_t :=
  let pr := default proc_zero (pt_proc pt !! p) in
  let level := Z.to_nat (p_current_level pr) in
  pt <| pt_size ::= λ n, n - 1 |>
     <| pt_mlf ::= alter (λ q,
          if bool_decide (q_last q = q_first q)
          then mkQueue None None (q_size q - 1)
          else mkQueue (p_next pr) (q_last q) (q_size q - 1)) level |>
     <| pt_proc ::= alter (set p_state (λ _, RUNNING)) p |>.

Section queue_lemmas.
Implicit Types (s : kstate) (pt : ptable_t) (qs : queues) (p : nat).

Lemma get_proc_eq s p pr : pt_proc (k_ptable s) !! p = Some pr → get_proc p s = Ret pr s.
Proof. intros Hp. unfold get_proc. mred. by rewrite Hp. Qed.

Lemma upd_proc_eq s p pr f :
  pt_proc (k_ptable s) !! p = Some pr →
  upd_proc p f s = Ret tt (s <| k_ptable ::= set pt_proc (alter f p) |>).
Proof. intros Hp. unfold upd_proc. by step (get_proc_eq _ _ _ Hp). Qed.

Lemma in_levels_true level : 0 ≤ level < MLF_LEVELS → in_levels level = true.
Proof. unfold in_levels. lia. Qed.

Lemma get_queue_eq s level q :
  0 ≤ level < MLF_LEVELS → pt_mlf (k_ptable s) !! Z.to_nat level = Some q →
  get_queue level s = Ret q s.
Proof. intros Hl Hq. unfold get_queue. mred. by rewrite in_levels_true, Hq. Qed.

Lemma upd_queue_eq s level q f :
  0 ≤ level < MLF_LEVELS → pt_mlf (k_ptable s) !! Z.to_nat level = Some q →
  upd_queue level f s = Ret tt (s <| k_ptable ::= set pt_mlf (alter f (Z.to_nat level)) |>).
Proof. intros Hl Hq. unfold upd_queue. by step (get_queue_eq _ _ _ Hl Hq). Qed.

(** A level outside the array is undefined behaviour. *)
Lemma encolar_out_of_range s p level :
  in_levels level = false → encolar p level s = Undef "ptable.mlf".
Proof. intros Hl. unfold encolar, get_queue, upd_ptable. mred. by rewrite Hl. Qed.

(** Successive updates of one level, and of the table, merge. *)
Lemma alter_alter_same {A} (f g : A → A) (l : list A) i :
  alter f i (alter g i l) = alter (f ∘ g) i l.
Proof. apply list_alter_alter_eq. Qed.

Lemma make_runnable_eq s p level pr q :
  0 ≤ level < MLF_LEVELS → pt_mlf (k_ptable s) !! Z.to_nat level = Some q →
  pt_proc (k_ptable s) !! p = Some pr →
  (q_first q ≠ None → ∃ l lr, q_last q = Some l ∧ l ≠ p ∧ pt_proc (k_ptable s) !! l = Some lr) →
  make_runnable p level s = Ret tt (s <| k_ptable ::= pt_enq p level |>).
Proof.
  intros Hl Hq Hp Hlast.
  assert (Henc : ∃ s', encolar p level s = Ret tt s' ∧
    pt_proc (k_ptable s') !! p = Some (pr <| p_current_level := level |>) ∧
    s' <| k_ptable ::= set pt_proc (alter (set p_state (λ _, RUNNABLE)) p) |> =
      s <| k_ptable ::= pt_enq p level |>).
  { unfold encolar, upd_ptable. mstep.
    step (get_queue_eq _ _ q Hl); [|done].
    destruct (q_first q) as [f|] eqn:Ef.
    - destruct Hlast as (l & lr & El & Hne & Hlr); [done|]. rewrite El. mstep.
      step (upd_proc_eq _ l lr); [|done].
      step (upd_queue_eq _ level q _ Hl); [|done].
      step (upd_queue_eq _ level _ _ Hl); [|by apply alter_lookup_eq].
      erewrite upd_proc_eq; [|cbn; by rewrite list_lookup_alter_ne].
      eexists. split; [done|]. cbn. rewrite !alter_alter_same. unfold pt_enq.
      rewrite Hq. cbn. rewrite Ef, El. split.
      + rewrite list_lookup_alter_eq, list_lookup_alter_ne, Hp by done. done.
      + do 2 f_equal. apply list_alter_ext; [|done]. intros q' Hq'. rewrite Hq in Hq'.
        simplify_eq. cbn. by rewrite Ef.
    - step (upd_queue_eq _ level q _ Hl); [|done].
      step (upd_queue_eq _ level _ _ Hl); [|by apply alter_lookup_eq].
      step (upd_queue_eq _ level _ _ Hl); [|by apply alter_lookup_eq, alter_lookup_eq].
      erewrite upd_proc_eq; [|cbn; exact Hp].
      eexists. split; [done|]. cbn. rewrite !alter_alter_same. unfold pt_enq.
      rewrite Hq. cbn. rewrite Ef. split.
      + rewrite list_lookup_alter_eq, Hp by done. done.
      + do 2 f_equal. apply list_alter_ext; [|done]. intros q' Hq'. rewrite Hq in Hq'.
        simplify_eq. cbn. by rewrite Ef. }
  destruct Henc as (s' & He & Hp' & Hs'). unfold make_runnable. step He.
  erewrite upd_proc_eq by exact Hp'. by rewrite Hs'.
Qed.

Lemma make_running_eq s p pr q f l pf pl :
  pt_proc (k_ptable s) !! p = Some pr → level_ok pr →
  pt_mlf (k_ptable s) !! Z.to_nat (p_current_level pr) = Some q →
  q_first q = Some f → q_last q = Some l →
  pt_proc (k_ptable s) !! f = Some pf → pt_proc (k_ptable s) !! l = Some pl →
  (p_pid pl = p_pid pf ↔ l = f) →
  make_running p s = Ret tt (s <| k_ptable ::= pt_deq p |>).
Proof.
  intros Hp Hl Hq Ef El Hf Hlr Hpid.
  assert (Hdes : ∃ s', desencolar p s = Ret tt s' ∧
    pt_proc (k_ptable s') !! p = Some pr ∧
    s' <| k_ptable ::= set pt_proc (alter (set p_state (λ _, RUNNING)) p) |> =
      s <| k_ptable ::= pt_deq p |>).
  { unfold desencolar, upd_ptable. mstep.
    step (get_proc_eq _ p pr); [|done]. step (get_queue_eq _ _ q Hl); [|done].
    rewrite El, Ef. mstep. mstep.
    step (get_proc_eq _ l pl); [|done]. step (get_proc_eq _ f pf); [|done].
    destruct (p_pid pl =? p_pid pf) eqn:E.
    - step (upd_queue_eq _ _ q _ Hl); [|done].
      step (upd_queue_eq _ _ _ _ Hl); [|by apply alter_lookup_eq].
      erewrite (upd_queue_eq _ _ _ _ Hl); [|by apply alter_lookup_eq, alter_lookup_eq].
      eexists. split; [done|]. unfold pt_deq. cbn. rewrite Hp. cbn.
      rewrite !alter_alter_same. split; [done|].
      do 2 f_equal. apply list_alter_ext; [|done]. intros q' Hq'. rewrite Hq in Hq'.
      simplify_eq. cbn. rewrite bool_decide_true; [done|]. rewrite Ef, El. f_equal.
      apply Hpid. lia.
    - step (upd_queue_eq _ _ q _ Hl); [|done].
      erewrite (upd_queue_eq _ _ _ _ Hl); [|by apply alter_lookup_eq].
      eexists. split; [done|]. unfold pt_deq. cbn. rewrite Hp. cbn.
      rewrite !alter_alter_same. split; [done|].
      do 2 f_equal. apply list_alter_ext; [|done]. intros q' Hq'. rewrite Hq in Hq'.
      simplify_eq. cbn. rewrite bool_decide_false; [done|]. rewrite Ef, El.
      intros [= ->]. assert (p_pid pl = p_pid pf) by (by apply Hpid). lia. }
  destruct Hdes as (s' & He & Hp' & Hs'). unfold make_running. step He.
  erewrite upd_proc_eq by exact Hp'. by rewrite Hs'.
Qed.
End queue_lemmas.

(** ** Refinement of the queue operations *)

Section refinement.
Implicit Types (pt : ptable_t) (qs : queues) (p : nat).

Lemma last_index (l : list nat) x : last l = Some x → l !! (length l - 1)%nat = Some x.
Proof. rewrite last_lookup. intros <-. f_equal. lia. Qed.

(** Linking depends only on the [next] fields before the last process. *)
Lemma linked_ext ps ps' l :
  NoDup l → linked ps l →
  (∀ a, a ∈ l → last l ≠ Some a → (p_next <$> ps' !! a) = (p_next <$> ps !! a)) →
  linked ps' l.
Proof.
  intros Hnd Hl Hext i a b Ha Hb. rewrite Hext; [by eapply Hl|by eapply list_elem_of_lookup_2|].
  intros Hlast%last_index. assert (i = length l - 1)%nat by (by eapply NoDup_lookup).
  apply lookup_lt_Some in Hb. lia.
Qed.

Lemma linked_snoc ps ps' l lo p :
  NoDup l → linked ps l → last l = Some lo →
  (p_next <$> ps' !! lo) = Some (Some p) →
  (∀ a, a ∈ l → a ≠ lo → (p_next <$> ps' !! a) = (p_next <$> ps !! a)) →
  linked ps' (l ++ [p]).
Proof.
  intros Hnd Hl Hlo Hp Hext i a b Ha Hb.
  assert (Hlen := lookup_lt_Some _ _ _ Hb). rewrite length_app in Hlen. cbn in Hlen.
  rewrite lookup_app_l in Ha by lia. apply last_index in Hlo.
  destruct (decide (S i < length l)%nat) as [Hlt|].
  - rewrite lookup_app_l in Hb by lia. rewrite Hext; [by eapply Hl|by eapply list_elem_of_lookup_2|].
    intros ->. assert (i = length l - 1)%nat by (by eapply NoDup_lookup). lia.
  - rewrite lookup_app_r in Hb by lia. replace (S i - length l)%nat with 0%nat in Hb by lia.
    replace i with (length l - 1)%nat in Ha by lia. cbn in Hb. by simplify_eq.
Qed.

Lemma linked_tail ps p l : linked ps (p :: l) → linked ps l.
Proof. intros Hl i a b Ha Hb. by apply (Hl (S i)). Qed.

Lemma list_lookup_alter_Some_eq {A} (f : A → A) (l : list A) i x :
  alter f i l !! i = Some x → ∃ y, l !! i = Some y ∧ x = f y.
Proof. rewrite list_lookup_alter_eq. intros (y & -> & ->)%fmap_Some. eauto. Qed.

Lemma level_nat level : 0 ≤ level < MLF_LEVELS → (Z.to_nat level < Z.to_nat MLF_LEVELS)%nat.
Proof. unfold MLF_LEVELS. lia. Qed.

(** A queue of the table and its abstract counterpart. *)
Lemma rel_level_queue pt qs (level : nat) :
  mlf_rel pt qs → (level < Z.to_nat MLF_LEVELS)%nat →
  ∃ q l, pt_mlf pt !! level = Some q ∧ qs !! level = Some l ∧ segment (pt_proc pt) q l.
Proof.
  intros Hrel Hl. destruct (lookup_lt_is_Some_2 (pt_mlf pt) level) as [q Hq].
  { by rewrite (rel_mlf _ _ Hrel). }
  destruct (lookup_lt_is_Some_2 qs level) as [l Hq']; [by rewrite (rel_qs _ _ Hrel)|].
  exists q, l. split_and!; try done. by eapply rel_segment.
Qed.

(** The entries of the table after [pt_enq]. *)
Lemma enq_lookup pt p level j x' :
  pt_proc (pt_enq p level pt) !! j = Some x' →
  ∃ x, pt_proc pt !! j = Some x ∧ p_pid x' = p_pid x ∧
    (j ≠ p → x' = x <| p_next := p_next x' |>) ∧
    (j = p → p_state x' = RUNNABLE ∧ p_current_level x' = level).
Proof.
  unfold pt_enq. cbn.
  set (ps := match q_first _ with Some _ => _ | None => _ end).
  assert (Hps : ∀ y', ps !! j = Some y' → ∃ x, pt_proc pt !! j = Some x ∧
    y' = x <| p_next := p_next y' |>).
  { intros y' Hy'. unfold ps in Hy'. repeat case_match; rewrite ?list_lookup_alter in Hy';
      repeat case_decide; subst; try (exists y'; by destruct y').
    apply fmap_Some in Hy' as (x & Hx & ->). exists x. by destruct x. }
  rewrite list_lookup_alter. case_decide as Hjp.
  - subst. intros (y' & Hy' & ->)%fmap_Some. destruct (Hps _ Hy') as (x & Hx & ->).
    exists x. by split_and!.
  - intros Hy'. destruct (Hps _ Hy') as (x & Hx & Heq). exists x. split_and!; try done.
    by rewrite Heq.
Qed.

Lemma enq_length pt p level : length (pt_proc (pt_enq p level pt)) = length (pt_proc pt).
Proof. unfold pt_enq. cbn. rewrite length_alter. repeat case_match; by rewrite ?length_alter. Qed.

(** The same, forwards, with the whole of the enqueued entry. *)
Lemma enq_lookup_fwd pt p level j x :
  pt_proc pt !! j = Some x →
  ∃ x', pt_proc (pt_enq p level pt) !! j = Some x' ∧
    x' = (if decide (j = p) then x <| p_current_level := level |> <| p_state := RUNNABLE |> else x)
           <| p_next := p_next x' |>.
Proof.
  intros Hx. unfold pt_enq. cbn. rewrite list_lookup_alter.
  set (ps := match q_first _ with Some _ => _ | None => _ end).
  assert (∃ y, ps !! j = Some y ∧ y = x <| p_next := p_next y |>) as (y & Hy & Hyx).
  { unfold ps. repeat case_match; try (exists x; by destruct x).
    rewrite list_lookup_alter. case_decide; [|exists x; by destruct x]. subst. rewrite Hx.
    eexists. split; [done|]. by destruct x. }
  repeat case_decide; try congruence; subst; rewrite Hy; (eexists; split; [done|]); [|done].
  rewrite Hyx. by destruct x.
Qed.

(** The [next] fields after [pt_enq]: only the old last process's changes. *)
Lemma enq_next pt qs p level q l a :
  mlf_rel pt qs → pt_mlf pt !! Z.to_nat level = Some q → segment (pt_proc pt) q l →
  (p_next <$> pt_proc (pt_enq p level pt) !! a) =
    if decide (last l = Some a) then (λ _, Some p) <$> pt_proc pt !! a
    else p_next <$> pt_proc pt !! a.
Proof.
  intros Hrel Hq (Hf & Hla & _ & _). unfold pt_enq. rewrite Hq. cbn. rewrite Hf, Hla.
  assert (Halt : ∀ ps : list proc, p_next <$> alter (λ x, x <| p_current_level := level |>
    <| p_state := RUNNABLE |>) p ps !! a = p_next <$> ps !! a).
  { intros ps. rewrite list_lookup_alter. case_decide; [|done]. subst. by destruct (ps !! a). }
  rewrite Halt. destruct l as [|b l]; [done|]. cbn [head].
  destruct (last (b :: l)) as [lo|] eqn:E; [|by apply last_None in E].
  rewrite list_lookup_alter. repeat case_decide; simplify_eq; try done.
  by destruct (pt_proc pt !! a).
Qed.

Lemma sum_list_alter_snoc qs (i : nat) (l : list nat) p :
  qs !! i = Some l →
  sum_list (length <$> alter (λ l, l ++ [p]) i qs) = S (sum_list (length <$> qs)).
Proof.
  revert i. induction qs as [|l' qs IH]; intros [|i] Hi; cbn in *; simplify_eq; try done.
  - rewrite length_app. cbn. lia.
  - rewrite IH by done. lia.
Qed.

Lemma sum_list_insert_tail qs (i : nat) p (l : list nat) :
  qs !! i = Some (p :: l) →
  S (sum_list (length <$> <[i := l]> qs)) = sum_list (length <$> qs).
Proof.
  revert i. induction qs as [|l' qs IH]; intros [|i] Hi; cbn in Hi; simplify_eq; try done.
  change (<[S i := l]> (l' :: qs)) with (l' :: <[i := l]> qs). rewrite !fmap_cons. cbn.
  specialize (IH i Hi). lia.
Qed.

(** A process that is not runnable is on no queue. *)
Lemma not_runnable_not_queued pt qs p pr (i : nat) (l : list nat) :
  mlf_rel pt qs → pt_proc pt !! p = Some pr → p_state pr ≠ RUNNABLE →
  qs !! i = Some l → p ∉ l.
Proof.
  intros Hrel Hp Hs Hi Hin. destruct (rel_member _ _ Hrel i l p Hi Hin) as (pr' & Hp' & ? & _).
  by simplify_eq.
Qed.

(** A level's last process, when it has one, is another process's entry. *)
Lemma rel_last_entry pt qs p pr (i : nat) q (l : list nat) :
  mlf_rel pt qs → pt_proc pt !! p = Some pr → p_state pr ≠ RUNNABLE →
  qs !! i = Some l → segment (pt_proc pt) q l → q_first q ≠ None →
  ∃ lo lr, q_last q = Some lo ∧ lo ≠ p ∧ pt_proc pt !! lo = Some lr.
Proof.
  intros Hrel Hp Hs Hi (Hf & Hl & _) Hne. destruct (last l) as [lo|] eqn:E.
  - assert (lo ∈ l) as Hin by (by apply last_Some_elem_of).
    destruct (rel_member _ _ Hrel i l lo Hi Hin) as (lr & Hlr & ? & _).
    exists lo, lr. split_and!; try done. intros ->. by simplify_eq.
  - apply last_None in E as ->. done.
Qed.

Lemma enq_rel pt qs p pr level :
  mlf_rel pt qs → pt_proc pt !! p = Some pr →
  p_state pr ≠ RUNNABLE → p_state pr ≠ UNUSED → 0 ≤ level < MLF_LEVELS →
  mlf_rel (pt_enq p level pt) (alter (λ l, l ++ [p]) (Z.to_nat level) qs).
Proof.
  intros Hrel Hp Hnr Hnu Hl.
  destruct (rel_level_queue _ _ _ Hrel (level_nat _ Hl)) as (q & l & Hq & Hqs & Hseg).
  assert (Hnext := λ a, enq_next _ _ p level q l a Hrel Hq Hseg).
  assert (Hpl : ∀ i (l' : list nat), qs !! i = Some l' → p ∉ l')
    by (intros; by eapply not_runnable_not_queued).
  split.
  - rewrite enq_length. apply Hrel.
  - cbn. rewrite length_alter. apply Hrel.
  - rewrite length_alter. apply Hrel.
  - intros i q' l'. cbn [pt_mlf pt_enq set]. rewrite !list_lookup_alter. case_decide as Hi.
    + subst i. rewrite Hq, Hqs. intros [= <-] [= <-]. destruct Hseg as (Hf & Hla & Hsz & Hlk).
      split_and!; cbn.
      * rewrite Hf. by destruct l.
      * by rewrite last_snoc.
      * rewrite length_app. cbn. lia.
      * destruct (last l) as [lo|] eqn:E; last first.
        { apply last_None in E as ->. intros [|i] a b; cbn; [done|by destruct i]. }
        assert (lo ∈ l) as Hlo by (by apply last_Some_elem_of).
        destruct (rel_member _ _ Hrel _ _ lo Hqs Hlo) as (lr & Hlr & _).
        eapply linked_snoc; [by eapply rel_nodup|exact Hlk|done| |].
        -- rewrite Hnext, decide_True, Hlr by done. done.
        -- intros a _ Hne. rewrite Hnext, decide_False by congruence. done.
    + intros Hq' Hl'. destruct (rel_segment _ _ Hrel i q' l' Hq' Hl') as (Hf & Hla & Hsz & Hlk).
      split_and!; try done. eapply linked_ext; [by eapply rel_nodup|exact Hlk|].
      intros a Ha _. rewrite Hnext, decide_False; [done|]. intros E.
      apply last_Some_elem_of in E.
      destruct (rel_member _ _ Hrel _ _ a Hqs E) as (x & Hx & _ & Hlv).
      destruct (rel_member _ _ Hrel _ _ a Hl' Ha) as (y & Hy & _ & Hlv').
      rewrite Hx in Hy. simplify_eq. lia.
  - intros i l' j. rewrite list_lookup_alter. intros Hi Hj.
    assert (Hcase : (∃ l0, qs !! i = Some l0 ∧ j ∈ l0) ∨ (j = p ∧ i = Z.to_nat level)).
    { case_decide as E; [|eauto]. subst i. rewrite Hqs in Hi. simplify_eq/=.
      apply elem_of_app in Hj as [?|?%list_elem_of_singleton]; [eauto|by right]. }
    destruct (lookup_lt_is_Some_2 (pt_proc (pt_enq p level pt)) j) as [x' Hx'].
    { rewrite enq_length. destruct Hcase as [(l0 & Hl0 & Hj0)|[-> _]]; [|by eapply lookup_lt_Some].
      destruct (rel_member _ _ Hrel _ _ _ Hl0 Hj0) as (x & Hx & _). by eapply lookup_lt_Some. }
    exists x'. split; [done|]. apply enq_lookup in Hx' as (x & Hx & _ & Hne & Heq).
    destruct Hcase as [(l0 & Hl0 & Hj0)|[-> ->]].
    + destruct (rel_member _ _ Hrel _ _ _ Hl0 Hj0) as (y & Hy & Hys & Hyl). simplify_eq.
      rewrite Hne; [done|]. intros ->. by apply (Hpl _ _ Hl0).
    + destruct Heq as [? ->]; [done|]. split; [done|]. lia.
  - intros j x' Hx' Hs. apply enq_lookup in Hx' as (x & Hx & _ & Hne & _).
    destruct (decide (j = p)) as [->|Hjp].
    + exists (Z.to_nat level), (l ++ [p]). rewrite list_lookup_alter_eq, Hqs.
      split; [done|set_solver].
    + rewrite Hne in Hs by done. cbn in Hs.
      destruct (rel_complete _ _ Hrel _ _ Hx Hs) as (i & l' & Hi & Hj).
      destruct (decide (Z.to_nat level = i)) as [<-|].
      * exists (Z.to_nat level), (l' ++ [p]). rewrite list_lookup_alter_eq, Hi. set_solver.
      * exists i, l'. by rewrite list_lookup_alter_ne.
  - intros i l'. rewrite list_lookup_alter. case_decide as E; [|by apply (rel_nodup _ _ Hrel)].
    subst i. rewrite Hqs. intros [= <-]. apply NoDup_app. split_and!.
    + by eapply rel_nodup.
    + intros j Hj ->%list_elem_of_singleton. by apply (Hpl _ _ Hqs).
    + apply NoDup_singleton.
  - intros j j' x x' Hx Hx' Hs Hs' Hpid.
    apply enq_lookup in Hx as (y & Hy & Hyp & Hyn & _).
    apply enq_lookup in Hx' as (y' & Hy' & Hyp' & Hyn' & _).
    apply (rel_pids _ _ Hrel _ _ _ _ Hy Hy'); [..|congruence].
    + destruct (decide (j = p)) as [->|Hne]; [by simplify_eq|]. rewrite Hyn in Hs by done. done.
    + destruct (decide (j' = p)) as [->|Hne]; [by simplify_eq|]. rewrite Hyn' in Hs' by done. done.
  - intros j x Hx. apply enq_lookup in Hx as (y & Hy & -> & _). cbn. by eapply rel_pid.
  - intros j x Hx Hs. apply enq_lookup in Hx as (y & Hy & _ & Hne & Heq).
    destruct (decide (j = p)) as [->|Hjp]; [destruct Heq as [E _]; [done|]; rewrite E in Hs; naive_solver|].
    rewrite Hne in * by done. by eapply (rel_level _ _ Hrel _ _ Hy).
  - cbn -[Z.of_nat]. rewrite (sum_list_alter_snoc _ _ l) by done. rewrite (rel_size _ _ Hrel). lia.
Qed.

(** A repetition-free list ends with its head only when it has one element. *)
Lemma last_head_singleton (p : nat) (l : list nat) :
  NoDup (p :: l) → last (p :: l) = Some p ↔ l = [].
Proof.
  intros [Hp _]%NoDup_cons. split; [|by intros ->].
  destruct l as [|b l]; [done|]. change (last (p :: b :: l)) with (last (b :: l)).
  by intros ?%last_Some_elem_of.
Qed.

(** The process at the head of a level, and what [pt_deq] finds there. *)
Lemma rel_head pt qs (i : nat) p (l : list nat) :
  mlf_rel pt qs → qs !! i = Some (p :: l) →
  ∃ pr q lo lr, pt_proc pt !! p = Some pr ∧ p_state pr = RUNNABLE ∧ p_current_level pr = i ∧
    level_ok pr ∧ pt_mlf pt !! i = Some q ∧ segment (pt_proc pt) q (p :: l) ∧
    last (p :: l) = Some lo ∧ pt_proc pt !! lo = Some lr ∧ (p_pid lr = p_pid pr ↔ lo = p).
Proof.
  intros Hrel Hi. destruct (rel_member _ _ Hrel i (p :: l) p Hi) as (pr & Hp & Hs & Hl); [set_solver|].
  assert (i < Z.to_nat MLF_LEVELS)%nat as Hlt.
  { rewrite <-(rel_qs _ _ Hrel). by eapply lookup_lt_Some. }
  destruct (rel_level_queue _ _ _ Hrel Hlt) as (q & l' & Hq & Hi' & Hseg). simplify_eq.
  destruct (last (p :: l)) as [lo|] eqn:Hlo; [|by apply last_None in Hlo].
  assert (lo ∈ p :: l) as Hin by (by apply last_Some_elem_of).
  destruct (rel_member _ _ Hrel i (p :: l) lo Hi Hin) as (lr & Hlr & Hls & _).
  exists pr, q, lo, lr. split_and!; try done.
  - unfold level_ok, MLF_LEVELS in *. lia.
  - split; [|congruence]. intros Hpid. apply (rel_pids _ _ Hrel _ _ _ _ Hlr Hp); congruence.
Qed.

Lemma deq_lookup pt p j :
  pt_proc (pt_deq p pt) !! j =
    if decide (p = j) then set p_state (λ _, RUNNING) <$> pt_proc pt !! p else pt_proc pt !! j.
Proof. unfold pt_deq. cbn. by rewrite list_lookup_alter. Qed.

(** Every entry of the table keeps its pid, level and link in [pt_deq]. *)
Lemma deq_lookup_inv pt p j x' :
  pt_proc (pt_deq p pt) !! j = Some x' →
  ∃ x, pt_proc pt !! j = Some x ∧ (j ≠ p → x' = x) ∧ (j = p → x' = x <| p_state := RUNNING |>).
Proof.
  rewrite deq_lookup. case_decide; [|naive_solver]. subst.
  intros (x & -> & ->)%fmap_Some. naive_solver.
Qed.

Lemma deq_next pt p j : p_next <$> pt_proc (pt_deq p pt) !! j = p_next <$> pt_proc pt !! j.
Proof. rewrite deq_lookup. case_decide; [|done]. subst. by destruct (pt_proc pt !! j). Qed.

Lemma deq_mlf pt p pr :
  pt_proc pt !! p = Some pr →
  pt_mlf (pt_deq p pt) = alter (λ q, if bool_decide (q_last q = q_first q)
        then mkQueue None None (q_size q - 1)
        else mkQueue (p_next pr) (q_last q) (q_size q - 1))
    (Z.to_nat (p_current_level pr)) (pt_mlf pt).
Proof. intros Hp. unfold pt_deq. cbn. by rewrite Hp. Qed.

Lemma deq_segment pt qs (i : nat) p (l : list nat) q :
  mlf_rel pt qs → qs !! i = Some (p :: l) → pt_mlf (pt_deq p pt) !! i = Some q →
  segment (pt_proc (pt_deq p pt)) q l.
Proof.
  intros Hrel Hi. destruct (rel_head _ _ _ _ _ Hrel Hi)
    as (pr & q0 & lo & lr & Hp & _ & Hlv & _ & Hq & (Hf & Hla & Hsz & Hlk) & Hlo & _ & _).
  assert (Hnd := rel_nodup _ _ Hrel _ _ Hi). rewrite (deq_mlf _ _ _ Hp), Hlv, Nat2Z.id.
  intros (q1 & Hq1 & ->)%list_lookup_alter_Some_eq.
  rewrite Hq in Hq1. simplify_eq. rewrite Hla, Hf. cbn [head].
  assert (Hlk' : linked (pt_proc (pt_deq p pt)) l).
  { intros j a b Ha Hb. rewrite deq_next. by apply (Hlk (S j)). }
  case_bool_decide as E.
  - apply last_head_singleton in E as ->; [|done]. split_and!; try done. cbn in *. lia.
  - destruct l as [|b l]; [done|]. split_and!; try done; cbn in *; [|lia].
    specialize (Hlk 0%nat p b eq_refl eq_refl). rewrite Hp in Hlk. cbn in Hlk. by simplify_eq.
Qed.

Lemma deq_rel pt qs (i : nat) p (l : list nat) :
  mlf_rel pt qs → qs !! i = Some (p :: l) → mlf_rel (pt_deq p pt) (<[i := l]> qs).
Proof.
  intros Hrel Hi. destruct (rel_head _ _ _ _ _ Hrel Hi)
    as (pr & q0 & lo & lr & Hp & Hst & Hlv & Hlok & Hq & Hseg & Hlo & _ & _).
  assert (Hnd := rel_nodup _ _ Hrel _ _ Hi). apply NoDup_cons in Hnd as [Hpl Hnd].
  assert (Hlen := lookup_lt_Some _ _ _ Hi).
  split.
  - cbn. rewrite length_alter. apply Hrel.
  - cbn. rewrite length_alter. apply Hrel.
  - rewrite length_insert. apply Hrel.
  - intros j q l' Hq' Hl'. destruct (decide (i = j)) as [<-|Hne].
    + rewrite list_lookup_insert_eq in Hl' by done. simplify_eq. by eapply deq_segment.
    + rewrite list_lookup_insert_ne in Hl' by done.
      assert (Hqj : pt_mlf pt !! j = Some q).
      { rewrite <-Hq', (deq_mlf _ _ _ Hp), Hlv, Nat2Z.id. by rewrite list_lookup_alter_ne. }
      destruct (rel_segment _ _ Hrel _ _ _ Hqj Hl') as (Hf & Hla & Hsz & Hlk).
      split_and!; try done. intros k a b Ha Hb. rewrite deq_next. by eapply Hlk.
  - intros j l' a Hl' Ha.
    assert (∃ l0, qs !! j = Some l0 ∧ a ∈ l0 ∧ a ≠ p) as (l0 & Hl0 & Ha0 & Hap).
    { destruct (decide (i = j)) as [<-|Hne].
      - rewrite list_lookup_insert_eq in Hl' by done. simplify_eq.
        exists (p :: l'). split_and!; [done|set_solver|by intros ->].
      - rewrite list_lookup_insert_ne in Hl' by done. exists l'. split_and!; try done.
        intros ->. destruct (rel_member _ _ Hrel _ _ _ Hl' Ha) as (x & Hx & _ & Hxl).
        simplify_eq. lia. }
    destruct (rel_member _ _ Hrel _ _ _ Hl0 Ha0) as (x & Hx & Hxs & Hxl).
    exists x. rewrite deq_lookup, decide_False by done. done.
  - intros j x Hx Hs. apply deq_lookup_inv in Hx as (y & Hy & Hne & Heq).
    destruct (decide (j = p)) as [->|Hjp]; [by rewrite Heq in Hs|]. rewrite Hne in Hs by done.
    destruct (rel_complete _ _ Hrel _ _ Hy Hs) as (k & l' & Hk & Hj).
    destruct (decide (i = k)) as [<-|].
    + exists i, l. rewrite list_lookup_insert_eq by done. simplify_eq. set_solver.
    + exists k, l'. by rewrite list_lookup_insert_ne.
  - intros j l'. destruct (decide (i = j)) as [<-|].
    + rewrite list_lookup_insert_eq by done. by intros [= <-].
    + rewrite list_lookup_insert_ne by done. apply (rel_nodup _ _ Hrel).
  - intros j j' x x' Hx Hx' Hs Hs' Hpid.
    apply deq_lookup_inv in Hx as (y & Hy & Hyn & Hye).
    apply deq_lookup_inv in Hx' as (y' & Hy' & Hyn' & Hye').
    apply (rel_pids _ _ Hrel _ _ _ _ Hy Hy').
    + destruct (decide (j = p)) as [->|]; [|by rewrite <-Hyn]. simplify_eq. congruence.
    + destruct (decide (j' = p)) as [->|]; [|by rewrite <-Hyn']. simplify_eq. congruence.
    + destruct (decide (j = p)), (decide (j' = p)); naive_solver.
  - intros j x Hx. apply deq_lookup_inv in Hx as (y & Hy & Hne & Heq). cbn.
    assert (p_pid x = p_pid y) as -> by (destruct (decide (j = p)); naive_solver).
    by eapply rel_pid.
  - intros j x Hx Hs. apply deq_lookup_inv in Hx as (y & Hy & Hne & Heq).
    destruct (decide (j = p)) as [->|Hjp].
    + rewrite Heq by done. by simplify_eq.
    + rewrite Hne in * by done. by eapply rel_level.
  - cbn. rewrite (rel_size _ _ Hrel), <-(sum_list_insert_tail _ _ _ _ Hi). lia.
Qed.
End refinement.

(** ** The process state machine *)

(** An update of a process that the scheduler does not look at. *)
Definition sched_neutral (f : proc → proc) : Prop :=
  ∀ x, p_state (f x) = p_state x ∧ p_pid (f x) = p_pid x ∧
       p_next (f x) = p_next x ∧ p_current_level (f x) = p_current_level x.

(** The steps the kernel takes on the process table, one process at a time,
    while it holds [ptable.lock] (or, for an [EMBRYO], owns the entry). *)
Inductive pt_step : ptable_t → ptable_t → Prop :=
| step_alloc pt p pr :
    pt_proc pt !! p = Some pr → p_state pr = UNUSED → pt_nextpid pt + 1 < 2 ^ 31 →
    pt_step pt (pt <| pt_nextpid := pt_nextpid pt + 1 |>
                   <| pt_proc ::= alter (λ x, x <| p_state := EMBRYO |> <| p_pid := pt_nextpid pt |>) p |>)
| step_abandon pt p pr :
    pt_proc pt !! p = Some pr → p_state pr = EMBRYO →
    pt_step pt (pt <| pt_proc ::= alter (set p_state (λ _, UNUSED)) p |>)
| step_publish pt p pr :
    pt_proc pt !! p = Some pr → p_state pr = EMBRYO → pt_step pt (pt_enq p 0 pt)
| step_run pt p pr (i : nat) q :
    pt_mlf pt !! i = Some q → q_first q = Some p → pt_proc pt !! p = Some pr →
    pt_step pt (pt_deq p pt)
| step_yield pt p pr :
    pt_proc pt !! p = Some pr → p_state pr = RUNNING → pt_step pt (pt_enq p (down pr) pt)
| step_sleep pt p pr chan :
    pt_proc pt !! p = Some pr → p_state pr = RUNNING →
    pt_step pt (pt <| pt_proc ::= alter (λ x, x <| p_chan := Some chan |> <| p_state := SLEEPING |>) p |>)
| step_wake pt p pr :
    pt_proc pt !! p = Some pr → p_state pr = SLEEPING → pt_step pt (pt_enq p (up pr) pt)
| step_kill_wake pt p pr :
    pt_proc pt !! p = Some pr → p_state pr = SLEEPING → pt_step pt (pt_enq p (p_current_level pr) pt)
| step_exit pt p pr :
    pt_proc pt !! p = Some pr → p_state pr = RUNNING →
    pt_step pt (pt <| pt_proc ::= alter (set p_state (λ _, ZOMBIE)) p |>)
| step_reap pt p pr :
    pt_proc pt !! p = Some pr → p_state pr = ZOMBIE → 0 < pt_nextpid pt →
    pt_step pt (pt <| pt_proc ::= alter (λ x, x <| p_state := UNUSED |> <| p_pid := 0 |>) p |>)
| step_priority pt p pr n :
    pt_proc pt !! p = Some pr → p_state pr = RUNNING → 0 ≤ n < MLF_LEVELS →
    pt_step pt (pt <| pt_proc ::= alter (set p_current_level (λ _, n)) p |>)
| step_other pt p f :
    sched_neutral f → pt_step pt (pt <| pt_proc ::= alter f p |>).

Section invariant.
Implicit Types (pt : ptable_t) (qs : queues) (p : nat).

Lemma alter_lookup_inv {A} (f : A → A) (l : list A) p j x' :
  alter f p l !! j = Some x' → ∃ x, l !! j = Some x ∧ x' = if decide (j = p) then f x else x.
Proof.
  rewrite list_lookup_alter. repeat case_decide; subst; try done; [|naive_solver].
  intros (x & -> & ->)%fmap_Some. eauto.
Qed.

(** Any change of the processes that keeps states, levels, links and pids. *)
Lemma neutral_rel pt qs p f :
  mlf_rel pt qs → sched_neutral f → mlf_rel (pt <| pt_proc ::= alter f p |>) qs.
Proof.
  intros Hrel Hf.
  assert (Hv : ∀ j x', alter f p (pt_proc pt) !! j = Some x' → ∃ x, pt_proc pt !! j = Some x ∧
    p_state x' = p_state x ∧ p_pid x' = p_pid x ∧ p_current_level x' = p_current_level x).
  { intros j x' (x & Hx & ->)%alter_lookup_inv. exists x. split; [done|].
    case_decide; [|done]. destruct (Hf x) as (? & ? & ? & ?). done. }
  assert (Hv' : ∀ j x, pt_proc pt !! j = Some x → ∃ x', alter f p (pt_proc pt) !! j = Some x' ∧
    p_state x' = p_state x ∧ p_current_level x' = p_current_level x ∧ p_next x' = p_next x).
  { intros j x Hx. rewrite list_lookup_alter, Hx. case_decide; [|eauto].
    subst. rewrite Hx. destruct (Hf x) as (? & ? & ? & ?). cbn. eauto. }
  split; cbn; try apply Hrel.
  - rewrite length_alter. apply Hrel.
  - intros i q l Hq Hl. destruct (rel_segment _ _ Hrel _ _ _ Hq Hl) as (? & ? & ? & Hlk).
    split_and!; try done. intros j a b Ha Hb. specialize (Hlk j a b Ha Hb).
    apply fmap_Some in Hlk as (x & Hx & Hn). destruct (Hv' _ _ Hx) as (x' & -> & _ & _ & Hn').
    cbn. by rewrite Hn', Hn.
  - intros i l j Hl Hj. destruct (rel_member _ _ Hrel _ _ _ Hl Hj) as (x & Hx & Hs & Hlv).
    destruct (Hv' _ _ Hx) as (x' & Hx' & Hs' & Hl' & _). exists x'. split_and!; congruence.
  - intros j x' Hx' Hs. destruct (Hv _ _ Hx') as (x & Hx & Hs' & _).
    eapply (rel_complete _ _ Hrel); [exact Hx|congruence].
  - intros j j' x x' Hx Hx' Hs Hs' Hpid. destruct (Hv _ _ Hx) as (y & Hy & ? & ? & _).
    destruct (Hv _ _ Hx') as (y' & Hy' & ? & ? & _).
    apply (rel_pids _ _ Hrel _ _ _ _ Hy Hy'); congruence.
  - intros j x' Hx'. destruct (Hv _ _ Hx') as (x & Hx & _ & -> & _). by eapply rel_pid.
  - intros j x' Hx' Hs. destruct (Hv _ _ Hx') as (x & Hx & Hs' & _ & Hl). rewrite Hs' in Hs.
    unfold level_ok. rewrite Hl. by eapply rel_level.
Qed.

(** A change of state of one process that stays off the queues. *)
Lemma off_queue_rel pt qs p pr f n :
  mlf_rel pt qs → pt_proc pt !! p = Some pr →
  p_state pr ≠ RUNNABLE → p_state (f pr) ≠ RUNNABLE →
  (p_state (f pr) = SLEEPING ∨ p_state (f pr) = RUNNING → level_ok (f pr)) →
  pt_nextpid pt ≤ n → p_pid (f pr) < n →
  (p_state (f pr) ≠ UNUSED →
    p_pid (f pr) = p_pid pr ∧ p_state pr ≠ UNUSED ∨ p_pid (f pr) = pt_nextpid pt) →
  mlf_rel (pt <| pt_nextpid := n |> <| pt_proc ::= alter f p |>) qs.
Proof.
  intros Hrel Hp Hnr Hnr' Hlv Hn Hpid Huniq.
  assert (Hoff : ∀ i l, qs !! i = Some l → p ∉ l) by (intros; by eapply not_runnable_not_queued).
  assert (Hfresh : ∀ j x, pt_proc pt !! j = Some x → p_state x ≠ UNUSED →
    p_state (f pr) ≠ UNUSED → p_pid (f pr) = p_pid x → p = j).
  { intros j x Hx Hs Hs' E. destruct (Huniq Hs') as [[E' Hpu]|E'].
    - apply (rel_pids _ _ Hrel _ _ _ _ Hp Hx); congruence.
    - assert (p_pid x < pt_nextpid pt) by (by eapply rel_pid). lia. }
  split; cbn; try apply Hrel.
  - rewrite length_alter. apply Hrel.
  - intros i q l Hq Hl. destruct (rel_segment _ _ Hrel _ _ _ Hq Hl) as (? & ? & ? & Hlk).
    split_and!; try done. intros j a b Ha Hb. rewrite list_lookup_alter_ne; [by eapply Hlk|].
    intros <-. eapply Hoff; [exact Hl|]. by eapply list_elem_of_lookup_2.
  - intros i l j Hl Hj. rewrite list_lookup_alter_ne; [by eapply rel_member|].
    intros <-. by eapply Hoff.
  - intros j x (y & Hy & ->)%alter_lookup_inv Hs. case_decide; [subst; by simplify_eq|].
    by eapply rel_complete.
  - intros j j' x x' (y & Hy & ->)%alter_lookup_inv (y' & Hy' & ->)%alter_lookup_inv Hs Hs' E.
    repeat case_decide; subst; simplify_eq; try done; [by eapply Hfresh| |by eapply (rel_pids _ _ Hrel)].
    symmetry. by eapply Hfresh.
  - intros j x (y & Hy & ->)%alter_lookup_inv. case_decide; [subst; by simplify_eq|].
    eapply Z.lt_le_trans; [by eapply rel_pid|done].
  - intros j x (y & Hy & ->)%alter_lookup_inv Hs. case_decide; [subst; by simplify_eq; auto|].
    by eapply rel_level.
Qed.

Lemma set_nextpid_same pt : pt <| pt_nextpid := pt_nextpid pt |> = pt.
Proof. by destruct pt. Qed.

Lemma up_ok pr : level_ok pr → 0 ≤ up pr < MLF_LEVELS.
Proof. unfold level_ok, up. destruct (0 <? _) eqn:?; lia. Qed.

Lemma down_ok pr : level_ok pr → 0 ≤ down pr < MLF_LEVELS.
Proof. unfold level_ok, down, MLF_LEVELS. destruct (_ <? _) eqn:?; lia. Qed.

Ltac off_queue :=
  eapply off_queue_rel; try done; cbn; try congruence; try lia;
  try (intros []; congruence); try (by eapply rel_pid);
  try (intros _; left; split; congruence).

Lemma pt_step_rel pt qs pt' : mlf_rel pt qs → pt_step pt pt' → ∃ qs', mlf_rel pt' qs'.
Proof.
  intros Hrel Hstep. destruct Hstep as [pt p pr Hp Hs Hn|pt p pr Hp Hs|pt p pr Hp Hs
    |pt p pr i q Hq Hf Hp|pt p pr Hp Hs|pt p pr chan Hp Hs|pt p pr Hp Hs|pt p pr Hp Hs
    |pt p pr Hp Hs|pt p pr Hp Hs Hn|pt p pr n Hp Hs Hn|pt p f Hf].
  - exists qs. off_queue.
  - exists qs. rewrite <-(set_nextpid_same pt) at 1. off_queue.
  - eexists. eapply enq_rel; try done; congruence.
  - destruct (rel_level_queue pt qs i) as (q' & l & Hq' & Hl & Hseg & _); [done| |].
    { rewrite <-(rel_mlf _ _ Hrel). by eapply lookup_lt_Some. }
    simplify_eq. rewrite Hf in Hseg. destruct l as [|p' l]; [done|]. cbn in Hseg. simplify_eq.
    eexists. by eapply deq_rel.
  - eexists. eapply enq_rel; try done; try congruence. apply down_ok.
    eapply rel_level; eauto.
  - exists qs. rewrite <-(set_nextpid_same pt) at 1. off_queue.
    intros _. apply (rel_level _ _ Hrel _ _ Hp). eauto.
  - eexists. eapply enq_rel; try done; try congruence. apply up_ok. eapply rel_level; eauto.
  - eexists. eapply enq_rel; try done; try congruence. eapply rel_level; eauto.
  - exists qs. rewrite <-(set_nextpid_same pt) at 1. off_queue.
  - exists qs. rewrite <-(set_nextpid_same pt) at 1. off_queue.
  - exists qs. rewrite <-(set_nextpid_same pt) at 1. off_queue.
  - exists qs. by apply neutral_rel.
Qed.
End invariant.
