(* ===== verification/Sched.v ===== *)
(** The scheduling operations of proc.c ([wakeup], [yield], [sleep], [kill],
    [allocproc], the scheduler loop) as steps of the queue's state machine,
    with their locks and the points where the processor changes hands. *)
From stdpp Require Import base numbers gmap strings option list.
From S2P Require Import Prelude State Spinlock Str Cprintf Kalloc Proc Mlf.

(** ** The operations take steps of the state machine *)

(** ** Entries and CPUs *)

Section entries.
(** The state with entry [i] of the table replaced. *)
Definition set_proc (i : nat) (x : proc) (s : kstate) : kstate :=
  s <| k_ptable ::= set pt_proc (<[i := x]>) |>.
Definition entry (i : nat) (x : proc) (s : kstate) : Prop := pt_proc (k_ptable s) !! i = Some x.

Lemma upd_proc_set i x f s : entry i x s → upd_proc i f s = Ret tt (set_proc i (f x) s).
Proof.
  intros Hx. rewrite (upd_proc_eq _ _ x) by done. unfold set_proc. cbn. by rewrite (alter_insert _ _ _ x).
Qed.
Lemma entry_set i x y s : entry i x s → entry i y (set_proc i y s).
Proof. intros Hx. unfold entry. cbn. apply list_lookup_insert_eq. by eapply lookup_lt_Some. Qed.
Lemma set_proc_set i x y s : set_proc i y (set_proc i x s) = set_proc i y s.
Proof. unfold set_proc. cbn. by rewrite list_insert_insert_eq. Qed.
End entries.

(** Run an update of the process whose entry is known from [H]. *)
Ltac solve_entry H :=
  first [exact H | eapply entry_set; exact H
        | unfold entry; cbn; rewrite ?list_insert_insert_eq; apply list_lookup_insert_eq;
          apply lookup_lt_Some in H; cbn in H; rewrite ?length_alter in *; exact H].
Ltac pstep H := erewrite bind_ret; [|eapply upd_proc_set; solve_entry H]; cbv beta.

Section operations.
Context `{kenv}.
Implicit Types (s t : kstate) (pt : ptable_t) (qs : queues) (p : nat).

Lemma set_ptable_twice s x y : s <| k_ptable := x |> <| k_ptable := y |> = s <| k_ptable := y |>.
Proof. done. Qed.

(** [make_runnable] of a process off the queues appends it to its level. *)
Lemma make_runnable_rel s qs p pr level :
  mlf_rel (k_ptable s) qs → pt_proc (k_ptable s) !! p = Some pr →
  p_state pr ≠ RUNNABLE → p_state pr ≠ UNUSED → 0 ≤ level < MLF_LEVELS →
  make_runnable p level s = Ret tt (s <| k_ptable ::= pt_enq p level |>) ∧
  mlf_rel (pt_enq p level (k_ptable s)) (alter (λ l, l ++ [p]) (Z.to_nat level) qs).
Proof.
  intros Hrel Hp Hr Hu Hl.
  destruct (rel_level_queue _ _ _ Hrel (level_nat _ Hl)) as (q & l & Hq & Hi & Hseg).
  split; [|by eapply enq_rel]. eapply make_runnable_eq; try done.
  intros Hf. by eapply rel_last_entry.
Qed.

Lemma make_running_rel s qs (i : nat) p (l : list nat) :
  mlf_rel (k_ptable s) qs → qs !! i = Some (p :: l) →
  make_running p s = Ret tt (s <| k_ptable ::= pt_deq p |>) ∧
  mlf_rel (pt_deq p (k_ptable s)) (<[i := l]> qs).
Proof.
  intros Hrel Hi. split; [|by eapply deq_rel].
  destruct (rel_head _ _ _ _ _ Hrel Hi)
    as (pr & q & lo & lr & Hp & _ & Hlv & Hok & Hq & (Hf & Hla & _) & Hlo & Hlr & Hpid).
  eapply (make_running_eq s p pr q p lo pr lr); try done.
  - by rewrite Hlv, Nat2Z.id.
  - by rewrite Hla.
Qed.

(** What a wakeup does to one entry of the table. *)
Definition sleeps_on (chan : channel) (x : proc) : bool :=
  bool_decide (p_state x = SLEEPING) && bool_decide (p_chan x = Some chan).
Definition woken (chan : channel) (x x' : proc) : Prop :=
  x' = (if sleeps_on chan x then x <| p_current_level := up x |> <| p_state := RUNNABLE |> else x)
         <| p_next := p_next x' |>.

Lemma wakeup1_steps chan s qs :
  mlf_rel (k_ptable s) qs →
  ∃ pt', wakeup1 chan s = Ret tt (s <| k_ptable := pt' |>) ∧
    rtc pt_step (k_ptable s) pt' ∧ (∃ qs', mlf_rel pt' qs') ∧
    pt_nextpid pt' = pt_nextpid (k_ptable s) ∧
    ∀ j x, pt_proc (k_ptable s) !! j = Some x →
      ∃ x', pt_proc pt' !! j = Some x' ∧ woken chan x x'.
Proof.
  intros Hrel.
  set (I (dn : list nat) t := ∃ pt', t = s <| k_ptable := pt' |> ∧
    rtc pt_step (k_ptable s) pt' ∧ (∃ qs', mlf_rel pt' qs') ∧
    pt_nextpid pt' = pt_nextpid (k_ptable s) ∧
    ∀ j x, pt_proc (k_ptable s) !! j = Some x → ∃ x', pt_proc pt' !! j = Some x' ∧
      if decide (j ∈ dn) then woken chan x x' else x' = x <| p_next := p_next x' |>).
  destruct (returns_for_each (seq 0 NPROC) (λ i,
    let* x := get_proc i in
    if sleeps_on chan x then make_runnable i (up x) else ret tt) I s) as ([] & t & Ht & HI).
  - exists (k_ptable s). split_and!; [by destruct s|done|eauto|done|].
    intros j x Hx. exists x. split; [done|]. rewrite decide_False by set_solver. by destruct x.
  - intros dn i rest t Hseq (pt' & -> & Hst & (qs' & Hrel') & Hnp & Hps).
    assert (Hin : i ∈ seq 0 NPROC) by (rewrite Hseq; set_solver). apply elem_of_seq in Hin.
    assert (Hid : i ∉ dn).
    { assert (Hnd := NoDup_seq 0 NPROC). rewrite Hseq in Hnd.
      apply NoDup_app in Hnd as (_ & Hd & _). intros Hi. apply (Hd i Hi). set_solver. }
    destruct (lookup_lt_is_Some_2 (pt_proc (k_ptable s)) i) as [x Hx].
    { rewrite (rel_procs _ _ Hrel). lia. }
    destruct (Hps i x Hx) as (x' & Hx' & Hxx). rewrite decide_False in Hxx by done.
    assert (Hsl : sleeps_on chan x' = sleeps_on chan x) by (by rewrite Hxx).
    assert (Hup : up x' = up x) by (by rewrite Hxx).
    apply returns_bind. eapply returns_eq; [by apply get_proc_eq|]. rewrite Hsl.
    destruct (sleeps_on chan x) eqn:E.
    + assert (p_state x' = SLEEPING) as Hs'.
      { rewrite Hxx. unfold sleeps_on in E. rewrite andb_true_iff, !bool_decide_eq_true in E. naive_solver. }
      assert (level_ok x') by (eapply rel_level; eauto).
      destruct (make_runnable_rel (s <| k_ptable := pt' |>) qs' i x' (up x')) as [He Hr'];
        try done; [congruence|congruence|by apply up_ok|].
      eapply returns_eq; [exact He|]. exists (pt_enq i (up x') pt'). split_and!; [done| |eauto|done|].
      { eapply rtc_r; [done|]. by eapply step_wake. }
      intros j y Hy. destruct (Hps j y Hy) as (y' & Hy' & Hyy).
      destruct (enq_lookup_fwd pt' i (up x') j y' Hy') as (z & Hz & Hzz). exists z. split; [done|].
      destruct (decide (j = i)) as [->|Hji].
      * rewrite decide_True by set_solver. simplify_eq. unfold woken. rewrite E, Hzz, Hxx. by destruct x.
      * destruct (decide (j ∈ dn)) as [Hd|Hd].
        -- rewrite decide_True by set_solver. unfold woken in *. rewrite Hzz, Hyy. done.
        -- rewrite decide_False by set_solver. by rewrite Hzz, Hyy.
    + apply returns_ret. exists pt'. split_and!; eauto. intros j y Hy.
      destruct (Hps j y Hy) as (y' & Hy' & Hyy). exists y'. split; [done|].
      destruct (decide (j = i)) as [->|Hji].
      * rewrite decide_True by set_solver. simplify_eq. unfold woken. by rewrite E.
      * destruct (decide (j ∈ dn)); [rewrite decide_True by set_solver|rewrite decide_False by set_solver]; done.
  - destruct HI as (pt' & -> & Hst & Hr & Hnp & Hps). exists pt'. split_and!; try done.
    intros j x Hx. destruct (Hps j x Hx) as (x' & Hx' & Hw). exists x'. split; [done|].
    rewrite decide_True in Hw; [done|]. apply elem_of_seq.
    apply lookup_lt_Some in Hx. rewrite (rel_procs _ _ Hrel) in Hx. lia.
Qed.

Lemma wakeup_eq chan s qs :
  cpu_wf s → lock_free LkPtable s → mlf_rel (k_ptable s) qs →
  ∃ cs pt', cpus_eqv (k_cpu s) (k_cpus s) cs ∧
    wakeup chan s = Ret tt (s <| k_cpus := cs |> <| k_ptable := pt' |>) ∧
    rtc pt_step (k_ptable s) pt' ∧ (∃ qs', mlf_rel pt' qs') ∧
    pt_nextpid pt' = pt_nextpid (k_ptable s) ∧
    ∀ j x, pt_proc (k_ptable s) !! j = Some x →
      ∃ x', pt_proc pt' !! j = Some x' ∧ woken chan x x'.
Proof.
  intros Hc Hl Hrel.
  destruct (wakeup1_steps chan (acq LkPtable s) qs) as (pt' & He & Hrest); [done|].
  exists (relcpus s), pt'. split; [apply cpus_eqv_relcpus|]. split; [|done].
  unfold wakeup. step (acquire_free _ _ Hc Hl). step He.
  erewrite release_acq; [|exact Hc|exact Hl|done..]. by destruct s.
Qed.

(** The end of a critical section under a lock other than [ptable.lock]:
    wake the waiters and release.  [s] is the state before the lock was
    taken, [u] the one the critical section has reached. *)
Lemma wakeup_release l chan s u qs :
  cpu_wf s → lock_free l s → lock_free LkPtable s → l ≠ LkPtable → mlf_rel (k_ptable u) qs →
  k_cpu u = k_cpu s → k_cpus u = k_cpus (acq l s) → k_locks u = k_locks (acq l s) →
  ∃ pt', rtc pt_step (k_ptable u) pt' ∧ (∃ qs', mlf_rel pt' qs') ∧
    (do* wakeup chan in release l) u =
    Ret tt (u <| k_cpus := relcpus s |> <| k_ptable := pt' |> <| k_locks := k_locks s |>).
Proof.
  intros Hc Hl Hp Hne Hrel E1 E2 E3.
  destruct (wakeup_eq chan u qs) as (cs & pt' & Hcs & Hw & Hst & Hq & _).
  { apply (cpu_wf_acq l) in Hc. by eapply (cpu_wf_ext (acq l s)). }
  { unfold lock_free. rewrite E3. cbn. by rewrite lookup_insert_ne. }
  { done. }
  exists pt'. split; [done|]. split; [done|].
  assert (cs = k_cpus (acq l s)) as ->.
  { destruct Hc as (c & Hc & Hg). rewrite E1, E2 in Hcs.
    eapply cpus_eqv_nested; [exact Hcs|by apply alter_lookup_eq|]. cbn. destruct Hg. lia. }
  step Hw. rewrite (release_acq l s) by done. by destruct u.
Qed.

(** The CPU runs process [p] inside exactly one [acquire]. *)
Definition cpu_runs (p : nat) (s : kstate) : Prop :=
  ∃ c, k_cpus s !! k_cpu s = Some c ∧ ncli c = 1 ∧ Z.land (eflags c) FL_IF = 0 ∧
    cpu_proc c = Some p.

Lemma curproc_eq s c p : k_cpus s !! k_cpu s = Some c → cpu_proc c = Some p → curproc s = Ret p s.
Proof. intros Hc Hp. unfold curproc, myproc, get_cpu. mred. rewrite Hc. by rewrite Hp. Qed.

Lemma sched_eq s p pr :
  lock_held LkPtable s → cpu_runs p s →
  pt_proc (k_ptable s) !! p = Some pr → p_state pr ≠ RUNNING →
  ∃ i, sched s = Wait Swtch s (upd_cpu (set intena (λ _, i))).
Proof.
  intros Hl (c & Hc & Hn & He & Hp) Hpr Hs. exists (intena c). unfold sched.
  step (holding_eq _ _ _ Hl). cbn [negb locked lk_held lk_cpu]. rewrite bool_decide_true by done.
  cbn [andb negb Z.eqb]. step (get_cpu_eq _ _ Hc). rewrite Hn. cbn [Z.eqb Pos.eqb negb].
  step (curproc_eq _ _ _ Hc Hp). step (get_proc_eq _ _ _ Hpr). rewrite bool_decide_false by done.
  step (readeflags_eq _ _ Hc). by rewrite He.
Qed.

(** The end of [sched] and the [release] after it, in the state in which
    the process is switched to again. *)
Lemma sched_resume t p i :
  cpu_runs p t → ∃ t', upd_cpu (set intena (λ _, i)) t = Ret tt t' ∧ cpu_runs p t' ∧
    k_locks t' = k_locks t ∧ k_ptable t' = k_ptable t ∧ k_cpu t' = k_cpu t.
Proof.
  intros (c & Hc & Hn & He & Hp). eexists. split; [by eapply upd_cpu_ins|]. split_and!; try done.
  exists (c <| intena := i |>). cbn. rewrite list_lookup_insert_eq by (by eapply lookup_lt_Some). done.
Qed.

Lemma release_runs t p l :
  lock_held l t → cpu_runs p t →
  ∃ t' c, release l t = Ret tt t' ∧ k_cpu t' = k_cpu t ∧ k_locks t' = <[l := lk_free]> (k_locks t) ∧
    k_ptable t' = k_ptable t ∧ k_cpus t' !! k_cpu t' = Some c ∧ ncli c = 0 ∧ cpu_proc c = Some p.
Proof.
  intros Hl (c & Hc & Hn & He & Hp). eexists _, (cpu_pop c).
  split; [eapply release_held; try done; lia|]. split_and!; try done.
  - cbn. apply list_lookup_insert_eq. by eapply lookup_lt_Some.
  - unfold cpu_pop. destruct (_ && _); cbn; lia.
  - unfold cpu_pop. by destruct (_ && _).
Qed.

Lemma yield_eq s c p pr qs :
  k_cpus s !! k_cpu s = Some c → ncli c = 0 → cpu_proc c = Some p → lock_free LkPtable s →
  mlf_rel (k_ptable s) qs → pt_proc (k_ptable s) !! p = Some pr → p_state pr = RUNNING →
  ∃ s1 k, yield s = Wait Swtch s1 k ∧ k_ptable s1 = pt_enq p (down pr) (k_ptable s) ∧
    mlf_rel (k_ptable s1) (alter (λ l, l ++ [p]) (Z.to_nat (down pr)) qs) ∧
    lock_held LkPtable s1 ∧ cpu_runs p s1 ∧
    ∀ t, lock_held LkPtable t → cpu_runs p t → ∃ t', k t = Ret tt t' ∧
      k_ptable t' = k_ptable t ∧ lock_free LkPtable t'.
Proof.
  intros Hc Hn Hp Hl Hrel Hpr Hs.
  assert (Hd : 0 ≤ down pr < MLF_LEVELS) by (eapply down_ok, rel_level; eauto).
  set (s0 := acq LkPtable s).
  assert (Hc0 : k_cpus s0 !! k_cpu s0 = Some (cpu_push c)) by (by apply alter_lookup_eq).
  destruct (make_runnable_rel s0 qs p pr (down pr)) as [He Hr]; try done; try congruence.
  set (s1 := s0 <| k_ptable ::= pt_enq p (down pr) |>) in *.
  assert (Hl1 : lock_held LkPtable s1) by (unfold lock_held; cbn; by rewrite lookup_insert_eq).
  assert (Hr1 : cpu_runs p s1).
  { exists (cpu_push c). split_and!; [done|cbn; lia|apply land_ldiff_same|done]. }
  destruct (enq_lookup_fwd (k_ptable s) p (down pr) p pr Hpr) as (pr1 & Hpr1 & Heq1).
  destruct (sched_eq s1 p pr1) as [i Hsch]; [done|done|done| |].
  { rewrite Heq1, decide_True by done. done. }
  exists s1. eexists. split; [|split_and!; [done|done|done|done|]].
  - unfold yield. step (acquire_free LkPtable s); [|exists c; split; [done|split; lia]|done].
    fold s0. step (curproc_eq _ _ p Hc0); [|done]. step (get_proc_eq s0 p pr Hpr).
    step He. rewrite (bind_wait _ _ _ _ _ _ Hsch). reflexivity.
  - intros t Ht Hrt. cbv beta. destruct (sched_resume t p i Hrt) as (t1 & -> & Hr2 & Hk & Hpt & Hcpu).
    cbn. destruct (release_runs t1 p LkPtable) as (t2 & c2 & -> & _ & Hk2 & Hpt2 & _); [|done|].
    { unfold lock_held. by rewrite Hk, Hcpu. }
    exists t2. split_and!; [done|congruence|]. unfold lock_free. by rewrite Hk2, lookup_insert_eq.
Qed.

(** Taking [ptable.lock] inside another lock and dropping the other one
    leaves the CPU inside exactly one [acquire]. *)
Lemma lock_handover s p lk :
  lk ≠ LkPtable → lock_held lk s → lock_free LkPtable s → cpu_runs p s →
  ∃ s1, (do* acquire LkPtable in release lk) s = Ret tt s1 ∧ cpu_runs p s1 ∧
    lock_held LkPtable s1 ∧ lock_free lk s1 ∧ k_ptable s1 = k_ptable s ∧ k_cpu s1 = k_cpu s.
Proof.
  intros Hne Hh Hf (c & Hc & Hn & He & Hp).
  assert (Hc1 : k_cpus (acq LkPtable s) !! k_cpu (acq LkPtable s) = Some (cpu_push c))
    by (by apply alter_lookup_eq).
  eexists. split.
  { step (acquire_free LkPtable s); [|exists c; split; [done|split; lia]|done].
    eapply (release_held _ _ _ ); [|exact Hc1|apply land_ldiff_same|cbn; lia].
    unfold lock_held. cbn. by rewrite lookup_insert_ne. }
  split_and!; try done; unfold lock_held, lock_free; cbn.
  - exists (cpu_pop (cpu_push c)). cbn. split.
    + apply list_lookup_insert_eq. rewrite length_alter. by eapply lookup_lt_Some.
    + unfold cpu_pop. cbn. rewrite Hn. cbn. split_and!; [done|apply land_ldiff_same|done].
  - by rewrite lookup_insert_ne, lookup_insert_eq.
  - by rewrite lookup_insert_eq.
Qed.

(** Falling asleep: from the test the caller made under [lk] to the switch
    to the scheduler nothing else runs. *)
Lemma sleep_eq chan lk s p pr :
  lk ≠ LkPtable → lock_held lk s → lock_free LkPtable s → cpu_runs p s →
  pt_proc (k_ptable s) !! p = Some pr →
  ∃ s1 k, sleep chan (Some lk) s = Wait Swtch s1 k ∧
    k_ptable s1 = (k_ptable s)
      <| pt_proc ::= alter (λ x, x <| p_chan := Some chan |> <| p_state := SLEEPING |>) p |> ∧
    lock_held LkPtable s1 ∧ lock_free lk s1 ∧ cpu_runs p s1 ∧
    ∀ t, lock_held LkPtable t → lock_free lk t → cpu_runs p t →
      (∃ x, pt_proc (k_ptable t) !! p = Some x) →
      returns k t (λ _ t', lock_held lk t' ∧ lock_free LkPtable t' ∧ cpu_runs p t' ∧
        k_ptable t' = (k_ptable t) <| pt_proc ::= alter (set p_chan (λ _, None)) p |>).
Proof.
  intros Hne Hh Hf Hr Hpr.
  destruct (lock_handover s p lk Hne Hh Hf Hr) as (s1 & Hov & Hr1 & Hl1 & Hk1 & Hpt1 & Hcpu1).
  set (s2 := s1 <| k_ptable := (k_ptable s)
      <| pt_proc ::= alter (λ x, x <| p_chan := Some chan |> <| p_state := SLEEPING |>) p |> |>).
  destruct (sched_eq s2 p (pr <| p_chan := Some chan |> <| p_state := SLEEPING |>))
    as [i Hsch]; [done|done|cbn; by rewrite list_lookup_alter_eq, Hpr|done|].
  exists s2. eexists. split; [|split_and!; try done].
  - unfold sleep, myproc. destruct Hr as (c & Hc & _ & _ & Hp).
    rewrite (bind_ret _ _ s (Some p) s) by (step (get_cpu_eq _ _ Hc); by rewrite Hp). cbv beta iota.
    rewrite bool_decide_true by done. step Hov. destruct Hr1 as (c1 & Hc1 & _ & _ & Hp1).
    step (curproc_eq _ _ _ Hc1 Hp1). step (upd_proc_eq _ _ pr); [|by rewrite Hpt1].
    step (upd_proc_eq _ _ (pr <| p_chan := Some chan |>)); [|cbn; by rewrite Hpt1, list_lookup_alter_eq, Hpr].
    erewrite bind_wait; [reflexivity|]. rewrite <-Hsch. f_equal. unfold s2. rewrite <-Hpt1.
    cbn. by rewrite list_alter_alter_eq.
  - intros t Ht Hkt Hrt [x Hx].
    destruct (sched_resume t p i Hrt) as (t1 & He1 & Hr2 & Hk2 & Hpt2 & Hcpu2).
    set (t2 := t1 <| k_ptable ::= set pt_proc (alter (set p_chan (λ _, None)) p) |>).
    destruct (release_runs t2 p LkPtable) as (t3 & c3 & He3 & Hcpu3 & Hk3 & Hpt3 & Hc3 & Hn3 & Hp3).
    { unfold lock_held. cbn. by rewrite Hk2, Hcpu2. }
    { done. }
    assert (Hlk3 : lock_free lk t3) by (unfold lock_free; rewrite Hk3, lookup_insert_ne; cbn; [by rewrite Hk2|done]).
    eapply returns_eq.
    + cbv beta. rewrite He1. cbn [obind]. destruct Hr2 as (c2 & Hc2 & _ & _ & Hp2).
      step (curproc_eq _ _ _ Hc2 Hp2). step (upd_proc_eq _ _ x); [|by rewrite Hpt2].
      step He3. apply acquire_free; [|done]. exists c3. split; [done|split; lia].
    + split_and!; [unfold lock_held; cbn; by rewrite lookup_insert_eq| | |].
      * unfold lock_free. cbn. by rewrite lookup_insert_ne, Hk3, lookup_insert_eq.
      * exists (cpu_push c3). split; [by apply alter_lookup_eq|].
        split_and!; [cbn; lia|apply land_ldiff_same|done].
      * cbn. rewrite Hpt3. cbn. by rewrite Hpt2.
Qed.

(** ** The scheduler *)

(** The state with the running CPU replaced. *)
Definition set_cpu (c : cpu) (s : kstate) : kstate := s <| k_cpus := <[k_cpu s := c]> (k_cpus s) |>.
Definition runs_on (c : cpu) (s : kstate) : Prop := k_cpus s !! k_cpu s = Some c.

Lemma runs_on_set c c' s : runs_on c s → runs_on c' (set_cpu c' s).
Proof. intros Hc. by apply (lookup_set_cpus s c c'). Qed.

Lemma set_cpu_set c1 c2 s : set_cpu c2 (set_cpu c1 s) = set_cpu c2 s.
Proof. unfold set_cpu. cbn. by rewrite list_insert_insert_eq. Qed.

Lemma upd_cpu_set f s c : runs_on c s → upd_cpu f s = Ret tt (set_cpu (f c) s).
Proof. apply upd_cpu_ins. Qed.

Lemma pushcli_set s c : runs_on c s → pushcli s = Ret tt (set_cpu (cpu_push c) s).
Proof.
  intros Hc. rewrite (pushcli_eq _ _ Hc). unfold set_cpu. cbn. by rewrite (alter_insert _ _ _ c).
Qed.

(** [switchuvm] on a CPU that already runs [p]. *)
Definition cpu_uvm (pr : proc) (c : cpu) : cpu :=
  c <| ts_ss0 := Z.shiftl SEG_KDATA 3 |> <| ts_esp0 := u32 (p_kstack pr + KSTACKSIZE) |>
    <| tr := Z.shiftl SEG_TSS 3 |> <| cr3 := v2p (p_pgdir pr) |>.

Lemma switchuvm_eq s c p pr :
  runs_on c s → cpu_proc c = Some p → 0 < ncli c → Z.land (eflags c) FL_IF = 0 →
  pt_proc (k_ptable s) !! p = Some pr → p_pgdir pr ≠ 0 →
  switchuvm p s = Ret tt (set_cpu (cpu_uvm pr c) s).
Proof.
  intros Hc Hp Hn He Hpr Hpg. unfold switchuvm. step (pushcli_set _ _ Hc).
  rewrite (cpu_push_nested c) by done.
  step (upd_cpu_set _ _ _ (runs_on_set _ _ _ Hc)). rewrite set_cpu_set.
  step (curproc_eq _ _ p (runs_on_set _ _ _ Hc)); [|done]. step (get_proc_eq _ _ pr); [|done].
  step (upd_cpu_set _ _ _ (runs_on_set _ _ _ Hc)). rewrite set_cpu_set.
  step (upd_cpu_set _ _ _ (runs_on_set _ _ _ Hc)). rewrite set_cpu_set.
  step (get_proc_eq _ _ pr); [|done]. rewrite (proj2 (Z.eqb_neq _ _) Hpg).
  step (upd_cpu_set _ _ _ (runs_on_set _ _ _ Hc)). rewrite set_cpu_set.
  erewrite popcli_eq; [|by eapply runs_on_set|done|cbn; lia|reflexivity].
  fold (set_cpu (cpu_uvm pr c) s). unfold set_cpu. cbn. rewrite list_insert_insert_eq.
  replace (ncli c + 1 =? 1) with false by lia. cbn. do 4 f_equal.
  replace (ncli c + 1 - 1) with (ncli c) by lia. by destruct c.
Qed.

Lemma scheduler_back t c :
  runs_on c t →
  (do* switchkvm in upd_cpu (set cpu_proc (λ _, None))) t =
    Ret tt (set_cpu (c <| cr3 := v2p (k_kpgdir t) |> <| cpu_proc := None |>) t).
Proof.
  intros Hc. unfold switchkvm. erewrite bind_ret; [|mstep; by apply upd_cpu_set].
  erewrite upd_cpu_set by (by eapply runs_on_set). by rewrite set_cpu_set.
Qed.

(** The head of a level is chosen: what the scheduler has done when it
    switches to the process, and what it does when it is switched back to. *)
Lemma scheduler_step_eq s c qs (i : nat) p (l : list nat) pr :
  runs_on c s → 0 < ncli c → Z.land (eflags c) FL_IF = 0 →
  mlf_rel (k_ptable s) qs → qs !! i = Some (p :: l) →
  pt_proc (k_ptable s) !! p = Some pr → p_pgdir pr ≠ 0 →
  ∃ s1 k, scheduler_step i s = Wait Swtch s1 k ∧
    runs_on (cpu_uvm pr (c <| cpu_proc := Some p |>)) s1 ∧ k_locks s1 = k_locks s ∧
    k_ptable s1 = (pt_deq p (k_ptable s)) <| pt_proc ::= alter (set p_quantum (λ _, 0)) p |> ∧
    mlf_rel (k_ptable s1) (<[i := l]> qs) ∧
    ∀ t ct qt (lt : list nat), runs_on ct t → mlf_rel (k_ptable t) qt → qt !! i = Some lt →
      k t = Ret (match lt with [] => i + 1 | _ => i : Z end)
                (set_cpu (ct <| cr3 := v2p (k_kpgdir t) |> <| cpu_proc := None |>) t).
Proof.
  intros Hc Hn He Hrel Hi Hpr Hpg.
  destruct (rel_head _ _ _ _ _ Hrel Hi)
    as (pr' & q & lo & lr & Hp' & Hst & Hlv & Hok & Hq & (Hf & _) & _). simplify_eq.
  assert (Hlev : 0 ≤ i < MLF_LEVELS) by (unfold level_ok in Hok; by rewrite Hlv in Hok).
  set (s0 := set_cpu (cpu_uvm pr (c <| cpu_proc := Some p |>)) s).
  destruct (make_running_rel s0 qs i p l) as [Hmr Hrel']; [done|done|].
  set (pt2 := (pt_deq p (k_ptable s)) <| pt_proc ::= alter (set p_quantum (λ _, 0)) p |>).
  exists (s0 <| k_ptable := pt2 |>). eexists. split; [|split_and!].
  - unfold scheduler_step. step (get_queue_eq _ _ q Hlev); [|by rewrite Nat2Z.id]. rewrite Hf. cbn [head].
    erewrite bind_wait; [reflexivity|].
    step (get_proc_eq _ _ _ Hpr). rewrite Hst. cbn [bool_decide negb decide_rel].
    rewrite bool_decide_true by done. cbn [negb].
    step (upd_cpu_set _ _ _ Hc).
    step (switchuvm_eq _ _ p pr (runs_on_set _ _ _ Hc)); [|done..]. rewrite set_cpu_set. fold s0.
    step Hmr. step (upd_proc_eq _ _ (pr <| p_state := RUNNING |>)).
    2:{ cbn. by rewrite list_lookup_alter_eq, Hpr. }
    reflexivity.
  - by eapply runs_on_set.
  - done.
  - done.
  - cbn. apply neutral_rel; [done|]. done.
  - intros t ct qt lt Hct Hqt Hlt. cbn [obind].
    rewrite (scheduler_back t ct Hct). cbn [obind].
    destruct (rel_level_queue _ _ i Hqt) as (q' & l' & Hq' & Hl' & Hf' & _).
    { rewrite <-(rel_qs _ _ Hqt). by eapply lookup_lt_Some. }
    simplify_eq. step (get_queue_eq _ _ q' Hlev); [|cbn; by rewrite Nat2Z.id].
    rewrite Hf'. by destruct lt.
Qed.

(** ** Allocation and kill *)

(** The first entry of the table that satisfies [P]. *)
Definition first_entry (P : proc → bool) (pt : ptable_t) (i : nat) (x : proc) : Prop :=
  pt_proc pt !! i = Some x ∧ P x = true ∧
  ∀ j y, (j < i)%nat → pt_proc pt !! j = Some y → P y = false.

Lemma first_entry_inj P pt i x j y : first_entry P pt i x → first_entry P pt j y → i = j ∧ x = y.
Proof.
  intros (Hx & HPx & Hi) (Hy & HPy & Hj). assert (i = j) as <-; [|by simplify_eq].
  destruct (Nat.lt_trichotomy i j) as [Hlt|[?|Hlt]]; [|done|].
  - specialize (Hj _ _ Hlt Hx). congruence.
  - specialize (Hi _ _ Hlt Hy). congruence.
Qed.

Lemma find_proc_eq P s :
  (∃ i x, find_proc P s = Ret (Some i) s ∧ first_entry P (k_ptable s) i x) ∨
  (find_proc P s = Ret None s ∧ ∀ j y, pt_proc (k_ptable s) !! j = Some y → P y = false).
Proof.
  unfold find_proc, gets. destruct (list_find P _) as [[i x]|] eqn:E.
  - left. exists i, x. split; [done|]. apply list_find_Some in E as (Hx & HP & Hn).
    split_and!; [done|by apply Is_true_true|]. intros j y Hj Hy.
    apply Is_true_false. naive_solver.
  - right. split; [done|]. apply list_find_None in E. rewrite Forall_lookup in E.
    intros j y Hy. apply Is_true_false. by eapply E.
Qed.

Definition new_proc (pid ks : Z) (x : proc) : proc :=
  x <| p_state := EMBRYO |> <| p_pid := pid |> <| p_kstack := ks |>
    <| p_tf := ks + KSTACKSIZE - 76 |> <| p_context := ks + KSTACKSIZE - 100 |>
    <| p_ctx := mkContext 0 0 0 0 forkret_addr |>.

(** The table while [allocproc] looks for a kernel stack. *)
Definition pt_alloc (i : nat) (pt : ptable_t) : ptable_t :=
  pt <| pt_nextpid := pt_nextpid pt + 1 |>
     <| pt_proc ::= alter (λ x, x <| p_state := EMBRYO |> <| p_pid := pt_nextpid pt |>) i |>.

Lemma allocproc_claim s i x (k : KM (option nat)) :
  cpu_wf s → lock_free LkPtable s → 0 ≤ pt_nextpid (k_ptable s) → pt_nextpid (k_ptable s) + 1 < 2 ^ 31 →
  pt_proc (k_ptable s) !! i = Some x →
  (do* upd_proc i (set p_state (λ _, EMBRYO)) in
   let* s' := gets id in
   do* upd_proc i (set p_pid (λ _, pt_nextpid (k_ptable s'))) in
   do* upd_ptable (set pt_nextpid (λ n, s32 (n + 1))) in
   do* release LkPtable in k) (acq LkPtable s) =
  k (s <| k_cpus := relcpus s |> <| k_ptable := pt_alloc i (k_ptable s) |>).
Proof.
  intros Hc Hl H0 Hn Hx.
  step (upd_proc_eq _ _ x); [|done]. mstep.
  step (upd_proc_eq _ _ (x <| p_state := EMBRYO |>)); [|cbn; by rewrite list_lookup_alter_eq, Hx].
  unfold upd_ptable. mstep. erewrite bind_ret; [|by apply (release_acq _ s)].
  f_equal. unfold pt_alloc. cbn. rewrite list_alter_alter_eq, s32_small by lia. done.
Qed.

Lemma allocproc_eq s l :
  cpu_wf s → lock_free LkPtable s → kmem_sync s → free_ok s l →
  0 ≤ pt_nextpid (k_ptable s) → pt_nextpid (k_ptable s) + 1 < 2 ^ 31 →
  ∃ cs, cpus_eqv (k_cpu s) (k_cpus s) cs ∧
  ((∀ j y, pt_proc (k_ptable s) !! j = Some y → p_state y ≠ UNUSED) ∧
     allocproc s = Ret None (s <| k_cpus := cs |>) ∨
   ∃ i x, first_entry (λ y, bool_decide (p_state y = UNUSED)) (k_ptable s) i x ∧
     match l with
     | [] => allocproc s = Ret None (s <| k_cpus := cs |> <| k_ptable :=
         (pt_alloc i (k_ptable s)) <| pt_proc ::= alter (λ y, y <| p_kstack := 0 |> <| p_state := UNUSED |>) i |> |>)
     | ks :: _ => allocproc s = Ret (Some i) (s <| k_cpus := cs |>
         <| k_kmem ::= set freelist (λ _, ld32 (k_mem s) ks) |>
         <| k_mem ::= λ m, st32 m (ks + KSTACKSIZE - 80) trapret_addr |>
         <| k_ptable := (k_ptable s) <| pt_nextpid := pt_nextpid (k_ptable s) + 1 |>
              <| pt_proc ::= alter (new_proc (pt_nextpid (k_ptable s)) ks) i |> |>)
     end).
Proof.
  intros Hc Hl Hk Hf H0 Hn. unfold allocproc.
  rewrite (bind_ret _ _ _ _ _ (acquire_free _ _ Hc Hl)).
  destruct (find_proc_eq (λ y, bool_decide (p_state y = UNUSED)) (acq LkPtable s))
    as [(i & x & Hfind & Hfirst)|[Hfind Hnone]].
  - assert (Hx : pt_proc (k_ptable s) !! i = Some x) by apply Hfirst.
    set (s1 := s <| k_cpus := relcpus s |> <| k_ptable := pt_alloc i (k_ptable s) |>).
    assert (Hk1 : kmem_sync s1) by (eapply kmem_sync_ext; [done|done|apply cpus_eqv_relcpus|done|done]).
    destruct (kalloc_eq s1 l Hk1 Hf) as (cs & Hcs & Hka).
    exists cs. split; [etransitivity; [apply cpus_eqv_relcpus|done]|]. right. exists i, x. split; [done|].
    assert (Hx1 : pt_proc (k_ptable s1) !! i = Some (x <| p_state := EMBRYO |>
      <| p_pid := pt_nextpid (k_ptable s) |>)) by (cbn; by rewrite list_lookup_alter_eq, Hx).
    rewrite (bind_ret _ _ _ _ _ Hfind). cbv beta iota.
    rewrite (allocproc_claim s i x) by done. fold s1. rewrite (bind_ret _ _ _ _ _ Hka).
    destruct l as [|ks l]; cbn [head default].
    + pstep Hx1. cbn [Z.eqb]. pstep Hx1. rewrite set_proc_set.
      unfold ret. f_equal. unfold s1, set_proc, pt_alloc. cbn. f_equal; [|by destruct (k_kmem s)].
      f_equal. by rewrite list_alter_alter_eq, !(alter_insert _ _ _ x), list_insert_insert_eq by done.
    + assert (Hks : ks ≠ 0) by (destruct Hf as (_ & _ & Hv); by apply Forall_inv, valid_page_nonzero in Hv).
      pstep Hx1. cbn [id from_option]. rewrite (proj2 (Z.eqb_neq _ _) Hks).
      pstep Hx1. rewrite set_proc_set. mstep.
      do 2 (pstep Hx1). pstep Hx1.
      unfold ret. f_equal. unfold s1, set_proc, pt_alloc, sizeof_trapframe, sizeof_context. cbn.
      rewrite !(alter_insert _ _ _ x), !list_insert_insert_eq by done. unfold new_proc. cbn.
      replace (ks + KSTACKSIZE - 76 - 4) with (ks + KSTACKSIZE - 80) by lia.
      by replace (ks + KSTACKSIZE - 80 - 20) with (ks + KSTACKSIZE - 100) by lia.
  - exists (relcpus s). split; [apply cpus_eqv_relcpus|]. left. split.
    { intros j y Hy. by eapply bool_decide_eq_false, Hnone. }
    rewrite (bind_ret _ _ _ _ _ Hfind). cbv beta iota.
    erewrite bind_ret; [|apply (release_acq _ s); done]. by destruct s.
Qed.

(** The table after [kill] has found entry [i]. *)
Definition pt_kill (i : nat) (x : proc) (pt : ptable_t) : ptable_t :=
  let pt' := pt <| pt_proc ::= alter (set p_killed (λ _, 1)) i |> in
  if bool_decide (p_state x = SLEEPING) then pt_enq i (p_current_level x) pt' else pt'.

Lemma pt_kill_steps i x pt qs :
  mlf_rel pt qs → pt_proc pt !! i = Some x → rtc pt_step pt (pt_kill i x pt).
Proof.
  intros Hrel Hx. unfold pt_kill. cbv zeta. eapply rtc_l; [apply (step_other pt i (set p_killed (λ _, 1))); done|].
  case_bool_decide as Hs; [|done]. apply rtc_once.
  change (p_current_level x) with (p_current_level (x <| p_killed := 1 |>)).
  apply step_kill_wake; [|done]. cbn. by rewrite list_lookup_alter_eq, Hx.
Qed.

Lemma pt_kill_lookup i x pt :
  pt_proc pt !! i = Some x →
  ∃ x', pt_proc (pt_kill i x pt) !! i = Some x' ∧ p_killed x' = 1 ∧
    p_current_level x' = p_current_level x ∧
    p_state x' = if bool_decide (p_state x = SLEEPING) then RUNNABLE else p_state x.
Proof.
  intros Hx. unfold pt_kill. set (pt' := pt <| pt_proc ::= _ |>).
  assert (Hx' : pt_proc pt' !! i = Some (x <| p_killed := 1 |>)) by (cbn; by rewrite list_lookup_alter_eq, Hx).
  case_bool_decide; [|by eexists].
  destruct (enq_lookup_fwd pt' i (p_current_level x) i _ Hx') as (z & Hz & Hzz).
  exists z. split; [done|]. rewrite Hzz, decide_True by done. done.
Qed.

Lemma cons_ok_acq l s : l ≠ LkCons → cons_ok s → cons_ok (acq l s).
Proof.
  intros Hl [Hp Hk]. split; [done|]. intros E. unfold lock_free. cbn.
  rewrite lookup_insert_ne by done. by apply Hk.
Qed.

Lemma format_kill name :
  ∃ out, format (bytes "El proceso %s pasa a RUNNABLE por KILL 
") [PStr (Some name)] = Some out.
Proof. eexists. reflexivity. Qed.

Lemma format_set_priority name :
  ∃ out, format (bytes "----> name proc set_priority: %s 
") [PStr (Some name)] = Some out.
Proof. eexists. reflexivity. Qed.

(** Waking the victim, inside the critical section of [kill]. *)
Lemma kill_wake s qs i x :
  cpu_wf s → cons_ok s → mlf_rel (k_ptable s) qs → entry i x s →
  ∃ cs out, cpus_eqv (k_cpu s) (k_cpus s) cs ∧
    (if bool_decide (p_state x = SLEEPING) then
       do* cprintf "El proceso %s pasa a RUNNABLE por KILL 
" [PStr (Some (p_name x))] in
       make_runnable i (p_current_level x)
     else ret tt) s =
    Ret tt (s <| k_cpus := cs |> <| k_console ::= λ o, o ++ out |> <| k_ptable ::=
      λ pt, if bool_decide (p_state x = SLEEPING) then pt_enq i (p_current_level x) pt else pt |>).
Proof.
  intros Hc Hk Hrel Hx. case_bool_decide as Es.
  - destruct (format_kill (p_name x)) as [out Hout].
    destruct (cprintf_eq _ _ out s Hc Hk Hout) as (cs & Hcs & Hp). exists cs, out. split; [done|].
    erewrite bind_ret by exact Hp.
    destruct (make_runnable_rel (s <| k_cpus := cs |> <| k_console ::= λ o, o ++ out |>) qs i
      x (p_current_level x)) as [He _]; try done; [congruence|congruence|].
    apply (rel_level _ _ Hrel _ _ Hx). auto.
  - exists (k_cpus s), []. split; [done|]. unfold ret. f_equal. destruct s; cbn. by rewrite app_nil_r.
Qed.

Lemma kill_eq pid s qs :
  cpu_wf s → lock_free LkPtable s → cons_ok s → mlf_rel (k_ptable s) qs →
  ∃ cs, cpus_eqv (k_cpu s) (k_cpus s) cs ∧
  ((∀ j y, pt_proc (k_ptable s) !! j = Some y → p_pid y ≠ pid) ∧
     kill pid s = Ret (-1) (s <| k_cpus := cs |>) ∨
   ∃ i x out, first_entry (λ y, p_pid y =? pid) (k_ptable s) i x ∧
     kill pid s = Ret 0 (s <| k_cpus := cs |> <| k_ptable ::= pt_kill i x |> <| k_console ::= λ o, o ++ out |>)).
Proof.
  intros Hc Hl Hk Hrel. exists (relcpus s). split; [apply cpus_eqv_relcpus|]. unfold kill.
  rewrite (bind_ret _ _ _ _ _ (acquire_free _ _ Hc Hl)).
  destruct (find_proc_eq (λ y, p_pid y =? pid) (acq LkPtable s)) as [(i & x & Hfind & Hfirst)|[Hfind Hnone]];
    rewrite (bind_ret _ _ _ _ _ Hfind); cbv beta iota.
  - right. assert (Hx : pt_proc (k_ptable s) !! i = Some x) by apply Hfirst.
    set (s1 := (acq LkPtable s) <| k_ptable ::= set pt_proc (alter (set p_killed (λ _, 1)) i) |>).
    assert (Hx1 : entry i (x <| p_killed := 1 |>) s1)
      by (unfold entry; cbn; by rewrite list_lookup_alter_eq, Hx).
    destruct (kill_wake s1 qs i (x <| p_killed := 1 |>)) as (cs & out & Hcs & He);
      [by apply (cpu_wf_acq LkPtable) in Hc|by apply cons_ok_acq|by apply neutral_rel|done|].
    exists i, x, out. split; [done|].
    erewrite bind_ret by (by apply (upd_proc_eq _ _ x)). fold s1.
    erewrite bind_ret by (by apply get_proc_eq). erewrite bind_ret by exact He.
    assert (cs = k_cpus (acq LkPtable s)) as ->.
    { destruct Hc as (c & Hc & Hg). eapply cpus_eqv_nested; [exact Hcs|by apply alter_lookup_eq|].
      cbn. destruct Hg. lia. }
    erewrite bind_ret by (by apply (release_acq _ s)). unfold ret, pt_kill, s1.
    destruct s; cbn. by case_bool_decide.
  - left. split; [intros j y Hy; by eapply Z.eqb_neq, Hnone|].
    erewrite bind_ret; [|apply (release_acq _ s); done]. by destruct s.
Qed.
End operations.

(** ** The initial table *)

Definition zero_queues : queues := replicate 4 [].

Lemma zero_lookup (i : nat) (l : list nat) : zero_queues !! i = Some l → l = [].
Proof. unfold zero_queues. by intros [-> _]%lookup_replicate. Qed.

Lemma zero_rel : mlf_rel (k_ptable kstate_zero) zero_queues.
Proof.
  assert (Hz : ∀ p x, pt_proc (k_ptable kstate_zero) !! p = Some x → x = proc_zero)
    by (intros p x [-> _]%lookup_replicate; done).
  split; try done.
  - intros i q l [-> _]%lookup_replicate ->%zero_lookup. by split_and!.
  - intros i l p ->%zero_lookup. by intros ?%elem_of_nil.
  - by intros p pr ->%Hz.
  - intros i l ->%zero_lookup. constructor.
  - by intros p p' pr pr' ->%Hz.
  - by intros p pr ->%Hz.
  - intros p pr ->%Hz. by intros [].
Qed.

Lemma pt_alloc_rel pt qs i x :
  mlf_rel pt qs → pt_proc pt !! i = Some x → p_state x = UNUSED → mlf_rel (pt_alloc i pt) qs.
Proof.
  intros Hrel Hx Hs. eapply off_queue_rel; try done; cbn; try congruence; try lia; auto.
  by intros [].
Qed.

Lemma sleep_rel pt qs p x chan :
  mlf_rel pt qs → pt_proc pt !! p = Some x → p_state x = RUNNING →
  mlf_rel (pt <| pt_proc ::= alter (λ x, x <| p_chan := Some chan |> <| p_state := SLEEPING |>) p |>) qs.
Proof.
  intros Hrel Hx Hs. rewrite <-(set_nextpid_same pt) at 1.
  eapply off_queue_rel; try done; cbn; try congruence; try lia.
  - intros _. apply (rel_level _ _ Hrel _ _ Hx). auto.
  - by eapply rel_pid.
  - intros _. left. split; congruence.
Qed.

(** ** Properties *)

Section props.
Context `{kenv}.
Implicit Types (s t : kstate) (pt : ptable_t) (qs : queues).

(** [make_runnable] refines the FIFO queue: it appends the process to
    the list of its level, leaves the other levels alone, and the pointers,
    sizes, states and levels of the table still represent the queues. *)
Theorem make_runnable_refines s qs p pr level :
  mlf_rel (k_ptable s) qs → pt_proc (k_ptable s) !! p = Some pr →
  p_state pr ≠ RUNNABLE → p_state pr ≠ UNUSED → 0 ≤ level < MLF_LEVELS →
  returns (make_runnable p level) s (λ _ s',
    mlf_rel (k_ptable s') (alter (λ l, l ++ [p]) (Z.to_nat level) qs) ∧
    s' = s <| k_ptable := k_ptable s' |>).
Proof.
  intros Hrel Hp Hr Hu Hl. destruct (make_runnable_rel s qs p pr level) as [He Hrel']; try done.
  eapply returns_eq; [exact He|]. by split.
Qed.

(** [make_running] refines dequeueing: applied to the process at the
    head of a level it removes exactly that process from the queues. *)
Theorem make_running_refines s qs (i : nat) p (l : list nat) :
  mlf_rel (k_ptable s) qs → qs !! i = Some (p :: l) →
  returns (make_running p) s (λ _ s',
    mlf_rel (k_ptable s') (<[i := l]> qs) ∧
    (∃ pr, pt_proc (k_ptable s') !! p = Some pr ∧ p_state pr = RUNNING ∧ p_current_level pr = i) ∧
    s' = s <| k_ptable := k_ptable s' |>).
Proof.
  intros Hrel Hi. destruct (make_running_rel s qs i p l) as [He Hrel']; try done.
  destruct (rel_head _ _ _ _ _ Hrel Hi) as (pr & _ & _ & _ & Hp & _ & Hlv & _).
  eapply returns_eq; [exact He|]. split_and!; [done| |done].
  exists (pr <| p_state := RUNNING |>). cbn. by rewrite list_lookup_alter_eq, Hp.
Qed.


(** [wakeup] makes every process that sleeps on the channel RUNNABLE, one
    level up (level 0 stays), changes no other process except for queue
    links, returns with [ptable.lock] free, and makes only steps of the
    process state machine. *)
Theorem wakeup_correct chan s qs :
  cpu_wf s → lock_free LkPtable s → mlf_rel (k_ptable s) qs →
  returns (wakeup chan) s (λ _ s',
    k_locks s' = k_locks s ∧ rtc pt_step (k_ptable s) (k_ptable s') ∧
    (∃ qs', mlf_rel (k_ptable s') qs') ∧
    ∀ j x, pt_proc (k_ptable s) !! j = Some x →
      ∃ x', pt_proc (k_ptable s') !! j = Some x' ∧ woken chan x x').
Proof.
  intros Hc Hl Hrel. destruct (wakeup_eq chan s qs Hc Hl Hrel) as (cs & pt' & _ & He & Hst & Hq & _ & Hw).
  eapply returns_eq; [exact He|]. by split_and!.
Qed.

(** [yield] puts the running process at the tail of the next lower level
    (the lowest level stays) and reaches the scheduler with [ptable.lock]
    held and interrupts off; switched back to, it releases the lock and
    returns with the table as it found it. *)
Theorem yield_correct s c p pr qs :
  k_cpus s !! k_cpu s = Some c → ncli c = 0 → cpu_proc c = Some p → lock_free LkPtable s →
  mlf_rel (k_ptable s) qs → pt_proc (k_ptable s) !! p = Some pr → p_state pr = RUNNING →
  ∃ s1 k, yield s = Wait Swtch s1 k ∧ pt_step (k_ptable s) (k_ptable s1) ∧
    mlf_rel (k_ptable s1) (alter (λ l, l ++ [p]) (Z.to_nat (down pr)) qs) ∧
    lock_held LkPtable s1 ∧ cpu_runs p s1 ∧
    ∀ t, lock_held LkPtable t → cpu_runs p t →
      returns k t (λ _ t', k_ptable t' = k_ptable t ∧ lock_free LkPtable t').
Proof.
  intros Hc Hn Hp Hl Hrel Hpr Hs.
  destruct (yield_eq s c p pr qs) as (s1 & k & He & Hpt & Hrel1 & Hl1 & Hr1 & Hk); try done.
  exists s1, k. split_and!; try done.
  - rewrite Hpt. by apply step_yield.
  - intros t Ht Hrt. destruct (Hk t Ht Hrt) as (t' & E & HQ). by eapply returns_eq.
Qed.


(** C5: at a level that holds processes the scheduler dispatches the one that
    has waited longest there: it is RUNNABLE (the panic is unreachable), it
    leaves the queue and becomes RUNNING with a fresh quantum on this CPU,
    in its own address space and kernel stack; switched back to, the
    scheduler stays on the level until it is empty.  An empty level is
    passed over. *)
Theorem scheduler_step_correct s c qs (i : nat) (l : list nat) :
  runs_on c s → 0 < ncli c → Z.land (eflags c) FL_IF = 0 →
  mlf_rel (k_ptable s) qs → qs !! i = Some l →
  (∀ j x, pt_proc (k_ptable s) !! j = Some x → p_state x = RUNNABLE → p_pgdir x ≠ 0) →
  match l with
  | [] => scheduler_step i s = Ret (i + 1) s
  | p :: l' => ∃ s1 k pr, scheduler_step i s = Wait Swtch s1 k ∧
      pt_proc (k_ptable s) !! p = Some pr ∧
      pt_proc (k_ptable s1) !! p = Some (pr <| p_state := RUNNING |> <| p_quantum := 0 |>) ∧
      runs_on (cpu_uvm pr (c <| cpu_proc := Some p |>)) s1 ∧ k_locks s1 = k_locks s ∧
      mlf_rel (k_ptable s1) (<[i := l']> qs) ∧
      ∀ t ct qt (lt : list nat), runs_on ct t → mlf_rel (k_ptable t) qt → qt !! i = Some lt →
        k t = Ret (match lt with [] => i + 1 | _ => i : Z end)
                  (set_cpu (ct <| cr3 := v2p (k_kpgdir t) |> <| cpu_proc := None |>) t)
  end.
Proof.
  intros Hc Hn He Hrel Hi Hpg. destruct l as [|p l].
  - destruct (rel_level_queue _ _ i Hrel) as (q & l' & Hq & Hl' & Hf & _).
    { rewrite <-(rel_qs _ _ Hrel). by eapply lookup_lt_Some. }
    simplify_eq. apply lookup_lt_Some in Hi. rewrite (rel_qs _ _ Hrel) in Hi.
    assert (0 ≤ i < MLF_LEVELS) by (unfold MLF_LEVELS in *; lia).
    unfold scheduler_step. erewrite bind_ret by (apply (get_queue_eq _ _ q); [done|by rewrite Nat2Z.id]).
    rewrite Hf. cbn [head]. mstep.
    erewrite bind_ret by (apply (get_queue_eq _ _ q); [done|by rewrite Nat2Z.id]). by rewrite Hf.
  - destruct (rel_head _ _ _ _ _ Hrel Hi) as (pr & _ & _ & _ & Hp & Hst & _).
    destruct (scheduler_step_eq s c qs i p l pr) as (s1 & k & Hw & Hr1 & Hl1 & Hpt & Hrel1 & Hk);
      try done; [by eapply Hpg|].
    exists s1, k, pr. split_and!; try done. rewrite Hpt. cbn.
    by rewrite list_lookup_alter_eq, list_lookup_alter_eq, Hp.
Qed.

(** [allocproc] claims the first UNUSED entry, gives it the next pid and
    a kernel stack laid out for [forkret] and [trapret], and returns it; it
    returns null if no entry is UNUSED, or if there is no page for the
    stack, and then the entry is UNUSED again. *)
Theorem allocproc_correct s l :
  cpu_wf s → lock_free LkPtable s → kmem_sync s → free_ok s l →
  0 ≤ pt_nextpid (k_ptable s) → pt_nextpid (k_ptable s) + 1 < 2 ^ 31 →
  returns allocproc s (λ o s', k_locks s' = k_locks s ∧
    match o with
    | Some i => ∃ x ks, first_entry (λ y, bool_decide (p_state y = UNUSED)) (k_ptable s) i x ∧
        head l = Some ks ∧ free_ok s' (tail l) ∧
        pt_proc (k_ptable s') !! i = Some (new_proc (pt_nextpid (k_ptable s)) ks x) ∧
        pt_nextpid (k_ptable s') = pt_nextpid (k_ptable s) + 1 ∧
        ld32 (k_mem s') (p_context (new_proc 0 ks x) + sizeof_context) = u32 trapret_addr
    | None => (∀ j y, pt_proc (k_ptable s) !! j = Some y → p_state y ≠ UNUSED) ∧ k_ptable s' = k_ptable s ∨
        l = [] ∧ ∃ i x, first_entry (λ y, bool_decide (p_state y = UNUSED)) (k_ptable s) i x ∧
          p_state <$> pt_proc (k_ptable s') !! i = Some UNUSED
    end).
Proof.
  intros Hc Hl Hk Hf H0 Hn.
  destruct (allocproc_eq s l) as (cs & _ & [[Hno He]|(i & x & Hfirst & He)]); try done.
  - eapply returns_eq; [exact He|]. split; [done|]. by left.
  - assert (Hx : pt_proc (k_ptable s) !! i = Some x) by apply Hfirst.
    destruct l as [|ks l]; (eapply returns_eq; [exact He|]); (split; [done|]).
    + right. split; [done|]. exists i, x. split; [done|]. cbn.
      by rewrite !list_lookup_alter_eq, Hx.
    + exists x, ks. split_and!; try done.
      * eapply (free_ok_st32 s _ l ks); [done|done| | |reflexivity]; unfold KSTACKSIZE, PGSIZE; lia.
      * cbn. by rewrite list_lookup_alter_eq, Hx.
      * cbn [k_mem set]. unfold new_proc, sizeof_context. cbn [p_context set].
        replace (ks + KSTACKSIZE - 100 + 20) with (ks + KSTACKSIZE - 80) by lia. apply ld32_st32_eq.
Qed.

(** [kill] marks the first entry with the given pid as killed and, if it
    sleeps, makes it RUNNABLE at its own level, returning 0; it returns -1 and
    changes nothing if no entry has that pid. *)
Theorem kill_correct pid s qs :
  cpu_wf s → lock_free LkPtable s → cons_ok s → mlf_rel (k_ptable s) qs →
  returns (kill pid) s (λ r s', k_locks s' = k_locks s ∧
    rtc pt_step (k_ptable s) (k_ptable s') ∧
    (r = -1 ∧ k_ptable s' = k_ptable s ∧
       (∀ j y, pt_proc (k_ptable s) !! j = Some y → p_pid y ≠ pid) ∨
     r = 0 ∧ ∃ i x x', first_entry (λ y, p_pid y =? pid) (k_ptable s) i x ∧
       pt_proc (k_ptable s') !! i = Some x' ∧ p_killed x' = 1 ∧
       p_current_level x' = p_current_level x ∧
       p_state x' = if bool_decide (p_state x = SLEEPING) then RUNNABLE else p_state x)).
Proof.
  intros Hc Hl Hk Hrel.
  destruct (kill_eq pid s qs Hc Hl Hk Hrel) as (cs & _ & [[Hno He]|(i & x & out & Hf & He)]);
    (eapply returns_eq; [exact He|]).
  - split_and!; [done|done|]. by left.
  - assert (Hx : pt_proc (k_ptable s) !! i = Some x) by apply Hf.
    split_and!; [done|by eapply pt_kill_steps|]. right. split; [done|].
    destruct (pt_kill_lookup i x (k_ptable s) Hx) as (x' & Hx' & HQ). by exists i, x, x'.
Qed.

(** C39: [set_priority] stores any level it is given: a process that sets its
    level to 4 or more, or to less than -1, indexes [ptable.mlf] out of
    bounds when it next yields the processor. *)
Theorem set_priority_unchecked s c p pr n :
  k_cpus s !! k_cpu s = Some c → ncli c = 0 → cpu_proc c = Some p → lock_free LkPtable s → cons_ok s →
  pt_proc (k_ptable s) !! p = Some pr → MLF_LEVELS ≤ n ∨ n < -1 →
  (do* set_priority p n in yield) s = Undef "ptable.mlf".
Proof.
  intros Hc Hn Hp Hl Hk Hpr Hr.
  assert (Hwf : cpu_wf s) by (exists c; split; [done|split; lia]).
  set (s1 := s <| k_ptable ::= set pt_proc (alter (set p_current_level (λ _, n)) p) |>).
  assert (Hx1 : entry p (pr <| p_current_level := n |>) s1)
    by (unfold entry; cbn; by rewrite list_lookup_alter_eq, Hpr).
  destruct (format_set_priority (p_name pr)) as [out Hout].
  destruct (cprintf_eq _ _ out s1 Hwf Hk Hout) as (cs & (v & -> & _) & He).
  unfold set_priority. erewrite bind_ret.
  2:{ erewrite bind_ret by (by apply (upd_proc_eq _ _ pr)). fold s1.
      erewrite bind_ret by (by apply get_proc_eq). exact He. }
  set (s2 := s1 <| k_cpus := _ |> <| k_console ::= _ |>).
  assert (Hc2 : k_cpus s2 !! k_cpu s2 = Some (c <| intena := v |>)) by (cbn; by rewrite list_lookup_alter_eq, Hc).
  unfold yield. erewrite bind_ret; [|apply acquire_free; [|done]].
  2:{ eexists. split; [exact Hc2|]. split; cbn; lia. }
  erewrite bind_ret; [|eapply curproc_eq; [by apply alter_lookup_eq|done]].
  erewrite bind_ret by (by apply get_proc_eq).
  apply bind_undef. unfold make_runnable. apply bind_undef, encolar_out_of_range.
  cbn [p_current_level set]. unfold down, in_levels, MLF_LEVELS in *. cbn [p_current_level set].
  destruct (n <? 4 - 1) eqn:?; lia.
Qed.

(** [kill] does not look at the state of the entry it finds, and
    [allocproc] does not reset the flag: killing the pid left in the first
    UNUSED entry (0 in an entry never used) succeeds, and the next process
    allocated is born killed. *)
Theorem kill_unused_entry pid s qs i x ks l :
  cpu_wf s → lock_free LkPtable s → cons_ok s → kmem_sync s → free_ok s (ks :: l) →
  mlf_rel (k_ptable s) qs → 0 ≤ pt_nextpid (k_ptable s) → pt_nextpid (k_ptable s) + 1 < 2 ^ 31 →
  first_entry (λ y, p_pid y =? pid) (k_ptable s) i x →
  first_entry (λ y, bool_decide (p_state y = UNUSED)) (k_ptable s) i x →
  returns (let* r := kill pid in let* o := allocproc in ret (r, o)) s (λ ro s',
    ro = (0, Some i) ∧ ∃ x', pt_proc (k_ptable s') !! i = Some x' ∧
      p_state x' = EMBRYO ∧ p_killed x' = 1).
Proof.
  intros Hc Hl Hk Hm Hf Hrel H0 Hn Hfp Hfu.
  assert (Hx : pt_proc (k_ptable s) !! i = Some x) by apply Hfp.
  assert (Hxu : p_state x = UNUSED) by (eapply bool_decide_eq_true, Hfu).
  destruct (kill_eq pid s qs Hc Hl Hk Hrel) as (cs & Hcs & [[Hno _]|(i' & x' & out & Hf' & He)]).
  { destruct (Hno i x Hx). eapply Z.eqb_eq, Hfp. }
  destruct (first_entry_inj _ _ _ _ _ _ Hfp Hf') as [<- <-].
  apply returns_bind. eapply returns_eq; [exact He|].
  unfold pt_kill. rewrite Hxu, bool_decide_false by done.
  set (s1 := s <| k_cpus := cs |> <| k_ptable ::= _ |> <| k_console ::= _ |>).
  assert (Hx1 : entry i (x <| p_killed := 1 |>) s1)
    by (unfold entry; cbn; by rewrite list_lookup_alter_eq, Hx).
  destruct (allocproc_eq s1 (ks :: l)) as (cs1 & _ & [[Hno1 _]|(j & y & Hj & Ha)]); try done.
  { eapply (cpu_wf_ext (s <| k_cpus := cs |>)); [done|done|]. by apply cpu_wf_eqv. }
  { by eapply kmem_sync_ext. }
  { destruct (Hno1 _ _ Hx1). done. }
  assert (Hj' : first_entry (λ y, bool_decide (p_state y = UNUSED)) (k_ptable s1) i (x <| p_killed := 1 |>)).
  { split_and!; [done|by rewrite bool_decide_true|]. intros k z Hki Hz.
    cbn in Hz. rewrite list_lookup_alter_ne in Hz by lia. by eapply Hfu. }
  destruct (first_entry_inj _ _ _ _ _ _ Hj Hj') as [-> ->].
  apply returns_bind. eapply returns_eq; [exact Ha|]. apply returns_ret. split; [done|].
  exists (new_proc (pt_nextpid (k_ptable s1)) ks (x <| p_killed := 1 |>)). split; [|done].
  cbn. by rewrite !list_lookup_alter_eq, Hx.
Qed.
End props.

(** ** Witnesses *)

Module demo.
(** Process 0 runs, process 1 waits at level 0. *)
Definition pt1 : ptable_t := pt_alloc 0 (k_ptable kstate_zero).
Definition pt2 : ptable_t := pt_enq 0 0 pt1.
Definition pt3 : ptable_t := pt_deq 0 pt2.
Definition pt4 : ptable_t := (pt_alloc 1 pt3) <| pt_proc ::= alter (set p_pgdir (λ _, 0x80113000)) 1%nat |>.
Definition pt5 : ptable_t := pt_enq 1 0 pt4.
(** Then process 0 sleeps on the clock. *)
Definition pt6 : ptable_t :=
  pt5 <| pt_proc ::= alter (λ x, x <| p_chan := Some ChTicks |> <| p_state := SLEEPING |>) 0%nat |>.
Definition qs5 : queues := [[1%nat]; []; []; []].

Lemma rel3 : mlf_rel pt3 zero_queues.
Proof.
  assert (H1 : mlf_rel pt1 zero_queues) by (by eapply pt_alloc_rel; [apply zero_rel| |]).
  assert (H2 : mlf_rel pt2 [[0%nat]; []; []; []]) by (by eapply (enq_rel pt1 zero_queues 0)).
  by apply (deq_rel pt2 _ 0 0 []) in H2.
Qed.
Lemma rel4 : mlf_rel pt4 zero_queues.
Proof. apply neutral_rel; [|done]. by eapply pt_alloc_rel; [apply rel3| |]. Qed.
Lemma rel5 : mlf_rel pt5 qs5.
Proof. by eapply (enq_rel pt4 zero_queues 1 _ 0); [apply rel4|..]. Qed.
Lemma rel6 : mlf_rel pt6 qs5.
Proof. by eapply sleep_rel; [apply rel5| |]. Qed.

Definition running (pt : ptable_t) : kstate :=
  boot_state <| k_ptable := pt |> <| k_cpus := [mkCpu 0 0 FL_IF (Some 0%nat) 0 0 0 0] |>.
Definition locked (l : lockid) (pt : ptable_t) : kstate :=
  boot_state <| k_ptable := pt |> <| k_cpus := [mkCpu 1 FL_IF 0 (Some 0%nat) 0 0 0 0] |>
             <| k_locks ::= <[l := lk_held 0]> |>.
Lemma running_wf pt : cpu_wf (running pt).
Proof. eexists. split; [reflexivity|]. split; cbn; lia. Qed.
End demo.

Lemma make_runnable_refines_witness :
  returns (make_runnable 0 1) (demo.running demo.pt5) (λ _ s',
    mlf_rel (k_ptable s') [[1%nat]; [0%nat]; []; []] ∧
    s' = (demo.running demo.pt5) <| k_ptable := k_ptable s' |>).
Proof. by eapply (make_runnable_refines (demo.running demo.pt5) demo.qs5 0); [apply demo.rel5|..]. Defined.

Lemma make_running_refines_witness :
  returns (make_running 1) (demo.running demo.pt6) (λ _ s',
    mlf_rel (k_ptable s') [[]; []; []; []] ∧
    (∃ pr, pt_proc (k_ptable s') !! 1%nat = Some pr ∧ p_state pr = RUNNING ∧ p_current_level pr = 0%nat) ∧
    s' = (demo.running demo.pt6) <| k_ptable := k_ptable s' |>).
Proof. by eapply (make_running_refines (demo.running demo.pt6) demo.qs5 0 1 []); [apply demo.rel6|]. Defined.


Lemma wakeup_correct_witness :
  returns (wakeup (H := kenv_example) ChTicks) (demo.running demo.pt6) (λ _ s',
    k_locks s' = k_locks boot_state ∧ rtc pt_step demo.pt6 (k_ptable s') ∧
    (∃ qs', mlf_rel (k_ptable s') qs') ∧
    ∀ j x, pt_proc demo.pt6 !! j = Some x →
      ∃ x', pt_proc (k_ptable s') !! j = Some x' ∧ woken ChTicks x x').
Proof.
  apply (wakeup_correct (H := kenv_example) ChTicks (demo.running demo.pt6) demo.qs5);
    [apply demo.running_wf|reflexivity|apply demo.rel6].
Defined.

Lemma yield_correct_witness :
  ∃ s1 k, yield (H := kenv_example) (demo.running demo.pt5) = Wait Swtch s1 k ∧
    pt_step demo.pt5 (k_ptable s1) ∧
    mlf_rel (k_ptable s1) [[1%nat]; [0%nat]; []; []] ∧
    lock_held LkPtable s1 ∧ cpu_runs 0 s1 ∧
    ∀ t, lock_held LkPtable t → cpu_runs 0 t →
      returns k t (λ _ t', k_ptable t' = k_ptable t ∧ lock_free LkPtable t').
Proof.
  change [[1%nat]; [0%nat]; []; []] with (alter (λ l, l ++ [0%nat])
    (Z.to_nat (down (default proc_zero (pt_proc demo.pt5 !! 0%nat)))) demo.qs5).
  apply (yield_correct (H := kenv_example) (demo.running demo.pt5) (mkCpu 0 0 FL_IF (Some 0%nat) 0 0 0 0)
           0 (default proc_zero (pt_proc demo.pt5 !! 0%nat)) demo.qs5); try reflexivity.
  apply demo.rel5.
Defined.


(** With process 1 at the head of level 0, it is dispatched. *)
Lemma scheduler_step_correct_witness :
  ∃ s1 k pr, scheduler_step 0%nat (demo.locked LkPtable demo.pt6) = Wait Swtch s1 k ∧
    pt_proc demo.pt6 !! 1%nat = Some pr ∧
    pt_proc (k_ptable s1) !! 1%nat = Some (pr <| p_state := RUNNING |> <| p_quantum := 0 |>) ∧
    runs_on (cpu_uvm pr (mkCpu 1 FL_IF 0 (Some 1%nat) 0 0 0 0)) s1 ∧
    k_locks s1 = k_locks (demo.locked LkPtable demo.pt6) ∧
    mlf_rel (k_ptable s1) [[]; []; []; []] ∧
    ∀ t ct qt (lt : list nat), runs_on ct t → mlf_rel (k_ptable t) qt → qt !! 0%nat = Some lt →
      k t = Ret (match lt with [] => 0%nat + 1 | _ => 0%nat : Z end)
                (set_cpu (ct <| cr3 := v2p (k_kpgdir t) |> <| cpu_proc := None |>) t).
Proof.
  apply (scheduler_step_correct (demo.locked LkPtable demo.pt6) (mkCpu 1 FL_IF 0 (Some 0%nat) 0 0 0 0)
           demo.qs5 0 [1%nat]); try reflexivity; [apply demo.rel6|].
  assert (Hb : forallb (λ x, negb (bool_decide (p_state x = RUNNABLE)) || negb (p_pgdir x =? 0))
                 (pt_proc demo.pt6) = true) by reflexivity.
  intros j x Hx Hs. rewrite forallb_forall in Hb.
  specialize (Hb x). rewrite Hs in Hb. intros E. rewrite E in Hb.
  discriminate Hb. by eapply list_elem_of_In, list_elem_of_lookup_2.
Defined.

Lemma allocproc_correct_witness :
  returns (allocproc (H := kenv_example)) one_page (λ o s', k_locks s' = k_locks one_page ∧
    match o with
    | Some i => ∃ x ks, first_entry (λ y, bool_decide (p_state y = UNUSED)) (k_ptable one_page) i x ∧
        head [page1] = Some ks ∧ free_ok (H := kenv_example) s' [] ∧
        pt_proc (k_ptable s') !! i = Some (new_proc (H := kenv_example) 1 ks x) ∧
        pt_nextpid (k_ptable s') = 2 ∧
        ld32 (k_mem s') (p_context (new_proc (H := kenv_example) 0 ks x) + sizeof_context)
          = u32 (trapret_addr (kenv := kenv_example))
    | None => (∀ j y, pt_proc (k_ptable one_page) !! j = Some y → p_state y ≠ UNUSED) ∧
          k_ptable s' = k_ptable one_page ∨
        [page1] = [] ∧ ∃ i x, first_entry (λ y, bool_decide (p_state y = UNUSED)) (k_ptable one_page) i x ∧
          p_state <$> pt_proc (k_ptable s') !! i = Some UNUSED
    end).
Proof.
  apply (allocproc_correct (H := kenv_example) one_page [page1]); try done.
  - apply boot_cpu_wf.
  - apply one_page_sync.
  - apply one_page_free_ok.
Defined.

Lemma boot_cons_ok pt : cons_ok (demo.running pt).
Proof. by split. Qed.

Lemma kill_correct_witness :
  returns (kill (H := kenv_example) 1) (demo.running demo.pt6) (λ r s', k_locks s' = k_locks boot_state ∧
    rtc pt_step demo.pt6 (k_ptable s') ∧
    (r = -1 ∧ k_ptable s' = demo.pt6 ∧
       (∀ j y, pt_proc demo.pt6 !! j = Some y → p_pid y ≠ 1) ∨
     r = 0 ∧ ∃ i x x', first_entry (λ y, p_pid y =? 1) demo.pt6 i x ∧
       pt_proc (k_ptable s') !! i = Some x' ∧ p_killed x' = 1 ∧
       p_current_level x' = p_current_level x ∧
       p_state x' = if bool_decide (p_state x = SLEEPING) then RUNNABLE else p_state x)).
Proof.
  apply (kill_correct (H := kenv_example) 1 (demo.running demo.pt6) demo.qs5);
    [apply demo.running_wf|reflexivity|apply boot_cons_ok|apply demo.rel6].
Defined.

Lemma set_priority_unchecked_witness :
  (do* set_priority (H := kenv_example) 0 4 in yield (H := kenv_example)) (demo.running demo.pt5)
    = Undef "ptable.mlf".
Proof.
  eapply (set_priority_unchecked (H := kenv_example) (demo.running demo.pt5)); try reflexivity;
    [apply boot_cons_ok|by left].
Defined.

Lemma kill_unused_entry_witness :
  returns (let* r := kill (H := kenv_example) 0 in let* o := allocproc (H := kenv_example) in ret (r, o))
    one_page (λ ro s', ro = (0, Some 0%nat) ∧
      ∃ x', pt_proc (k_ptable s') !! 0%nat = Some x' ∧ p_state x' = EMBRYO ∧ p_killed x' = 1).
Proof.
  eapply (kill_unused_entry (H := kenv_example) 0 one_page zero_queues 0 proc_zero page1 []); try done.
  - apply boot_cpu_wf.
  - apply one_page_sync.
  - apply one_page_free_ok.
  - apply zero_rel.
  - split_and!; [done|done|]. intros; lia.
  - split_and!; [done|done|]. intros; lia.
Defined.
