(* ===== verification/Bio.v ===== *)
(** The buffer cache (bio.c) and the disk below it: the interface a disk
    driver offers ([disk]), its laws ([disk_laws]) and the in-memory driver
    memide.c as the instance that satisfies them. *)
From stdpp Require Import base numbers gmap strings option list.
From S2P Require Import Prelude State Spinlock Str Cprintf Kalloc Proc Mlf Sched.

(** ** Buffers *)

Definition get_buf (b : nat) : KM buf :=
  let* k := gets id in deref "bcache.buf" (bc_buf (k_bcache k) !! b).
Definition upd_bcache (f : bcache_t → bcache_t) : KM unit := modify (λ k, k <| k_bcache ::= f |>).
Definition upd_buf (b : nat) (f : buf → buf) : KM unit :=
  let* _ := get_buf b in upd_bcache (set bc_buf (alter f b)).

Definition has (flags f : Z) : bool := negb (Z.land flags f =? 0).

(** ** The disk *)

(** What the block layer needs of a driver: [iderw b] brings buffer [b] and
    its sector together. *)
Class disk := { iderw : nat → KM unit }.

(** memide.c: the sectors of a file system image held in memory. *)
Definition disk_write (sector : Z) (data : list Z) (k : kstate) : kstate :=
  k <| k_disk ::= <[Z.to_nat sector := data]> |> <| k_writes ::= λ w, w ++ [(sector, data)] |>.

Definition memide_iderw (b : nat) : KM unit :=
  let* x := get_buf b in
  if negb (has (b_flags x) B_BUSY) then panic "iderw: buf not busy" else
  if Z.land (b_flags x) (Z.lor B_VALID B_DIRTY) =? B_VALID then panic "iderw: nothing to do" else
  if negb (b_dev x =? 1) then panic "iderw: request not for disk 1" else
  let* k := gets id in
  let disksize := Z.of_nat (length (k_disk k)) in
  if disksize <=? b_sector x then panic "iderw: sector out of range" else
  do* (if has (b_flags x) B_DIRTY then
         do* upd_buf b (set b_flags (λ f, Z.ldiff f B_DIRTY)) in
         modify (disk_write (b_sector x) (b_data x))
       else
         let* d := deref "memdisk" (k_disk k !! Z.to_nat (b_sector x)) in
         upd_buf b (set b_data (λ _, d))) in
  upd_buf b (set b_flags (λ f, Z.lor f B_VALID)).

Definition memide : disk := {| iderw := memide_iderw |}.

(** ** The cache *)

(** The list node of [bcache.head]. *)
Definition bc_head : nat := NBUF.

Definition bnext (b : nat) : KM nat :=
  let* k := gets id in deref "b->next" (bc_next (k_bcache k) !! b).
Definition bprev (b : nat) : KM nat :=
  let* k := gets id in deref "b->prev" (bc_prev (k_bcache k) !! b).
Definition set_next (b n : nat) : KM unit := upd_bcache (set bc_next (<[b := n]>)).
Definition set_prev (b n : nat) : KM unit := upd_bcache (set bc_prev (<[b := n]>)).

Section bio.
Context `{kenv} `{disk}.

Definition binit : KM unit :=
  do* initlock LkBcache in
  do* upd_bcache (λ c, c <| bc_next := replicate (S NBUF) 0%nat |> <| bc_prev := replicate (S NBUF) 0%nat |>) in
  do* set_prev bc_head bc_head in
  do* set_next bc_head bc_head in
  for_each (seq 0 NBUF) (λ b,
    let* n := bnext bc_head in
    do* set_next b n in
    do* set_prev b bc_head in
    do* upd_buf b (set b_dev (λ _, u32 (-1))) in
    let* n := bnext bc_head in
    do* set_prev n b in
    set_next bc_head b).

(** The first buffer after [b] on the list that caches the sector. *)
Fixpoint bget_cached (n : nat) (b : nat) (dev sector : Z) {struct n} : KM (option nat) :=
  match n with
  | O => λ _, NoFuel
  | S n =>
      if bool_decide (b = bc_head) then ret None else
      let* x := get_buf b in
      if (b_dev x =? dev) && (b_sector x =? sector) then ret (Some b) else
      let* b' := bnext b in bget_cached n b' dev sector
  end.

(** The first clean and idle buffer before [b], from the tail of the list. *)
Fixpoint bget_clean (n : nat) (b : nat) {struct n} : KM (option nat) :=
  match n with
  | O => λ _, NoFuel
  | S n =>
      if bool_decide (b = bc_head) then ret None else
      let* x := get_buf b in
      if negb (has (b_flags x) B_BUSY) && negb (has (b_flags x) B_DIRTY) then ret (Some b) else
      let* b' := bprev b in bget_clean n b'
  end.

(** The body of [bget] from its label [loop]; [n] bounds the sleeps. *)
Fixpoint bget_loop (n : nat) (dev sector : Z) {struct n} : KM nat :=
  match n with
  | O => λ _, NoFuel
  | S n =>
      let* h := bnext bc_head in
      let* o := bget_cached (S NBUF) h dev sector in
      match o with
      | Some b =>
          let* x := get_buf b in
          if negb (has (b_flags x) B_BUSY) then
            do* upd_buf b (set b_flags (λ f, Z.lor f B_BUSY)) in
            do* release LkBcache in
            ret b
          else
            do* sleep (ChBuf b) (Some LkBcache) in
            bget_loop n dev sector
      | None =>
          let* h := bprev bc_head in
          let* o := bget_clean (S NBUF) h in
          match o with
          | Some b =>
              do* upd_buf b (set b_dev (λ _, dev)) in
              do* upd_buf b (set b_sector (λ _, sector)) in
              do* upd_buf b (set b_flags (λ _, B_BUSY)) in
              do* release LkBcache in
              ret b
          | None => panic "bget: no buffers"
          end
      end
  end.

Definition bget (dev sector : Z) : KM nat :=
  do* acquire LkBcache in bget_loop fuel dev sector.

Definition bread (dev sector : Z) : KM nat :=
  let* b := bget dev sector in
  let* x := get_buf b in
  do* (if negb (has (b_flags x) B_VALID) then iderw b else ret tt) in
  ret b.

Definition bwrite (b : nat) : KM unit :=
  let* x := get_buf b in
  if negb (has (b_flags x) B_BUSY) then panic "bwrite" else
  do* upd_buf b (set b_flags (λ f, Z.lor f B_DIRTY)) in
  iderw b.

Definition brelse (b : nat) : KM unit :=
  let* x := get_buf b in
  if negb (has (b_flags x) B_BUSY) then panic "brelse" else
  do* acquire LkBcache in
  let* n := bnext b in
  let* p := bprev b in
  do* set_prev n p in
  let* p := bprev b in
  let* n := bnext b in
  do* set_next p n in
  let* h := bnext bc_head in
  do* set_next b h in
  do* set_prev b bc_head in
  let* h := bnext bc_head in
  do* set_prev h b in
  do* set_next bc_head b in
  do* upd_buf b (set b_flags (λ f, Z.ldiff f B_BUSY)) in
  do* wakeup (ChBuf b) in
  release LkBcache.
End bio.

#[global] Arguments bnext _ _ : simpl never.
#[global] Arguments bprev _ _ : simpl never.
#[global] Arguments get_buf _ _ : simpl never.
#[global] Arguments upd_buf _ _ _ : simpl never.
#[global] Arguments bread {_ _} _ _ _ : simpl never.
#[global] Arguments bwrite {_} _ _ : simpl never.
#[global] Arguments brelse {_} _ _ : simpl never.

(** ** The list of buffers as a ring *)

(** Each node of the path leads to the next by [next] and back by [prev]. *)
Fixpoint path (nx pv : list nat) (l : list nat) : Prop :=
  match l with
  | a :: ((b :: _) as l') => nx !! a = Some b ∧ pv !! b = Some a ∧ path nx pv l'
  | _ => True
  end.

(** The buffers in the order [l], from the most recently used. *)
Definition lru (c : bcache_t) (l : list nat) : Prop :=
  length (bc_next c) = S NBUF ∧ length (bc_prev c) = S NBUF ∧ l ≡ₚ seq 0 NBUF ∧
  path (bc_next c) (bc_prev c) (bc_head :: l ++ [bc_head]).

Definition lru_remove (b : nat) (c : bcache_t) : bcache_t :=
  let n := default 0%nat (bc_next c !! b) in
  let p := default 0%nat (bc_prev c !! b) in
  c <| bc_prev ::= <[n := p]> |> <| bc_next ::= <[p := n]> |>.
Definition lru_push (b : nat) (c : bcache_t) : bcache_t :=
  let h := default 0%nat (bc_next c !! bc_head) in
  c <| bc_next ::= λ nx, <[bc_head := b]> (<[b := h]> nx) |>
    <| bc_prev ::= λ pv, <[h := b]> (<[b := bc_head]> pv) |>.

Section ring.
Implicit Types (nx pv l : list nat) (a b : nat).

Lemma path_app nx pv l1 x l2 :
  path nx pv (l1 ++ x :: l2) ↔ path nx pv (l1 ++ [x]) ∧ path nx pv (x :: l2).
Proof.
  induction l1 as [|a l1 IH]; [cbn; tauto|].
  destruct l1 as [|b l1]; cbn in *; [|tauto]. destruct l2; cbn; tauto.
Qed.

(** A path is not affected by other nodes. *)
Lemma path_ext nx pv nx' pv' x l :
  (∀ a, a ∈ removelast (x :: l) → nx' !! a = nx !! a) →
  (∀ b, b ∈ l → pv' !! b = pv !! b) →
  path nx pv (x :: l) → path nx' pv' (x :: l).
Proof.
  revert x. induction l as [|y l IH]; intros x Hn Hp; [done|].
  intros (H1 & H2 & H3). split_and!.
  - rewrite Hn; [done|]. cbn. set_solver.
  - rewrite Hp; [done|set_solver].
  - apply IH; [|set_solver|done]. intros a Ha. apply Hn. cbn in *. set_solver.
Qed.

Lemma path_next nx pv l1 a b l2 : path nx pv (l1 ++ a :: b :: l2) → nx !! a = Some b ∧ pv !! b = Some a.
Proof. intros [_ H]%path_app. cbn in H. naive_solver. Qed.

(** Unlinking [b], whose neighbours are [p] and [n]. *)
Lemma path_remove nx pv h l1 b l2 (l1' l2' : list nat) p n :
  h :: l1 = l1' ++ [p] → l2 ++ [h] = n :: l2' → NoDup (h :: l1 ++ b :: l2) →
  (p < length nx)%nat → (n < length pv)%nat →
  path nx pv (h :: l1 ++ b :: l2 ++ [h]) →
  path (<[p := n]> nx) (<[n := p]> pv) (h :: l1 ++ l2 ++ [h]).
Proof.
  intros E1 E2 Hnd Hp Hn Hpath.
  apply NoDup_cons in Hnd as [Hh (N1 & D & [Hb N2]%NoDup_cons)%NoDup_app].
  assert (Hpl : p ∈ h :: l1) by (rewrite E1; set_solver).
  assert (Hnl : n ∈ l2 ++ [h]) by (rewrite E2; set_solver).
  assert (Hpr : p ∉ removelast (h :: l1)).
  { assert (Nh : NoDup (h :: l1)) by (constructor; [set_solver|done]).
    rewrite E1 in Nh |- *. rewrite removelast_last. apply NoDup_app in Nh as (_ & Hd & _). intros Hin. apply (Hd p Hin). set_solver. }
  assert (Hnr : n ∉ l2').
  { assert (Nh : NoDup (l2 ++ [h])) by (apply NoDup_app; split_and!; [done|set_solver|apply NoDup_singleton]).
    rewrite E2 in Nh. by apply NoDup_cons in Nh as [? _]. }
  assert (Hsplit : ∀ l, h :: l1 ++ l = l1' ++ p :: l).
  { intros l. change (h :: l1 ++ l) with ((h :: l1) ++ l). by rewrite E1, <-app_assoc. }
  rewrite Hsplit, E2 in Hpath |- *. apply path_app in Hpath as [Ha Hc]. apply path_app. split.
  - rewrite <-E1 in Ha |- *. eapply path_ext; [| |exact Ha].
    + intros a Haa. apply list_lookup_insert_ne. by intros <-.
    + intros a Haa. apply list_lookup_insert_ne. intros <-.
      apply elem_of_app in Hnl as [Hn2|Hn2%list_elem_of_singleton]; [|subst n].
      * apply (D n Haa). by right.
      * apply Hh, elem_of_app. by left.
  - cbn in Hc. destruct Hc as (_ & _ & _ & _ & Hc). cbn. split_and!; [by apply list_lookup_insert_eq..|].
    change (path (<[p:=n]> nx) (<[n:=p]> pv) (n :: l2')).
    eapply path_ext; [| |exact Hc]; intros a Haa; apply list_lookup_insert_ne; intros <-.
    + rewrite <-E2, removelast_last in Haa. apply elem_of_cons in Hpl as [->|Hpl].
      * apply Hh, elem_of_app. right. by right.
      * apply (D p Hpl). by right.
    + done.
Qed.

(** Linking [b] in after the head. *)
Lemma path_push nx pv h b (l l' : list nat) f :
  l ++ [h] = f :: l' → NoDup (h :: l) → b ∉ h :: l →
  (h < length nx)%nat → (b < length nx)%nat → (b < length pv)%nat → (f < length pv)%nat →
  path nx pv (h :: l ++ [h]) →
  path (<[h := b]> (<[b := f]> nx)) (<[f := b]> (<[b := h]> pv)) (h :: b :: l ++ [h]).
Proof.
  intros E Hnd Hb H1 H2 H3 H4 Hpath. apply NoDup_cons in Hnd as [Hh N].
  assert (Hf : f ∈ l ++ [h]) by (rewrite E; set_solver).
  assert (Hfr : f ∉ l').
  { assert (Nh : NoDup (l ++ [h])) by (apply NoDup_app; split_and!; [done|set_solver|apply NoDup_singleton]).
    rewrite E in Nh. by apply NoDup_cons in Nh as [? _]. }
  rewrite E in Hpath |- *. destruct Hpath as (_ & _ & Hpath). cbn.
  assert (b ≠ h ∧ b ≠ f) as [Hbh Hbf] by set_solver. split_and!.
  - apply list_lookup_insert_eq. by rewrite length_insert.
  - rewrite list_lookup_insert_ne by done. by apply list_lookup_insert_eq.
  - rewrite list_lookup_insert_ne by done. by apply list_lookup_insert_eq.
  - apply list_lookup_insert_eq. by rewrite length_insert.
  - change (path (<[h := b]> (<[b := f]> nx)) (<[f := b]> (<[b := h]> pv)) (f :: l')).
    eapply path_ext; [| |exact Hpath]; intros a Ha.
    + rewrite <-E, removelast_last in Ha. rewrite !list_lookup_insert_ne by set_solver. done.
    + assert (a ∈ l ++ [h]) by (rewrite E; set_solver).
      rewrite !list_lookup_insert_ne by set_solver. done.
Qed.
End ring.

(** ** Lemmas on the cache *)

Lemma find_split {A} (P : A → bool) (l : list A) x :
  List.find P l = Some x → ∃ l1 l2, l = l1 ++ x :: l2 ∧ P x = true ∧ ∀ y, y ∈ l1 → P y = false.
Proof.
  induction l as [|y l IH]; [done|]. cbn. destruct (P y) eqn:E.
  - intros [= <-]. exists [], l. split_and!; [done|done|]. by intros z ?%elem_of_nil.
  - intros (l1 & l2 & -> & Hx & Hl)%IH. exists (y :: l1), l2. split_and!; [done|done|].
    intros z [->|Hz]%elem_of_cons; auto.
Qed.

Definition bc_touch (b : nat) (c : bcache_t) : bcache_t := lru_push b (lru_remove b c).

Definition caches (c : bcache_t) (dev sector : Z) (b : nat) : bool :=
  match bc_buf c !! b with Some x => (b_dev x =? dev) && (b_sector x =? sector) | None => false end.
Definition idle_clean (c : bcache_t) (b : nat) : bool :=
  match bc_buf c !! b with
  | Some x => negb (has (b_flags x) B_BUSY) && negb (has (b_flags x) B_DIRTY)
  | None => false
  end.

Section cache_lemmas.
Implicit Types (c : bcache_t) (l : list nat) (b : nat) (s : kstate).

Lemma lru_elem c l b : lru c l → b ∈ l → (b < NBUF)%nat.
Proof. intros (_ & _ & Hl & _) Hb. rewrite Hl in Hb. apply elem_of_seq in Hb. lia. Qed.

Lemma lru_nodup c l : lru c l → NoDup (bc_head :: l).
Proof.
  intros Hl. assert (Hc := Hl). destruct Hl as (_ & _ & Hl & _). constructor.
  - intros Hb%(lru_elem c l); [unfold bc_head in *; lia|done].
  - rewrite Hl. apply NoDup_seq.
Qed.

Lemma cons_snoc (h : nat) l : ∃ l' p, h :: l = l' ++ [p].
Proof. destruct (exists_last (l := h :: l)) as (l' & p & E); [done|]. by exists l', p. Qed.

Lemma snoc_cons (h : nat) l : ∃ n l', l ++ [h] = n :: l'.
Proof. destruct l as [|n l]; [by exists h, []|]. by exists n, (l ++ [h]). Qed.

Lemma lru_neighbours c l1 b l2 l1' p n l2' :
  lru c (l1 ++ b :: l2) → bc_head :: l1 = l1' ++ [p] → l2 ++ [bc_head] = n :: l2' →
  bc_next c !! b = Some n ∧ bc_prev c !! b = Some p ∧ (p < S NBUF)%nat ∧ (n < S NBUF)%nat.
Proof.
  intros Hl E1 E2. assert (Hc := Hl). destruct Hl as (_ & _ & Hl & Hpath).
  rewrite <-app_assoc in Hpath. cbn [app] in Hpath. rewrite E2 in Hpath.
  assert (Hp : bc_head :: l1 ++ b :: n :: l2' = l1' ++ p :: b :: n :: l2').
  { change (bc_head :: l1 ++ ?x) with ((bc_head :: l1) ++ x). by rewrite E1, <-app_assoc. }
  rewrite Hp in Hpath. destruct (path_next _ _ _ _ _ _ Hpath) as [_ Hpb].
  destruct (path_next (bc_next c) (bc_prev c) (l1' ++ [p]) b n l2') as [Hnb _]; [by rewrite <-app_assoc|].
  split_and!; [done|done| |].
  - assert (Hin : p ∈ bc_head :: l1) by (rewrite E1; set_solver).
    apply elem_of_cons in Hin as [->|Hin]; [unfold bc_head; lia|].
    assert (p < NBUF)%nat; [|lia]. eapply lru_elem; [exact Hc|]. set_solver.
  - assert (Hin : n ∈ l2 ++ [bc_head]) by (rewrite E2; set_solver).
    apply elem_of_app in Hin as [Hin|Hin%list_elem_of_singleton]; [|subst; unfold bc_head; lia].
    assert (n < NBUF)%nat; [|lia]. eapply lru_elem; [exact Hc|]. set_solver.
Qed.

(** Releasing a buffer makes it the most recently used one. *)
Lemma lru_touch c l1 b l2 : lru c (l1 ++ b :: l2) → lru (bc_touch b c) (b :: l1 ++ l2).
Proof.
  intros Hc. assert (Hnd := lru_nodup _ _ Hc). assert (Hl := Hc).
  destruct Hl as (Hn & Hp & Hperm & Hpath).
  destruct (cons_snoc bc_head l1) as (l1' & p & E1). destruct (snoc_cons bc_head l2) as (n & l2' & E2).
  destruct (lru_neighbours _ _ _ _ _ _ _ _ Hc E1 E2) as (Hnb & Hpb & Hpl & Hnl).
  rewrite <-app_assoc in Hpath. cbn [app] in Hpath.
  assert (Hpath' : path (<[p:=n]> (bc_next c)) (<[n:=p]> (bc_prev c)) (bc_head :: (l1 ++ l2) ++ [bc_head])).
  { rewrite <-app_assoc. eapply path_remove; try done; lia. }
  assert (Hb : (b < NBUF)%nat) by (eapply lru_elem; [exact Hc|set_solver]).
  assert (Hnd' : NoDup (bc_head :: l1 ++ l2) ∧ b ∉ bc_head :: l1 ++ l2).
  { apply NoDup_cons in Hnd as [Hh Hnd]. rewrite <-Permutation_middle in Hnd, Hh.
    apply NoDup_cons in Hnd as [Hbl Hnd]. split; [constructor; [set_solver|done]|].
    unfold bc_head in *. intros [->|?]%elem_of_cons; [lia|done]. }
  destruct (snoc_cons bc_head (l1 ++ l2)) as (f & l' & Ef).
  assert (Hf : <[p:=n]> (bc_next c) !! bc_head = Some f).
  { rewrite Ef in Hpath'. by destruct Hpath'. }
  assert (Hfl : (f < S NBUF)%nat).
  { assert (Hin : f ∈ (l1 ++ l2) ++ [bc_head]) by (rewrite Ef; set_solver).
    apply elem_of_app in Hin as [Hin|Hin%list_elem_of_singleton]; [|subst; unfold bc_head; lia].
    assert (f < NBUF)%nat; [|lia]. eapply lru_elem; [exact Hc|]. set_solver. }
  unfold bc_touch, lru_push, lru_remove. rewrite Hnb, Hpb. cbn. rewrite Hf. cbn. split_and!.
  - cbn. by rewrite !length_insert.
  - cbn. by rewrite !length_insert.
  - rewrite <-Hperm. by rewrite <-Permutation_middle.
  - apply (path_push (<[p:=n]> (bc_next c)) (<[n:=p]> (bc_prev c)) bc_head b (l1 ++ l2) l' f); try done; try apply Hnd';
      rewrite ?length_insert; unfold bc_head in *; lia.
Qed.

Lemma get_buf_eq s b x : bc_buf (k_bcache s) !! b = Some x → get_buf b s = Ret x s.
Proof. intros Hx. unfold get_buf. mred. by rewrite Hx. Qed.

Lemma bnext_eq s b n : bc_next (k_bcache s) !! b = Some n → bnext b s = Ret n s.
Proof. intros Hx. unfold bnext. mred. by rewrite Hx. Qed.

Lemma bprev_eq s b n : bc_prev (k_bcache s) !! b = Some n → bprev b s = Ret n s.
Proof. intros Hx. unfold bprev. mred. by rewrite Hx. Qed.

Lemma bget_cached_eq n l s dev sector x l' :
  l ++ [bc_head] = x :: l' → bc_head ∉ l → (∀ b, b ∈ l → is_Some (bc_buf (k_bcache s) !! b)) →
  (length l < n)%nat → path (bc_next (k_bcache s)) (bc_prev (k_bcache s)) (x :: l') →
  bget_cached n x dev sector s = Ret (List.find (caches (k_bcache s) dev sector) l) s.
Proof.
  revert n x l'. induction l as [|b l IH]; intros [|n] x l' E Hh Hb Hn Hp; cbn in Hn; try lia.
  - cbn in E. simplify_eq. unfold bget_cached. by rewrite bool_decide_true.
  - cbn in E. injection E as <- <-. cbn [bget_cached].
    rewrite bool_decide_false by (intros ->; set_solver).
    destruct (Hb b) as [y Hy]; [set_solver|]. cbn [List.find]. unfold caches at 1.
    rewrite (bind_ret _ _ _ _ _ (get_buf_eq _ _ _ Hy)), Hy. destruct (_ && _); [done|].
    destruct (snoc_cons bc_head l) as (z & l'' & Ez). rewrite Ez in Hp. destruct Hp as (Hz & _ & Hp).
    rewrite (bind_ret _ _ _ _ _ (bnext_eq _ _ _ Hz)). eapply IH; [exact Ez|set_solver|set_solver|lia|done].
Qed.

Lemma bget_clean_eq n m s x m' :
  m ++ [bc_head] = x :: m' → bc_head ∉ m → (∀ b, b ∈ m → is_Some (bc_buf (k_bcache s) !! b)) →
  (length m < n)%nat → path (bc_next (k_bcache s)) (bc_prev (k_bcache s)) (bc_head :: rev m) →
  bget_clean n x s = Ret (List.find (idle_clean (k_bcache s)) m) s.
Proof.
  revert n x m'. induction m as [|b m IH]; intros [|n] x m' E Hh Hb Hn Hp; cbn in Hn; try lia.
  - cbn in E. simplify_eq. unfold bget_clean. by rewrite bool_decide_true.
  - cbn in E. injection E as <- <-. cbn [bget_clean].
    rewrite bool_decide_false by (intros ->; set_solver).
    destruct (Hb b) as [y Hy]; [set_solver|]. cbn [List.find]. unfold idle_clean at 1.
    rewrite (bind_ret _ _ _ _ _ (get_buf_eq _ _ _ Hy)), Hy. destruct (_ && _); [done|].
    destruct (snoc_cons bc_head m) as (z & m'' & Ez).
    assert (Ez' : bc_head :: rev m = rev m'' ++ [z]).
    { rewrite <-(rev_involutive m) in Ez at 1. apply (f_equal (@rev nat)) in Ez.
      rewrite rev_app_distr in Ez. cbn in Ez. by rewrite rev_involutive in Ez. }
    cbn [rev] in Hp. change (bc_head :: rev m ++ [b]) with ((bc_head :: rev m) ++ [b]) in Hp.
    rewrite Ez', <-app_assoc in Hp. destruct (path_next _ _ _ _ _ _ Hp) as [_ Hz].
    rewrite (bind_ret _ _ _ _ _ (bprev_eq _ _ _ Hz)). eapply IH; [exact Ez|set_solver|set_solver|lia|].
    rewrite Ez'. by apply path_app in Hp as [Hp _].
Qed.
End cache_lemmas.

(** ** The operations as functions of the cache *)

(** No lock is held that the block layer takes, and the table is sound. *)
Definition quiet (s : kstate) : Prop :=
  cpu_wf s ∧ lock_free LkBcache s ∧ lock_free LkPtable s ∧ ∃ qs, mlf_rel (k_ptable s) qs.

Definition bc_grab (b : nat) (c : bcache_t) : bcache_t :=
  c <| bc_buf ::= alter (set b_flags (λ f, Z.lor f B_BUSY)) b |>.
Definition bc_recycle (dev sector : Z) (b : nat) (c : bcache_t) : bcache_t :=
  c <| bc_buf ::= alter (λ x, mkBuf B_BUSY dev sector (b_data x)) b |>.
Definition bc_drop (b : nat) (c : bcache_t) : bcache_t :=
  (bc_touch b c) <| bc_buf ::= alter (set b_flags (λ f, Z.ldiff f B_BUSY)) b |>.

Section bio_lemmas.
Context `{kenv} `{disk}.
Implicit Types (c : bcache_t) (l : list nat) (b : nat) (s : kstate).

Lemma upd_buf_eq s b x f :
  bc_buf (k_bcache s) !! b = Some x →
  upd_buf b f s = Ret tt (s <| k_bcache ::= set bc_buf (alter f b) |>).
Proof. intros Hx. unfold upd_buf. by step (get_buf_eq _ _ _ Hx). Qed.

(** Releasing the cache lock at the end of a section that changes the cache. *)
Lemma bcache_release s c :
  cpu_wf s → lock_free LkBcache s →
  release LkBcache ((acq LkBcache s) <| k_bcache := c |>) = Ret tt (s <| k_cpus := relcpus s |> <| k_bcache := c |>).
Proof. intros Hc Hl. rewrite (release_acq LkBcache s) by done. by destruct s. Qed.

Lemma lru_bufs c l : lru c l → length (bc_buf c) = NBUF → ∀ b, b ∈ l → is_Some (bc_buf c !! b).
Proof. intros Hl Hn b Hb. apply lookup_lt_is_Some. rewrite Hn. by eapply lru_elem. Qed.

Lemma lru_scan c l : lru c l →
  ∃ x l', l ++ [bc_head] = x :: l' ∧ bc_next c !! bc_head = Some x ∧ path (bc_next c) (bc_prev c) (x :: l').
Proof.
  intros (_ & _ & _ & Hp). destruct (snoc_cons bc_head l) as (x & l' & E). rewrite E in Hp.
  destruct Hp as (Hx & _ & Hp). eauto.
Qed.

Lemma lru_scan_back c l : lru c l →
  ∃ x m', rev l ++ [bc_head] = x :: m' ∧ bc_prev c !! bc_head = Some x ∧
    path (bc_next c) (bc_prev c) (bc_head :: rev (rev l)).
Proof.
  intros (_ & _ & _ & Hp). rewrite rev_involutive.
  change (bc_head :: l ++ [bc_head]) with ((bc_head :: l) ++ [bc_head]) in Hp.
  destruct (cons_snoc bc_head l) as (l' & x & E). rewrite E, <-app_assoc in Hp.
  exists x, (rev l'). split_and!.
  - change (rev l ++ [bc_head]) with (rev (bc_head :: l)). by rewrite E, rev_app_distr.
  - by apply path_next in Hp as [_ ?].
  - rewrite E. by apply path_app in Hp as [? _].
Qed.

Lemma lru_length c l : lru c l → length l = NBUF.
Proof. intros (_ & _ & Hl & _). rewrite Hl. apply length_seq. Qed.

Lemma bget_eq s l dev sector :
  quiet s → lru (k_bcache s) l → length (bc_buf (k_bcache s)) = NBUF →
  match List.find (caches (k_bcache s) dev sector) l with
  | Some b => ∀ x, bc_buf (k_bcache s) !! b = Some x → has (b_flags x) B_BUSY = false →
      bget dev sector s = Ret b (s <| k_cpus := relcpus s |> <| k_bcache ::= bc_grab b |>)
  | None =>
      match List.find (idle_clean (k_bcache s)) (rev l) with
      | Some b => bget dev sector s =
          Ret b (s <| k_cpus := relcpus s |> <| k_bcache ::= bc_recycle dev sector b |>)
      | None => ∃ t, bget dev sector s = Panic "bget: no buffers" t
      end
  end.
Proof.
  intros (Hc & Hl & _) Hlru Hn. set (c := k_bcache s).
  assert (Hh : bc_head ∉ l) by (by apply lru_nodup, NoDup_cons in Hlru as [? _]).
  destruct (lru_scan _ _ Hlru) as (x & l' & E & Hx & Hp).
  destruct (lru_scan_back _ _ Hlru) as (y & m' & E' & Hy & Hp').
  assert (Hfind : bget_cached (S NBUF) x dev sector (acq LkBcache s) =
    Ret (List.find (caches c dev sector) l) (acq LkBcache s)).
  { eapply bget_cached_eq; [exact E|done|by apply lru_bufs|rewrite (lru_length _ _ Hlru); lia|done]. }
  assert (Hclean : bget_clean (S NBUF) y (acq LkBcache s) =
    Ret (List.find (idle_clean c) (rev l)) (acq LkBcache s)).
  { eapply bget_clean_eq; [exact E'| | |rewrite length_rev, (lru_length _ _ Hlru); lia|done].
    - by rewrite <-Permutation_rev.
    - intros b Hb. apply (lru_bufs _ _ Hlru Hn). by rewrite Permutation_rev. }
  assert (Hstart : bget dev sector s = bget_loop fuel dev sector (acq LkBcache s))
    by (unfold bget; by rewrite (bind_ret _ _ _ _ _ (acquire_free _ _ Hc Hl))).
  rewrite Hstart. clear Hstart. unfold fuel. cbn [bget_loop].
  rewrite (bind_ret _ _ _ _ _ (bnext_eq (acq LkBcache s) _ _ Hx)), (bind_ret _ _ _ _ _ Hfind).
  destruct (List.find (caches c dev sector) l) as [b|] eqn:Eb.
  - intros z Hz Hbusy. rewrite (bind_ret _ _ _ _ _ (get_buf_eq (acq LkBcache s) _ _ Hz)), Hbusy. cbn [negb].
    erewrite bind_ret by (by apply (upd_buf_eq _ _ z)).
    erewrite bind_ret by (apply bcache_release; done). done.
  - rewrite (bind_ret _ _ _ _ _ (bprev_eq (acq LkBcache s) _ _ Hy)), (bind_ret _ _ _ _ _ Hclean).
    destruct (List.find (idle_clean c) (rev l)) as [b|] eqn:Ec; [|by eexists].
    assert (∃ z, bc_buf c !! b = Some z) as [z Hz].
    { apply find_some in Ec as [_ Ec]. unfold idle_clean in Ec. destruct (bc_buf c !! b); [eauto|done]. }
    unfold c in Hz.
    erewrite bind_ret by (by apply (upd_buf_eq _ _ z)).
    erewrite bind_ret by (eapply upd_buf_eq; cbn; by rewrite list_lookup_alter_eq, Hz).
    erewrite bind_ret by (eapply upd_buf_eq; cbn; by rewrite !list_lookup_alter_eq, Hz).
    erewrite bind_ret by (apply bcache_release; done). unfold ret, bc_recycle. cbn.
    by rewrite !list_alter_alter_eq.
Qed.
End bio_lemmas.

(** ** Flags *)

Lemma land_pow2 a n : 0 ≤ n → Z.land a (2 ^ n) = if Z.testbit a n then 2 ^ n else 0.
Proof.
  intros Hn. apply Z.bits_inj'. intros m Hm. rewrite Z.land_spec, Z.pow2_bits_eqb by done.
  destruct (n =? m) eqn:E.
  - apply Z.eqb_eq in E as ->. destruct (Z.testbit a m) eqn:Et; rewrite ?Z.pow2_bits_true, ?Z.bits_0 by done; done.
  - rewrite andb_false_r. destruct (Z.testbit a n); [|by rewrite Z.bits_0].
    rewrite Z.pow2_bits_false by lia. done.
Qed.

Lemma has_bit f n : 0 ≤ n → has f (2 ^ n) = Z.testbit f n.
Proof.
  intros Hn. unfold has. rewrite land_pow2 by done. destruct (Z.testbit f n); [|done].
  assert (0 < 2 ^ n) by lia. by replace (2 ^ n =? 0) with false by lia.
Qed.
Lemma has_lor f g m : has (Z.lor f g) m = has f m || has g m.
Proof.
  unfold has. rewrite Z.land_lor_distr_l.
  destruct (Z.eqb_spec (Z.land f m) 0) as [->|Hf].
  - rewrite Z.lor_0_l. done.
  - cbn. apply negb_true_iff, Z.eqb_neq. intros [? _]%Z.lor_eq_0_iff. done.
Qed.
Lemma has_ldiff f g n : 0 ≤ n → has (Z.ldiff f g) (2 ^ n) = has f (2 ^ n) && negb (has g (2 ^ n)).
Proof. intros Hn. by rewrite !has_bit, Z.ldiff_spec by done. Qed.
Lemma has_ldiff_busy f g : has (Z.ldiff f g) B_BUSY = has f B_BUSY && negb (has g B_BUSY).
Proof. apply (has_ldiff f g 0). lia. Qed.
Lemma has_ldiff_valid f g : has (Z.ldiff f g) B_VALID = has f B_VALID && negb (has g B_VALID).
Proof. apply (has_ldiff f g 1). lia. Qed.
Lemma has_ldiff_dirty f g : has (Z.ldiff f g) B_DIRTY = has f B_DIRTY && negb (has g B_DIRTY).
Proof. apply (has_ldiff f g 2). lia. Qed.
Lemma has_flag_table :
  has B_BUSY B_BUSY = true ∧ has B_BUSY B_VALID = false ∧ has B_BUSY B_DIRTY = false ∧
  has B_VALID B_BUSY = false ∧ has B_VALID B_VALID = true ∧ has B_VALID B_DIRTY = false ∧
  has B_DIRTY B_BUSY = false ∧ has B_DIRTY B_VALID = false ∧ has B_DIRTY B_DIRTY = true.
Proof. done. Qed.

Lemma nothing_to_do f :
  (Z.land f (Z.lor B_VALID B_DIRTY) =? B_VALID) = has f B_VALID && negb (has f B_DIRTY).
Proof.
  rewrite Z.land_lor_distr_r. change B_VALID with (2 ^ 1). change B_DIRTY with (2 ^ 2).
  rewrite !land_pow2, !has_bit by lia. by destruct (Z.testbit f 1), (Z.testbit f 2).
Qed.

(** Flags after the updates the kernel makes. *)
Ltac flags :=
  destruct has_flag_table as (Hfbb & Hfbv & Hfbd & Hfvb & Hfvv & Hfvd & Hfdb & Hfdv & Hfdd);
  do 3 rewrite ?has_lor, ?has_ldiff_busy, ?has_ldiff_valid, ?has_ldiff_dirty in *;
  rewrite ?Hfbb, ?Hfbv, ?Hfbd, ?Hfvb, ?Hfvv, ?Hfvd, ?Hfdb, ?Hfdv, ?Hfdd,
    ?orb_true_r, ?orb_false_r, ?andb_true_r, ?andb_false_r in *;
  clear Hfbb Hfbv Hfbd Hfvb Hfvv Hfvd Hfdb Hfdv Hfdd; cbn [negb andb orb] in *;
  rewrite ?orb_true_r, ?orb_false_r, ?andb_true_r, ?andb_false_r in *.

(** ** The driver's contract *)

Definition bc_read (b : nat) (d : list Z) (c : bcache_t) : bcache_t :=
  c <| bc_buf ::= alter (λ x, x <| b_data := d |> <| b_flags ::= λ f, Z.lor f B_VALID |>) b |>.
Definition bc_written (b : nat) (c : bcache_t) : bcache_t :=
  c <| bc_buf ::= alter (set b_flags (λ f, Z.lor (Z.ldiff f B_DIRTY) B_VALID)) b |>.

(** [iderw] of a busy buffer of disk 1 writes the sector if the buffer is
    dirty, and reads it if the buffer has no data yet. *)
Class disk_laws `{disk} := {
  iderw_write : ∀ s b x, bc_buf (k_bcache s) !! b = Some x →
    has (b_flags x) B_BUSY = true → has (b_flags x) B_DIRTY = true → b_dev x = 1 →
    b_sector x < length (k_disk s) →
    iderw b s = Ret tt (disk_write (b_sector x) (b_data x) (s <| k_bcache ::= bc_written b |>));
  iderw_read : ∀ s b x d, bc_buf (k_bcache s) !! b = Some x →
    has (b_flags x) B_BUSY = true → has (b_flags x) B_DIRTY = false → has (b_flags x) B_VALID = false →
    b_dev x = 1 → k_disk s !! Z.to_nat (b_sector x) = Some d → b_sector x < length (k_disk s) →
    iderw b s = Ret tt (s <| k_bcache ::= bc_read b d |>);
}.

#[export] Instance memide_laws : disk_laws (H := memide).
Proof.
  split.
  - intros s b x Hx Hbusy Hdirty Hdev Hsec. unfold iderw, memide, memide_iderw.
    step (get_buf_eq _ _ _ Hx). rewrite Hbusy, nothing_to_do, Hdirty, andb_false_r, Hdev, Z.eqb_refl. cbn [negb].
    mstep. cbn [id]. replace (_ <=? _) with false by lia.
    erewrite bind_ret; [|step (upd_buf_eq _ _ _ _ Hx); reflexivity].
    erewrite upd_buf_eq by (cbn; by rewrite list_lookup_alter_eq, Hx).
    unfold bc_written, disk_write. cbn. by rewrite list_alter_alter_eq.
  - intros s b x d Hx Hbusy Hdirty Hvalid Hdev Hd Hsec. unfold iderw, memide, memide_iderw.
    step (get_buf_eq _ _ _ Hx). rewrite Hbusy, nothing_to_do, Hdirty, Hvalid, Hdev, Z.eqb_refl. cbn [negb andb].
    mstep. cbn [id]. replace (_ <=? _) with false by lia.
    erewrite bind_ret; [|rewrite Hd; mstep; apply (upd_buf_eq _ _ x); done].
    erewrite upd_buf_eq by (cbn; by rewrite list_lookup_alter_eq, Hx).
    unfold bc_read. cbn. by rewrite list_alter_alter_eq.
Qed.

(** ** What the cache promises *)

Record bio_ok (s : kstate) (l : list nat) : Prop := {
  bo_lru : lru (k_bcache s) l;
  bo_len : length (bc_buf (k_bcache s)) = NBUF;
  bo_uniq : ∀ i j x y, bc_buf (k_bcache s) !! i = Some x → bc_buf (k_bcache s) !! j = Some y →
    b_dev x = 1 → b_dev y = 1 → b_sector x = b_sector y → i = j;
  bo_valid : ∀ i x, bc_buf (k_bcache s) !! i = Some x →
    has (b_flags x) B_VALID = true ∨ has (b_flags x) B_DIRTY = true →
    has (b_flags x) B_VALID = true ∧ b_dev x = 1 ∧ 0 ≤ b_sector x < length (k_disk s);
  bo_clean : ∀ i x, bc_buf (k_bcache s) !! i = Some x →
    has (b_flags x) B_BUSY = false → has (b_flags x) B_VALID = true → has (b_flags x) B_DIRTY = false →
    k_disk s !! Z.to_nat (b_sector x) = Some (b_data x);
  bo_busy : ∀ i x, bc_buf (k_bcache s) !! i = Some x → has (b_flags x) B_BUSY = true → b_dev x = 1;
}.

(** The buffer of a sector. *)
Definition cached (s : kstate) (sector : Z) (b : nat) (x : buf) : Prop :=
  bc_buf (k_bcache s) !! b = Some x ∧ b_dev x = 1 ∧ b_sector x = sector.

(** The current contents of a sector: what a valid buffer holds, and what the
    disk holds otherwise. *)
Definition content (s : kstate) (sector : Z) : option (list Z) :=
  match list_find (λ x, (b_dev x =? 1) && (b_sector x =? sector) && has (b_flags x) B_VALID)
          (bc_buf (k_bcache s)) with
  | Some (_, x) => Some (b_data x)
  | None => k_disk s !! Z.to_nat sector
  end.

(** No one holds the sector's buffer, and there is a buffer to read it into. *)
Definition can_read (s : kstate) (sector : Z) : Prop :=
  0 ≤ sector < length (k_disk s) ∧
  (∀ b x, cached s sector b x → has (b_flags x) B_BUSY = false) ∧
  ((∃ b x, cached s sector b x) ∨ ∃ b, idle_clean (k_bcache s) b = true).

Section bio_spec.
Context `{Hk : kenv} `{Hd : disk} `{Hdl : !disk_laws}.
Implicit Types (l : list nat) (b : nat) (s t : kstate).

Lemma content_cached s l sector b x :
  bio_ok s l → cached s sector b x → has (b_flags x) B_VALID = true → content s sector = Some (b_data x).
Proof.
  intros Hok (Hx & Hdv & Hs) Hv. unfold content.
  destruct (list_find _ _) as [[j y]|] eqn:E.
  - apply list_find_Some in E as (Hy & HP & _). apply Is_true_true in HP.
    rewrite !andb_true_iff, !Z.eqb_eq in HP. destruct HP as [[Hdy Hsy] _].
    assert (j = b) as -> by (eapply bo_uniq; eauto; congruence). by simplify_eq.
  - apply list_find_None in E. rewrite Forall_lookup in E. destruct (E b x Hx).
    by rewrite Hdv, Hs, Hv, !Z.eqb_refl.
Qed.

Lemma content_disk s sector :
  (∀ b x, cached s sector b x → has (b_flags x) B_VALID = false) →
  content s sector = k_disk s !! Z.to_nat sector.
Proof.
  intros Hno. unfold content. destruct (list_find _ _) as [[j y]|] eqn:E; [|done].
  apply list_find_Some in E as (Hy & HP & _). apply Is_true_true in HP.
  rewrite !andb_true_iff, !Z.eqb_eq in HP. destruct HP as [[Hdy Hsy] Hv].
  rewrite (Hno j y) in Hv; [done|]. done.
Qed.

Lemma buf_in_order s l b x : bio_ok s l → bc_buf (k_bcache s) !! b = Some x → b ∈ l.
Proof.
  intros Hok Hx. destruct (bo_lru _ _ Hok) as (_ & _ & Hperm & _). rewrite Hperm. apply elem_of_seq.
  apply lookup_lt_Some in Hx. rewrite (bo_len _ _ Hok) in Hx. lia.
Qed.

Lemma find_caches s l sector :
  bio_ok s l →
  match List.find (caches (k_bcache s) 1 sector) l with
  | Some b => ∃ x, cached s sector b x
  | None => ∀ b x, ¬ cached s sector b x
  end.
Proof.
  intros Hok. destruct (List.find _ l) as [b|] eqn:E.
  - apply find_some in E as [_ E]. unfold caches in E. unfold cached.
    destruct (bc_buf _ !! b) as [x|]; [|done]. exists x. rewrite andb_true_iff, !Z.eqb_eq in E. naive_solver.
  - intros b x (Hx & Hdv & Hs). assert (Hin := buf_in_order _ _ _ _ Hok Hx).
    apply list_elem_of_In in Hin. assert (Hc := find_none _ _ E _ Hin).
    unfold caches in Hc. by rewrite Hx, Hdv, Hs, !Z.eqb_refl in Hc.
Qed.

(** A state whose cache differs from that of [s] in buffer [b] only. *)
Definition rebuf (b : nat) (x : buf) (s : kstate) : bcache_t :=
  (k_bcache s) <| bc_buf ::= <[b := x]> |>.

Lemma rebuf_here b x x0 s : bc_buf (k_bcache s) !! b = Some x0 → bc_buf (rebuf b x s) !! b = Some x.
Proof. intros Hb. cbn. apply list_lookup_insert_eq. by eapply lookup_lt_Some. Qed.

Lemma rebuf_lookup b x x0 s j y :
  bc_buf (k_bcache s) !! b = Some x0 → bc_buf (rebuf b x s) !! j = Some y →
  j = b ∧ y = x ∨ j ≠ b ∧ bc_buf (k_bcache s) !! j = Some y.
Proof.
  intros Hb. cbn. destruct (decide (j = b)) as [->|Hne].
  - rewrite list_lookup_insert_eq by (by eapply lookup_lt_Some). intros [= ->]. by left.
  - rewrite list_lookup_insert_ne by done. by right.
Qed.

Lemma bio_ok_rebuf s t l b x0 x :
  bio_ok s l → bc_buf (k_bcache s) !! b = Some x0 →
  k_bcache t = rebuf b x s → k_disk t = k_disk s →
  (b_dev x = 1 → ∀ j y, cached s (b_sector x) j y → j = b) →
  (has (b_flags x) B_VALID = true ∨ has (b_flags x) B_DIRTY = true →
    has (b_flags x) B_VALID = true ∧ b_dev x = 1 ∧ 0 ≤ b_sector x < length (k_disk s)) →
  (has (b_flags x) B_BUSY = false → has (b_flags x) B_VALID = true → has (b_flags x) B_DIRTY = false →
    k_disk s !! Z.to_nat (b_sector x) = Some (b_data x)) →
  (has (b_flags x) B_BUSY = true → b_dev x = 1) →
  bio_ok t l.
Proof.
  intros Hok Hb Hc Hdk Hu Hv Hcl Hbu. split; rewrite ?Hc, ?Hdk.
  - apply Hok.
  - cbn. rewrite length_insert. apply Hok.
  - intros i j y z Hi Hj Hy Hz E.
    destruct (rebuf_lookup _ _ _ _ _ _ Hb Hi) as [[-> ->]|[Hi1 Hi2]],
      (rebuf_lookup _ _ _ _ _ _ Hb Hj) as [[-> ->]|[Hj1 Hj2]]; [done| | |by eapply bo_uniq].
    + symmetry. by eapply Hu.
    + by eapply Hu.
  - intros i y Hi. destruct (rebuf_lookup _ _ _ _ _ _ Hb Hi) as [[-> ->]|[_ Hi2]]; [done|].
    by eapply bo_valid.
  - intros i y Hi. destruct (rebuf_lookup _ _ _ _ _ _ Hb Hi) as [[-> ->]|[_ Hi2]]; [done|].
    by eapply bo_clean.
  - intros i y Hi. destruct (rebuf_lookup _ _ _ _ _ _ Hb Hi) as [[-> ->]|[_ Hi2]]; [done|].
    by eapply bo_busy.
Qed.

Lemma valid_cached_dec s sector :
  (∃ b x, cached s sector b x ∧ has (b_flags x) B_VALID = true) ∨
  (∀ b x, cached s sector b x → has (b_flags x) B_VALID = false).
Proof.
  destruct (list_find (λ x, (b_dev x =? 1) && (b_sector x =? sector) && has (b_flags x) B_VALID)
    (bc_buf (k_bcache s))) as [[j y]|] eqn:E.
  - left. apply list_find_Some in E as (Hy & HP & _). apply Is_true_true in HP.
    rewrite !andb_true_iff, !Z.eqb_eq in HP. exists j, y. unfold cached. naive_solver.
  - right. apply list_find_None in E. rewrite Forall_lookup in E. intros b x (Hx & Hdv & Hs).
    apply not_true_iff_false. intros Hv. apply (E b x Hx). by rewrite Hdv, Hs, Hv, !Z.eqb_refl.
Qed.

Lemma content_rebuf s t l b x0 x sector :
  bio_ok s l → bio_ok t l → bc_buf (k_bcache s) !! b = Some x0 →
  k_bcache t = rebuf b x s → k_disk t = k_disk s →
  (has (b_flags x0) B_VALID = true →
    has (b_flags x) B_VALID = true ∧ b_sector x = b_sector x0 ∨
    k_disk s !! Z.to_nat (b_sector x0) = Some (b_data x0)) →
  (has (b_flags x) B_VALID = true → content s (b_sector x) = Some (b_data x)) →
  content t sector = content s sector.
Proof.
  intros Hs Ht Hb Hc Hdk H0 H1.
  assert (Hbt : bc_buf (k_bcache t) !! b = Some x).
  { rewrite Hc. cbn. apply list_lookup_insert_eq. by eapply lookup_lt_Some. }
  assert (Hot : ∀ j, j ≠ b → bc_buf (k_bcache t) !! j = bc_buf (k_bcache s) !! j)
    by (intros j Hj; rewrite Hc; cbn; by rewrite list_lookup_insert_ne).
  destruct (valid_cached_dec t sector) as [(j & y & Hy & Hv)|Hno].
  - rewrite (content_cached t l sector j y) by done. destruct Hy as (Hy & Hdv & Hse).
    destruct (decide (j = b)) as [->|Hj]; [simplify_eq; symmetry; auto|].
    rewrite Hot in Hy by done. by rewrite (content_cached s l sector j y).
  - rewrite (content_disk t) by done. rewrite Hdk.
    destruct (valid_cached_dec s sector) as [(j & y & Hy & Hv)|Hno']; [|by rewrite content_disk].
    rewrite (content_cached s l sector j y) by done. destruct Hy as (Hy & Hdv & Hse).
    destruct (decide (j = b)) as [->|Hj]; [simplify_eq|].
    + destruct (H0 Hv) as [[Hvx Hsx]|Hsx]; [|done]. destruct (bo_valid _ _ Ht _ _ Hbt) as (_ & Hdx & _); [auto|].
      rewrite (Hno b x) in Hvx; done.
    + rewrite <-Hot in Hy by done. rewrite (Hno j y) in Hv; done.
Qed.

Lemma alter_rebuf s b x f : bc_buf (k_bcache s) !! b = Some x →
  (k_bcache s) <| bc_buf ::= alter f b |> = rebuf b (f x) s.
Proof. intros Hx. unfold rebuf. cbn. by rewrite (alter_insert _ _ _ x). Qed.

(** [bget] of a sector no one holds: its buffer, or a clean idle one. *)
Lemma bget_spec s l sector :
  quiet s → bio_ok s l → can_read s sector →
  ∃ b x0 x, bget 1 sector s = Ret b (s <| k_cpus := relcpus s |> <| k_bcache := rebuf b x s |>) ∧
    bc_buf (k_bcache s) !! b = Some x0 ∧ has (b_flags x0) B_BUSY = false ∧
    (b_dev x0 = 1 ∧ b_sector x0 = sector ∧ x = x0 <| b_flags ::= λ f, Z.lor f B_BUSY |> ∨
     (∀ j y, ¬ cached s sector j y) ∧ has (b_flags x0) B_DIRTY = false ∧
     x = mkBuf B_BUSY 1 sector (b_data x0)).
Proof.
  intros Hq Hok (Hr & Hbusy & Hav).
  assert (He := bget_eq s l 1 sector Hq (bo_lru _ _ Hok) (bo_len _ _ Hok)).
  assert (Hf := find_caches s l sector Hok).
  destruct (List.find (caches _ _ _) l) as [b|].
  - destruct Hf as [x0 Hx0]. specialize (Hbusy _ _ Hx0). destruct Hx0 as (Hx & Hdv & Hs).
    exists b, x0, (x0 <| b_flags ::= λ f, Z.lor f B_BUSY |>).
    rewrite (He _ Hx Hbusy). split_and!; [|done|done|by left].
    by rewrite <-(alter_rebuf s b x0 (set b_flags (λ f, Z.lor f B_BUSY)) Hx).
  - destruct Hav as [(b & x & Hx)|[b0 Hb0]]; [by destruct (Hf _ _ Hx)|].
    destruct (List.find (idle_clean _) (rev l)) as [b|] eqn:Ec.
    + apply find_some in Ec as [_ Ec]. unfold idle_clean in Ec.
      destruct (bc_buf (k_bcache s) !! b) as [x0|] eqn:Hx; [|done].
      apply andb_true_iff in Ec as [H1%negb_true_iff H2%negb_true_iff].
      exists b, x0, (mkBuf B_BUSY 1 sector (b_data x0)). rewrite He. split_and!; [|done|done|by right].
      by rewrite <-(alter_rebuf s b x0 (λ x, mkBuf B_BUSY 1 sector (b_data x)) Hx).
    + exfalso. assert (Hin : b0 ∈ rev l).
      { rewrite <-Permutation_rev. unfold idle_clean in Hb0.
        destruct (bc_buf (k_bcache s) !! b0) as [y|] eqn:Ey; [by eapply buf_in_order|done]. }
      apply list_elem_of_In, (find_none _ _ Ec) in Hin. congruence.
Qed.

(** The state and buffer [bread] ends with. *)
Definition read_buf (s : kstate) (l : list nat) (sector : Z) (b : nat) (x : buf) (t : kstate) : Prop :=
  t = s <| k_cpus := relcpus s |> <| k_bcache := rebuf b x s |> ∧
  (∃ x0, bc_buf (k_bcache s) !! b = Some x0 ∧ has (b_flags x0) B_BUSY = false ∧
     has (b_flags x) B_DIRTY = has (b_flags x0) B_DIRTY ∧
     (has (b_flags x0) B_DIRTY = true → b_dev x0 = 1 ∧ b_sector x0 = sector) ∧
     ∀ j y, cached s sector j y → j = b) ∧
  b_dev x = 1 ∧ b_sector x = sector ∧ has (b_flags x) B_BUSY = true ∧ has (b_flags x) B_VALID = true ∧
  content s sector = Some (b_data x) ∧
  (has (b_flags x) B_DIRTY = false → k_disk s !! Z.to_nat sector = Some (b_data x)) ∧
  bio_ok t l ∧ ∀ sec', content t sec' = content s sec'.

Lemma bread_spec s l sector :
  quiet s → bio_ok s l → can_read s sector →
  ∃ b x t, bread 1 sector s = Ret b t ∧ read_buf s l sector b x t.
Proof.
  intros Hq Hok Hcr. destruct (bget_spec s l sector Hq Hok Hcr) as (b & x0 & x1 & Hg & Hx0 & Hb0 & Hcase).
  assert (Hr : 0 ≤ sector < length (k_disk s)) by apply Hcr.
  destruct (lookup_lt_is_Some_2 (k_disk s) (Z.to_nat sector)) as [d Hdk]; [lia|].
  set (s1 := s <| k_cpus := relcpus s |> <| k_bcache := rebuf b x1 s |>) in *.
  assert (Hx1 : bc_buf (k_bcache s1) !! b = Some x1)
    by (cbn; apply list_lookup_insert_eq; by eapply lookup_lt_Some).
  assert (Huniq : ∀ j y, cached s sector j y → j = b).
  { destruct Hcase as [(Hdv & Hs & _)|(Hno & _)]; [|by intros j y Hy; destruct (Hno j y)].
    intros j y (Hy & Hdy & Hsy). eapply bo_uniq; eauto. congruence. }
  assert (Hb1 : b_dev x1 = 1 ∧ b_sector x1 = sector ∧ has (b_flags x1) B_BUSY = true ∧
    has (b_flags x1) B_DIRTY = has (b_flags x0) B_DIRTY).
  { destruct Hcase as [(Hdv & Hs & ->)|(_ & Hdi & ->)]; cbn; flags; split_and!; congruence. }
  destruct Hb1 as (Hdv1 & Hs1 & Hbu1 & Hdi1).
  assert (Hdi0 : has (b_flags x0) B_DIRTY = true → has (b_flags x0) B_VALID = true)
    by (intros; eapply bo_valid; eauto).
  assert (Hdi2 : has (b_flags x0) B_DIRTY = true → b_dev x0 = 1 ∧ b_sector x0 = sector)
    by (destruct Hcase as [(? & ? & _)|(_ & ? & _)]; [done|congruence]).
  unfold bread. rewrite (bind_ret _ _ _ _ _ Hg), (bind_ret _ _ _ _ _ (get_buf_eq _ _ _ Hx1)).
  destruct (has (b_flags x1) B_VALID) eqn:Hv1; cbn [negb].
  - exists b, x1, s1. split; [done|].
    assert (Hv0 : x1 = x0 <| b_flags ::= λ f, Z.lor f B_BUSY |> ∧ has (b_flags x0) B_VALID = true ∧
      b_dev x0 = 1 ∧ b_sector x0 = sector).
    { destruct Hcase as [(Hdv & Hs & ->)|(_ & Hdi & ->)]; [|done]. cbn in Hv1. flags. done. }
    destruct Hv0 as (Ex & Hv0 & Hdv0 & Hs0).
    assert (Hco : content s sector = Some (b_data x1)) by (rewrite Ex; by apply (content_cached s l sector b x0)).
    assert (Hok1 : bio_ok s1 l).
    { eapply bio_ok_rebuf; [done|exact Hx0|reflexivity|done|by rewrite Hs1| |congruence|done]. intros _. by rewrite Hs1. }
    split_and!; try done; [by exists x0| |].
    + intros Hd1. rewrite Ex. cbn. rewrite <-Hs0. eapply bo_clean; eauto; congruence.
    + intros sec'. eapply (content_rebuf s s1 l b x0 x1); try done; [|by rewrite Hs1].
      intros _. left. split; congruence.
  - assert (Hd1 : has (b_flags x1) B_DIRTY = false).
    { rewrite Hdi1. apply not_true_is_false. intros Hd0. specialize (Hdi0 Hd0).
      destruct Hcase as [(_ & _ & ->)|(_ & ? & _)]; [|congruence]. cbn in Hv1. flags. congruence. }
    assert (Hno : ∀ j y, cached s sector j y → has (b_flags y) B_VALID = false).
    { intros j y Hy. assert (j = b) as -> by eauto. destruct Hcase as [(_ & _ & ->)|(Hno & _ & ->)].
      - destruct Hy as (Hy & _). simplify_eq. cbn in Hv1. flags. done.
      - by destruct (Hno b y). }
    set (x2 := x1 <| b_data := d |> <| b_flags ::= λ f, Z.lor f B_VALID |>).
    set (t := s <| k_cpus := relcpus s |> <| k_bcache := rebuf b x2 s |>).
    assert (Hf2 : has (b_flags x2) B_BUSY = true ∧ has (b_flags x2) B_VALID = true ∧
      has (b_flags x2) B_DIRTY = false) by (cbn; flags; done).
    exists b, x2, t. split.
    { erewrite bind_ret; [|apply (iderw_read s1 b x1 d); try done; rewrite ?Hs1; [done|cbn; lia]].
      unfold ret, t, bc_read. cbn. by rewrite (alter_insert _ _ _ x1), list_insert_insert_eq by done. }
    assert (Hok2 : bio_ok t l).
    { eapply (bio_ok_rebuf s t l b x0 x2); try done; cbn; rewrite ?Hs1; try done; intros; by flags. }
    assert (Hco : content s sector = Some d) by (by rewrite content_disk).
    split_and!; try done; try apply Hf2.
    + exists x0. split_and!; try done. destruct Hf2 as (_ & _ & ->). congruence.
    + intros sec'. eapply (content_rebuf s t l b x0 x2); try done; [|by cbn; rewrite Hs1].
      intros Hv0. right. eapply bo_clean; eauto; congruence.
Qed.

(** [bwrite] of a held buffer puts it on disk. *)
Definition clean_buf (x : buf) : buf :=
  x <| b_flags ::= λ f, Z.lor (Z.ldiff (Z.lor f B_DIRTY) B_DIRTY) B_VALID |>.

Lemma clean_buf_flags x :
  has (b_flags (clean_buf x)) B_BUSY = has (b_flags x) B_BUSY ∧
  has (b_flags (clean_buf x)) B_VALID = true ∧ has (b_flags (clean_buf x)) B_DIRTY = false.
Proof. unfold clean_buf. cbn [b_flags set]. flags. split_and!; by destruct (has (b_flags x) B_BUSY). Qed.

Lemma bwrite_eq s b x :
  bc_buf (k_bcache s) !! b = Some x → has (b_flags x) B_BUSY = true → b_dev x = 1 →
  b_sector x < length (k_disk s) →
  bwrite b s = Ret tt (disk_write (b_sector x) (b_data x) (s <| k_bcache := rebuf b (clean_buf x) s |>)).
Proof.
  intros Hx Hb Hdv Hs. unfold bwrite. step (get_buf_eq _ _ _ Hx). rewrite Hb. cbn [negb].
  erewrite bind_ret by (by apply (upd_buf_eq _ _ x)).
  erewrite (iderw_write _ b (x <| b_flags ::= λ f, Z.lor f B_DIRTY |>)); try done.
  - unfold bc_written, disk_write, rebuf, clean_buf. cbn. rewrite list_alter_alter_eq, (alter_insert _ _ _ x) by done. done.
  - cbn. by rewrite list_lookup_alter_eq, Hx.
  - cbn. flags. done.
  - cbn. flags. done.
Qed.

Lemma bwrite_ok s l b x :
  bio_ok s l → bc_buf (k_bcache s) !! b = Some x → has (b_flags x) B_BUSY = true → b_dev x = 1 →
  0 ≤ b_sector x < length (k_disk s) →
  let t := disk_write (b_sector x) (b_data x) (s <| k_bcache := rebuf b (clean_buf x) s |>) in
  bio_ok t l ∧ ∀ sec', 0 ≤ sec' →
    content t sec' = if decide (sec' = b_sector x) then Some (b_data x) else content s sec'.
Proof.
  intros Hok Hx Hb Hdv Hs t. destruct (clean_buf_flags x) as (Hcb & Hcv & Hcd).
  assert (Hbt : bc_buf (k_bcache t) !! b = Some (clean_buf x)).
  { cbn. apply list_lookup_insert_eq. by eapply lookup_lt_Some. }
  assert (Hot : ∀ j, j ≠ b → bc_buf (k_bcache t) !! j = bc_buf (k_bcache s) !! j)
    by (intros j Hj; cbn; by rewrite list_lookup_insert_ne).
  assert (Hsec : ∀ j y, j ≠ b → bc_buf (k_bcache s) !! j = Some y → b_dev y = 1 → b_sector y ≠ b_sector x).
  { intros j y Hj Hy Hdy E. apply Hj. by eapply bo_uniq. }
  assert (Hokt : bio_ok t l).
  { split.
    - apply Hok.
    - cbn. rewrite length_insert. apply Hok.
    - intros i j y z Hi Hj Hy Hz E.
      destruct (rebuf_lookup _ _ _ _ _ _ Hx Hi) as [[-> ->]|[Hi1 Hi2]],
        (rebuf_lookup _ _ _ _ _ _ Hx Hj) as [[-> ->]|[Hj1 Hj2]]; [done| | |by eapply bo_uniq].
      + by destruct (Hsec _ _ Hj1 Hj2).
      + by destruct (Hsec _ _ Hi1 Hi2).
    - intros i y Hi Hv. cbn. rewrite length_insert.
      destruct (rebuf_lookup _ _ _ _ _ _ Hx Hi) as [[-> ->]|[Hi1 Hi2]]; [done|by eapply bo_valid].
    - intros i y Hi Hby Hvy Hdy.
      destruct (rebuf_lookup _ _ _ _ _ _ Hx Hi) as [[-> ->]|[Hi1 Hi2]]; [congruence|].
      destruct (bo_valid _ _ Hok _ _ Hi2) as (_ & Hdy1 & Hry); [auto|].
      cbn. rewrite list_lookup_insert_ne; [by eapply bo_clean|]. specialize (Hsec _ _ Hi1 Hi2 Hdy1). lia.
    - intros i y Hi. destruct (rebuf_lookup _ _ _ _ _ _ Hx Hi) as [[-> ->]|[_ Hi2]]; [done|by eapply bo_busy]. }
  split; [done|]. intros sec' Hs'. case_decide as E.
  - subst. by rewrite (content_cached t l (b_sector x) b (clean_buf x)).
  - destruct (valid_cached_dec s sec') as [(j & y & Hy & Hv)|Hno].
    + rewrite (content_cached s l sec' j y) by done. apply (content_cached t l sec' j y); [done| |done].
      destruct Hy as (Hy & Hdy & Hsy). split_and!; try done. rewrite Hot; [done|]. intros ->. simplify_eq.
    + rewrite (content_disk s sec' Hno), (content_disk t sec').
      * cbn. rewrite list_lookup_insert_ne; [done|]. lia.
      * intros j y (Hy & Hdy & Hsy).
        destruct (rebuf_lookup _ _ _ _ _ _ Hx Hy) as [[-> ->]|[Hj1 Hj2]]; [by destruct E|]. by apply (Hno j y).
Qed.

(** The pointer updates of [brelse], with any continuation. *)
Lemma brelse_links t c l1 b l2 (k : KM unit) :
  lru c (l1 ++ b :: l2) → k_bcache t = c →
  (let* n := bnext b in
   let* p := bprev b in
   do* set_prev n p in
   let* p := bprev b in
   let* n := bnext b in
   do* set_next p n in
   let* h := bnext bc_head in
   do* set_next b h in
   do* set_prev b bc_head in
   let* h := bnext bc_head in
   do* set_prev h b in
   do* set_next bc_head b in k) t = k (t <| k_bcache := bc_touch b c |>).
Proof.
  intros Hc <-. assert (Hn := lru_nodup _ _ Hc).
  destruct (cons_snoc bc_head l1) as (l1' & p & E1). destruct (snoc_cons bc_head l2) as (n & l2' & E2).
  destruct (lru_neighbours _ _ _ _ _ _ _ _ Hc E1 E2) as (Hnb & Hpb & Hpl & Hnl).
  apply NoDup_cons in Hn as [Hh [_ [_ [Hb _]%NoDup_cons]]%NoDup_app].
  assert (Hbh : b ≠ bc_head) by (intros ->; apply Hh, elem_of_app; right; by left).
  assert (n ≠ b).
  { intros ->. assert (Hin : b ∈ l2 ++ [bc_head]) by (rewrite E2; by left).
    apply elem_of_app in Hin as [?|?%list_elem_of_singleton]; done. }
  assert (Hf : ∃ f, <[p:=n]> (bc_next (k_bcache t)) !! bc_head = Some f).
  { apply lookup_lt_is_Some. rewrite length_insert. destruct Hc as (-> & _). unfold bc_head. lia. }
  destruct Hf as [f Hf]. unfold set_next, set_prev, upd_bcache.
  erewrite bind_ret by (by apply bnext_eq). erewrite bind_ret by (by apply bprev_eq). mstep.
  erewrite bind_ret by (apply bprev_eq; cbn; by rewrite list_lookup_insert_ne).
  erewrite bind_ret by (by apply bnext_eq). mstep.
  erewrite bind_ret by (by apply bnext_eq). mstep. mstep.
  erewrite bind_ret by (apply bnext_eq; cbn; by rewrite list_lookup_insert_ne).
  mstep. mstep. f_equal. unfold bc_touch, lru_push, lru_remove. rewrite Hnb, Hpb. cbn. rewrite Hf. done.
Qed.

Lemma brelse_eq s l b x :
  quiet s → bio_ok s l → bc_buf (k_bcache s) !! b = Some x → has (b_flags x) B_BUSY = true →
  ∃ pt', rtc pt_step (k_ptable s) pt' ∧ (∃ qs', mlf_rel pt' qs') ∧
    brelse b s = Ret tt (s <| k_cpus := relcpus s |> <| k_ptable := pt' |> <| k_bcache ::= bc_drop b |>).
Proof.
  intros (Hc & Hl & Hp & qs & Hrel) Hok Hx Hb.
  assert (Hin := buf_in_order _ _ _ _ Hok Hx).
  apply list_elem_of_split in Hin as (l1 & l2 & ->). assert (Hlru := bo_lru _ _ Hok).
  set (s1 := (acq LkBcache s) <| k_bcache ::= bc_drop b |>).
  destruct (wakeup_release LkBcache (ChBuf b) s s1 qs) as (pt' & Hst & Hq & Hw); try done.
  exists pt'. split; [done|]. split; [done|].
  unfold brelse. step (get_buf_eq _ _ _ Hx). rewrite Hb. cbn [negb].
  rewrite (bind_ret _ _ _ _ _ (acquire_free _ _ Hc Hl)).
  rewrite (brelse_links _ (k_bcache s) l1 b l2) by done.
  erewrite bind_ret by (by apply (upd_buf_eq _ _ x)).
  etransitivity; [exact Hw|]. by destruct s.
Qed.

Lemma content_ext s t sector :
  bc_buf (k_bcache t) = bc_buf (k_bcache s) → k_disk t = k_disk s → content t sector = content s sector.
Proof. unfold content. by intros -> ->. Qed.

Lemma bio_ok_links s t l l' :
  bio_ok s l → bc_buf (k_bcache t) = bc_buf (k_bcache s) → k_disk t = k_disk s →
  lru (k_bcache t) l' → bio_ok t l'.
Proof. intros [] Hb Hdk Hl. split; rewrite ?Hb, ?Hdk; auto. Qed.

Definition idle_buf (x : buf) : buf := x <| b_flags ::= λ f, Z.ldiff f B_BUSY |>.

Lemma bc_drop_buf s b x :
  bc_buf (k_bcache s) !! b = Some x → bc_buf (bc_drop b (k_bcache s)) = <[b := idle_buf x]> (bc_buf (k_bcache s)).
Proof. intros Hx. cbn. by rewrite (alter_insert _ _ _ x). Qed.

(** [brelse] of a buffer that is dirty or agrees with the disk. *)
Lemma brelse_ok s t l b x :
  bio_ok s l → bc_buf (k_bcache s) !! b = Some x → has (b_flags x) B_VALID = true →
  (has (b_flags x) B_DIRTY = false → k_disk s !! Z.to_nat (b_sector x) = Some (b_data x)) →
  k_bcache t = bc_drop b (k_bcache s) → k_disk t = k_disk s →
  (∃ l1 l2, l = l1 ++ b :: l2 ∧ bio_ok t (b :: l1 ++ l2)) ∧ ∀ sec', content t sec' = content s sec'.
Proof.
  intros Hok Hx Hv Hcl Hc Hdk.
  assert (Hin := buf_in_order _ _ _ _ Hok Hx).
  set (u := s <| k_bcache := rebuf b (idle_buf x) s |>).
  assert (Hfl : has (b_flags (idle_buf x)) B_VALID = true ∧
    has (b_flags (idle_buf x)) B_DIRTY = has (b_flags x) B_DIRTY) by (cbn; flags; done).
  destruct Hfl as [Hfv Hfd].
  assert (Hoku : bio_ok u l).
  { eapply (bio_ok_rebuf s u l b x (idle_buf x)); try done.
    - intros Hdv j y (Hy & Hdy & Hsy). by eapply bo_uniq.
    - intros _. destruct (bo_valid _ _ Hok _ _ Hx) as (_ & ? & ?); auto.
    - intros _ _ Hd'. rewrite Hfd in Hd'. by apply Hcl.
    - intros _. destruct (bo_valid _ _ Hok _ _ Hx) as (_ & ? & ?); auto. }
  assert (Hbt : bc_buf (k_bcache t) = bc_buf (k_bcache u)) by (by rewrite Hc, (bc_drop_buf s b x)).
  split.
  - apply list_elem_of_split in Hin as (l1 & l2 & ->). exists l1, l2. split; [done|].
    eapply (bio_ok_links u); [done|done|done|]. rewrite Hc. apply lru_touch. apply Hok.
  - intros sec'. rewrite (content_ext u t) by done.
    eapply (content_rebuf s u l b x (idle_buf x)); try done.
    + intros _. left. done.
    + intros _. cbn. eapply content_cached; [done| |done]. split_and!; try done.
      destruct (bo_valid _ _ Hok _ _ Hx) as (_ & ? & ?); auto.
Qed.

(** [quiet] only depends on the CPU, the locks and the process table. *)
Lemma quiet_ext s t :
  quiet s → k_cpu t = k_cpu s → k_cpus t = relcpus s → k_locks t = k_locks s →
  (∃ qs, mlf_rel (k_ptable t) qs) → quiet t.
Proof.
  intros (Hc & Hl & Hp & _) H1 H2 H3 H4. split_and!; try done.
  - eapply (cpu_wf_ext (s <| k_cpus := relcpus s |>)); [done|done|].
    apply cpu_wf_eqv; [done|]. apply cpus_eqv_relcpus.
  - unfold lock_free. by rewrite H3.
  - unfold lock_free. by rewrite H3.
Qed.
End bio_spec.

(** ** Initialisation *)

Definition bufs_zero : list buf := replicate NBUF (mkBuf 0 0 0 (replicate (Z.to_nat BSIZE) 0)).
Definition bcache_start : bcache_t :=
  mkBcache (replicate NBUF (mkBuf 0 (u32 (-1)) 0 (replicate (Z.to_nat BSIZE) 0)))
    [10; 0; 1; 2; 3; 4; 5; 6; 7; 8; 9]%nat [1; 2; 3; 4; 5; 6; 7; 8; 9; 10; 0]%nat.

Lemma binit_eq s :
  bc_buf (k_bcache s) = bufs_zero →
  binit s = Ret tt (s <| k_locks ::= <[LkBcache := lk_free]> |> <| k_bcache := bcache_start |>).
Proof.
  destruct s as [a0 a1 a2 a3 a4 a5 a6 a7 a8 a9 [bufs nx pv] a10 a11 a12 a13 a14 a15 a16 a17].
  cbn. intros ->. reflexivity.
Qed.

Lemma bcache_start_ok s :
  k_bcache s = bcache_start → bio_ok s [9; 8; 7; 6; 5; 4; 3; 2; 1; 0]%nat.
Proof.
  intros E.
  assert (Hb : ∀ i x, bc_buf (k_bcache s) !! i = Some x → b_flags x = 0 ∧ b_dev x = u32 (-1)).
  { rewrite E. intros i x [-> _]%lookup_replicate. done. }
  split.
  - rewrite E. split_and!; try done.
    change [9; 8; 7; 6; 5; 4; 3; 2; 1; 0]%nat with (rev (seq 0 NBUF)). symmetry. apply Permutation_rev.
  - by rewrite E.
  - intros i j x y [_ Hx]%Hb _ Hx'. rewrite Hx in Hx'. discriminate Hx'.
  - intros i x [Hf _]%Hb. rewrite Hf. by intros [].
  - intros i x [Hf _]%Hb _. by rewrite Hf.
  - intros i x [Hf _]%Hb. by rewrite Hf.
Qed.

(** ** Properties *)

Section props.
Context `{Hk : kenv} `{Hd : disk} `{Hdl : !disk_laws}.

(** reading a sector that no one holds returns, without sleeping, a busy
    buffer with the sector's current contents (what was last written to it,
    on disk or only in the cache), keeps the cache invariant (one buffer per
    sector, clean idle buffers agree with the disk), and changes neither the
    disk nor the contents of any other sector. *)
Theorem bread_correct s l sector :
  quiet s → bio_ok s l → can_read s sector →
  returns (bread 1 sector) s (λ b t, quiet t ∧ bio_ok t l ∧
    (∃ x, cached t sector b x ∧ has (b_flags x) B_BUSY = true ∧ has (b_flags x) B_VALID = true ∧
      content s sector = Some (b_data x)) ∧
    (∀ sec', content t sec' = content s sec') ∧ k_disk t = k_disk s ∧ k_writes t = k_writes s).
Proof.
  intros Hq Hok Hcr. destruct (bread_spec s l sector Hq Hok Hcr) as (b & x & t & He & Hr).
  destruct Hr as (Et & (x0 & Hx0 & _) & Hdv & Hs & Hb & Hv & Hco & _ & Hokt & Hcon).
  eapply returns_eq; [exact He|]. split_and!; try done; try (by rewrite Et).
  - eapply quiet_ext; [exact Hq|by rewrite Et..|]. rewrite Et. apply Hq.
  - exists x. split_and!; try done. rewrite Et. split_and!; try done. by apply (rebuf_here b x x0 s).
Qed.

(** writing a held buffer makes exactly one sector write, of the
    buffer's data to its sector; afterwards the disk, the contents of that
    sector and the buffer agree, and the cache invariant holds. *)
Theorem bwrite_correct s l b x :
  bio_ok s l → bc_buf (k_bcache s) !! b = Some x → has (b_flags x) B_BUSY = true → b_dev x = 1 →
  0 ≤ b_sector x < length (k_disk s) →
  returns (bwrite b) s (λ _ t, bio_ok t l ∧
    k_disk t = <[Z.to_nat (b_sector x) := b_data x]> (k_disk s) ∧
    k_writes t = k_writes s ++ [(b_sector x, b_data x)] ∧
    (∃ y, cached t (b_sector x) b y ∧ b_data y = b_data x ∧ has (b_flags y) B_DIRTY = false) ∧
    ∀ sec', 0 ≤ sec' →
      content t sec' = if decide (sec' = b_sector x) then Some (b_data x) else content s sec').
Proof.
  intros Hok Hx Hb Hdv Hs. destruct (bwrite_ok s l b x Hok Hx Hb Hdv Hs) as [Hokt Hcon].
  eapply returns_eq; [apply bwrite_eq; try done; lia|]. split_and!; try done.
  exists (clean_buf x). split_and!; [split_and!; try done|done|apply clean_buf_flags].
  by apply (rebuf_here b _ x s).
Qed.

(** releasing a held buffer that is dirty or agrees with the disk makes
    it idle and the most recently used one, wakes those who wait for it, and
    leaves every sector's contents alone. *)
Theorem brelse_correct s l b x :
  quiet s → bio_ok s l → bc_buf (k_bcache s) !! b = Some x →
  has (b_flags x) B_BUSY = true → has (b_flags x) B_VALID = true →
  (has (b_flags x) B_DIRTY = false → k_disk s !! Z.to_nat (b_sector x) = Some (b_data x)) →
  returns (brelse b) s (λ _ t, quiet t ∧
    (∃ l1 l2, l = l1 ++ b :: l2 ∧ bio_ok t (b :: l1 ++ l2)) ∧
    bc_buf (k_bcache t) = <[b := idle_buf x]> (bc_buf (k_bcache s)) ∧
    rtc pt_step (k_ptable s) (k_ptable t) ∧ k_disk t = k_disk s ∧
    ∀ sec', content t sec' = content s sec').
Proof.
  intros Hq Hok Hx Hb Hv Hcl. destruct (brelse_eq s l b x) as (pt' & Hst & Hqs & He); try done.
  eapply returns_eq; [exact He|]. set (t := s <| k_cpus := _ |> <| k_ptable := _ |> <| k_bcache ::= _ |>).
  destruct (brelse_ok s t l b x) as [Hokt Hcon]; try done. split_and!; try done.
  - by eapply quiet_ext.
  - cbn. by rewrite (alter_insert _ _ _ x).
Qed.

(** a sector that is not cached takes the place of the least recently
    used buffer among those neither held nor dirty; if there is none, the
    kernel panics. *)
Theorem bget_recycles_lru s l sector :
  quiet s → bio_ok s l → (∀ b x, ¬ cached s sector b x) →
  (∃ l1 b l2 t, l = l1 ++ b :: l2 ∧ idle_clean (k_bcache s) b = true ∧
     (∀ b', b' ∈ l2 → idle_clean (k_bcache s) b' = false) ∧ bget 1 sector s = Ret b t ∧
     k_bcache t = bc_recycle 1 sector b (k_bcache s)) ∨
  (∀ b, b ∈ l → idle_clean (k_bcache s) b = false) ∧ ∃ t, bget 1 sector s = Panic "bget: no buffers" t.
Proof.
  intros Hq Hok Hno. assert (He := bget_eq s l 1 sector Hq (bo_lru _ _ Hok) (bo_len _ _ Hok)).
  assert (Hf := find_caches s l sector Hok).
  destruct (List.find (caches _ _ _) l) as [b|]; [destruct Hf as [x Hx]; by destruct (Hno b x)|].
  destruct (List.find (idle_clean _) (rev l)) as [b|] eqn:Ec.
  - left. apply find_split in Ec as (m1 & m2 & Em & Hb & Hm1).
    exists (rev m2), b, (rev m1). eexists. split_and!; [|done| |exact He|done].
    + rewrite <-(rev_involutive l), Em, rev_app_distr. cbn. by rewrite <-app_assoc.
    + intros b' Hb'. apply Hm1. by rewrite Permutation_rev.
  - right. split; [|done]. intros b Hb. apply (find_none _ _ Ec). apply list_elem_of_In.
    by rewrite <-Permutation_rev.
Qed.
End props.

(** ** Witnesses *)

Module bio_demo.
Definition order : list nat := [9; 8; 7; 6; 5; 4; 3; 2; 1; 0]%nat.
Definition sector_of (v : Z) : list Z := replicate (Z.to_nat BSIZE) v.
(** A disk of 20 sectors and an empty cache. *)
Definition start : kstate :=
  boot_state <| k_bcache := bcache_start |> <| k_disk := replicate 20 (sector_of 7) |>.
(** Buffer 4 holds sector 3, modified in memory. *)
Definition mine : buf := mkBuf (Z.lor B_BUSY B_VALID) 1 3 (sector_of 8).
Definition held : kstate := start <| k_bcache := rebuf 4 mine start |>.
(** The same, already written. *)
Definition same : buf := mkBuf (Z.lor B_BUSY B_VALID) 1 3 (sector_of 7).
Definition synced : kstate := start <| k_bcache := rebuf 4 same start |>.

Lemma start_ok : bio_ok start order.
Proof. by apply bcache_start_ok. Qed.

Lemma start_quiet c : quiet (start <| k_bcache := c |>).
Proof. split_and!; [apply boot_cpu_wf|done|done|]. exists zero_queues. apply zero_rel. Qed.

Lemma bio_uncached sector j y : ¬ cached start sector j y.
Proof. intros ([-> _]%lookup_replicate & E & _). discriminate E. Qed.

Lemma rebuf_ok x : x = mine ∨ x = same → bio_ok (start <| k_bcache := rebuf 4 x start |>) order.
Proof.
  intros Hx. eapply (bio_ok_rebuf start _ order 4); [apply start_ok|reflexivity|reflexivity|done|..].
  - intros _ j y Hy. by destruct (bio_uncached _ _ _ Hy).
  - intros _. destruct Hx as [->| ->]; done.
  - destruct Hx as [->| ->]; done.
  - destruct Hx as [->| ->]; done.
Qed.
End bio_demo.

Lemma bread_correct_witness :
  returns (bread (H := kenv_example) (H0 := memide) 1 3) bio_demo.start (λ b t, quiet t ∧ bio_ok t bio_demo.order ∧
    (∃ x, cached t 3 b x ∧ has (b_flags x) B_BUSY = true ∧ has (b_flags x) B_VALID = true ∧
      content bio_demo.start 3 = Some (b_data x)) ∧
    (∀ sec', content t sec' = content bio_demo.start sec') ∧
    k_disk t = k_disk bio_demo.start ∧ k_writes t = k_writes bio_demo.start).
Proof.
  apply (bread_correct (Hk := kenv_example) (Hd := memide) bio_demo.start bio_demo.order 3);
    [apply (bio_demo.start_quiet bcache_start)|apply bio_demo.start_ok|].
  split_and!; [done|done| |].
  - intros b x Hx. by destruct (bio_demo.bio_uncached _ _ _ Hx).
  - right. by exists 0%nat.
Defined.

Lemma bwrite_correct_witness :
  returns (bwrite (H0 := memide) 4) bio_demo.held (λ _ t, bio_ok t bio_demo.order ∧
    k_disk t = <[3%nat := bio_demo.sector_of 8]> (k_disk bio_demo.held) ∧
    k_writes t = k_writes bio_demo.held ++ [(3, bio_demo.sector_of 8)] ∧
    (∃ y, cached t 3 4 y ∧ b_data y = bio_demo.sector_of 8 ∧ has (b_flags y) B_DIRTY = false) ∧
    ∀ sec', 0 ≤ sec' →
      content t sec' = if decide (sec' = 3) then Some (bio_demo.sector_of 8) else content bio_demo.held sec').
Proof.
  apply (bwrite_correct (Hd := memide) bio_demo.held bio_demo.order 4 bio_demo.mine); try done.
  apply bio_demo.rebuf_ok. by left.
Defined.

Lemma brelse_correct_witness :
  returns (brelse (H := kenv_example) 4) bio_demo.synced (λ _ t, quiet t ∧
    (∃ l1 l2, bio_demo.order = l1 ++ 4%nat :: l2 ∧ bio_ok t (4%nat :: l1 ++ l2)) ∧
    bc_buf (k_bcache t) = <[4%nat := idle_buf bio_demo.same]> (bc_buf (k_bcache bio_demo.synced)) ∧
    rtc pt_step (k_ptable bio_demo.synced) (k_ptable t) ∧ k_disk t = k_disk bio_demo.synced ∧
    ∀ sec', content t sec' = content bio_demo.synced sec').
Proof.
  apply (brelse_correct (Hk := kenv_example) bio_demo.synced bio_demo.order 4 bio_demo.same); try done.
  - apply bio_demo.start_quiet.
  - apply bio_demo.rebuf_ok. by right.
Defined.

Lemma bget_recycles_lru_witness :
  (∃ l1 b l2 t, bio_demo.order = l1 ++ b :: l2 ∧ idle_clean (k_bcache bio_demo.start) b = true ∧
     (∀ b', b' ∈ l2 → idle_clean (k_bcache bio_demo.start) b' = false) ∧
     bget (H := kenv_example) 1 3 bio_demo.start = Ret b t ∧
     k_bcache t = bc_recycle 1 3 b (k_bcache bio_demo.start)) ∨
  (∀ b, b ∈ bio_demo.order → idle_clean (k_bcache bio_demo.start) b = false) ∧
    ∃ t, bget (H := kenv_example) 1 3 bio_demo.start = Panic "bget: no buffers" t.
Proof.
  apply (bget_recycles_lru (Hk := kenv_example) bio_demo.start bio_demo.order 3).
  - apply (bio_demo.start_quiet bcache_start).
  - apply bio_demo.start_ok.
  - apply bio_demo.bio_uncached.
Defined.
