(* ===== verification/Blocks.v ===== *)
(** The buffer cache as its clients see it.  A client's state is summed up by
    the contents of each sector, the disk below, which sectors are held
    ([busy_at]) and which are pinned because the disk is behind ([dirty_at]),
    and how many buffers are free to be reused ([nidle]); each operation of
    bio.c changes these in a stated way, whatever buffers it uses. *)
From stdpp Require Import base numbers gmap strings option list.
From S2P Require Import Prelude State Spinlock Str Cprintf Kalloc Proc Mlf Sched Bio.

(** ** The view *)

Definition busy_at (s : kstate) (sector : Z) : Prop :=
  ∃ b x, cached s sector b x ∧ has (b_flags x) B_BUSY = true.
Definition dirty_at (s : kstate) (sector : Z) : Prop :=
  ∃ b x, cached s sector b x ∧ has (b_flags x) B_DIRTY = true.

Definition free_buf (x : buf) : bool := negb (has (b_flags x) B_BUSY) && negb (has (b_flags x) B_DIRTY).
Definition nidle (s : kstate) : nat := length (List.filter free_buf (bc_buf (k_bcache s))).

(** Buffer [b] is held with sector [sector] in it. *)
Definition held (s : kstate) (b : nat) (sector : Z) (x : buf) : Prop :=
  cached s sector b x ∧ has (b_flags x) B_BUSY = true ∧ has (b_flags x) B_VALID = true.

(** [t] differs from [s] in what the block layer changes only. *)
Definition frame (s t : kstate) : Prop :=
  t = s <| k_cpus := k_cpus t |> <| k_ptable := k_ptable t |> <| k_bcache := k_bcache t |>
        <| k_disk := k_disk t |> <| k_writes := k_writes t |>.

#[export] Instance frame_preorder : PreOrder frame.
Proof.
  split.
  - intros []. done.
  - intros s t u H1 H2. unfold frame in *. rewrite H2, H1. done.
Qed.

(** A well-formed state between two calls of the block layer. *)
Definition blk (s : kstate) : Prop := quiet s ∧ ∃ l, bio_ok s l.

(** [blk] does not depend on the rest of the state. *)
Lemma blk_ext s t :
  blk s → k_cpu t = k_cpu s → k_cpus t = k_cpus s → k_locks t = k_locks s → k_ptable t = k_ptable s →
  k_bcache t = k_bcache s → k_disk t = k_disk s → blk t.
Proof.
  intros [(Hc & Hl & Hp & Hq) [l Hok]] E1 E2 E3 E4 E5 E6. split.
  - split_and!; [by eapply cpu_wf_ext|..]; unfold lock_free; by rewrite ?E3, ?E4.
  - exists l. eapply bio_ok_links; [done|by rewrite E5|done|rewrite E5; apply Hok].
Qed.

(** ** Counting free buffers *)

Section counting.
Lemma filter_insert_length {A} (P : A → bool) (l : list A) i x y :
  l !! i = Some x →
  (length (List.filter P (<[i := y]> l)) + (if P x then 1 else 0) =
   length (List.filter P l) + (if P y then 1 else 0))%nat.
Proof.
  revert i. induction l as [|z l IH]; intros [|i] Hi; try done; cbn in *.
  - injection Hi as ->. destruct (P x), (P y); cbn; lia.
  - specialize (IH _ Hi). destruct (P z); cbn; [f_equal|]; exact IH.
Qed.

Lemma filter_all_true {A} (P : A → bool) (l : list A) : (∀ x, x ∈ l → P x = true) → List.filter P l = l.
Proof.
  induction l as [|x l IH]; intros Hl; [done|]. cbn. rewrite Hl by (by left). f_equal. apply IH.
  intros y Hy. apply Hl. by right.
Qed.

Lemma nidle_rebuf s t b x0 x :
  bc_buf (k_bcache s) !! b = Some x0 → bc_buf (k_bcache t) = <[b := x]> (bc_buf (k_bcache s)) →
  (nidle t + (if free_buf x0 then 1 else 0) = nidle s + (if free_buf x then 1 else 0))%nat.
Proof. intros Hb Ht. unfold nidle. rewrite Ht. by apply filter_insert_length. Qed.

Lemma nidle_some s : (1 ≤ nidle s)%nat → ∃ b, idle_clean (k_bcache s) b = true.
Proof.
  unfold nidle. intros Hn. destruct (List.filter free_buf _) as [|x l] eqn:E; [cbn in Hn; lia|].
  assert (Hin : In x (List.filter free_buf (bc_buf (k_bcache s)))) by (rewrite E; by left).
  apply filter_In in Hin as [Hin Hx]. apply list_elem_of_In, list_elem_of_lookup in Hin as [b Hb].
  exists b. unfold idle_clean. by rewrite Hb.
Qed.

(** With nothing held and nothing pinned, all buffers are free. *)
Lemma nidle_all s l :
  bio_ok s l → (∀ sec, ¬ busy_at s sec) → (∀ sec, ¬ dirty_at s sec) → nidle s = NBUF.
Proof.
  intros Hok Hb Hd. unfold nidle. rewrite <-(bo_len _ _ Hok). f_equal. apply filter_all_true.
  intros x Hx. apply list_elem_of_lookup in Hx as [i Hi]. unfold free_buf.
  destruct (has (b_flags x) B_BUSY) eqn:E1.
  { destruct (Hb (b_sector x)). exists i, x. split; [|done]. split_and!; try done. by eapply bo_busy. }
  destruct (has (b_flags x) B_DIRTY) eqn:E2; [|done].
  destruct (Hd (b_sector x)). exists i, x. split; [|done]. split_and!; try done.
  destruct (bo_valid _ _ Hok _ _ Hi) as (_ & ? & _); auto.
Qed.

Lemma can_read_view s sector :
  0 ≤ sector < length (k_disk s) → ¬ busy_at s sector → dirty_at s sector ∨ (1 ≤ nidle s)%nat →
  can_read s sector.
Proof.
  intros Hr Hb Hav. split_and!; [apply Hr|apply Hr| |].
  - intros b x Hx. apply not_true_is_false. intros E. apply Hb. by exists b, x.
  - destruct Hav as [(b & x & Hx & _)|Hn]; [left; eauto|right; by apply nidle_some].
Qed.
End counting.

(** ** The operations on the view *)


Section view.
Context `{Hk : kenv} `{Hd : disk} `{Hdl : !disk_laws}.
Implicit Types (s t : kstate) (b : nat) (sector : Z).

(** A sector has a buffer other than [b] with flag [m]. *)
Definition others (m : Z) (s : kstate) (b : nat) (sector : Z) : Prop :=
  ∃ j y, j ≠ b ∧ cached s sector j y ∧ has (b_flags y) m = true.

(** Replacing buffer [b]: which sectors have a buffer with flag [m]. *)
Lemma flag_rebuf m s t b x0 x sector :
  bc_buf (k_bcache s) !! b = Some x0 → bc_buf (k_bcache t) = <[b := x]> (bc_buf (k_bcache s)) →
  (∃ j y, cached t sector j y ∧ has (b_flags y) m = true) ↔
  (b_dev x = 1 ∧ b_sector x = sector ∧ has (b_flags x) m = true) ∨ others m s b sector.
Proof.
  intros Hb Ht. assert (Hlt := lookup_lt_Some _ _ _ Hb). unfold cached. rewrite Ht. split.
  - intros (j & y & (Hy & Hdv & Hs) & Hm). destruct (decide (j = b)) as [->|Hne].
    + rewrite list_lookup_insert_eq in Hy by done. injection Hy as <-. by left.
    + rewrite list_lookup_insert_ne in Hy by done. right. by exists j, y.
  - intros [(Hdv & Hs & Hm)|(j & y & Hne & (Hy & Hdv & Hs) & Hm)].
    + exists b, x. rewrite list_lookup_insert_eq by done. done.
    + exists j, y. rewrite list_lookup_insert_ne by done. done.
Qed.

Lemma flag_split m s l b x0 sector :
  bio_ok s l → bc_buf (k_bcache s) !! b = Some x0 →
  (∃ j y, cached s sector j y ∧ has (b_flags y) m = true) ↔
  (b_dev x0 = 1 ∧ b_sector x0 = sector ∧ has (b_flags x0) m = true) ∨ others m s b sector.
Proof.
  intros Hok Hb. apply (flag_rebuf m s s b x0 x0 sector Hb). by rewrite list_insert_id.
Qed.

Lemma others_sector m s l b x0 sector :
  bio_ok s l → bc_buf (k_bcache s) !! b = Some x0 → b_dev x0 = 1 → others m s b sector →
  sector ≠ b_sector x0.
Proof.
  intros Hok Hb Hdv (j & y & Hne & (Hy & Hdy & Hsy) & _) E. apply Hne. eapply bo_uniq; eauto. congruence.
Qed.

(** Buffers other than the one replaced stay held. *)
Lemma held_rebuf s t b x0 x j y sec' :
  bc_buf (k_bcache s) !! b = Some x0 → bc_buf (k_bcache t) = <[b := x]> (bc_buf (k_bcache s)) →
  j ≠ b → held s j sec' y → held t j sec' y.
Proof.
  intros Hb Ht Hne ((Hy & Hdv) & Hf). split; [|done]. split; [|done].
  by rewrite Ht, list_lookup_insert_ne.
Qed.

Lemma held_other s b x j y sec' :
  bc_buf (k_bcache s) !! b = Some x → sec' ≠ b_sector x → held s j sec' y → j ≠ b.
Proof. intros Hb Hne ((Hy & _ & Hs) & _) ->. simplify_eq. Qed.

Lemma bread_view s sector :
  blk s → 0 ≤ sector < length (k_disk s) → ¬ busy_at s sector → dirty_at s sector ∨ (1 ≤ nidle s)%nat →
  ∃ b x t, bread 1 sector s = Ret b t ∧ frame s t ∧ blk t ∧ held t b sector x ∧
    content s sector = Some (b_data x) ∧ (∀ sec', content t sec' = content s sec') ∧
    k_disk t = k_disk s ∧ k_writes t = k_writes s ∧
    (has (b_flags x) B_DIRTY = false → k_disk s !! Z.to_nat sector = Some (b_data x)) ∧
    (has (b_flags x) B_DIRTY = true ↔ dirty_at s sector) ∧
    (∀ sec', busy_at t sec' ↔ busy_at s sec' ∨ sec' = sector) ∧
    (∀ sec', dirty_at t sec' ↔ dirty_at s sec') ∧
    (nidle s ≤ nidle t + (if has (b_flags x) B_DIRTY then 0 else 1))%nat ∧
    (∀ j y sec', sec' ≠ sector → held s j sec' y → held t j sec' y).
Proof.
  intros [Hq [l Hok]] Hr Hb Hav.
  destruct (bread_spec s l sector Hq Hok) as (b & x & t & He & Hrd); [by apply can_read_view|].
  destruct Hrd as (Et & (x0 & Hx0 & Hb0 & Hd0 & Hd1 & Hun) & Hdv & Hs & Hbx & Hvx & Hco & Hcl & Hokt & Hcon).
  assert (Hbt : bc_buf (k_bcache t) = <[b := x]> (bc_buf (k_bcache s))) by (by rewrite Et).
  exists b, x, t. split; [done|]. split; [by rewrite Et|].
  assert (Hqt : quiet t). { eapply quiet_ext; [exact Hq|by rewrite Et..|]. rewrite Et. apply Hq. }
  split; [by split; [|exists l]|].
  split. { split; [|done]. split; [|done]. rewrite Hbt. apply list_lookup_insert_eq. by eapply lookup_lt_Some. }
  assert (Hdir : has (b_flags x) B_DIRTY = true ↔ dirty_at s sector).
  { split.
    - intros Hdx. rewrite Hd0 in Hdx. destruct (Hd1 Hdx). by exists b, x0.
    - intros (j & y & Hy & Hdy). assert (j = b) as -> by eauto. destruct Hy as (Hy & _). simplify_eq. congruence. }
  split_and!; try done; try (by rewrite Et).
  - intros sec'. unfold busy_at. rewrite (flag_rebuf _ s t b x0 x), (flag_split _ s l b x0) by done.
    rewrite Hb0, Hbx. intuition congruence.
  - intros sec'. unfold dirty_at. rewrite (flag_rebuf _ s t b x0 x), (flag_split _ s l b x0) by done.
    rewrite Hd0. split; [|intuition congruence]. intros [(_ & <- & Hdx)|?]; [|by right].
    left. destruct (Hd1 Hdx). split_and!; congruence.
  - assert (Hn := nidle_rebuf s t b x0 x Hx0 Hbt). unfold free_buf in Hn. rewrite Hbx, Hb0, <-Hd0 in Hn.
    cbn [negb andb] in Hn. destruct (has (b_flags x) B_DIRTY); cbn [negb] in Hn; lia.
  - intros j y sec' Hne Hh. eapply held_rebuf; [exact Hx0|exact Hbt| |done].
    intros ->. destruct Hh as ((Hy & _) & Hby & _). simplify_eq. congruence.
Qed.

Lemma bwrite_view s b sector x :
  blk s → held s b sector x →
  ∃ t, bwrite b s = Ret tt t ∧ frame s t ∧ blk t ∧ held t b sector (clean_buf x) ∧
    k_disk t = <[Z.to_nat sector := b_data x]> (k_disk s) ∧
    k_writes t = k_writes s ++ [(sector, b_data x)] ∧
    (∀ sec', 0 ≤ sec' → content t sec' = if decide (sec' = sector) then Some (b_data x) else content s sec') ∧
    (∀ sec', busy_at t sec' ↔ busy_at s sec') ∧
    (∀ sec', dirty_at t sec' ↔ dirty_at s sec' ∧ sec' ≠ sector) ∧ nidle t = nidle s ∧
    (∀ j y sec', sec' ≠ sector → held s j sec' y → held t j sec' y).
Proof.
  intros [Hq [l Hok]] ((Hx & Hdv & Hs) & Hb & Hv).
  destruct (bo_valid _ _ Hok _ _ Hx) as (_ & _ & Hr); [auto|].
  destruct (bwrite_ok s l b x Hok Hx Hb Hdv Hr) as [Hokt Hcon].
  destruct (clean_buf_flags x) as (Hcb & Hcv & Hcd).
  set (t := disk_write (b_sector x) (b_data x) (s <| k_bcache := rebuf b (clean_buf x) s |>)) in *.
  assert (Hbt : bc_buf (k_bcache t) = <[b := clean_buf x]> (bc_buf (k_bcache s))) by done.
  exists t. split; [apply bwrite_eq; try done; lia|].
  split; [done|]. split; [by split; [|exists l]|].
  split. { split; [|by rewrite Hcb]. split; [|done]. by apply (rebuf_here b _ x s). }
  subst sector. split_and!; try done.
  - intros sec'. unfold busy_at. rewrite (flag_rebuf _ s t b x (clean_buf x)), (flag_split _ s l b x) by done.
    by rewrite Hcb.
  - intros sec'. unfold dirty_at. rewrite (flag_rebuf _ s t b x (clean_buf x)), (flag_split _ s l b x) by done.
    rewrite Hcd. assert (Ho := others_sector B_DIRTY s l b x sec' Hok Hx Hdv). cbn. intuition congruence.
  - assert (Hn := nidle_rebuf s t b x _ Hx Hbt). unfold free_buf in Hn. rewrite Hcb, Hb in Hn. cbn [negb andb] in Hn. lia.
  - intros j y sec' Hne Hh. by apply (held_rebuf s t b x _ j y sec' Hx Hbt (held_other _ _ _ _ _ _ Hx Hne Hh)).
Qed.

Lemma brelse_view s b sector x :
  blk s → held s b sector x →
  (has (b_flags x) B_DIRTY = false → k_disk s !! Z.to_nat sector = Some (b_data x)) →
  ∃ t, brelse b s = Ret tt t ∧ frame s t ∧ blk t ∧ k_disk t = k_disk s ∧ k_writes t = k_writes s ∧
    rtc pt_step (k_ptable s) (k_ptable t) ∧
    (∀ sec', content t sec' = content s sec') ∧
    (∀ sec', busy_at t sec' ↔ busy_at s sec' ∧ sec' ≠ sector) ∧
    (∀ sec', dirty_at t sec' ↔ dirty_at s sec') ∧
    nidle t = (nidle s + (if has (b_flags x) B_DIRTY then 0 else 1))%nat ∧
    (∀ j y sec', sec' ≠ sector → held s j sec' y → held t j sec' y).
Proof.
  intros [Hq [l Hok]] ((Hx & Hdv & Hs) & Hb & Hv) Hcl. subst sector.
  destruct (brelse_eq s l b x Hq Hok Hx Hb) as (pt' & Hst & Hqs & He).
  set (t := s <| k_cpus := relcpus s |> <| k_ptable := pt' |> <| k_bcache ::= bc_drop b |>) in *.
  destruct (brelse_ok s t l b x) as [(l1 & l2 & -> & Hokt) Hcon]; try done.
  assert (Hbt : bc_buf (k_bcache t) = <[b := idle_buf x]> (bc_buf (k_bcache s))).
  { cbn. by rewrite (alter_insert _ _ _ x). }
  assert (Hfl : has (b_flags (idle_buf x)) B_BUSY = false ∧
    has (b_flags (idle_buf x)) B_DIRTY = has (b_flags x) B_DIRTY) by (cbn; flags; done).
  destruct Hfl as [Hfb Hfd].
  exists t. split_and!; try done.
  - split; [by eapply quiet_ext|by eexists].
  - intros sec'. unfold busy_at. rewrite (flag_rebuf _ s t b x (idle_buf x)), (flag_split _ s _ b x) by done.
    rewrite Hfb. assert (Ho := others_sector B_BUSY s _ b x sec' Hok Hx Hdv). cbn. intuition congruence.
  - intros sec'. unfold dirty_at. rewrite (flag_rebuf _ s t b x (idle_buf x)), (flag_split _ s _ b x) by done.
    by rewrite Hfd.
  - assert (Hn := nidle_rebuf s t b x _ Hx Hbt). unfold free_buf in Hn. rewrite Hfb, Hfd, Hb in Hn.
    cbn [negb andb] in Hn. destruct (has (b_flags x) B_DIRTY); cbn [negb] in Hn; lia.
  - intros j y sec' Hne Hh. by apply (held_rebuf s t b x _ j y sec' Hx Hbt (held_other _ _ _ _ _ _ Hx Hne Hh)).
Qed.

(** The holder may change the data of a buffer. *)
Lemma upd_data_view s b sector x f :
  blk s → held s b sector x →
  ∃ t, upd_buf b (set b_data f) s = Ret tt t ∧ frame s t ∧ blk t ∧
    held t b sector (x <| b_data ::= f |>) ∧ k_disk t = k_disk s ∧ k_writes t = k_writes s ∧
    (∀ sec', content t sec' = if decide (sec' = sector) then Some (f (b_data x)) else content s sec') ∧
    (∀ sec', busy_at t sec' ↔ busy_at s sec') ∧ (∀ sec', dirty_at t sec' ↔ dirty_at s sec') ∧
    nidle t = nidle s ∧
    (∀ j y sec', sec' ≠ sector → held s j sec' y → held t j sec' y).
Proof.
  intros [Hq [l Hok]] ((Hx & Hdv & Hs) & Hb & Hv). subst sector.
  set (x' := x <| b_data ::= f |>).
  set (t := s <| k_bcache := rebuf b x' s |>).
  assert (Hokt : bio_ok t l).
  { eapply (bio_ok_rebuf s t l b x x'); try done.
    - intros _ j y (Hy & Hdy & Hsy). by eapply bo_uniq.
    - intros _. destruct (bo_valid _ _ Hok _ _ Hx) as (? & ? & ?); auto.
    - intros Hb'. cbn in Hb'. congruence. }
  assert (Hbt : bc_buf (k_bcache t) = <[b := x']> (bc_buf (k_bcache s))) by done.
  assert (Hh : held t b (b_sector x) x').
  { split; [|done]. split; [|done]. by apply (rebuf_here b x' x s). }
  exists t. split_and!; try done.
  - rewrite (upd_buf_eq s b x) by done. unfold t, rebuf. cbn. by rewrite (alter_insert _ _ _ x).
  - split; [done|by exists l].
  - intros sec'. case_decide as E.
    + subst. rewrite (content_cached t l (b_sector x) b x'); [done|done|apply Hh|done].
    + destruct (valid_cached_dec s sec') as [(j & y & Hy & Hvy)|Hno].
      * rewrite (content_cached s l sec' j y) by done. apply (content_cached t l sec' j y); [done| |done].
        destruct Hy as (Hy & Hdy & Hsy). split_and!; try done. cbn. rewrite list_lookup_insert_ne; [done|].
        intros <-. simplify_eq.
      * rewrite (content_disk s sec' Hno). apply (content_disk t). intros j y (Hy & Hdy & Hsy).
        destruct (rebuf_lookup _ _ _ _ _ _ Hx Hy) as [[-> ->]|[Hj1 Hj2]]; [by destruct E|]. by apply (Hno j y).
  - intros sec'. unfold busy_at. by rewrite (flag_rebuf _ s t b x x'), (flag_split _ s l b x).
  - intros sec'. unfold dirty_at. by rewrite (flag_rebuf _ s t b x x'), (flag_split _ s l b x).
  - assert (Hn := nidle_rebuf s t b x _ Hx Hbt). unfold free_buf in Hn. cbn [b_flags x' set] in Hn.
    change (b_flags x') with (b_flags x) in Hn. lia.
  - intros j y sec' Hne Hhj. by apply (held_rebuf s t b x _ j y sec' Hx Hbt (held_other _ _ _ _ _ _ Hx Hne Hhj)).
Qed.

(** Pinning a held buffer. *)
Lemma set_dirty_view s b sector x :
  blk s → held s b sector x →
  ∃ t, upd_buf b (set b_flags (λ f, Z.lor f B_DIRTY)) s = Ret tt t ∧ frame s t ∧ blk t ∧
    held t b sector (x <| b_flags ::= λ f, Z.lor f B_DIRTY |>) ∧ k_disk t = k_disk s ∧ k_writes t = k_writes s ∧
    (∀ sec', content t sec' = content s sec') ∧
    (∀ sec', busy_at t sec' ↔ busy_at s sec') ∧
    (∀ sec', dirty_at t sec' ↔ dirty_at s sec' ∨ sec' = sector) ∧ nidle t = nidle s ∧
    (∀ j y sec', sec' ≠ sector → held s j sec' y → held t j sec' y).
Proof.
  intros [Hq [l Hok]] ((Hx & Hdv & Hs) & Hb & Hv). subst sector.
  set (x' := x <| b_flags ::= λ f, Z.lor f B_DIRTY |>).
  set (t := s <| k_bcache := rebuf b x' s |>).
  assert (Hf : has (b_flags x') B_BUSY = true ∧ has (b_flags x') B_VALID = true ∧ has (b_flags x') B_DIRTY = true)
    by (cbn; flags; done).
  destruct Hf as (Hfb & Hfv & Hfd).
  assert (Hokt : bio_ok t l).
  { eapply (bio_ok_rebuf s t l b x x'); try done.
    - intros _ j y (Hy & Hdy & Hsy). by eapply bo_uniq.
    - intros _. destruct (bo_valid _ _ Hok _ _ Hx) as (? & ? & ?); auto.
    - intros. congruence. }
  assert (Hbt : bc_buf (k_bcache t) = <[b := x']> (bc_buf (k_bcache s))) by done.
  exists t. split_and!; try done.
  - rewrite (upd_buf_eq s b x) by done. unfold t, rebuf. cbn. by rewrite (alter_insert _ _ _ x).
  - split; [done|by exists l].
  - split; [|done]. split; [|done]. by apply (rebuf_here b x' x s).
  - intros sec'. eapply (content_rebuf s t l b x x'); try done; [auto|].
    intros _. by apply (content_cached s l (b_sector x) b x).
  - intros sec'. unfold busy_at. rewrite (flag_rebuf _ s t b x x'), (flag_split _ s l b x) by done.
    by rewrite Hfb, Hb.
  - intros sec'. unfold dirty_at. rewrite (flag_rebuf _ s t b x x'), (flag_split _ s l b x) by done.
    rewrite Hfd. cbn. intuition congruence.
  - assert (Hn := nidle_rebuf s t b x _ Hx Hbt). unfold free_buf in Hn. rewrite Hfb, Hb in Hn.
    cbn [negb andb] in Hn. lia.
  - intros j y sec' Hne Hh. by apply (held_rebuf s t b x _ j y sec' Hx Hbt (held_other _ _ _ _ _ _ Hx Hne Hh)).
Qed.

(** Reading a held buffer. *)
Lemma get_held s b sector x : held s b sector x → get_buf b s = Ret x s.
Proof. intros ((Hx & _) & _). by apply get_buf_eq. Qed.
End view.
