(* ===== verification/Log.v ===== *)
(** The redo log (log.c) with [readsb] of fs.c: one transaction at a time,
    its blocks first copied to the log area, committed by the write of the
    log header, and then installed at their home locations. *)
From stdpp Require Import base numbers gmap strings option list.
From S2P Require Import Prelude State Spinlock Str Cprintf Kalloc Proc Mlf Sched Bio.

(** ** Words in a block *)

(** A little-endian word at byte offset [off] of a block. *)
Definition getb (d : list Z) (off : nat) : Z := default 0 (d !! off).
Definition get32 (d : list Z) (off : nat) : Z :=
  getb d off + 2 ^ 8 * getb d (off + 1) + 2 ^ 16 * getb d (off + 2) + 2 ^ 24 * getb d (off + 3).
Definition put32 (off : nat) (v : Z) (d : list Z) : list Z :=
  <[(off + 3)%nat := u8 (Z.shiftr v 24)]> (<[(off + 2)%nat := u8 (Z.shiftr v 16)]>
    (<[(off + 1)%nat := u8 (Z.shiftr v 8)]> (<[off := u8 v]> d))).

#[global] Arguments get32 _ _ : simpl never.
#[global] Arguments put32 _ _ _ : simpl never.

(** ** Definitions *)

Definition upd_log (f : log_t → log_t) : KM unit := modify (λ k, k <| k_log ::= f |>).
Definition set_lh_n (n : Z) : KM unit := upd_log (set lg_lh (set lh_n (λ _, n))).

(** [log.lh.sector[i]]; an index past the array is undefined. *)
Definition get_lh_sector (i : nat) : KM Z :=
  let* k := gets id in deref "log.lh.sector" (lh_sector (lg_lh (k_log k)) !! i).
Definition set_lh_sector (i : nat) (v : Z) : KM unit :=
  let* _ := get_lh_sector i in upd_log (set lg_lh (set lh_sector (<[i := v]>))).

Section log.
Context `{kenv} `{disk}.

Definition readsb (dev : Z) : KM superblock :=
  let* bp := bread dev 1 in
  let* x := get_buf bp in
  let d := b_data x in
  do* brelse bp in
  ret (mkSuperblock (get32 d 0) (get32 d 4) (get32 d 8) (get32 d 12)).

(** One turn of the loop of [install_trans]. *)
Definition install_block (tail : nat) : KM unit :=
  let* k := gets id in
  let lg := k_log k in
  let* lbuf := bread (lg_dev lg) (u32 (lg_start lg + tail + 1)) in
  let* sec := get_lh_sector tail in
  let* dbuf := bread (lg_dev lg) (u32 sec) in
  let* x := get_buf lbuf in
  do* upd_buf dbuf (set b_data (λ _, b_data x)) in
  do* bwrite dbuf in
  do* brelse lbuf in
  brelse dbuf.

Definition install_trans : KM unit :=
  let* k := gets id in
  for_each (seq 0 (Z.to_nat (lh_n (lg_lh (k_log k))))) install_block.

Definition read_head : KM unit :=
  let* k := gets id in
  let* b := bread (lg_dev (k_log k)) (u32 (lg_start (k_log k))) in
  let* x := get_buf b in
  let n := s32 (get32 (b_data x) 0) in
  do* set_lh_n n in
  do* for_each (seq 0 (Z.to_nat n)) (λ i, set_lh_sector i (s32 (get32 (b_data x) (4 + 4 * i)))) in
  brelse b.

Definition write_head : KM unit :=
  let* k := gets id in
  let* b := bread (lg_dev (k_log k)) (u32 (lg_start (k_log k))) in
  let n := lh_n (lg_lh (k_log k)) in
  do* upd_buf b (set b_data (put32 0 (u32 n))) in
  do* for_each (seq 0 (Z.to_nat n)) (λ i,
        let* sec := get_lh_sector i in
        upd_buf b (set b_data (put32 (4 + 4 * i) (u32 sec)))) in
  do* bwrite b in
  brelse b.

Definition recover_from_log : KM unit :=
  do* read_head in
  do* install_trans in
  do* set_lh_n 0 in
  write_head.

(** [sizeof(struct logheader)]. *)
Definition sizeof_logheader : Z := 4 + 4 * LOGSIZE.

Definition initlog : KM unit :=
  if BSIZE <=? sizeof_logheader then panic "initlog: too big logheader" else
  do* initlock LkLog in
  let* sb := readsb ROOTDEV in
  do* upd_log (set lg_start (λ _, s32 (sb_size sb - sb_nlog sb))) in
  do* upd_log (set lg_size (λ _, s32 (sb_nlog sb))) in
  do* upd_log (set lg_dev (λ _, ROOTDEV)) in
  recover_from_log.

Definition begin_trans : KM unit :=
  do* acquire LkLog in
  do* while fuel (let* k := gets id in ret (negb (lg_busy (k_log k) =? 0)))
        (sleep ChLog (Some LkLog)) in
  do* upd_log (set lg_busy (λ _, 1)) in
  release LkLog.

Definition commit_trans : KM unit :=
  let* k := gets id in
  do* (if 0 <? lh_n (lg_lh (k_log k)) then
         do* write_head in
         do* install_trans in
         do* set_lh_n 0 in
         write_head
       else ret tt) in
  do* acquire LkLog in
  do* upd_log (set lg_busy (λ _, 0)) in
  do* wakeup ChLog in
  release LkLog.

(** The slot of the log a sector goes to: the one it already has, if any. *)
Definition log_slot (lg : log_t) (sector : Z) : nat :=
  let n := Z.to_nat (lh_n (lg_lh lg)) in
  default n (fst <$> list_find (λ v, u32 v =? sector) (take n (lh_sector (lg_lh lg)))).

Definition log_write (b : nat) : KM unit :=
  let* k := gets id in
  let lg := k_log k in
  if (LOGSIZE <=? lh_n (lg_lh lg)) || (lg_size lg - 1 <=? lh_n (lg_lh lg))
  then panic "too big a transaction" else
  if lg_busy lg =? 0 then panic "write outside of trans" else
  let* x := get_buf b in
  let i := log_slot lg (b_sector x) in
  do* set_lh_sector i (s32 (b_sector x)) in
  let* lbuf := bread (b_dev x) (u32 (lg_start lg + i + 1)) in
  let* x := get_buf b in
  do* upd_buf lbuf (set b_data (λ _, b_data x)) in
  do* bwrite lbuf in
  do* brelse lbuf in
  do* (if Z.of_nat i =? lh_n (lg_lh lg) then set_lh_n (lh_n (lg_lh lg) + 1) else ret tt) in
  upd_buf b (set b_flags (λ f, Z.lor f B_DIRTY)).
End log.
