(* ===== verification/LogSpec.v ===== *)
(** The log against its specification: a transaction's blocks reach the disk
    all together or not at all, wherever a crash cuts the writes of a commit
    or of a recovery short. *)
From stdpp Require Import base numbers gmap strings option list.
From S2P Require Import Prelude State Spinlock Str Cprintf Kalloc Proc Mlf Sched Bio Blocks Log.

(** ** The log on disk *)

(** The number of the sector that holds log block [i]. *)
Definition log_block (start : Z) (i : nat) : Z := start + i + 1.

(** The header a sector of data encodes. *)
Definition head_n (d : list Z) : Z := s32 (get32 d 0).
Definition head_sector (d : list Z) (i : nat) : Z := s32 (get32 d (4 + 4 * i)).

(** The header [write_head] produces from the old contents of the block. *)
Definition put_head (n : nat) (secs : list Z) (d : list Z) : list Z :=
  foldl (λ d i, put32 (4 + 4 * i) (u32 (default 0 (secs !! i))) d) (put32 0 (u32 n) d) (seq 0 n).

(** Sector writes, in order. *)
Definition apply_writes (dk : list (list Z)) (w : list (Z * list Z)) : list (list Z) :=
  foldl (λ dk p, <[Z.to_nat p.1 := p.2]> dk) dk w.

(** The writes that install the first [n] blocks of a log. *)
Definition install_writes (start : Z) (n : nat) (secs : list Z) (dk : list (list Z)) : list (Z * list Z) :=
  (λ i, (default 0 (secs !! i), default [] (dk !! Z.to_nat (log_block start i)))) <$> seq 0 n.

(** What recovery makes of a disk: the committed blocks installed, the log
    erased. *)
Definition recovery_writes (start : Z) (dk : list (list Z)) : list (Z * list Z) :=
  let h := default [] (dk !! Z.to_nat start) in
  let n := Z.to_nat (head_n h) in
  install_writes start n (head_sector h <$> seq 0 n) dk ++ [(start, put_head 0 [] h)].
Definition recover (start : Z) (dk : list (list Z)) : list (list Z) :=
  apply_writes dk (recovery_writes start dk).

(** ** The state of the log *)

(** The log area lies on the disk and has room for the header and the blocks
    of the transaction. *)
Record log_ok (s : kstate) : Prop := {
  lo_dev : lg_dev (k_log s) = 1;
  lo_start : 0 ≤ lg_start (k_log s);
  lo_room : lg_start (k_log s) + lg_size (k_log s) ≤ length (k_disk s);
  lo_disk : length (k_disk s) < 2 ^ 31;
  lo_len : length (lh_sector (lg_lh (k_log s))) = Z.to_nat LOGSIZE;
  lo_n : 0 ≤ lh_n (lg_lh (k_log s)) ≤ LOGSIZE;
  lo_fits : lh_n (lg_lh (k_log s)) < lg_size (k_log s);
}.

(** A sector outside the log. *)
Definition home (s : kstate) (sec : Z) : Prop :=
  0 ≤ sec < length (k_disk s) ∧
  ¬ (lg_start (k_log s) ≤ sec < lg_start (k_log s) + lg_size (k_log s)).

Section log_lemmas.
Context `{Hk : kenv} `{Hd : disk} `{Hdl : !disk_laws}.
Implicit Types (s t : kstate).

Lemma frame_log s t : frame s t → k_log t = k_log s.
Proof. intros E. by rewrite E. Qed.

Lemma frame_set_log s t g : frame s t → frame (s <| k_log := g |>) (t <| k_log := g |>).
Proof. unfold frame. intros E. rewrite E at 1. done. Qed.

Lemma get_lh_sector_eq s i v :
  lh_sector (lg_lh (k_log s)) !! i = Some v → get_lh_sector i s = Ret v s.
Proof. intros E. unfold get_lh_sector. mred. by rewrite E. Qed.

(** One block copied from the log to its home. *)
Lemma install_block_view s (i : nat) sec d :
  blk s → log_ok s → i + 1 < lg_size (k_log s) →
  lh_sector (lg_lh (k_log s)) !! i = Some sec → home s sec →
  let lb := log_block (lg_start (k_log s)) i in
  ¬ busy_at s lb → ¬ busy_at s sec → ¬ dirty_at s lb → (1 ≤ nidle s)%nat →
  dirty_at s sec ∨ (2 ≤ nidle s)%nat → k_disk s !! Z.to_nat lb = Some d →
  ∃ t, install_block i s = Ret tt t ∧ frame s t ∧ blk t ∧
    k_disk t = <[Z.to_nat sec := d]> (k_disk s) ∧ k_writes t = k_writes s ++ [(sec, d)] ∧
    (∀ sec', 0 ≤ sec' → content t sec' = if decide (sec' = sec) then Some d else content s sec') ∧
    (∀ sec', busy_at t sec' ↔ busy_at s sec') ∧
    (∀ sec', dirty_at t sec' ↔ dirty_at s sec' ∧ sec' ≠ sec) ∧ (nidle s ≤ nidle t)%nat.
Proof.
  intros Hb Hlo Hi Hsec [Hr Hh] lb Hbl Hbs Hdl' Hn Hav Hdk.
  assert (Hlb : 0 ≤ lb < length (k_disk s) ∧ lb ≠ sec ∧ lb < 2 ^ 31 ∧ sec < 2 ^ 31).
  { destruct Hlo. unfold lb, log_block, LOGSIZE in *. lia. }
  destruct Hlb as (Hlb & Hne & Hlb31 & Hsec31).
  destruct (bread_view s lb Hb) as (lbuf & x1 & t1 & E1 & F1 & B1 & H1 & C1 & CC1 & D1 & W1 & Cl1 & Dr1 & Bz1 & Dt1 & N1 & O1);
    [done|done|by right|].
  assert (Hd1 : has (b_flags x1) B_DIRTY = false) by (apply not_true_is_false; rewrite Dr1; done).
  assert (Hx1 : b_data x1 = d) by (specialize (Cl1 Hd1); congruence). rewrite Hd1 in N1.
  destruct (bread_view t1 sec B1) as (dbuf & x2 & t2 & E2 & F2 & B2 & H2 & C2 & CC2 & D2 & W2 & Cl2 & Dr2 & Bz2 & Dt2 & N2 & O2).
  { by rewrite D1. }
  { rewrite Bz1. intros [?|?]; congruence. }
  { rewrite Dt1. destruct Hav as [?|?]; [by left|right; lia]. }
  assert (Hl2 : held t2 lbuf lb x1) by (apply O2; done).
  destruct (upd_data_view t2 dbuf sec x2 (λ _, b_data x1) B2 H2)
    as (t3 & E3 & F3 & B3 & H3 & D3 & W3 & C3 & Bz3 & Dt3 & N3 & O3).
  destruct (bwrite_view t3 dbuf sec _ B3 H3) as (t4 & E4 & F4 & B4 & H4 & D4 & W4 & C4 & Bz4 & Dt4 & N4 & O4).
  assert (Hl4 : held t4 lbuf lb x1) by (apply O4; [done|by apply O3]). cbn in D4, W4, C4.
  destruct (brelse_view t4 lbuf lb x1 B4 Hl4) as (t5 & E5 & F5 & B5 & D5 & W5 & _ & C5 & Bz5 & Dt5 & N5 & O5).
  { intros _. rewrite D4, D3, D2, D1, list_lookup_insert_ne by lia. congruence. }
  assert (H5 : held t5 dbuf sec (clean_buf (x2 <| b_data := b_data x1 |>))) by (apply O5; [done|exact H4]).
  destruct (clean_buf_flags (x2 <| b_data := b_data x1 |>)) as (_ & _ & Hcd).
  destruct (brelse_view t5 dbuf sec _ B5 H5) as (t6 & E6 & F6 & B6 & D6 & W6 & _ & C6 & Bz6 & Dt6 & N6 & O6).
  { intros _. rewrite D5, D4, D3, D2, D1, list_lookup_insert_eq by lia. done. }
  exists t6. split.
  { unfold install_block. mstep. cbn [id]. rewrite (lo_dev _ Hlo), u32_small by (unfold lb, log_block in *; lia).
    change (lg_start (k_log s) + i + 1) with lb. step E1.
    step (get_lh_sector_eq t1 i sec); [|by rewrite (frame_log _ _ F1)].
    rewrite u32_small by lia. step E2. step (get_held t2 lbuf lb x1 Hl2). step E3. step E4. by step E5. }
  split; [by repeat (etransitivity; [eassumption|])|].
  rewrite Hx1 in *. split_and!; try done.
  - congruence.
  - congruence.
  - intros sec' Hs'. rewrite C6, C5, C4 by done. case_decide; [done|].
    rewrite C3, decide_False, CC2, CC1 by done. done.
  - intros sec'. rewrite Bz6, Bz5, Bz4, Bz3, Bz2, Bz1. split; [intuition congruence|].
    intros Hbz. split_and!; [auto|..]; intros ->; done.
  - intros sec'. by rewrite Dt6, Dt5, Dt4, Dt3, Dt2, Dt1.
  - rewrite Hcd in N6. rewrite Hd1 in N5. destruct (has (b_flags x2) B_DIRTY); lia.
Qed.

(** The write that installs log block [i]. *)
Definition install_write (start : Z) (secs : list Z) (dk : list (list Z)) (i : nat) : Z * list Z :=
  (default 0 (secs !! i), default [] (dk !! Z.to_nat (log_block start i))).

(** The conditions under which blocks [j], ..., [j + m - 1] can be installed. *)
Record installable (s : kstate) (j m : nat) : Prop := {
  in_blk : blk s;
  in_log : log_ok s;
  in_room : (j + m ≤ Z.to_nat LOGSIZE)%nat;
  in_fits : j + m < lg_size (k_log s);
  in_home : ∀ i sec, (j ≤ i < j + m)%nat → lh_sector (lg_lh (k_log s)) !! i = Some sec →
    home s sec ∧ ¬ busy_at s sec;
  in_block : ∀ i, (j ≤ i < j + m)%nat → let lb := log_block (lg_start (k_log s)) i in
    ¬ busy_at s lb ∧ ¬ dirty_at s lb;
  in_idle : (1 ≤ nidle s)%nat;
  in_pinned : (2 ≤ nidle s)%nat ∨
    ∀ i sec, (j ≤ i < j + m)%nat → lh_sector (lg_lh (k_log s)) !! i = Some sec → dirty_at s sec;
  in_distinct : ∀ i i' sec, (j ≤ i < i')%nat → (i' < j + m)%nat →
    lh_sector (lg_lh (k_log s)) !! i = Some sec → lh_sector (lg_lh (k_log s)) !! i' ≠ Some sec;
}.

Lemma log_ok_frame s t : log_ok s → k_log t = k_log s → length (k_disk t) = length (k_disk s) → log_ok t.
Proof. intros [] E E'. split; rewrite ?E, ?E'; done. Qed.

Lemma installable_next s t j m sec :
  installable s j (S m) → lh_sector (lg_lh (k_log s)) !! j = Some sec → k_log t = k_log s →
  length (k_disk t) = length (k_disk s) → blk t → (∀ sec', busy_at t sec' ↔ busy_at s sec') →
  (∀ sec', dirty_at t sec' ↔ dirty_at s sec' ∧ sec' ≠ sec) → (nidle s ≤ nidle t)%nat →
  installable t (S j) m.
Proof.
  intros Hin Hsec Hl Hlen Hb Bz Dt Hn. split; rewrite ?Hl.
  - done.
  - eapply log_ok_frame; [apply Hin|done|done].
  - assert (Hr := in_room _ _ _ Hin). lia.
  - assert (Hr := in_fits _ _ _ Hin). lia.
  - intros i v Hi Hv. rewrite Bz. unfold home. rewrite Hl, Hlen. apply (in_home _ _ _ Hin i); [lia|done].
  - intros i Hi. cbn. rewrite Bz, Dt. destruct (in_block _ _ _ Hin i) as [? ?]; [lia|tauto].
  - assert (Hi := in_idle _ _ _ Hin). lia.
  - destruct (in_pinned _ _ _ Hin) as [?|Hp]; [left; lia|right]. intros i v Hi Hv. apply Dt. split.
    + eapply Hp; [|done]. lia.
    + intros ->. by apply (in_distinct _ _ _ Hin j i sec); [lia|lia|..].
  - intros i i' v Hi Hi'. apply (in_distinct _ _ _ Hin); lia.
Qed.

Lemma lookup_apply_writes_ne dk w sec :
  sec ∉ w.*1 → 0 ≤ sec → Forall (λ p, 0 ≤ p.1) w →
  apply_writes dk w !! Z.to_nat sec = dk !! Z.to_nat sec.
Proof.
  revert dk. induction w as [|[v d] w IH]; intros dk Hs H0 Hw; [done|].
  apply not_elem_of_cons in Hs as [Hne Hs]. apply Forall_cons in Hw as [Hv Hw]. cbn in *.
  unfold apply_writes in IH. rewrite IH by done. rewrite list_lookup_insert_ne; [done|lia].
Qed.

Lemma install_loop m j s :
  installable s j m →
  let secs := lh_sector (lg_lh (k_log s)) in
  let w := install_write (lg_start (k_log s)) secs (k_disk s) <$> seq j m in
  ∃ t, for_each (seq j m) install_block s = Ret tt t ∧ frame s t ∧ blk t ∧
    k_disk t = apply_writes (k_disk s) w ∧ k_writes t = k_writes s ++ w ∧
    (∀ sec', busy_at t sec' ↔ busy_at s sec') ∧
    (∀ sec', dirty_at t sec' ↔ dirty_at s sec' ∧ sec' ∉ w.*1) ∧ (nidle s ≤ nidle t)%nat ∧
    (∀ sec', 0 ≤ sec' → sec' ∉ w.*1 → content t sec' = content s sec') ∧
    (∀ sec', sec' ∈ w.*1 → content t sec' = k_disk t !! Z.to_nat sec').
Proof.
  revert j s. induction m as [|m IH]; intros j s Hin secs w.
  { exists s. split_and!; try done; try (by rewrite app_nil_r); [apply Hin|set_solver|].
    intros sec' []%elem_of_nil. }
  assert (Hlo := in_log _ _ _ Hin). assert (Hroom := in_room _ _ _ Hin). assert (Hfits := in_fits _ _ _ Hin).
  destruct (lookup_lt_is_Some_2 secs j) as [sec Hsec]; [unfold secs; rewrite (lo_len _ Hlo); lia|].
  destruct (in_home _ _ _ Hin j sec) as [Hhome Hbs]; [lia|done|].
  destruct (in_block _ _ _ Hin j) as [Hbl Hdlb]; [lia|].
  set (lb := log_block (lg_start (k_log s)) j) in *.
  destruct (lookup_lt_is_Some_2 (k_disk s) (Z.to_nat lb)) as [d Hdk].
  { destruct Hlo. unfold lb, log_block, LOGSIZE in *. lia. }
  destruct (install_block_view s j sec d) as (t1 & E1 & F1 & B1 & D1 & W1 & C1 & Bz1 & Dt1 & N1);
    try done; [apply Hin|lia|apply Hin| |].
  { destruct (in_pinned _ _ _ Hin) as [?|Hp]; [by right|left]. eapply Hp; [|exact Hsec]. lia. }
  assert (Hl1 := frame_log _ _ F1). assert (Hlen : length (k_disk t1) = length (k_disk s)) by (by rewrite D1, length_insert).
  assert (Hin1 : installable t1 (S j) m).
  { by eapply (installable_next s t1 j m sec). }
  destruct (IH (S j) t1 Hin1) as (t & E2 & F2 & B2 & D2 & W2 & Bz2 & Dt2 & N2 & C2 & C3).
  rewrite Hl1 in *. fold secs in D2, W2, Dt2, C2, C3.
  assert (Hw : install_write (lg_start (k_log s)) secs (k_disk t1) <$> seq (S j) m =
    install_write (lg_start (k_log s)) secs (k_disk s) <$> seq (S j) m).
  { apply list_fmap_ext. intros _ i [Hi1 Hi2]%list_elem_of_lookup_2%elem_of_seq. unfold install_write.
    rewrite D1, list_lookup_insert_ne; [done|]. destruct Hhome as [? Hh], Hlo.
    unfold log_block, LOGSIZE in *. lia. }
  rewrite Hw in *. set (w1 := install_write _ _ _ <$> seq (S j) m) in *.
  assert (Ew : w = (sec, d) :: w1) by (unfold w; cbn; unfold install_write at 1; fold lb; by rewrite Hsec, Hdk).
  assert (Hw0 : Forall (λ p, 0 ≤ p.1) w1).
  { apply Forall_fmap, Forall_forall. intros i [Hi1 Hi2]%elem_of_seq. cbn.
    destruct (secs !! i) as [v|] eqn:Ev; [|done]. cbn.
    destruct (in_home _ _ _ Hin i v) as [[? _] _]; [lia|done|lia]. }
  exists t. rewrite Ew. split_and!; try done.
  - cbn [seq for_each]. by rewrite (bind_ret _ _ _ _ _ E1).
  - by etransitivity.
  - rewrite D2, D1. done.
  - rewrite W2, W1, <-app_assoc. done.
  - intros sec'. by rewrite Bz2, Bz1.
  - intros sec'. rewrite Dt2, Dt1. cbn. rewrite not_elem_of_cons. tauto.
  - lia.
  - intros sec' Hs' [Hne Hni]%not_elem_of_cons. cbn in Hne. rewrite C2, C1, decide_False by done. done.
  - intros sec' Hs'. destruct (decide (sec' ∈ w1.*1)) as [Hin'|Hni]; [by apply C3|].
    cbn in Hs'. apply elem_of_cons in Hs' as [->|?]; [|done]. destruct Hhome as [Hr _].
    rewrite C2, C1, decide_True by (done || lia). rewrite D2, lookup_apply_writes_ne by (done || lia).
    rewrite D1, list_lookup_insert_eq; [done|lia].
Qed.

(** Filling in the header block, held in buffer [b]. *)
Lemma head_loop m j s b sector x :
  blk s → held s b sector x → (j + m ≤ length (lh_sector (lg_lh (k_log s))))%nat →
  ∃ t, for_each (seq j m) (λ i, let* sec := get_lh_sector i in
         upd_buf b (set b_data (put32 (4 + 4 * i) (u32 sec)))) s = Ret tt t ∧
    frame s t ∧ blk t ∧ k_disk t = k_disk s ∧ k_writes t = k_writes s ∧
    held t b sector (x <| b_data := foldl (λ d i, put32 (4 + 4 * i)
      (u32 (default 0 (lh_sector (lg_lh (k_log s)) !! i))) d) (b_data x) (seq j m) |>) ∧
    (∀ sec', sec' ≠ sector → content t sec' = content s sec') ∧
    (∀ sec', busy_at t sec' ↔ busy_at s sec') ∧ (∀ sec', dirty_at t sec' ↔ dirty_at s sec') ∧
    nidle t = nidle s.
Proof.
  revert j s x. induction m as [|m IH]; intros j s x Hb Hh Hj.
  { exists s. split_and!; try done. by destruct x. }
  destruct (lookup_lt_is_Some_2 (lh_sector (lg_lh (k_log s))) j) as [v Hv]; [lia|].
  destruct (upd_data_view s b sector x (put32 (4 + 4 * j) (u32 v)) Hb Hh)
    as (t1 & E1 & F1 & B1 & H1 & D1 & W1 & C1 & Bz1 & Dt1 & N1 & O1).
  assert (Hl1 := frame_log _ _ F1).
  destruct (IH (S j) t1 _ B1 H1) as (t & E2 & F2 & B2 & D2 & W2 & H2 & C2 & Bz2 & Dt2 & N2);
    [rewrite Hl1; lia|].
  exists t. split_and!; try congruence.
  - cbn [seq for_each]. erewrite bind_ret; [exact E2|].
    by rewrite (bind_ret _ _ _ _ _ (get_lh_sector_eq _ _ _ Hv)).
  - by etransitivity.
  - rewrite Hl1 in H2. cbn [seq foldl]. rewrite Hv. exact H2.
  - intros sec' Hs'. rewrite C2, C1, decide_False by done. done.
  - intros sec'. by rewrite Bz2, Bz1.
  - intros sec'. by rewrite Dt2, Dt1.
Qed.

Lemma write_head_view s :
  blk s → log_ok s →
  let start := lg_start (k_log s) in
  let n := Z.to_nat (lh_n (lg_lh (k_log s))) in
  ¬ busy_at s start → ¬ dirty_at s start → (1 ≤ nidle s)%nat →
  ∃ t d0, write_head s = Ret tt t ∧ k_disk s !! Z.to_nat start = Some d0 ∧
    let d := put_head n (lh_sector (lg_lh (k_log s))) d0 in
    frame s t ∧ blk t ∧ k_disk t = <[Z.to_nat start := d]> (k_disk s) ∧
    k_writes t = k_writes s ++ [(start, d)] ∧
    (∀ sec', 0 ≤ sec' → content t sec' = if decide (sec' = start) then Some d else content s sec') ∧
    (∀ sec', busy_at t sec' ↔ busy_at s sec') ∧ (∀ sec', dirty_at t sec' ↔ dirty_at s sec') ∧
    (nidle s ≤ nidle t)%nat.
Proof.
  intros Hb Hlo start n Hbz Hdt Hn.
  assert (Hr : 0 ≤ start < length (k_disk s) ∧ start < 2 ^ 31)
    by (destruct Hlo; unfold start, LOGSIZE in *; lia). destruct Hr as [Hr H31].
  destruct (bread_view s start Hb Hr Hbz) as (b & x1 & t1 & E1 & F1 & B1 & H1 & C1 & CC1 & D1 & W1 & Cl1 & Dr1 & Bz1 & Dt1 & N1 & O1);
    [by right|].
  assert (Hd1 : has (b_flags x1) B_DIRTY = false) by (apply not_true_is_false; rewrite Dr1; done).
  assert (Hdk := Cl1 Hd1). rewrite Hd1 in N1. assert (Hl1 := frame_log _ _ F1).
  destruct (upd_data_view t1 b start x1 (put32 0 (u32 n)) B1 H1)
    as (t2 & E2 & F2 & B2 & H2 & D2 & W2 & C2 & Bz2 & Dt2 & N2 & O2).
  assert (Hl2 := frame_log _ _ F2).
  destruct (head_loop n 0 t2 b start _ B2 H2) as (t3 & E3 & F3 & B3 & D3 & W3 & H3 & C3 & Bz3 & Dt3 & N3).
  { rewrite Hl2, Hl1, (lo_len _ Hlo). destruct (lo_n _ Hlo). unfold n. lia. }
  destruct (bwrite_view t3 b start _ B3 H3) as (t4 & E4 & F4 & B4 & H4 & D4 & W4 & C4 & Bz4 & Dt4 & N4 & O4).
  set (d := put_head n (lh_sector (lg_lh (k_log s))) (b_data x1)).
  cbn in D4, W4, C4. rewrite Hl2, Hl1 in D4, W4, C4. fold d in D4, W4, C4.
  destruct (brelse_view t4 b start _ B4 H4) as (t5 & E5 & F5 & B5 & D5 & W5 & _ & C5 & Bz5 & Dt5 & N5 & O5).
  { intros _. rewrite D4, list_lookup_insert_eq by (rewrite D3, D2, D1; lia). cbn. by rewrite Hl2, Hl1. }
  exists t5, (b_data x1). split.
  { unfold write_head. mstep. cbn [id]. rewrite (lo_dev _ Hlo), u32_small by lia. fold start.
    step E1. replace (u32 (lh_n (lg_lh (k_log s)))) with (u32 n) by (f_equal; destruct (lo_n _ Hlo); lia).
    step E2. fold n. step E3. by step E4. }
  split; [done|]. fold d. split; [by repeat (etransitivity; [eassumption|])|]. split_and!; try done.
  - by rewrite D5, D4, D3, D2, D1.
  - by rewrite W5, W4, W3, W2, W1.
  - intros sec' Hs'. rewrite C5, C4 by done. case_decide; [done|].
    rewrite C3, C2, decide_False, CC1 by done. done.
  - intros sec'. rewrite Bz5, Bz4, Bz3, Bz2, Bz1. split; [intuition congruence|].
    intros Hbz'. split; [auto|]. by intros ->.
  - intros sec'. rewrite Dt5, Dt4, Dt3, Dt2, Dt1. split; [tauto|]. intros Hdt'. split; [done|]. by intros ->.
  - match type of N5 with context [clean_buf ?y] => destruct (clean_buf_flags y) as (_ & _ & Hcd) end.
    rewrite Hcd in N5. lia.
Qed.
End log_lemmas.

(** ** Words and headers *)

Lemma length_put32 off v d : length (put32 off v d) = length d.
Proof. unfold put32. by rewrite !length_insert. Qed.

Lemma getb_insert_ne d i j v : i ≠ j → getb (<[i := v]> d) j = getb d j.
Proof. intros. unfold getb. by rewrite list_lookup_insert_ne. Qed.
Lemma getb_insert_eq d i v : (i < length d)%nat → getb (<[i := v]> d) i = v.
Proof. intros. unfold getb. by rewrite list_lookup_insert_eq. Qed.

Lemma get32_put32_eq off v d : (off + 4 ≤ length d)%nat → get32 (put32 off v d) off = u32 v.
Proof.
  intros Hl. unfold get32, put32.
  rewrite !(getb_insert_ne _ _ off), (getb_insert_eq _ off) by (rewrite ?length_insert; lia).
  rewrite !(getb_insert_ne _ _ (off + 1)), (getb_insert_eq _ (off + 1)) by (rewrite ?length_insert; lia).
  rewrite !(getb_insert_ne _ _ (off + 2)), (getb_insert_eq _ (off + 2)) by (rewrite ?length_insert; lia).
  rewrite (getb_insert_eq _ (off + 3)) by (rewrite ?length_insert; lia).
  unfold u8, u32. rewrite !Z.shiftr_div_pow2 by lia. lia.
Qed.

Lemma get32_put32_ne off off' v d :
  (off + 4 ≤ off' ∨ off' + 4 ≤ off)%nat → get32 (put32 off v d) off' = get32 d off'.
Proof. intros Ho. unfold get32, put32. rewrite !getb_insert_ne by lia. done. Qed.

Section header.
Implicit Types (secs d : list Z).

Definition put_sectors secs d (l : list nat) : list Z :=
  foldl (λ d i, put32 (4 + 4 * i) (u32 (default 0 (secs !! i))) d) d l.

Lemma length_put_sectors secs d l : length (put_sectors secs d l) = length d.
Proof. revert d. induction l as [|i l IH]; intros d; [done|].
  unfold put_sectors in *. cbn. by rewrite IH, length_put32. Qed.

Lemma put_sectors_ne secs d j m off :
  (off + 4 ≤ 4 + 4 * j ∨ 4 + 4 * (j + m) ≤ off)%nat →
  get32 (put_sectors secs d (seq j m)) off = get32 d off.
Proof.
  revert j d. induction m as [|m IH]; intros j d Ho; [done|]. cbn [seq put_sectors foldl].
  fold (put_sectors secs (put32 (4 + 4 * j) (u32 (default 0 (secs !! j))) d) (seq (S j) m)).
  rewrite IH by lia. apply get32_put32_ne. lia.
Qed.

Lemma put_sectors_eq secs d j m i :
  (j ≤ i < j + m)%nat → (4 + 4 * (j + m) ≤ length d)%nat →
  get32 (put_sectors secs d (seq j m)) (4 + 4 * i) = u32 (default 0 (secs !! i)).
Proof.
  revert j d. induction m as [|m IH]; intros j d Hi Hl; [lia|]. cbn [seq put_sectors foldl].
  fold (put_sectors secs (put32 (4 + 4 * j) (u32 (default 0 (secs !! j))) d) (seq (S j) m)).
  destruct (decide (i = j)) as [->|Hne].
  - rewrite put_sectors_ne, get32_put32_eq by lia. unfold u32. lia.
  - apply IH; rewrite ?length_put32; lia.
Qed.

Lemma length_put_head n secs d : length (put_head n secs d) = length d.
Proof. unfold put_head. fold (put_sectors secs (put32 0 (u32 n) d) (seq 0 n)).
  by rewrite length_put_sectors, length_put32. Qed.

Lemma head_n_put n secs d : (n ≤ 100)%nat → (4 + 4 * n ≤ length d)%nat → head_n (put_head n secs d) = n.
Proof.
  intros Hn Hl. unfold head_n, put_head. fold (put_sectors secs (put32 0 (u32 n) d) (seq 0 n)).
  rewrite put_sectors_ne, get32_put32_eq by lia. rewrite !u32_small by (unfold u32; lia). apply s32_small. lia.
Qed.

Lemma head_sector_put n secs d i v :
  (4 + 4 * n ≤ length d)%nat → (i < n)%nat → secs !! i = Some v → 0 ≤ v < 2 ^ 31 →
  head_sector (put_head n secs d) i = v.
Proof.
  intros Hl Hi Hv Hr. unfold head_sector, put_head. fold (put_sectors secs (put32 0 (u32 n) d) (seq 0 n)).
  rewrite put_sectors_eq by (rewrite ?length_put32; lia). rewrite Hv. cbn.
  rewrite u32_small by lia. apply s32_small. lia.
Qed.
End header.

(** ** Sequences of writes *)

Section writes.
Implicit Types (dk : list (list Z)) (w : list (Z * list Z)).

(** The data last written to sector number [k]. *)
Definition last_write w (k : nat) : option (list Z) :=
  foldl (λ o p, if decide (Z.to_nat p.1 = k) then Some p.2 else o) None w.

Lemma foldl_last_write o w k :
  foldl (λ o p, if decide (Z.to_nat p.1 = k) then Some p.2 else o) o w =
    match last_write w k with Some d => Some d | None => o end.
Proof.
  unfold last_write. revert o. induction w as [|p w IH]; intros o; [done|]. cbn.
  rewrite IH. rewrite (IH (if decide _ then _ else _)). destruct (foldl _ None w); [done|]. by case_decide.
Qed.

Lemma last_write_app w1 w2 k :
  last_write (w1 ++ w2) k = match last_write w2 k with Some d => Some d | None => last_write w1 k end.
Proof. unfold last_write at 1. rewrite foldl_app. apply foldl_last_write. Qed.

Lemma last_write_cons p w k :
  last_write (p :: w) k = match last_write w k with Some d => Some d | None =>
    if decide (Z.to_nat p.1 = k) then Some p.2 else None end.
Proof. apply (last_write_app [p] w k). Qed.

Lemma last_write_None w k : last_write w k = None ↔ ∀ p, p ∈ w → Z.to_nat p.1 ≠ k.
Proof.
  induction w as [|p w IH]; [split; [by intros _ p ?%elem_of_nil|done]|]. rewrite last_write_cons.
  destruct (last_write w k) eqn:E.
  - split; [done|]. intros Hp. apply IH. intros q Hq. apply Hp. by right.
  - case_decide as Ek.
    + split; [done|]. intros Hp. destruct (Hp p); [by left|done].
    + split; [|done]. intros _ q [->|Hq]%elem_of_cons; [done|]. by apply IH.
Qed.

Lemma length_apply_writes dk w : length (apply_writes dk w) = length dk.
Proof. unfold apply_writes. revert dk. induction w; intros dk; [done|]. cbn. by rewrite IHw, length_insert. Qed.

Lemma apply_writes_app dk w1 w2 : apply_writes dk (w1 ++ w2) = apply_writes (apply_writes dk w1) w2.
Proof. apply foldl_app. Qed.

Lemma lookup_apply_writes dk w k :
  (k < length dk)%nat →
  apply_writes dk w !! k = match last_write w k with Some d => Some d | None => dk !! k end.
Proof.
  revert dk. induction w as [|p w IH]; intros dk Hk; [done|]. rewrite last_write_cons.
  change (apply_writes dk (p :: w)) with (apply_writes (<[Z.to_nat p.1 := p.2]> dk) w).
  rewrite IH by (by rewrite length_insert). destruct (last_write w k); [done|].
  case_decide as E; [subst; by rewrite list_lookup_insert_eq|by rewrite list_lookup_insert_ne].
Qed.

(** Writes done twice, the first time only in part, are writes done once. *)
Lemma apply_writes_again dk w1 w2 :
  apply_writes (apply_writes dk w1) (w1 ++ w2) = apply_writes dk (w1 ++ w2).
Proof.
  rewrite <-apply_writes_app. apply list_eq. intros k.
  destruct (decide (k < length dk)%nat) as [Hk|Hk].
  - rewrite !lookup_apply_writes, !last_write_app by done.
    destruct (last_write w2 k); [done|]. by destruct (last_write w1 k).
  - rewrite !lookup_ge_None_2; [done|..]; rewrite length_apply_writes; lia.
Qed.
End writes.

(** ** Recovery, as a function of the disk *)

Definition home_sec (start nlog : Z) (dk : list (list Z)) (sec : Z) : Prop :=
  0 ≤ sec < length dk ∧ ¬ (start ≤ sec < start + nlog).

(** The log area lies on the disk, and its header names home sectors. *)
Record rec_ok (start nlog : Z) (dk : list (list Z)) (h : list Z) : Prop := {
  ro_head : dk !! Z.to_nat start = Some h;
  ro_size : length h = Z.to_nat BSIZE;
  ro_start : 0 ≤ start;
  ro_room : start + nlog ≤ length dk;
  ro_n : 0 ≤ head_n h ≤ LOGSIZE;
  ro_fits : head_n h < nlog;
  ro_home : ∀ i, (i < Z.to_nat (head_n h))%nat → home_sec start nlog dk (head_sector h i);
}.

Section recovery.
Implicit Types (start nlog : Z) (dk : list (list Z)) (h : list Z) (w : list (Z * list Z)).

Definition head_secs h : list Z := head_sector h <$> seq 0 (Z.to_nat (head_n h)).
Definition head_writes start dk h : list (Z * list Z) :=
  install_writes start (Z.to_nat (head_n h)) (head_secs h) dk.

Lemma head_writes_home start nlog dk h p : rec_ok start nlog dk h → p ∈ head_writes start dk h → home_sec start nlog dk p.1.
Proof.
  intros Hr Hp. unfold head_writes, install_writes in Hp.
  apply list_elem_of_fmap in Hp as (i & -> & [_ Hi]%elem_of_seq). cbn in Hi. cbn.
  unfold head_secs. rewrite list_lookup_fmap, lookup_seq_lt by done. cbn. by apply (ro_home _ _ _ _ Hr).
Qed.

Lemma home_sec_length start nlog dk dk' sec :
  length dk' = length dk → home_sec start nlog dk sec → home_sec start nlog dk' sec.
Proof. unfold home_sec. by intros ->. Qed.

(** Writes to home sectors leave the log area alone. *)
Lemma apply_home_log start nlog dk w k :
  (∀ p, p ∈ w → home_sec start nlog dk p.1) → start ≤ k < start + nlog → 0 ≤ start → k < length dk →
  apply_writes dk w !! Z.to_nat k = dk !! Z.to_nat k.
Proof.
  intros Hw Hk H0 Hl. rewrite lookup_apply_writes by lia.
  replace (last_write w (Z.to_nat k)) with (@None (list Z)); [done|]. symmetry. apply last_write_None.
  intros p Hp. destruct (Hw p Hp). lia.
Qed.

Lemma apply_home_rec start nlog dk h w :
  rec_ok start nlog dk h → (∀ p, p ∈ w → home_sec start nlog dk p.1) →
  rec_ok start nlog (apply_writes dk w) h ∧ head_writes start (apply_writes dk w) h = head_writes start dk h.
Proof.
  intros Hr Hw. destruct Hr as [Hh Hs H0 Hro Hn Hfit Hho]. split.
  - split; try done; rewrite ?length_apply_writes; try done.
    + rewrite (apply_home_log start nlog) by (done || lia). done.
    + intros i Hi. eapply home_sec_length; [apply length_apply_writes|]. by apply Hho.
  - apply list_fmap_ext. intros _ i [_ Hi]%list_elem_of_lookup_2%elem_of_seq. cbn in Hi.
    rewrite (apply_home_log start nlog); [done|done|..]; unfold log_block, LOGSIZE in *; lia.
Qed.

Lemma recovery_writes_eq start dk h :
  dk !! Z.to_nat start = Some h → recovery_writes start dk = head_writes start dk h ++ [(start, put_head 0 [] h)].
Proof. intros Hh. unfold recovery_writes. by rewrite Hh. Qed.

(** Recovery interrupted while it installs, and started again. *)
Lemma recover_resume start nlog dk h w1 w2 :
  rec_ok start nlog dk h → head_writes start dk h = w1 ++ w2 →
  recover start (apply_writes dk w1) = recover start dk.
Proof.
  intros Hr E. destruct (apply_home_rec start nlog dk h w1 Hr) as [Hr1 Hw1].
  { intros p Hp. apply (head_writes_home start nlog dk h); [done|]. rewrite E. set_solver. }
  unfold recover. rewrite (recovery_writes_eq _ _ h (ro_head _ _ _ _ Hr)), (recovery_writes_eq _ _ h (ro_head _ _ _ _ Hr1)).
  rewrite Hw1, E, <-app_assoc. apply apply_writes_again.
Qed.

(** A disk with an empty log only has its log erased again. *)
Lemma recover_empty start nlog dk h sec :
  rec_ok start nlog dk h → head_n h = 0 → home_sec start nlog dk sec →
  recover start dk !! Z.to_nat sec = dk !! Z.to_nat sec.
Proof.
  intros Hr Hn [Hs Hsl]. unfold recover. rewrite (recovery_writes_eq _ _ h (ro_head _ _ _ _ Hr)).
  replace (head_writes start dk h) with (@nil (Z * list Z)) by (unfold head_writes; by rewrite Hn).
  unfold apply_writes. cbn [foldl app fst snd]. rewrite list_lookup_insert_ne; [done|].
  destruct Hr. unfold LOGSIZE in *. lia.
Qed.

(** The end of a recovery, or of a commit: the log is empty. *)
Lemma recover_twice start nlog dk h sec :
  rec_ok start nlog dk h → home_sec start nlog dk sec →
  recover start (recover start dk) !! Z.to_nat sec = recover start dk !! Z.to_nat sec.
Proof.
  intros Hr Hs. assert (Hlen : length (recover start dk) = length dk) by apply length_apply_writes.
  assert (Hh : recover start dk !! Z.to_nat start = Some (put_head 0 [] h)).
  { unfold recover. rewrite (recovery_writes_eq _ _ h (ro_head _ _ _ _ Hr)), apply_writes_app.
    unfold apply_writes at 1. cbn [foldl fst snd]. apply list_lookup_insert_eq. rewrite length_apply_writes. destruct Hr. unfold LOGSIZE in *. lia. }
  assert (Hn : head_n (put_head 0 [] h) = 0).
  { rewrite head_n_put; [done|lia|]. rewrite (ro_size _ _ _ _ Hr). unfold BSIZE. lia. }
  apply (recover_empty _ nlog _ (put_head 0 [] h)); [|done|by eapply home_sec_length].
  destruct Hr. split; rewrite ?Hlen, ?Hn; try done; [by rewrite length_put_head|lia|].
  intros i Hi. cbn in Hi. lia.
Qed.
End recovery.

(** ** Commit *)

(** A transaction ready to commit: its blocks are in the log area of the
    disk and in pinned buffers, the header on disk is empty, and every other
    sector is on disk as it is in the cache. *)
Record tx_ok (s : kstate) (d0 : list Z) : Prop := {
  tx_blk : blk s;
  tx_log : log_ok s;
  tx_lock : lock_free LkLog s;
  tx_head : k_disk s !! Z.to_nat (lg_start (k_log s)) = Some d0;
  tx_size : length d0 = Z.to_nat BSIZE;
  tx_empty : head_n d0 = 0;
  tx_home : ∀ i sec, (i < Z.to_nat (lh_n (lg_lh (k_log s))))%nat → lh_sector (lg_lh (k_log s)) !! i = Some sec →
    home s sec ∧ ¬ busy_at s sec ∧ dirty_at s sec ∧
    content s sec = k_disk s !! Z.to_nat (log_block (lg_start (k_log s)) i);
  tx_distinct : ∀ i i' sec, (i < i' < Z.to_nat (lh_n (lg_lh (k_log s))))%nat →
    lh_sector (lg_lh (k_log s)) !! i = Some sec → lh_sector (lg_lh (k_log s)) !! i' ≠ Some sec;
  tx_area : ∀ sec, lg_start (k_log s) ≤ sec < lg_start (k_log s) + lg_size (k_log s) → ¬ busy_at s sec ∧ ¬ dirty_at s sec;
  tx_idle : (1 ≤ nidle s)%nat;
  tx_rest : ∀ sec, home s sec → sec ∉ take (Z.to_nat (lh_n (lg_lh (k_log s)))) (lh_sector (lg_lh (k_log s))) →
    content s sec = k_disk s !! Z.to_nat sec;
}.

(** The writes of a commit, in order. *)
Definition commit_writes (s : kstate) (d0 : list Z) : list (Z * list Z) :=
  let start := lg_start (k_log s) in
  let n := Z.to_nat (lh_n (lg_lh (k_log s))) in
  let secs := lh_sector (lg_lh (k_log s)) in
  let h := put_head n secs d0 in
  (start, h) :: install_writes start n secs (k_disk s) ++ [(start, put_head 0 secs h)].

Section commit.
Context `{Hk : kenv} `{Hd : disk} `{Hdl : !disk_laws}.
Implicit Types (s t : kstate).

Lemma install_writes_ext start n secs dk dk' :
  (∀ i, (i < n)%nat → dk' !! Z.to_nat (log_block start i) = dk !! Z.to_nat (log_block start i)) →
  install_writes start n secs dk' = install_writes start n secs dk.
Proof.
  intros E. apply list_fmap_ext. intros _ i [_ Hi]%list_elem_of_lookup_2%elem_of_seq. by rewrite E by lia.
Qed.

Lemma install_writes_sectors start n secs dk :
  (n ≤ length secs)%nat → (install_writes start n secs dk).*1 = take n secs.
Proof.
  intros Hn. apply list_eq. intros i. unfold install_writes. rewrite <-list_fmap_compose, list_lookup_fmap.
  destruct (decide (i < n)%nat).
  - rewrite lookup_seq_lt, lookup_take_lt by done. cbn.
    destruct (lookup_lt_is_Some_2 secs i) as [v ->]; [lia|done].
  - rewrite lookup_seq_ge, lookup_take_ge by lia. done.
Qed.

(** The state of the log once the header is committed. *)
Lemma tx_installable s t d0 :
  tx_ok s d0 → k_log t = k_log s → length (k_disk t) = length (k_disk s) → blk t →
  (∀ sec', busy_at t sec' ↔ busy_at s sec') → (∀ sec', dirty_at t sec' ↔ dirty_at s sec') →
  (nidle s ≤ nidle t)%nat → installable t 0 (Z.to_nat (lh_n (lg_lh (k_log s)))).
Proof.
  intros Htx El Hlen Hb Bz Dt Hn. assert (Hlo := tx_log _ _ Htx). split; rewrite ?El.
  - done.
  - by eapply log_ok_frame.
  - destruct (lo_n _ Hlo). lia.
  - destruct (lo_n _ Hlo), Hlo. lia.
  - intros i sec Hi Hs. rewrite Bz. unfold home. rewrite El, Hlen.
    destruct (tx_home _ _ Htx i sec) as (? & ? & _); [lia|done|]. done.
  - intros i Hi. cbn. rewrite Bz, Dt. apply (tx_area _ _ Htx).
    destruct (lo_n _ Hlo). assert (Hf := lo_fits _ Hlo). unfold log_block. lia.
  - assert (H1 := tx_idle _ _ Htx). lia.
  - right. intros i sec Hi Hs. apply Dt. by apply (tx_home _ _ Htx i); [lia|].
  - intros i i' sec Hi Hi'. apply (tx_distinct _ _ Htx). lia.
Qed.

Lemma tx_nodup s d0 :
  tx_ok s d0 → NoDup (take (Z.to_nat (lh_n (lg_lh (k_log s)))) (lh_sector (lg_lh (k_log s)))).
Proof.
  intros Htx. apply NoDup_alt. intros i j x [Hi Hi']%lookup_take_Some [Hj Hj']%lookup_take_Some.
  destruct (Nat.lt_trichotomy i j) as [Hlt|[?|Hlt]]; [|done|].
  - by destruct (tx_distinct _ _ Htx i j x); [lia|..].
  - by destruct (tx_distinct _ _ Htx j i x); [lia|..].
Qed.

Lemma last_write_in w sec d :
  NoDup w.*1 → (∀ p : Z * list Z, p ∈ w → 0 ≤ p.1) → (sec, d) ∈ w → last_write w (Z.to_nat sec) = Some d.
Proof.
  induction w as [|p w IH]; intros Hnd Hp Hin; [by apply elem_of_nil in Hin|].
  cbn in Hnd. apply NoDup_cons in Hnd as [Hni Hnd]. rewrite last_write_cons.
  apply elem_of_cons in Hin as [<-|Hin].
  - replace (last_write w (Z.to_nat sec)) with (@None (list Z)); [by rewrite decide_True|].
    symmetry. apply last_write_None. intros q Hq E. apply Hni. apply list_elem_of_fmap. exists q.
    split; [|done]. assert (0 ≤ q.1) by (apply Hp; by right). assert (0 ≤ sec) by (apply (Hp (sec, d)); by left). cbn. lia.
  - rewrite IH; [done|done| |done]. intros q Hq. apply Hp. by right.
Qed.

(** The part of [commit_trans] that writes. *)
Lemma commit_view s d0 :
  tx_ok s d0 →
  ∃ t, (do* write_head in do* install_trans in do* set_lh_n 0 in write_head) s = Ret tt t ∧
    frame (s <| k_log := k_log t |>) t ∧ blk t ∧
    k_log t = (k_log s) <| lg_lh ::= set lh_n (λ _, 0) |> ∧
    k_disk t = apply_writes (k_disk s) (commit_writes s d0) ∧
    k_writes t = k_writes s ++ commit_writes s d0 ∧
    (∀ sec, home s sec → content t sec = content s sec) ∧
    (∀ sec, busy_at t sec ↔ busy_at s sec) ∧
    (∀ sec, dirty_at t sec ↔ dirty_at s sec ∧
      sec ∉ take (Z.to_nat (lh_n (lg_lh (k_log s)))) (lh_sector (lg_lh (k_log s)))) ∧
    (nidle s ≤ nidle t)%nat.
Proof.
  intros Htx. assert (Hlo := tx_log _ _ Htx). set (start := lg_start (k_log s)) in *.
  set (n := Z.to_nat (lh_n (lg_lh (k_log s)))). set (secs := lh_sector (lg_lh (k_log s))).
  assert (Hstart : start ≤ start < start + lg_size (k_log s)) by (destruct (lo_n _ Hlo); assert (Hf := lo_fits _ Hlo); lia).
  destruct (tx_area _ _ Htx start Hstart) as [Hbz Hdt].
  destruct (write_head_view s) as (t1 & d & E1 & Hd0 & F1 & B1 & D1 & W1 & C1 & Bz1 & Dt1 & N1);
    [apply Htx|done|done|done|apply Htx|].
  fold start n secs in Hd0, D1, W1, C1.
  assert (d = d0) as -> by (assert (E := tx_head _ _ Htx); fold start in E; congruence).
  set (h := put_head n secs d0) in *. assert (Hl1 := frame_log _ _ F1).
  assert (Hlen1 : length (k_disk t1) = length (k_disk s)) by (by rewrite D1, length_insert).
  assert (Hin : installable t1 0 n) by (by eapply (tx_installable s t1 d0)).
  destruct (install_loop n 0 t1 Hin) as (t2 & E2 & F2 & B2 & D2 & W2 & Bz2 & Dt2 & N2 & C2 & C2').
  rewrite Hl1 in D2, W2, Dt2, C2, C2'. fold start secs in D2, W2, Dt2, C2, C2'.
  assert (Hiw : install_write start secs (k_disk t1) <$> seq 0 n = install_writes start n secs (k_disk s)).
  { apply install_writes_ext. intros i Hi. rewrite D1, list_lookup_insert_ne; [done|].
    destruct Hlo. unfold start, log_block. lia. }
  rewrite Hiw in *. set (iw := install_writes start n secs (k_disk s)) in *.
  assert (Hsecs : iw.*1 = take n secs).
  { apply install_writes_sectors. unfold n, secs. rewrite (lo_len _ Hlo). destruct (lo_n _ Hlo). lia. }
  rewrite Hsecs in *.
  set (t3 := t2 <| k_log ::= set lg_lh (set lh_n (λ _, 0)) |>).
  assert (Hl2 := frame_log _ _ F2).
  assert (Hlen2 : length (k_disk t2) = length (k_disk s)) by (by rewrite D2, length_apply_writes).
  assert (Hlo3 : log_ok t3).
  { destruct Hlo. split; cbn; rewrite ?Hl2, ?Hl1, ?Hlen2; try done. lia. }
  assert (Hs3 : lg_start (k_log t3) = start) by (cbn; by rewrite Hl2, Hl1).
  destruct (write_head_view t3) as (t & d2 & E4 & Hd2 & F4 & B4 & D4 & W4 & C4 & Bz4 & Dt4 & N4).
  { by eapply (blk_ext t2). }
  { done. }
  { rewrite Hs3. change (¬ busy_at t2 start). by rewrite Bz2, Bz1. }
  { rewrite Hs3. change (¬ dirty_at t2 start). rewrite Dt2, Dt1. tauto. }
  { change (1 ≤ nidle t2)%nat. assert (H1 := tx_idle _ _ Htx). lia. }
  rewrite Hs3 in Hd2, D4, W4, C4. change (k_disk t3) with (k_disk t2) in Hd2, D4.
  change (k_writes t3) with (k_writes t2) in W4.
  assert (Hiwh : ∀ p, p ∈ iw → home_sec start (lg_size (k_log s)) (k_disk t1) p.1).
  { intros p Hp. assert (Hp1 : p.1 ∈ take n secs) by (rewrite <-Hsecs; by apply list_elem_of_fmap_2).
    apply list_elem_of_lookup in Hp1 as [i Hi]. apply lookup_take_Some in Hi as [Hi Hin'].
    destruct (tx_home _ _ Htx i p.1 Hin' Hi) as ([? ?] & _). unfold home_sec. rewrite Hlen1. done. }
  assert (d2 = h) as ->.
  { rewrite D2, (apply_home_log start (lg_size (k_log s))), D1, list_lookup_insert_eq in Hd2; [congruence|..];
      try done; rewrite ?D1, ?length_insert; destruct Hlo; unfold start, LOGSIZE in *; lia. }
  exists t. split_and!; try done.
  - step E1. erewrite bind_ret; [|unfold install_trans; mstep; cbn [id]; rewrite Hl1; exact E2]. by mstep.
  - rewrite (frame_log _ _ F4). etransitivity; [|exact F4].
    change t3 with (t2 <| k_log := k_log t3 |>). apply frame_set_log. by etransitivity.
  - rewrite (frame_log _ _ F4). cbn. by rewrite Hl2, Hl1.
  - rewrite D4, D2, D1. unfold commit_writes. fold start n secs h iw.
    change ((start, h) :: ?l) with ([(start, h)] ++ l). rewrite !apply_writes_app. cbn. by rewrite Hl2, Hl1.
  - rewrite W4, W2, W1, <-!app_assoc. cbn. by rewrite Hl2, Hl1.
  - intros sec Hhome. assert (Hs : 0 ≤ sec ∧ sec ≠ start) by (destruct Hhome as [? Hh]; fold start in Hh; lia).
    rewrite C4, decide_False by apply Hs. change (content t3 sec) with (content t2 sec).
    destruct (decide (sec ∈ take n secs)) as [Hi|Hi].
    + rewrite C2', D2 by done. destruct Hhome as [Hr _].
      apply list_elem_of_lookup in Hi as [i Hi]. apply lookup_take_Some in Hi as [Hi Hin'].
      destruct (tx_home _ _ Htx i sec Hin' Hi) as (_ & _ & _ & ->). fold start.
      rewrite lookup_apply_writes by lia. destruct (lookup_lt_is_Some_2 (k_disk s) (Z.to_nat (log_block start i))) as [d Hdd].
      { destruct Hlo. unfold log_block, start, LOGSIZE in *. lia. }
      rewrite (last_write_in iw sec d), Hdd; [done| | |].
      * rewrite Hsecs. by eapply tx_nodup.
      * intros p Hp. destruct (Hiwh p Hp). lia.
      * apply list_elem_of_fmap. exists i. split; [by rewrite Hi, Hdd|]. apply elem_of_seq. lia.
    + rewrite C2, C1, decide_False by (done || apply Hs). done.
  - intros sec. rewrite Bz4. change (busy_at t2 sec ↔ busy_at s sec). by rewrite Bz2, Bz1.
  - intros sec. rewrite Dt4. change (dirty_at t2 sec ↔ dirty_at s sec ∧ sec ∉ take n secs). by rewrite Dt2, Dt1.
  - change (nidle t3) with (nidle t2) in N4. lia.
Qed.
End commit.
