(* ===== verification/Tx.v ===== *)
(** Transactions as the file system uses them: [bread] a sector, change the
    buffer, [log_write] it, [brelse] it.  The invariant [tx] says what is on
    disk, in the log and in the cache between two such steps, and each step is
    stated against it. *)
From stdpp Require Import base numbers gmap strings option list.
From S2P Require Import Prelude State Spinlock Str Cprintf Kalloc Proc Mlf Sched Bio Blocks Log LogSpec.

(** ** The invariant *)

(** The sectors of the running transaction, in the order of their log blocks. *)
Definition logged (s : kstate) : list Z :=
  take (Z.to_nat (lh_n (lg_lh (k_log s)))) (lh_sector (lg_lh (k_log s))).

(** The current contents of a sector are in its log block if it has one, and
    on its place on disk otherwise. *)
Definition synced (s : kstate) (sec : Z) : Prop :=
  (∀ i, logged s !! i = Some sec → content s sec = k_disk s !! Z.to_nat (log_block (lg_start (k_log s)) i)) ∧
  (sec ∉ logged s → content s sec = k_disk s !! Z.to_nat sec).

(** [H] is the set of sectors the caller holds. *)
Record tx (s : kstate) (d0 : list Z) (H : gset Z) : Prop := {
  t_blk : blk s;
  t_log : log_ok s;
  t_head : k_disk s !! Z.to_nat (lg_start (k_log s)) = Some d0;
  t_size : length d0 = Z.to_nat BSIZE;
  t_empty : head_n d0 = 0;
  t_home : ∀ sec, sec ∈ logged s → home s sec;
  t_nodup : NoDup (logged s);
  t_busy : ∀ sec, busy_at s sec ↔ sec ∈ H;
  t_held : ∀ sec, sec ∈ H → home s sec;
  t_dirty : ∀ sec, dirty_at s sec ↔ sec ∈ logged s;
  t_sync : ∀ sec, home s sec → sec ∉ H → synced s sec;
  t_room : (NBUF ≤ nidle s + size (H ∪ list_to_set (logged s)))%nat;
}.

Section tx.
Context `{Hk : kenv} `{Hd : disk} `{Hdl : !disk_laws}.
Implicit Types (s t : kstate) (H : gset Z) (sec : Z).

Lemma home_frame s t sec : k_log t = k_log s → length (k_disk t) = length (k_disk s) → home t sec ↔ home s sec.
Proof. unfold home. by intros -> ->. Qed.

Lemma logged_frame s t : k_log t = k_log s → logged t = logged s.
Proof. unfold logged. by intros ->. Qed.

Lemma length_logged s : log_ok s → length (logged s) = Z.to_nat (lh_n (lg_lh (k_log s))).
Proof. intros Hlo. unfold logged. rewrite length_take, (lo_len _ Hlo). destruct (lo_n _ Hlo). lia. Qed.

Lemma logged_block s i sec : log_ok s → logged s !! i = Some sec →
  lg_start (k_log s) < log_block (lg_start (k_log s)) i < lg_start (k_log s) + lg_size (k_log s).
Proof.
  intros Hlo Hi. apply lookup_lt_Some in Hi. rewrite length_logged in Hi by done.
  destruct (lo_n _ Hlo). assert (Hf := lo_fits _ Hlo). unfold log_block. lia.
Qed.

(** [synced] depends on the log, the contents and the disk. *)
Lemma synced_ext s t sec :
  synced s sec → k_log t = k_log s → content t sec = content s sec → k_disk t = k_disk s → synced t sec.
Proof. intros Hs E1 E2 E3. unfold synced. by rewrite (logged_frame s t), E1, E2, E3. Qed.

(** Ready to commit. *)
Lemma tx_ready s d0 :
  tx s d0 ∅ → lock_free LkLog s → (length (logged s) < NBUF)%nat → tx_ok s d0.
Proof.
  intros Ht Hl Hn. assert (Hlo := t_log _ _ _ Ht). split; try apply Ht; try done.
  - intros i sec Hi Hs. assert (Hlg : logged s !! i = Some sec) by (unfold logged; by rewrite lookup_take_lt).
    assert (Hin : sec ∈ logged s) by (by eapply list_elem_of_lookup_2).
    assert (Hh := t_home _ _ _ Ht _ Hin). split_and!; try done.
    + rewrite (t_busy _ _ _ Ht). set_solver.
    + by apply (t_dirty _ _ _ Ht).
    + by apply (t_sync _ _ _ Ht); [|set_solver|].
  - intros i i' sec Hi Hs Hs'. assert (i = i'); [|lia].
    eapply NoDup_lookup; [apply (t_nodup _ _ _ Ht)|..]; unfold logged; rewrite lookup_take_lt; (done || lia).
  - intros sec Hsec. rewrite (t_busy _ _ _ Ht), (t_dirty _ _ _ Ht). split; [set_solver|].
    intros Hin. by destruct (t_home _ _ _ Ht sec Hin).
  - assert (Hr := t_room _ _ _ Ht). rewrite union_empty_l_L in Hr.
    assert (size (list_to_set (logged s) : gset Z) ≤ length (logged s))%nat; [|lia].
    rewrite size_list_to_set by apply Ht. done.
  - intros sec Hh Hni. by apply (t_sync _ _ _ Ht); [|set_solver|].
Qed.

Lemma tx_idle s d0 H : tx s d0 H → (size (H ∪ list_to_set (logged s)) < NBUF)%nat → (1 ≤ nidle s)%nat.
Proof. intros Ht Hn. assert (Hr := t_room _ _ _ Ht). lia. Qed.

Lemma tx_bread s d0 H sec :
  tx s d0 H → home s sec → sec ∉ H → sec ∈ logged s ∨ (size (H ∪ list_to_set (logged s)) < NBUF)%nat →
  ∃ b x t, bread 1 sec s = Ret b t ∧ frame s t ∧ k_disk t = k_disk s ∧ tx t d0 ({[sec]} ∪ H) ∧ held t b sec x ∧ synced t sec ∧
    content s sec = Some (b_data x) ∧ (∀ sec', content t sec' = content s sec') ∧
    (∀ j y sec', sec' ∈ H → held s j sec' y → held t j sec' y).
Proof.
  intros Ht Hh Hni Hav. assert (Hr : 0 ≤ sec < length (k_disk s)) by apply Hh.
  destruct (bread_view s sec (t_blk _ _ _ Ht) Hr)
    as (b & x & t & E & F & B & Hhd & C & CC & D & W & Cl & Dr & Bz & Dt & N & O).
  { by rewrite (t_busy _ _ _ Ht). }
  { destruct Hav; [left; by apply (t_dirty _ _ _ Ht)|right; by eapply tx_idle]. }
  assert (Hl := frame_log _ _ F). assert (Hlg := logged_frame _ _ Hl).
  assert (Hlen : length (k_disk t) = length (k_disk s)) by (by rewrite D).
  assert (Hhf := λ v, home_frame s t v Hl Hlen).
  assert (Hsy : ∀ v, home s v → v ∉ H → synced t v).
  { intros v Hv Hvn. eapply synced_ext; [by apply (t_sync _ _ _ Ht)|done|done|done]. }
  exists b, x, t. split_and!; try done; [|by apply Hsy|].
  - split; rewrite ?Hlg, ?Hl, ?D; try apply Ht; try done.
    + eapply log_ok_frame; [apply Ht|done|done].
    + intros v Hv. apply Hhf. by apply (t_home _ _ _ Ht).
    + intros v. rewrite Bz, (t_busy _ _ _ Ht). set_solver.
    + intros v Hv. apply Hhf. apply elem_of_union in Hv as [->%elem_of_singleton|Hv]; [done|].
      by apply (t_held _ _ _ Ht).
    + intros v. rewrite Dt. apply (t_dirty _ _ _ Ht).
    + intros v Hv Hvn. apply Hsy; [by apply Hhf|set_solver].
    + assert (Hroom := t_room _ _ _ Ht). destruct (has (b_flags x) B_DIRTY) eqn:Edx.
      * assert (Hin : sec ∈ logged s) by (apply (t_dirty _ _ _ Ht); by apply Dr).
        assert (({[sec]} ∪ H) ∪ list_to_set (logged s) = H ∪ list_to_set (logged s)) as -> by set_solver. lia.
      * assert (Hin : sec ∉ logged s) by (rewrite <-(t_dirty _ _ _ Ht), <-Dr; congruence).
        rewrite <-union_assoc_L, size_union, size_singleton by set_solver. lia.
  - intros j y sec' Hs' Hj. apply O; [by intros ->|done].
Qed.

(** Changing the data of a held buffer. *)
Lemma tx_modify s d0 H b sec x f :
  tx s d0 H → sec ∈ H → held s b sec x →
  ∃ t, upd_buf b (set b_data f) s = Ret tt t ∧ frame s t ∧ k_disk t = k_disk s ∧ tx t d0 H ∧ held t b sec (x <| b_data ::= f |>) ∧
    (∀ sec', content t sec' = if decide (sec' = sec) then Some (f (b_data x)) else content s sec') ∧
    (∀ j y sec', sec' ≠ sec → held s j sec' y → held t j sec' y).
Proof.
  intros Ht Hin Hh. destruct (upd_data_view s b sec x f (t_blk _ _ _ Ht) Hh)
    as (t & E & F & B & Hh' & D & W & C & Bz & Dt & N & O).
  assert (Hl := frame_log _ _ F). assert (Hlg := logged_frame _ _ Hl).
  assert (Hlen : length (k_disk t) = length (k_disk s)) by (by rewrite D).
  assert (Hhf := λ v, home_frame s t v Hl Hlen).
  exists t. split_and!; try done. split; rewrite ?Hlg, ?Hl, ?D, ?N; try apply Ht; try done.
  - eapply log_ok_frame; [apply Ht|done|done].
  - intros v Hv. apply Hhf. by apply (t_home _ _ _ Ht).
  - intros v. rewrite Bz. apply (t_busy _ _ _ Ht).
  - intros v Hv. apply Hhf. by apply (t_held _ _ _ Ht).
  - intros v. rewrite Dt. apply (t_dirty _ _ _ Ht).
  - intros v Hv Hvn. apply Hhf in Hv. eapply synced_ext; [by apply (t_sync _ _ _ Ht)|done| |done].
    rewrite C, decide_False; [done|]. by intros ->.
Qed.

(** Giving a buffer back, once its changes are logged. *)
Lemma tx_brelse s d0 H b sec x :
  tx s d0 H → sec ∈ H → held s b sec x → synced s sec →
  ∃ t, brelse b s = Ret tt t ∧ frame s t ∧ k_disk t = k_disk s ∧ tx t d0 (H ∖ {[sec]}) ∧
    (∀ sec', content t sec' = content s sec') ∧
    (∀ j y sec', sec' ≠ sec → held s j sec' y → held t j sec' y).
Proof.
  intros Ht Hin Hh Hsy. assert (Hhome := t_held _ _ _ Ht _ Hin).
  assert (Hdx : has (b_flags x) B_DIRTY = true ↔ sec ∈ logged s).
  { rewrite <-(t_dirty _ _ _ Ht). destruct Hh as (Hc & _). split; [by exists b, x|].
    intros (j & y & Hy & Hdy). destruct (t_blk _ _ _ Ht) as [_ [l Hok]].
    destruct Hy as (Hy & Hdv & Hsc), Hc as (Hx & Hdv' & Hsc').
    assert (j = b) as -> by (eapply bo_uniq; eauto; congruence). by simplify_eq. }
  assert (Hcont : content s sec = Some (b_data x)).
  { destruct (t_blk _ _ _ Ht) as [_ [l Hok]]. destruct Hh as (Hc & _ & Hv). by eapply content_cached. }
  destruct (brelse_view s b sec x (t_blk _ _ _ Ht) Hh)
    as (t & E & F & B & D & W & _ & C & Bz & Dt & N & O).
  { intros Hnd. rewrite <-Hcont. symmetry. apply Hsy. rewrite <-Hdx. congruence. }
  assert (Hl := frame_log _ _ F). assert (Hlg := logged_frame _ _ Hl).
  assert (Hlen : length (k_disk t) = length (k_disk s)) by (by rewrite D).
  assert (Hhf := λ v, home_frame s t v Hl Hlen).
  exists t. split_and!; try done. split; rewrite ?Hlg, ?Hl, ?D, ?N; try apply Ht; try done.
  - eapply log_ok_frame; [apply Ht|done|done].
  - intros v Hv. apply Hhf. by apply (t_home _ _ _ Ht).
  - intros v. rewrite Bz, (t_busy _ _ _ Ht). set_solver.
  - intros v Hv. apply Hhf. apply (t_held _ _ _ Ht). set_solver.
  - intros v. rewrite Dt. apply (t_dirty _ _ _ Ht).
  - intros v Hv Hvn. apply Hhf in Hv. eapply synced_ext; [|done|done|done].
    destruct (decide (v = sec)) as [->|Hne]; [done|]. apply (t_sync _ _ _ Ht); [done|set_solver].
  - assert (Hroom := t_room _ _ _ Ht).
    assert (Hsz : ∀ X : gset Z, sec ∈ H → (size (H ∪ X) ≤ S (size (H ∖ {[sec]} ∪ X)))%nat).
    { intros X _. assert (HH : H ∪ X ⊆ {[sec]} ∪ (H ∖ {[sec]} ∪ X)).
      { intros v Hv. destruct (decide (v = sec)); set_solver. }
      apply subseteq_size in HH. etransitivity; [exact HH|].
      rewrite size_union_alt, size_singleton. apply le_n_S, subseteq_size. set_solver. }
    destruct (has (b_flags x) B_DIRTY) eqn:Edx.
    + assert (Hlg' : sec ∈ logged s) by (by apply Hdx).
      assert (H ∖ {[sec]} ∪ list_to_set (logged s) = H ∪ list_to_set (logged s)) as ->; [|lia].
      apply set_eq. intros v. destruct (decide (v = sec)); set_solver.
    + specialize (Hsz (list_to_set (logged s)) Hin). lia.
Qed.

(** ** [log_write] *)

Lemma log_slot_eq s sec :
  log_ok s → 0 ≤ sec < 2 ^ 31 → (∀ v, v ∈ logged s → 0 ≤ v < 2 ^ 31) →
  (logged s !! log_slot (k_log s) sec = Some sec ∧ sec ∈ logged s) ∨
  (log_slot (k_log s) sec = Z.to_nat (lh_n (lg_lh (k_log s))) ∧ sec ∉ logged s).
Proof.
  intros Hlo Hr Hall. unfold log_slot. fold (logged s).
  destruct (list_find _ (logged s)) as [[i v]|] eqn:E; cbn.
  - left. apply list_find_Some in E as (Hv & HP & _). apply Is_true_true, Z.eqb_eq in HP.
    assert (v ∈ logged s) by (by eapply list_elem_of_lookup_2).
    rewrite u32_small in HP by (specialize (Hall v); naive_solver lia). by subst.
  - right. split; [done|]. apply list_find_None in E. rewrite Forall_forall in E. intros Hin.
    apply (E sec Hin). rewrite u32_small by lia. apply Is_true_true, Z.eqb_refl.
Qed.

Lemma set_lh_sector_eq s i v :
  (i < length (lh_sector (lg_lh (k_log s))))%nat →
  set_lh_sector i v s = Ret tt (s <| k_log ::= set lg_lh (set lh_sector (<[i := v]>)) |>).
Proof.
  intros Hi. destruct (lookup_lt_is_Some_2 _ _ Hi) as [w Hw]. unfold set_lh_sector.
  by rewrite (bind_ret _ _ _ _ _ (get_lh_sector_eq _ _ _ Hw)).
Qed.

(** The log after the sector is recorded in slot [i]. *)
Definition log_put (i : nat) (sec : Z) (lg : log_t) : log_t :=
  lg <| lg_lh ::= λ lh, mkLogheader
    (if Z.of_nat i =? lh_n lh then lh_n lh + 1 else lh_n lh) (<[i := sec]> (lh_sector lh)) |>.

(** The copy of a held buffer to its log block and the update of the
    header, from any state in which the log block is free. *)
Lemma log_write_view s b sec x :
  blk s → log_ok s → held s b sec x → home s sec → lh_n (lg_lh (k_log s)) < LOGSIZE →
  lh_n (lg_lh (k_log s)) < lg_size (k_log s) - 1 → lg_busy (k_log s) ≠ 0 →
  let i := log_slot (k_log s) sec in
  let lb := log_block (lg_start (k_log s)) i in
  (i ≤ Z.to_nat (lh_n (lg_lh (k_log s))))%nat → ¬ busy_at s lb → ¬ dirty_at s lb → (1 ≤ nidle s)%nat →
  ∃ t, log_write b s = Ret tt t ∧ frame (s <| k_log := k_log t |>) t ∧ blk t ∧
    k_log t = log_put i sec (k_log s) ∧
    k_disk t = <[Z.to_nat lb := b_data x]> (k_disk s) ∧
    held t b sec (x <| b_flags ::= λ f, Z.lor f B_DIRTY |>) ∧
    (∀ sec', 0 ≤ sec' → sec' ≠ lb → content t sec' = content s sec') ∧
    (∀ sec', busy_at t sec' ↔ busy_at s sec') ∧
    (∀ sec', dirty_at t sec' ↔ dirty_at s sec' ∨ sec' = sec) ∧ (nidle s ≤ nidle t)%nat ∧
    (∀ j y sec', sec' ≠ sec → sec' ≠ lb → held s j sec' y → held t j sec' y).
Proof.
  intros Hb Hlo Hh Hhome Hn1 Hn2 Hbusy i lb Hi Hbz Hdt Hid.
  assert (Hlb : 0 ≤ lb < length (k_disk s) ∧ lb ≠ sec ∧ lb < 2 ^ 31 ∧ sec < 2 ^ 31).
  { destruct Hlo, Hhome. unfold lb, log_block, LOGSIZE in *. lia. }
  destruct Hlb as (Hlb & Hne & Hlb31 & Hsec31).
  assert (Hsx : b_sector x = sec ∧ b_dev x = 1) by (destruct Hh as ((_ & ? & ?) & _); done).
  destruct Hsx as [Hsx Hdx].
  set (s1 := s <| k_log ::= set lg_lh (set lh_sector (<[i := sec]>)) |>).
  assert (B0 : blk s1) by (by eapply (blk_ext s)).
  destruct (bread_view s1 lb B0) as (lbuf & x1 & t1 & E1 & F1 & B1 & H1 & C1 & CC1 & D1 & W1 & Cl1 & Dr1 & Bz1 & Dt1 & N1 & O1);
    [done|done|by right|].
  assert (Hd1 : has (b_flags x1) B_DIRTY = false) by (apply not_true_is_false; rewrite Dr1; done).
  rewrite Hd1 in N1.
  assert (Hh1 : held t1 b sec x) by (apply O1; [done|exact Hh]).
  destruct (upd_data_view t1 lbuf lb x1 (λ _, b_data x) B1 H1)
    as (t2 & E2 & F2 & B2 & H2 & D2 & W2 & C2 & Bz2 & Dt2 & N2 & O2).
  destruct (bwrite_view t2 lbuf lb _ B2 H2) as (t3 & E3 & F3 & B3 & H3 & D3 & W3 & C3 & Bz3 & Dt3 & N3 & O3).
  cbn in D3, W3, C3.
  destruct (clean_buf_flags (x1 <| b_data := b_data x |>)) as (_ & _ & Hcd).
  destruct (brelse_view t3 lbuf lb _ B3 H3) as (t4 & E4 & F4 & B4 & D4 & W4 & _ & C4 & Bz4 & Dt4 & N4 & O4).
  { intros _. rewrite D3, list_lookup_insert_eq; [done|]. rewrite D2, D1. cbn. lia. }
  assert (Hh4 : held t4 b sec x) by (by apply O4, O3, O2).
  set (lg' := log_put i sec (k_log s)).
  assert (Hl4 : k_log t4 = k_log s1) by (by rewrite (frame_log _ _ F4), (frame_log _ _ F3), (frame_log _ _ F2), (frame_log _ _ F1)).
  set (t5 := t4 <| k_log := lg' |>).
  assert (B5 : blk t5) by (by eapply (blk_ext t4)).
  destruct (set_dirty_view t5 b sec x B5 Hh4) as (t & E5 & F5 & B6 & H5 & D5 & W5 & C5 & Bz5 & Dt5 & N5 & O5).
  assert (Hlt : k_log t = lg') by (by rewrite (frame_log _ _ F5)).
  exists t. split.
  { unfold log_write. mstep. cbn [id]. replace (_ || _) with false by lia.
    rewrite (proj2 (Z.eqb_neq _ _) Hbusy). step (get_held s b sec x Hh). rewrite Hsx, Hdx.
    fold i. rewrite s32_small by (destruct Hhome; lia).
    step (set_lh_sector_eq s i sec); [|rewrite (lo_len _ Hlo); unfold LOGSIZE in *; lia]. fold s1.
    rewrite u32_small by (unfold lb, log_block in *; lia). change (lg_start (k_log s) + i + 1) with lb.
    step E1. step (get_held t1 b sec x Hh1). step E2. step E3. step E4.
    rewrite <-E5. unfold set_lh_n, upd_log. destruct (Z.of_nat i =? lh_n (lg_lh (k_log s))) eqn:Ei; mstep.
    - f_equal. unfold t5, lg', log_put. cbn. rewrite Ei, Hl4. done.
    - f_equal. unfold t5, lg', log_put. cbn. rewrite Ei.
      transitivity (t4 <| k_log := k_log t4 |>); [by destruct t4|]. rewrite Hl4. done. }
  split.
  { rewrite Hlt. etransitivity; [|exact F5]. apply (frame_set_log s1 t4 lg').
    by repeat (etransitivity; [eassumption|]). }
  split_and!; try done.
  - rewrite D5. change (k_disk t5) with (k_disk t4). by rewrite D4, D3, D2, D1.
  - intros sec' H0 Hne'. rewrite C5. change (content t5 sec') with (content t4 sec').
    rewrite C4, C3, decide_False, C2, decide_False, CC1 by done. done.
  - intros sec'. rewrite Bz5. change (busy_at t5 sec') with (busy_at t4 sec').
    rewrite Bz4, Bz3, Bz2, Bz1. change (busy_at s1 sec') with (busy_at s sec').
    split; [intuition congruence|]. intros Hbz'. split; [auto|]. by intros ->.
  - intros sec'. rewrite Dt5. change (dirty_at t5 sec') with (dirty_at t4 sec').
    rewrite Dt4, Dt3, Dt2, Dt1. change (dirty_at s1 sec') with (dirty_at s sec').
    split; [tauto|]. intros [Hdt'| ->]; [|by right]. left. split; [done|]. by intros ->.
  - rewrite Hcd in N4. change (nidle t5) with (nidle t4) in N5. change (nidle s1) with (nidle s) in N1. lia.
  - intros j y sec' Hs1 Hs2 Hj. apply O5; [done|]. change (held t4 j sec' y). by apply O4, O3, O2, O1.
Qed.

(** What [log_put] does to the list of logged sectors. *)
Lemma logged_put s t sec i :
  log_ok s → k_log t = log_put i sec (k_log s) →
  (logged s !! i = Some sec → logged t = logged s ∧ lh_n (lg_lh (k_log t)) = lh_n (lg_lh (k_log s))) ∧
  (i = Z.to_nat (lh_n (lg_lh (k_log s))) → lh_n (lg_lh (k_log s)) < LOGSIZE →
    logged t = logged s ++ [sec] ∧ lh_n (lg_lh (k_log t)) = lh_n (lg_lh (k_log s)) + 1).
Proof.
  intros Hlo El. destruct (lo_n _ Hlo) as [Hn0 Hn1]. assert (Hlen := lo_len _ Hlo). split.
  - intros Hi. assert (Hlt := lookup_lt_Some _ _ _ Hi). rewrite length_logged in Hlt by done.
    unfold logged in *. rewrite El. cbn. replace (Z.of_nat i =? _) with false by lia. split; [|done].
    rewrite take_insert_lt by done. by rewrite list_insert_id.
  - intros -> Hlt. unfold logged. rewrite El. cbn. rewrite Z2Nat.id, Z.eqb_refl by done. split; [|done].
    replace (Z.to_nat (lh_n (lg_lh (k_log s)) + 1)) with (S (Z.to_nat (lh_n (lg_lh (k_log s))))) by lia.
    erewrite take_S_r; [|apply list_lookup_insert_eq; unfold LOGSIZE in *; lia].
    by rewrite take_insert_ge.
Qed.

Definition add_logged (sec : Z) (l : list Z) : list Z := if decide (sec ∈ l) then l else l ++ [sec].

Lemma elem_of_add_logged v sec (l : list Z) : v ∈ add_logged sec l ↔ v = sec ∨ v ∈ l.
Proof. unfold add_logged. case_decide; [naive_solver|]. rewrite elem_of_app, list_elem_of_singleton. tauto. Qed.

Lemma NoDup_add_logged sec (l : list Z) : NoDup l → NoDup (add_logged sec l).
Proof.
  intros Hl. unfold add_logged. case_decide; [done|]. apply NoDup_app. split_and!; [done|set_solver|apply NoDup_singleton].
Qed.

Lemma tx_log_write s d0 H b sec x :
  tx s d0 H → sec ∈ H → held s b sec x → lh_n (lg_lh (k_log s)) < LOGSIZE →
  lh_n (lg_lh (k_log s)) < lg_size (k_log s) - 1 → lg_busy (k_log s) ≠ 0 →
  (size (H ∪ list_to_set (logged s)) < NBUF)%nat →
  ∃ t, log_write b s = Ret tt t ∧ frame (s <| k_log := k_log t |>) t ∧
    length (k_disk t) = length (k_disk s) ∧ tx t d0 H ∧ synced t sec ∧
    held t b sec (x <| b_flags ::= λ f, Z.lor f B_DIRTY |>) ∧
    logged t = add_logged sec (logged s) ∧
    (∃ i, k_log t = log_put i sec (k_log s)) ∧
    (∀ sec', home s sec' → content t sec' = content s sec') ∧
    (∀ j y sec', sec' ≠ sec → sec' ∈ H → held s j sec' y → held t j sec' y).
Proof.
  intros Ht Hin Hh Hn1 Hn2 Hbusy Hsz. assert (Hlo := t_log _ _ _ Ht).
  assert (Hhome := t_held _ _ _ Ht _ Hin). destruct (lo_n _ Hlo) as [Hn0 _].
  assert (H31 : ∀ v, home s v → 0 ≤ v < 2 ^ 31) by (intros v [? _]; destruct Hlo; lia).
  set (i := log_slot (k_log s) sec). set (lb := log_block (lg_start (k_log s)) i).
  assert (Hslot := log_slot_eq s sec Hlo (H31 _ Hhome) (λ v Hv, H31 v (t_home _ _ _ Ht v Hv))). fold i in Hslot.
  assert (Hi : (i ≤ Z.to_nat (lh_n (lg_lh (k_log s))))%nat).
  { destruct Hslot as [[Hl _]|[-> _]]; [|done]. apply lookup_lt_Some in Hl. rewrite length_logged in Hl by done. lia. }
  assert (Hlbn : ∀ v, home s v → v ≠ lb).
  { intros v [_ Hv] ->. apply Hv. unfold lb, log_block. lia. }
  destruct (log_write_view s b sec x) as (t & E & F & B & El & D & Hh' & C & Bz & Dt & N & O); try done;
    [apply Ht| | |by eapply tx_idle|].
  { rewrite (t_busy _ _ _ Ht). intros Hb. by destruct (Hlbn lb (t_held _ _ _ Ht _ Hb)). }
  { rewrite (t_dirty _ _ _ Ht). intros Hb. by destruct (Hlbn lb (t_home _ _ _ Ht _ Hb)). }
  fold i lb in El, D, C, O.
  assert (Hlen : length (k_disk t) = length (k_disk s)) by (by rewrite D, length_insert).
  assert (Hst : lg_start (k_log t) = lg_start (k_log s)) by (by rewrite El).
  assert (Hsz' : lg_size (k_log t) = lg_size (k_log s)) by (by rewrite El).
  assert (Hhf : ∀ v, home t v ↔ home s v) by (intros v; unfold home; by rewrite Hst, Hlen, Hsz').
  assert (Hcs : content s sec = Some (b_data x)).
  { destruct (t_blk _ _ _ Ht) as [_ [l Hok]]. destruct Hh as (Hc & _ & Hv). by eapply content_cached. }
  assert (Hct : ∀ v, home s v → content t v = content s v).
  { intros v Hv. apply C; [apply H31, Hv|by apply Hlbn]. }
  assert (Hlg : logged t = add_logged sec (logged s) ∧ logged t !! i = Some sec ∧
    (lh_n (lg_lh (k_log t)) ≤ LOGSIZE ∧ 0 ≤ lh_n (lg_lh (k_log t)) < lg_size (k_log s)) ∧
    ∀ j v, v ≠ sec → logged t !! j = Some v → logged s !! j = Some v ∧ j ≠ i).
  { destruct (logged_put s t sec i Hlo El) as [Ha Hb]. unfold add_logged.
    destruct Hslot as [[Hl Hsl]|[Ei Hsl]]; [rewrite decide_True by done|rewrite decide_False by done].
    - destruct (Ha Hl) as [-> ->]. split_and!; try done; [lia|lia|]. intros j v Hv Hj. split; [done|].
      intros ->. congruence.
    - destruct (Hb Ei Hn1) as [-> ->]. assert (Hll := length_logged s Hlo). split_and!; try lia; [done| |].
      + rewrite lookup_app_r, Hll, Ei, Nat.sub_diag by lia. done.
      + intros j v Hv Hj. apply lookup_app_Some in Hj as [Hj|[Hj1 Hj2]].
        * split; [done|]. apply lookup_lt_Some in Hj. lia.
        * by apply list_lookup_singleton_Some in Hj2 as [_ ->]. }
  destruct Hlg as (Hlg & Hlgi & Hnt & Hlgj).
  assert (Hel : ∀ v, v ∈ logged t ↔ v = sec ∨ v ∈ logged s) by (intros v; rewrite Hlg; apply elem_of_add_logged).
  assert (Hlbk : ∀ j v, logged t !! j = Some v → j ≠ i →
    k_disk t !! Z.to_nat (log_block (lg_start (k_log t)) j) = k_disk s !! Z.to_nat (log_block (lg_start (k_log s)) j)).
  { intros j v _ Hji. rewrite Hst, D, list_lookup_insert_ne; [done|]. unfold lb, log_block. destruct Hlo. lia. }
  assert (Hnd : NoDup (logged t)) by (rewrite Hlg; apply NoDup_add_logged, Ht).
  exists t. split_and!; try done; [| |by eexists|].
  - split; try done; try apply Ht.
    + destruct Hlo. split; rewrite ?Hst, ?Hlen, ?Hsz'; try done; try (by rewrite El); [|lia|lia].
      rewrite El. cbn. by rewrite length_insert.
    + rewrite Hst, D, list_lookup_insert_ne; [apply Ht|]. unfold lb, log_block. destruct Hlo. lia.
    + intros v [->|Hv]%Hel; apply Hhf; [done|by apply (t_home _ _ _ Ht)].
    + intros v. rewrite Bz. apply (t_busy _ _ _ Ht).
    + intros v Hv. apply Hhf. by apply (t_held _ _ _ Ht).
    + intros v. rewrite Dt, (t_dirty _ _ _ Ht), Hel. tauto.
    + intros v Hv Hvn. apply Hhf in Hv. destruct (t_sync _ _ _ Ht v Hv Hvn) as [S1 S2].
      assert (v ≠ sec) by (by intros ->). split.
      * intros j Hj. destruct (Hlgj j v) as [Hj' Hji]; [done|done|].
        rewrite (Hlbk j v), Hct by done. by apply S1.
      * intros Hni. rewrite Hel in Hni. rewrite Hct, S2 by tauto. rewrite D, list_lookup_insert_ne; [done|].
        assert (Hvl := Hlbn v Hv). specialize (H31 _ Hv). destruct Hlo. unfold lb, log_block in *. lia.
    + assert (Hroom := t_room _ _ _ Ht).
      assert (H ∪ list_to_set (logged t) = H ∪ list_to_set (logged s)) as ->; [|lia].
      apply set_eq. intros v. rewrite !elem_of_union, !elem_of_list_to_set, Hel. set_solver.
  - split.
    + intros j Hj. assert (j = i) as -> by (by eapply NoDup_lookup).
      rewrite Hct, Hcs, Hst, D by done. fold lb. rewrite list_lookup_insert_eq; [done|].
      destruct Hlo. unfold lb, log_block, LOGSIZE in *. lia.
    + intros Hni. exfalso. apply Hni, Hel. by left.
  - intros j y v Hv Hvin Hj. apply O; [done| |done]. by apply Hlbn, (t_held _ _ _ Ht).
Qed.
End tx.
