(* ===== verification/Crash.v ===== *)
(** Crash safety of the log: [commit_trans] and [recover_from_log] against
    the specification of LogSpec.v, with every prefix of their writes as a
    possible crash, and the transaction step the file system is built on. *)
From stdpp Require Import base numbers gmap strings option list.
From S2P Require Import Prelude State Spinlock Str Cprintf Kalloc Proc Mlf Sched Bio Blocks Log LogSpec Tx.

Section commit.
Context `{Hk : kenv} `{Hd : disk} `{Hdl : !disk_laws}.
Implicit Types (s t : kstate).

(** The committed header describes the transaction. *)
Lemma commit_head s d0 :
  tx_ok s d0 →
  let start := lg_start (k_log s) in
  let n := Z.to_nat (lh_n (lg_lh (k_log s))) in
  let secs := lh_sector (lg_lh (k_log s)) in
  let h := put_head n secs d0 in
  let dk := <[Z.to_nat start := h]> (k_disk s) in
  rec_ok start (lg_size (k_log s)) dk h ∧ head_writes start dk h = install_writes start n secs (k_disk s).
Proof.
  intros Htx start n secs h dk. assert (Hlo := tx_log _ _ Htx). assert (Hlen := lo_len _ Hlo).
  destruct (lo_n _ Hlo) as [Hn0 Hn1]. fold secs in Hlen.
  assert (Hn : (n ≤ Z.to_nat LOGSIZE)%nat) by (unfold n; lia).
  assert (Hroom : (4 + 4 * n ≤ length d0)%nat) by (rewrite (tx_size _ _ Htx); unfold BSIZE, LOGSIZE in *; lia).
  assert (Hhn : head_n h = n) by (apply head_n_put; [unfold LOGSIZE in *; lia|done]).
  assert (Hst : (Z.to_nat start < length (k_disk s))%nat) by (destruct Hlo; unfold start, LOGSIZE in *; lia).
  assert (Hsec : ∀ i, (i < n)%nat → ∃ sec, secs !! i = Some sec ∧ head_sector h i = sec ∧ home s sec).
  { intros i Hi. destruct (lookup_lt_is_Some_2 secs i) as [sec Hs]; [lia|]. exists sec.
    destruct (tx_home _ _ Htx i sec Hi Hs) as (Hh & _). split_and!; try done.
    apply (head_sector_put n secs d0 i sec); try done. destruct Hh, Hlo. lia. }
  split.
  - split; try done.
    + by apply list_lookup_insert_eq.
    + unfold h. rewrite length_put_head. apply Htx.
    + apply Hlo.
    + unfold dk. rewrite length_insert. destruct Hlo. unfold start, LOGSIZE in *. lia.
    + rewrite Hhn. unfold LOGSIZE in *. lia.
    + rewrite Hhn. assert (Hf := lo_fits _ Hlo). unfold n. lia.
    + rewrite Hhn, Nat2Z.id. intros i Hi. destruct (Hsec i Hi) as (sec & _ & -> & Hh).
      unfold home_sec, dk. rewrite length_insert. exact Hh.
  - unfold head_writes, install_writes. rewrite Hhn, Nat2Z.id. apply list_fmap_ext.
    intros _ i [_ Hi]%list_elem_of_lookup_2%elem_of_seq. cbn in Hi.
    destruct (Hsec i Hi) as (sec & Hs & Hhs & _). unfold head_secs.
    rewrite Hhn, Nat2Z.id, list_lookup_fmap, lookup_seq_lt, Hs by done. cbn. rewrite Hhs.
    unfold dk. rewrite list_lookup_insert_ne; [done|]. unfold log_block. destruct Hlo. unfold start. lia.
Qed.

(** The disk once all the writes of a commit are made. *)
Lemma commit_disk s d0 sec :
  tx_ok s d0 → home s sec →
  apply_writes (k_disk s) (commit_writes s d0) !! Z.to_nat sec = content s sec.
Proof.
  intros Htx Hh. assert (Hlo := tx_log _ _ Htx). assert (Hns : sec ≠ lg_start (k_log s)).
  { destruct Hh as [_ Hh]. destruct (lo_n _ Hlo). assert (Hf := lo_fits _ Hlo). lia. }
  rewrite lookup_apply_writes by (destruct Hh; lia). unfold commit_writes.
  rewrite last_write_cons, last_write_app, last_write_cons. cbn [last_write foldl fst snd].
  rewrite !decide_False by (destruct Hlo, Hh; lia). cbn.
  set (n := Z.to_nat (lh_n (lg_lh (k_log s)))). set (secs := lh_sector (lg_lh (k_log s))).
  set (start := lg_start (k_log s)).
  assert (Hsecs : (install_writes start n secs (k_disk s)).*1 = take n secs).
  { apply install_writes_sectors. unfold n, secs. rewrite (lo_len _ Hlo). destruct (lo_n _ Hlo). lia. }
  assert (H0 : ∀ p, p ∈ install_writes start n secs (k_disk s) → 0 ≤ p.1).
  { intros p Hp. assert (Hp1 : p.1 ∈ take n secs) by (rewrite <-Hsecs; by apply list_elem_of_fmap_2).
    apply list_elem_of_lookup in Hp1 as [i Hi]. apply lookup_take_Some in Hi as [Hi Hin'].
    destruct (tx_home _ _ Htx i p.1 Hin' Hi) as ([? ?] & _). lia. }
  destruct (decide (sec ∈ take n secs)) as [Hi|Hi].
  - apply list_elem_of_lookup in Hi as [i Hi]. apply lookup_take_Some in Hi as [Hi Hin'].
    destruct (tx_home _ _ Htx i sec Hin' Hi) as (_ & _ & _ & ->). fold start.
    destruct (lookup_lt_is_Some_2 (k_disk s) (Z.to_nat (log_block start i))) as [d Hdd].
    { destruct Hlo. unfold log_block, start, LOGSIZE in *. lia. }
    rewrite (last_write_in _ sec d), Hdd; [done| |done|].
    + rewrite Hsecs. exact (tx_nodup s d0 Htx).
    + apply list_elem_of_fmap. exists i. split; [by rewrite Hi, Hdd|]. apply elem_of_seq. lia.
  - rewrite (proj2 (last_write_None _ _)); [symmetry; by apply (tx_rest _ _ Htx)|].
    intros p Hp E. apply Hi. rewrite <-Hsecs. assert (sec = p.1) as ->; [|by apply list_elem_of_fmap_2].
    specialize (H0 p Hp). destruct Hh. lia.
Qed.

Lemma empty_rec_ok s d0 :
  log_ok s → k_disk s !! Z.to_nat (lg_start (k_log s)) = Some d0 → length d0 = Z.to_nat BSIZE →
  head_n d0 = 0 → rec_ok (lg_start (k_log s)) (lg_size (k_log s)) (k_disk s) d0.
Proof.
  intros [] Hd0 Hs Hn. split; rewrite ?Hn; try done; [lia|]. cbn. intros i Hi. lia.
Qed.

(** Wherever the writes of a commit stop, recovery finds the old contents
    of all sectors or the new contents of all sectors. *)
Lemma commit_prefix s d0 w1 w2 :
  tx_ok s d0 → commit_writes s d0 = w1 ++ w2 →
  (∀ sec, home s sec →
    recover (lg_start (k_log s)) (apply_writes (k_disk s) w1) !! Z.to_nat sec = k_disk s !! Z.to_nat sec) ∨
  (∀ sec, home s sec →
    recover (lg_start (k_log s)) (apply_writes (k_disk s) w1) !! Z.to_nat sec = content s sec).
Proof.
  intros Htx Hw. assert (Hlo := tx_log _ _ Htx). destruct (commit_head s d0 Htx) as [Hr Hhw].
  set (start := lg_start (k_log s)) in *. set (n := Z.to_nat (lh_n (lg_lh (k_log s)))) in *.
  set (secs := lh_sector (lg_lh (k_log s))) in *. set (h := put_head n secs d0) in *.
  set (dk := <[Z.to_nat start := h]> (k_disk s)) in *.
  assert (Hall : apply_writes (k_disk s) (commit_writes s d0) = recover start dk).
  { unfold recover. rewrite (recovery_writes_eq _ _ h (ro_head _ _ _ _ Hr)), Hhw. done. }
  assert (Hhome : ∀ sec, home s sec → home_sec start (lg_size (k_log s)) dk sec).
  { intros sec Hs. unfold home_sec, dk. by rewrite length_insert. }
  unfold commit_writes in Hw. fold start n secs h in Hw.
  destruct w1 as [|p w1]; [left|right]; intros sec Hs.
  - apply (recover_empty start (lg_size (k_log s)) (k_disk s) d0); [|apply Htx|exact Hs].
    by apply empty_rec_ok; [|apply Htx..].
  - injection Hw as <- Hw. rewrite <-(commit_disk s d0 sec), Hall by done.
    change (apply_writes (k_disk s) ((start, h) :: w1)) with (apply_writes dk w1).
    destruct (decide (w2 = [])) as [->|Hne].
    + rewrite app_nil_r in Hw. subst w1.
      change (apply_writes dk (install_writes start n secs (k_disk s) ++ [(start, put_head 0 secs h)]))
        with (apply_writes (k_disk s) (commit_writes s d0)).
      rewrite Hall. by apply (recover_twice start (lg_size (k_log s)) dk h), Hhome.
    + destruct (exists_last Hne) as (w2' & q & ->). rewrite app_assoc in Hw. apply app_inj_tail in Hw as [Hw _].
      by rewrite (recover_resume start (lg_size (k_log s)) dk h w1 w2') by (rewrite ?Hhw; done).
Qed.

(** The end of [commit_trans]: the log is free for the next transaction. *)
Lemma commit_end s :
  quiet s → lock_free LkLog s →
  ∃ pt', rtc pt_step (k_ptable s) pt' ∧ (∃ qs', mlf_rel pt' qs') ∧
    (do* acquire LkLog in do* upd_log (set lg_busy (λ _, 0)) in do* wakeup ChLog in release LkLog) s =
    Ret tt (s <| k_cpus := relcpus s |> <| k_ptable := pt' |> <| k_log ::= set lg_busy (λ _, 0) |>).
Proof.
  intros (Hc & _ & Hp & qs & Hrel) Hl.
  set (s1 := (acq LkLog s) <| k_log ::= set lg_busy (λ _, 0) |>).
  destruct (wakeup_release LkLog ChLog s s1 qs) as (pt' & Hst & Hq & Hw); try done.
  exists pt'. split; [done|]. split; [done|].
  rewrite (bind_ret _ _ _ _ _ (acquire_free _ _ Hc Hl)). unfold upd_log. mstep. fold s1. rewrite Hw.
  by destruct s.
Qed.

Lemma lock_free_frame l s t : frame s t → lock_free l s → lock_free l t.
Proof. unfold lock_free. intros E. by rewrite E. Qed.

(** The whole of [commit_trans], as a list of writes. *)
Lemma commit_trans_view s d0 :
  tx_ok s d0 →
  ∃ t w, commit_trans s = Ret tt t ∧ blk t ∧ lock_free LkLog t ∧
    k_disk t = apply_writes (k_disk s) w ∧ k_writes t = k_writes s ++ w ∧
    w = (if 0 <? lh_n (lg_lh (k_log s)) then commit_writes s d0 else []) ∧
    k_log t = (k_log s) <| lg_lh := mkLogheader 0 (lh_sector (lg_lh (k_log s))) |> <| lg_busy := 0 |> ∧
    (∀ sec, home s sec → content t sec = content s sec) ∧
    (∀ sec, busy_at t sec ↔ busy_at s sec) ∧
    (∀ sec, dirty_at t sec ↔ dirty_at s sec ∧ sec ∉ logged s).
Proof.
  intros Htx. assert (Hlo := tx_log _ _ Htx). destruct (lo_n _ Hlo) as [Hn0 _].
  unfold commit_trans. destruct (0 <? lh_n (lg_lh (k_log s))) eqn:En.
  - destruct (commit_view s d0 Htx) as (t1 & E1 & F1 & B1 & L1 & D1 & W1 & C1 & Bz1 & Dt1 & N1).
    assert (Hlk : lock_free LkLog t1) by (eapply lock_free_frame; [exact F1|apply Htx]).
    destruct (commit_end t1) as (pt' & Hst & Hq & E2); [apply B1|done|].
    set (t := t1 <| k_cpus := _ |> <| k_ptable := _ |> <| k_log ::= _ |>) in *.
    exists t, (commit_writes s d0). split.
    { mstep. cbn [id]. rewrite En. erewrite bind_ret by exact E1. exact E2. }
    assert (Hb : blk t).
    { destruct B1 as [Hqq [l Hok]]. split; [by eapply (quiet_ext t1)|]. exists l.
      eapply bio_ok_links; [exact Hok|done|done|apply Hok]. }
    split_and!; try done. cbn. by rewrite L1.
  - assert (Hn : lh_n (lg_lh (k_log s)) = 0) by lia.
    destruct (commit_end s) as (pt' & Hst & Hq & E2); [apply (tx_blk _ _ Htx)|apply Htx|].
    set (t := s <| k_cpus := _ |> <| k_ptable := _ |> <| k_log ::= _ |>) in *.
    exists t, []. split. { mstep. cbn [id]. rewrite En. mstep. exact E2. }
    assert (Hb : blk t).
    { destruct (tx_blk _ _ Htx) as [Hqq [l Hok]]. split; [by eapply (quiet_ext s)|]. exists l.
      eapply bio_ok_links; [exact Hok|done|done|apply Hok]. }
    split_and!; try done; [apply Htx|by rewrite app_nil_r| |].
    { cbn. destruct (k_log s) as [???? [n secs]]. cbn in *. by subst. }
    intros sec. change (dirty_at t sec) with (dirty_at s sec). split; [|tauto]. intros Hds.
    split; [done|]. unfold logged. rewrite Hn. set_solver.
Qed.
End commit.

(** ** Recovery *)

Section recovery.
Context `{Hk : kenv} `{Hd : disk} `{Hdl : !disk_laws}.
Implicit Types (s t : kstate) (h : list Z).

(** The loop of [read_head] fills in the in-memory header. *)
Lemma read_head_loop m j s h :
  (j + m ≤ length (lh_sector (lg_lh (k_log s))))%nat →
  ∃ secs, for_each (seq j m) (λ i, set_lh_sector i (head_sector h i)) s =
      Ret tt (s <| k_log ::= set lg_lh (set lh_sector (λ _, secs)) |>) ∧
    length secs = length (lh_sector (lg_lh (k_log s))) ∧
    (∀ i, (j ≤ i < j + m)%nat → secs !! i = Some (head_sector h i)) ∧
    (∀ i, (i < j)%nat → secs !! i = lh_sector (lg_lh (k_log s)) !! i).
Proof.
  revert j s. induction m as [|m IH]; intros j s Hj.
  { exists (lh_sector (lg_lh (k_log s))). split_and!; try done; [|intros; lia].
    unfold for_each, ret. cbn. f_equal. destruct s as [???????????[???? []]]. done. }
  cbn [seq for_each]. rewrite (bind_ret _ _ _ _ _ (set_lh_sector_eq s j (head_sector h j) ltac:(lia))).
  destruct (IH (S j) (s <| k_log ::= set lg_lh (set lh_sector (<[j := head_sector h j]>)) |>))
    as (secs & E & Hl & Hin & Hout); [cbn; rewrite length_insert; lia|].
  exists secs. split_and!.
  - rewrite E. done.
  - rewrite Hl. cbn. by rewrite length_insert.
  - intros i Hi. destruct (decide (i = j)) as [->|]; [|apply Hin; lia].
    rewrite Hout by lia. cbn. apply list_lookup_insert_eq. lia.
  - intros i Hi. rewrite Hout by lia. cbn. rewrite list_lookup_insert_ne by lia. done.
Qed.

Lemma read_head_view s h :
  blk s → log_ok s → let start := lg_start (k_log s) in
  k_disk s !! Z.to_nat start = Some h → 0 ≤ head_n h ≤ LOGSIZE →
  ¬ busy_at s start → ¬ dirty_at s start → (1 ≤ nidle s)%nat →
  ∃ t secs, read_head s = Ret tt t ∧ frame (s <| k_log := k_log t |>) t ∧ blk t ∧
    k_log t = (k_log s) <| lg_lh := mkLogheader (head_n h) secs |> ∧
    length secs = Z.to_nat LOGSIZE ∧
    (∀ i, (i < Z.to_nat (head_n h))%nat → secs !! i = Some (head_sector h i)) ∧
    k_disk t = k_disk s ∧ k_writes t = k_writes s ∧
    (∀ sec', content t sec' = content s sec') ∧
    (∀ sec', busy_at t sec' ↔ busy_at s sec') ∧ (∀ sec', dirty_at t sec' ↔ dirty_at s sec') ∧
    (nidle s ≤ nidle t)%nat.
Proof.
  intros Hb Hlo start Hh Hn Hbz Hdt Hid.
  assert (Hr : 0 ≤ start < length (k_disk s) ∧ start < 2 ^ 31)
    by (destruct Hlo; unfold start, LOGSIZE in *; lia). destruct Hr as [Hr H31].
  destruct (bread_view s start Hb Hr Hbz) as (b & x1 & t1 & E1 & F1 & B1 & H1 & C1 & CC1 & D1 & W1 & Cl1 & Dr1 & Bz1 & Dt1 & N1 & O1);
    [by right|].
  assert (Hd1 : has (b_flags x1) B_DIRTY = false) by (apply not_true_is_false; rewrite Dr1; done).
  assert (Hx1 : b_data x1 = h) by (specialize (Cl1 Hd1); congruence). rewrite Hd1 in N1.
  assert (Hl1 := frame_log _ _ F1).
  set (t2 := t1 <| k_log ::= set lg_lh (set lh_n (λ _, head_n h)) |>).
  destruct (read_head_loop (Z.to_nat (head_n h)) 0 t2 h) as (secs & E2 & Hl & Hin & _).
  { cbn. rewrite Hl1, (lo_len _ Hlo). lia. }
  set (t3 := t2 <| k_log ::= set lg_lh (set lh_sector (λ _, secs)) |>) in *.
  assert (B3 : blk t3) by (by eapply (blk_ext t1)).
  destruct (brelse_view t3 b start x1 B3 H1) as (t & E4 & F4 & B4 & D4 & W4 & _ & C4 & Bz4 & Dt4 & N4 & O4).
  { intros _. change (k_disk t3) with (k_disk t1). by rewrite D1, Hx1. }
  assert (Hl3 : k_log t3 = (k_log s) <| lg_lh := mkLogheader (head_n h) secs |>) by (cbn; by rewrite Hl1).
  assert (Hlt : k_log t = k_log t3) by (by rewrite (frame_log _ _ F4)).
  exists t, secs. split.
  { unfold read_head. mstep. cbn [id]. rewrite (lo_dev _ Hlo), u32_small by lia. fold start. step E1.
    step (get_held t1 b start x1 H1). rewrite Hx1. fold (head_n h). unfold set_lh_n, upd_log. mstep.
    fold t2. erewrite bind_ret by exact E2. exact E4. }
  split. { rewrite Hlt. etransitivity; [|exact F4]. by apply (frame_set_log s t1 (k_log t3)). }
  split_and!; try done.
  - congruence.
  - rewrite Hl. cbn. by rewrite Hl1, (lo_len _ Hlo).
  - intros i Hi. apply Hin. lia.
  - rewrite D4. exact D1.
  - rewrite W4. exact W1.
  - intros sec'. rewrite C4. apply CC1.
  - intros sec'. rewrite Bz4. change (busy_at t3 sec') with (busy_at t1 sec'). rewrite Bz1.
    split; [intuition congruence|]. intros Hbz'. split; [auto|]. by intros ->.
  - intros sec'. rewrite Dt4. apply Dt1.
  - rewrite Hd1 in N4. change (nidle t3) with (nidle t1) in N4. lia.
Qed.

(** [recover_from_log] with nothing held and nothing pinned. *)
Lemma recover_view s h :
  blk s → log_ok s → let start := lg_start (k_log s) in
  rec_ok start (lg_size (k_log s)) (k_disk s) h → (∀ sec, ¬ busy_at s sec) → (∀ sec, ¬ dirty_at s sec) → (2 ≤ nidle s)%nat →
  (∀ i i', (i < i' < Z.to_nat (head_n h))%nat → head_sector h i ≠ head_sector h i') →
  ∃ t, recover_from_log s = Ret tt t ∧ blk t ∧ lh_n (lg_lh (k_log t)) = 0 ∧
    k_disk t = recover start (k_disk s) ∧ k_writes t = k_writes s ++ recovery_writes start (k_disk s) ∧
    (∀ sec, ¬ busy_at t sec) ∧ (∀ sec, ¬ dirty_at t sec).
Proof.
  intros Hb Hlo start Hr Hbz Hdt Hid Hdis. assert (Hh := ro_head _ _ _ _ Hr). assert (Hn := ro_n _ _ _ _ Hr).
  destruct (read_head_view s h Hb Hlo Hh Hn) as (t1 & secs & E1 & F1 & B1 & L1 & Hl & Hin & D1 & W1 & C1 & Bz1 & Dt1 & N1);
    [done|done|lia|].
  set (n := Z.to_nat (head_n h)) in *.
  assert (Hhome : ∀ i sec, (i < n)%nat → secs !! i = Some sec → home t1 sec ∧ sec = head_sector h i).
  { intros i sec Hi Hs. rewrite (Hin i Hi) in Hs. injection Hs as <-. split; [|done].
    unfold home. rewrite L1, D1. by apply (ro_home _ _ _ _ Hr). }
  assert (Hlo1 : log_ok t1).
  { destruct Hlo. split; rewrite ?L1, ?D1; try done; apply Hr. }
  assert (Hins : installable t1 0 n).
  { split; try done; rewrite ?L1; cbn.
    - unfold n. lia.
    - assert (Hf := ro_fits _ _ _ _ Hr). unfold n. lia.
    - intros i sec Hi Hs. split; [apply (Hhome i sec); [lia|done]|]. by rewrite Bz1.
    - intros i Hi. by rewrite Bz1, Dt1.
    - lia.
    - left. lia.
    - intros i i' sec Hi Hi' Hs Hs'. destruct (Hhome i sec) as [_ E]; [lia|done|].
      destruct (Hhome i' sec) as [_ E']; [lia|done|]. apply (Hdis i i'); [lia|congruence]. }
  destruct (install_loop n 0 t1 Hins) as (t2 & E2 & F2 & B2 & D2 & W2 & Bz2 & Dt2 & N2 & _).
  rewrite L1 in D2, W2. cbn in D2, W2. fold start in D2, W2. rewrite D1 in D2, W2.
  assert (Hw : install_write start secs (k_disk s) <$> seq 0 n = head_writes start (k_disk s) h).
  { apply list_fmap_ext. intros _ i [_ Hi]%list_elem_of_lookup_2%elem_of_seq. cbn in Hi.
    unfold install_write, head_secs. rewrite (Hin i Hi), list_lookup_fmap, lookup_seq_lt by done. done. }
  rewrite Hw in D2, W2.
  set (t3 := t2 <| k_log ::= set lg_lh (set lh_n (λ _, 0)) |>). assert (Hl2 := frame_log _ _ F2).
  assert (Hlen2 : length (k_disk t2) = length (k_disk s)) by (by rewrite D2, length_apply_writes).
  assert (Hs3 : lg_start (k_log t3) = start) by (cbn; by rewrite Hl2, L1).
  assert (Hlo3 : log_ok t3).
  { destruct Hlo1. split; cbn; rewrite ?Hl2, ?Hlen2, <-?D1; try done. lia. }
  destruct (write_head_view t3) as (t & d2 & E4 & Hd2 & F4 & B4 & D4 & W4 & C4 & Bz4 & Dt4 & N4).
  { by eapply (blk_ext t2). }
  { done. }
  { rewrite Hs3. change (¬ busy_at t2 start). by rewrite Bz2, Bz1. }
  { rewrite Hs3. change (¬ dirty_at t2 start). rewrite Dt2, Dt1. specialize (Hdt start). tauto. }
  { change (1 ≤ nidle t2)%nat. lia. }
  rewrite Hs3 in Hd2, D4, W4. change (k_disk t3) with (k_disk t2) in Hd2, D4. change (k_writes t3) with (k_writes t2) in W4.
  assert (d2 = h) as ->.
  { rewrite D2, (apply_home_log start (lg_size (k_log s))) in Hd2; [congruence|..]; try (destruct Hr; unfold LOGSIZE in *; lia).
    intros p Hp. by apply (head_writes_home start (lg_size (k_log s)) (k_disk s) h). }
  exists t. split_and!; try done.
  - unfold recover_from_log. step E1. erewrite bind_ret; [|unfold install_trans; mstep; cbn [id]; rewrite L1; exact E2].
    unfold set_lh_n, upd_log. mstep. exact E4.
  - by rewrite (frame_log _ _ F4).
  - unfold recover. rewrite (recovery_writes_eq _ _ h Hh), apply_writes_app, <-D2, D4. done.
  - rewrite (recovery_writes_eq _ _ h Hh), W4, W2, W1, <-app_assoc. done.
  - intros sec. rewrite Bz4. change (¬ busy_at t2 sec). by rewrite Bz2, Bz1.
  - intros sec. rewrite Dt4. change (¬ dirty_at t2 sec). rewrite Dt2, Dt1. specialize (Hdt sec). tauto.
Qed.
End recovery.

(** ** The file system's way of changing a sector *)

Section update.
Context `{Hk : kenv} `{Hd : disk} `{Hdl : !disk_laws}.
Implicit Types (s t : kstate) (H : gset Z).

(** [bread], change the data, [log_write], [brelse]: the pattern of bzero,
    iupdate and the like. *)
Definition tx_update (dev sec : Z) (f : list Z → list Z) : KM unit :=
  let* b := bread dev sec in
  do* upd_buf b (set b_data f) in
  do* log_write b in
  brelse b.

(** A transaction is open and has room for another block. *)
Definition tx_open (s : kstate) : Prop :=
  lh_n (lg_lh (k_log s)) < LOGSIZE ∧ lh_n (lg_lh (k_log s)) < lg_size (k_log s) - 1 ∧ lg_busy (k_log s) ≠ 0.

(** Which parts of the log a [log_write] changes. *)
Definition same_log (s t : kstate) : Prop :=
  lg_start (k_log t) = lg_start (k_log s) ∧ lg_size (k_log t) = lg_size (k_log s) ∧
  lg_busy (k_log t) = lg_busy (k_log s) ∧ lg_dev (k_log t) = lg_dev (k_log s).

Lemma tx_update_view s d0 H sec f :
  tx s d0 H → tx_open s → home s sec → sec ∉ H →
  (size (({[sec]} ∪ H) ∪ list_to_set (logged s)) < NBUF)%nat →
  ∃ t d, tx_update 1 sec f s = Ret tt t ∧ frame (s <| k_log := k_log t |>) t ∧ tx t d0 H ∧ same_log s t ∧
    content s sec = Some d ∧ logged t = add_logged sec (logged s) ∧ length (k_disk t) = length (k_disk s) ∧
    (∀ sec', home s sec' → content t sec' = if decide (sec' = sec) then Some (f d) else content s sec') ∧
    (∀ j y sec', sec' ∈ H → held s j sec' y → held t j sec' y).
Proof.
  intros Ht (Hn1 & Hn2 & Hbz) Hh Hni Hsz.
  destruct (tx_bread s d0 H sec Ht Hh Hni) as (b & x & t1 & E1 & F1 & D1 & T1 & H1 & S1 & C1 & CC1 & O1).
  { destruct (decide (sec ∈ logged s)); [by left|right]. eapply Nat.le_lt_trans; [|exact Hsz].
    apply subseteq_size. set_solver. }
  assert (Hl1 := frame_log _ _ F1). assert (Hlg1 := logged_frame _ _ Hl1).
  destruct (tx_modify t1 d0 _ b sec x f T1) as (t2 & E2 & F2 & D2 & T2 & H2 & C2 & O2); [set_solver|done|].
  assert (Hl2 := frame_log _ _ F2). assert (Hlg2 := logged_frame _ _ Hl2).
  assert (Hhome2 : home t2 sec) by (apply (t_held _ _ _ T2); set_solver).
  destruct (tx_log_write t2 d0 ({[sec]} ∪ H) b sec (x <| b_data ::= f |>) T2) as (t3 & E3 & F3 & D3 & T3 & S3 & H3 & L3 & (i & P3) & C3 & O3);
    [set_solver|done|by rewrite Hl2, Hl1..|by rewrite Hlg2, Hlg1|].
  destruct (tx_brelse t3 d0 ({[sec]} ∪ H) b sec _ T3 ltac:(set_solver) H3 S3) as (t & E4 & F4 & D4 & T4 & C4 & O4).
  assert (Hl4 := frame_log _ _ F4).
  assert (Hd2 : length (k_disk t2) = length (k_disk s)) by (by rewrite D2, D1).
  assert (Hhf : ∀ v, home s v → home t2 v) by (intros v Hv; apply (home_frame s t2); congruence).
  exists t, (b_data x). split_and!; try done.
  - unfold tx_update. step E1. step E2. by step E3.
  - rewrite Hl4. etransitivity; [|exact F4]. etransitivity; [|exact F3].
    apply frame_set_log. by etransitivity.
  - by replace (({[sec]} ∪ H) ∖ {[sec]}) with H in T4 by set_solver.
  - unfold same_log. rewrite Hl4, P3. cbn. by rewrite Hl2, Hl1.
  - rewrite (logged_frame _ _ Hl4), L3, Hlg2, Hlg1. done.
  - by rewrite D4, D3.
  - intros v Hv. rewrite C4, C3, C2 by auto. case_decide; [done|]. apply CC1.
  - intros j y sec' Hin Hj. apply O4; [by intros ->|]. apply O3; [by intros ->|set_solver|].
    apply O2; [by intros ->|]. by apply O1.
Qed.
End update.

(** ** Properties *)

Section props.
Context `{Hk : kenv} `{Hd : disk} `{Hdl : !disk_laws}.
Implicit Types (s t : kstate).

(** After a commit the next transaction starts from an empty log. *)
Lemma commit_next s d0 t w :
  tx_ok s d0 → log_ok s → (∀ sec, ¬ busy_at s sec) → (∀ sec, dirty_at s sec → sec ∈ logged s) →
  blk t → k_log t = (k_log s) <| lg_lh := mkLogheader 0 (lh_sector (lg_lh (k_log s))) |> <| lg_busy := 0 |> →
  w = (if 0 <? lh_n (lg_lh (k_log s)) then commit_writes s d0 else []) →
  k_disk t = apply_writes (k_disk s) w →
  (∀ sec, home s sec → content t sec = content s sec) →
  (∀ sec, busy_at t sec ↔ busy_at s sec) → (∀ sec, dirty_at t sec ↔ dirty_at s sec ∧ sec ∉ logged s) →
  ∃ d1, tx t d1 ∅ ∧ logged t = [].
Proof.
  intros Htx Hlo Hnb Hnd Hb Hlg Hw Hdk Hco Hbz Hdt.
  assert (Hlen : length (k_disk t) = length (k_disk s)) by (by rewrite Hdk, length_apply_writes).
  assert (Hl0 : logged t = []) by (unfold logged; by rewrite Hlg).
  assert (Hst : lg_start (k_log t) = lg_start (k_log s)) by (by rewrite Hlg).
  assert (Hho : ∀ sec, home t sec ↔ home s sec) by (intros sec; unfold home; by rewrite Hst, Hlg, Hlen).
  assert (Hdisk : ∀ sec, home s sec → k_disk t !! Z.to_nat sec = content s sec).
  { intros sec Hs. rewrite Hdk, Hw. destruct (0 <? _) eqn:En; [by apply commit_disk|].
    symmetry. apply (tx_rest _ _ Htx); [done|]. destruct (lo_n _ Hlo).
    replace (lh_n (lg_lh (k_log s))) with 0 by lia. set_solver. }
  assert (Hnbt : ∀ sec, ¬ busy_at t sec) by (intros sec; by rewrite Hbz).
  assert (Hndt : ∀ sec, ¬ dirty_at t sec) by (intros sec; rewrite Hdt; intros [? ?]; auto).
  assert (Hhd : ∃ d1, k_disk t !! Z.to_nat (lg_start (k_log s)) = Some d1 ∧ length d1 = Z.to_nat BSIZE ∧ head_n d1 = 0).
  { rewrite Hdk, Hw. destruct (0 <? _) eqn:En; [|exists d0; split_and!; apply Htx].
    set (h := put_head (Z.to_nat (lh_n (lg_lh (k_log s)))) (lh_sector (lg_lh (k_log s))) d0).
    assert (Hh : length h = Z.to_nat BSIZE) by (unfold h; rewrite length_put_head; apply Htx).
    exists (put_head 0 (lh_sector (lg_lh (k_log s))) h). split_and!.
    - unfold commit_writes. fold h.
      change ((lg_start (k_log s), h) :: ?l ++ ?x) with (((lg_start (k_log s), h) :: l) ++ x).
      rewrite apply_writes_app. unfold apply_writes at 1. cbn [foldl fst snd]. apply list_lookup_insert_eq.
      rewrite length_apply_writes. destruct Hlo. unfold LOGSIZE in *. lia.
    - by rewrite length_put_head.
    - rewrite head_n_put; [done|lia|]. rewrite Hh. unfold BSIZE. lia. }
  destruct Hhd as (d1 & Hd1 & Hs1 & Hn1). exists d1. split; [|done].
  split; rewrite ?Hl0; try done.
  - destruct Hlo. split; rewrite ?Hlg, ?Hlen; try done. cbn. lia.
  - by rewrite Hst.
  - by intros sec ?%elem_of_nil.
  - constructor.
  - intros sec. rewrite Hbz. set_solver.
  - intros sec. set_solver.
  - intros sec Hs _. apply Hho in Hs. split; rewrite ?Hl0; [done|]. intros _. by rewrite Hco, Hdisk.
  - destruct Hb as [_ [l Hok]]. rewrite (nidle_all t l) by done. lia.
Qed.

(** C1: a commit is atomic with respect to crashes.  [commit_trans] returns;
    the writes it makes are such that after any prefix of them recovery
    brings every sector outside the log to its contents before the
    transaction, or every such sector to the transaction's contents.  All
    writes made, the disk holds the transaction's contents, and the log is
    empty and free. *)
Theorem commit_atomic s d0 :
  tx s d0 ∅ → lock_free LkLog s → (length (logged s) < NBUF)%nat →
  returns commit_trans s (λ _ t, ∃ w,
    k_writes t = k_writes s ++ w ∧ k_disk t = apply_writes (k_disk s) w ∧
    (∀ w1 w2, w = w1 ++ w2 →
      let crashed := recover (lg_start (k_log s)) (apply_writes (k_disk s) w1) in
      (∀ sec, home s sec → crashed !! Z.to_nat sec = k_disk s !! Z.to_nat sec) ∨
      (∀ sec, home s sec → crashed !! Z.to_nat sec = content s sec)) ∧
    (∀ sec, home s sec → content t sec = content s sec ∧ k_disk t !! Z.to_nat sec = content s sec) ∧
    lg_busy (k_log t) = 0 ∧ lock_free LkLog t ∧ ∃ d1, tx t d1 ∅ ∧ logged t = []).
Proof.
  intros Ht Hl Hn. assert (Htx := tx_ready s d0 Ht Hl Hn). assert (Hlo := t_log _ _ _ Ht).
  destruct (commit_trans_view s d0 Htx) as (t & w & E & Hb & Hl' & D & W & Hw & L & C & Bz & Dt).
  assert (Hnext : ∃ d1, tx t d1 ∅ ∧ logged t = []).
  { eapply (commit_next s d0 t w); try done.
    - intros sec. rewrite (t_busy _ _ _ Ht). set_solver.
    - intros sec. apply (t_dirty _ _ _ Ht). }
  eapply returns_eq; [exact E|]. exists w. split_and!; try done; [| |by rewrite L].
  - intros w1 w2 E12. cbv zeta. rewrite Hw in E12. destruct (0 <? _); [by eapply commit_prefix|].
    symmetry in E12. apply app_nil in E12 as [-> ->]. left. intros sec Hs.
    apply (recover_empty _ (lg_size (k_log s)) (k_disk s) d0); [|apply Ht|exact Hs].
    by apply empty_rec_ok; [|apply Ht..].
  - intros sec Hs. split; [by apply C|]. destruct Hnext as (d1 & Ht1 & Hl1).
    assert (Hho : home t sec). { unfold home. rewrite L, D, length_apply_writes. exact Hs. }
    destruct (t_sync _ _ _ Ht1 sec Hho) as [_ S2]; [set_solver|]. rewrite <-S2; [by apply C|].
    rewrite Hl1. set_solver.
Qed.

(** C2: recovery at boot runs to its end, installs exactly the committed
    transaction and empties the log; and a crash during recovery is
    harmless: recovering again after any prefix of its writes gives every
    sector outside the log the same contents. *)
Theorem recovery_restartable s h :
  blk s → log_ok s → rec_ok (lg_start (k_log s)) (lg_size (k_log s)) (k_disk s) h →
  (∀ sec, ¬ busy_at s sec) → (∀ sec, ¬ dirty_at s sec) →
  (∀ i i', (i < i' < Z.to_nat (head_n h))%nat → head_sector h i ≠ head_sector h i') →
  returns recover_from_log s (λ _ t,
    k_disk t = recover (lg_start (k_log s)) (k_disk s) ∧ lh_n (lg_lh (k_log t)) = 0 ∧ blk t ∧
    ∃ w, k_writes t = k_writes s ++ w ∧
      ∀ w1 w2 sec, w = w1 ++ w2 → home s sec →
        recover (lg_start (k_log s)) (apply_writes (k_disk s) w1) !! Z.to_nat sec = k_disk t !! Z.to_nat sec).
Proof.
  intros Hb Hlo Hr Hbz Hdt Hdis. destruct Hb as [Hq [l Hok]].
  destruct (recover_view s h) as (t & E & Bt & Hn & D & W & _); try done; [by split; [|exists l]| |].
  { rewrite (nidle_all s l) by done. unfold NBUF. lia. }
  eapply returns_eq; [exact E|]. split_and!; try done. eexists. split; [exact W|].
  intros w1 w2 sec Hw Hs. rewrite D. rewrite (recovery_writes_eq _ _ h (ro_head _ _ _ _ Hr)) in Hw.
  destruct (decide (w2 = [])) as [->|Hne].
  - rewrite app_nil_r in Hw. subst w1. rewrite <-(recovery_writes_eq _ _ h (ro_head _ _ _ _ Hr)).
    by apply (recover_twice _ (lg_size (k_log s)) _ h).
  - destruct (exists_last Hne) as (w2' & q & ->). rewrite app_assoc in Hw. apply app_inj_tail in Hw as [Hw _].
    by rewrite (recover_resume _ (lg_size (k_log s)) _ h w1 w2').
Qed.

(** inside a transaction the step bread / modify / log_write / brelse
    changes exactly the contents of its sector, adds the sector to the
    transaction once, and keeps the invariant of the log, so that the
    transaction can be committed. *)
Theorem transaction_step s d0 sec f :
  tx s d0 ∅ → tx_open s → home s sec → (length (logged s) + 1 < NBUF)%nat →
  returns (tx_update 1 sec f) s (λ _ t, tx t d0 ∅ ∧
    logged t = (if decide (sec ∈ logged s) then logged s else logged s ++ [sec]) ∧
    (∃ d, content s sec = Some d ∧ content t sec = Some (f d)) ∧
    (∀ sec', home s sec' → sec' ≠ sec → content t sec' = content s sec') ∧
    lg_busy (k_log t) = lg_busy (k_log s)).
Proof.
  intros Ht Ho Hs Hn. destruct (tx_update_view s d0 ∅ sec f) as (t & d & E & _ & T & (_ & _ & Hbz & _) & C0 & L & _ & C & _);
    try done.
  { rewrite union_empty_r_L. assert (Hsz : (size (list_to_set (logged s) : gset Z) ≤ length (logged s))%nat).
    { rewrite size_list_to_set; [done|apply Ht]. }
    rewrite size_union_alt, size_singleton.
    assert (size ((list_to_set (logged s) : gset Z) ∖ {[sec]}) ≤ size (list_to_set (logged s) : gset Z))%nat;
      [apply subseteq_size; set_solver|lia]. }
  eapply returns_eq; [exact E|]. split_and!; try done.
  - exists d. split; [done|]. rewrite C, decide_True; done.
  - intros sec' Hs' Hne. rewrite C, decide_False; done.
Qed.
End props.

(** ** Witnesses *)

Module log_demo.
Definition zero_sector : list Z := bio_demo.sector_of 0.
(** An open transaction on a disk of 40 sectors with its log in the last ten. *)
Definition start_on (dk : list (list Z)) : kstate :=
  boot_state <| k_bcache := bcache_start |> <| k_disk := dk |>
             <| k_log := mkLog 30 10 1 1 (mkLogheader 0 (replicate 10 0)) |>.
Definition start : kstate := start_on (replicate 40 zero_sector).

Lemma log_uncached dk sector j y : ¬ cached (start_on dk) sector j y.
Proof. intros ([-> _]%lookup_replicate & E & _). discriminate E. Qed.

Lemma start_blk dk : blk (start_on dk).
Proof.
  split.
  - split_and!; [apply boot_cpu_wf|done|done|]. exists zero_queues. apply zero_rel.
  - exists bio_demo.order. by apply bcache_start_ok.
Qed.

Lemma start_on_tx dk : length dk = 40%nat → dk !! 30%nat = Some zero_sector → tx (start_on dk) zero_sector ∅.
Proof.
  intros Hlen Hh. split; try done.
  - apply start_blk.
  - split; cbn; rewrite ?Hlen; done.
  - by intros sec ?%elem_of_nil.
  - constructor.
  - intros sec. split; [|set_solver]. intros (b & x & Hx & _). by destruct (log_uncached _ _ _ _ Hx).
  - intros sec. split; [|by intros ?%elem_of_nil]. intros (b & x & Hx & _). by destruct (log_uncached _ _ _ _ Hx).
Qed.

Lemma start_tx : tx start zero_sector ∅.
Proof. by apply start_on_tx. Qed.

Lemma start_open : tx_open start.
Proof. done. Qed.

Lemma start_home : home start 3.
Proof. unfold home. cbn. unfold LOGSIZE. lia. Qed.

(** The transaction with one sector rewritten. *)
Definition write3 : KM unit :=
  tx_update (Hk := kenv_example) (Hd := memide) 1 3 (λ _, bio_demo.sector_of 8).
Definition one : kstate := match write3 start with Ret _ t => t | _ => start end.

Lemma one_tx : tx one zero_sector ∅ ∧ logged one = [3] ∧ lock_free LkLog one.
Proof.
  destruct (tx_update_view (Hk := kenv_example) (Hd := memide) start zero_sector ∅ 3 (λ _, bio_demo.sector_of 8)
    start_tx start_open start_home) as (t & d & E & F & T & _ & _ & L & _); [set_solver|vm_compute; lia|].
  unfold one, write3. rewrite E. split_and!; [exact T|exact L|].
  unfold lock_free. rewrite F. done.
Qed.

(** A disk on which that transaction was committed but not installed. *)
Definition header : list Z := put_head 1 [3] zero_sector.
Definition crashed : kstate :=
  start <| k_disk ::= λ dk, <[31%nat := bio_demo.sector_of 8]> (<[30%nat := header]> dk) |>.
Lemma crashed_rec : rec_ok 30 10 (k_disk crashed) header.
Proof.
  assert (Hn : head_n header = 1) by (vm_compute; done).
  split; try done; rewrite ?Hn; try done. intros i Hi. replace i with 0%nat by lia.
  change (head_sector header 0) with 3. unfold home_sec. cbn. unfold LOGSIZE. lia.
Qed.
End log_demo.

Lemma transaction_step_witness :
  returns (tx_update (Hk := kenv_example) (Hd := memide) 1 3 (λ _, bio_demo.sector_of 8)) log_demo.start
    (λ _ t, tx t log_demo.zero_sector ∅ ∧ logged t = [3] ∧
      (∃ d, content log_demo.start 3 = Some d ∧ content t 3 = Some (bio_demo.sector_of 8)) ∧
      (∀ sec', home log_demo.start sec' → sec' ≠ 3 → content t sec' = content log_demo.start sec') ∧
      lg_busy (k_log t) = 1).
Proof.
  apply (transaction_step (Hk := kenv_example) (Hd := memide) log_demo.start log_demo.zero_sector 3
           (λ _, bio_demo.sector_of 8)).
  - apply log_demo.start_tx.
  - apply log_demo.start_open.
  - apply log_demo.start_home.
  - vm_compute. lia.
Defined.

Lemma commit_atomic_witness :
  returns (commit_trans (H := kenv_example) (H0 := memide)) log_demo.one (λ _ t, ∃ w,
    k_writes t = k_writes log_demo.one ++ w ∧ k_disk t = apply_writes (k_disk log_demo.one) w ∧
    (∀ w1 w2, w = w1 ++ w2 →
      let crashed := recover (lg_start (k_log log_demo.one)) (apply_writes (k_disk log_demo.one) w1) in
      (∀ sec, home log_demo.one sec → crashed !! Z.to_nat sec = k_disk log_demo.one !! Z.to_nat sec) ∨
      (∀ sec, home log_demo.one sec → crashed !! Z.to_nat sec = content log_demo.one sec)) ∧
    (∀ sec, home log_demo.one sec →
      content t sec = content log_demo.one sec ∧ k_disk t !! Z.to_nat sec = content log_demo.one sec) ∧
    lg_busy (k_log t) = 0 ∧ lock_free LkLog t ∧ ∃ d1, tx t d1 ∅ ∧ logged t = []).
Proof.
  destruct log_demo.one_tx as (Ht & Hl & Hf).
  apply (commit_atomic (Hk := kenv_example) (Hd := memide) log_demo.one log_demo.zero_sector); [exact Ht|exact Hf|].
  rewrite Hl. unfold NBUF. cbn. lia.
Defined.

Lemma recovery_restartable_witness :
  returns (recover_from_log (H := kenv_example) (H0 := memide)) log_demo.crashed (λ _ t,
    k_disk t = recover 30 (k_disk log_demo.crashed) ∧ lh_n (lg_lh (k_log t)) = 0 ∧ blk t ∧
    ∃ w, k_writes t = k_writes log_demo.crashed ++ w ∧
      ∀ w1 w2 sec, w = w1 ++ w2 → home log_demo.crashed sec →
        recover 30 (apply_writes (k_disk log_demo.crashed) w1) !! Z.to_nat sec = k_disk t !! Z.to_nat sec).
Proof.
  apply (recovery_restartable (Hk := kenv_example) (Hd := memide) log_demo.crashed log_demo.header).
  - exact (log_demo.start_blk (k_disk log_demo.crashed)).
  - done.
  - apply log_demo.crashed_rec.
  - intros sec (b & x & Hx & _). by destruct (log_demo.log_uncached _ _ _ _ Hx).
  - intros sec (b & x & Hx & _). by destruct (log_demo.log_uncached _ _ _ _ Hx).
  - assert (Hn : head_n log_demo.header = 1) by (vm_compute; done). rewrite Hn. intros i i' Hi. lia.
Defined.
