(* ===== verification/Fs.v ===== *)
(** The file system above the log (fs.c): the block allocator, inodes and
    their cache, file contents, directories and path names.

    An inode pointer is an index of [icache.inode]; a buffer that a caller
    passes to be filled is returned as the list of bytes stored through it; a
    path is the list of its bytes before the terminating NUL. *)
From stdpp Require Import base numbers gmap strings option list.
From S2P Require Import Prelude State Spinlock Str Cprintf Kalloc Proc Mlf Sched Bio Blocks Log LogSpec Tx Crash.

(** ** On-disk data *)

Definition get16 (d : list Z) (off : nat) : Z := getb d off + 2 ^ 8 * getb d (off + 1).
Definition put16 (off : nat) (v : Z) (d : list Z) : list Z :=
  <[(off + 1)%nat := u8 (Z.shiftr v 8)]> (<[off := u8 v]> d).

(** Storing the bytes [src] at offset [off] of an array. *)
Definition splice (off : nat) (src d : list Z) : list Z :=
  take off d ++ src ++ drop (off + length src) d.

(** [struct dinode] at its place in a block of inodes. *)
Definition dinode_size : nat := 64.
Definition dinode_off (inum : Z) : nat := (Z.to_nat (inum mod IPB) * dinode_size)%nat.
Definition dinode_type (d : list Z) (inum : Z) : Z := s16 (get16 d (dinode_off inum)).

(** The fields of an in-memory inode that are copied from and to disk. *)
Definition load_dinode (d : list Z) (ip : inode) : inode :=
  let o := dinode_off (i_inum ip) in
  ip <| i_type := s16 (get16 d o) |> <| i_major := s16 (get16 d (o + 2)) |>
     <| i_minor := s16 (get16 d (o + 4)) |> <| i_nlink := s16 (get16 d (o + 6)) |>
     <| i_size := get32 d (o + 8) |>
     <| i_addrs := (λ i, get32 d (o + 12 + 4 * i)) <$> seq 0 13 |>.
Definition put_words (off : nat) (l : list Z) (d : list Z) : list Z :=
  foldl (λ d i, put32 (off + 4 * i) (default 0 (l !! i)) d) d (seq 0 (length l)).
Definition store_dinode (ip : inode) (d : list Z) : list Z :=
  let o := dinode_off (i_inum ip) in
  put_words (o + 12) (i_addrs ip)
    (put32 (o + 8) (i_size ip) (put16 (o + 6) (i_nlink ip) (put16 (o + 4) (i_minor ip)
      (put16 (o + 2) (i_major ip) (put16 o (i_type ip) d))))).

(** [struct dirent]. *)
Definition dirent_size : Z := 16.
Definition de_inum (de : list Z) : Z := get16 de 0.
Definition de_name (de : list Z) : list Z := drop 2 de.

#[global] Arguments get16 _ _ : simpl never.
#[global] Arguments put16 _ _ _ : simpl never.
#[global] Arguments splice _ _ _ : simpl never.
#[global] Arguments load_dinode _ _ : simpl never.
#[global] Arguments store_dinode _ _ : simpl never.

(** ** Inodes in memory *)

Definition get_inode (i : nat) : KM inode :=
  let* k := gets id in deref "icache.inode" (k_icache k !! i).
Definition upd_inode (i : nat) (f : inode → inode) : KM unit :=
  let* _ := get_inode i in modify (λ k, k <| k_icache ::= alter f i |>).

(** [struct stat]. *)
Record stat := mkStat { st_type : Z; st_dev : Z; st_ino : Z; st_nlink : Z; st_size : Z }.

(** [devsw]: the read and write routines of the devices, by major number. *)
Class devsw := {
  dev_read : Z → option (nat → Z → KM (Z * list Z));
  dev_write : Z → option (nat → list Z → Z → KM Z);
}.

Section fs.
Context `{kenv} `{disk}.

(** ** Blocks *)

Definition bzero (dev bno : Z) : KM unit :=
  let* bp := bread dev bno in
  do* upd_buf bp (set b_data (λ _, replicate (Z.to_nat BSIZE) 0)) in
  do* log_write bp in
  brelse bp.

(** The bitmap of a block of it: [data[bi/8] & (1 << (bi%8))]. *)
Definition bit_mask (bi : nat) : Z := Z.shiftl 1 (bi mod 8)%nat.
Definition bit_clear (d : list Z) (bi : nat) : bool := Z.land (getb d (bi / 8)) (bit_mask bi) =? 0.
Definition set_bit (bi : nat) (d : list Z) : list Z :=
  <[(bi / 8)%nat := u8 (Z.lor (getb d (bi / 8)) (bit_mask bi))]> d.
Definition clear_bit (bi : nat) (d : list Z) : list Z :=
  <[(bi / 8)%nat := u8 (Z.ldiff (getb d (bi / 8)) (bit_mask bi))]> d.

(** The inner loop of [balloc]: the first clear bit. *)
Definition free_bit (d : list Z) (b size : Z) : option nat :=
  fst <$> list_find (λ bi : nat, bit_clear d bi = true) (seq 0 (Z.to_nat (Z.min BPB (size - b)))).

Fixpoint balloc_loop (n : nat) (dev : Z) (sb : superblock) (b : Z) : KM Z :=
  match n with
  | O => λ _, NoFuel
  | S n =>
      if b <? sb_size sb then
        let* bp := bread dev (BBLOCK b (sb_ninodes sb)) in
        let* x := get_buf bp in
        match free_bit (b_data x) b (sb_size sb) with
        | Some bi =>
            do* upd_buf bp (set b_data (set_bit bi)) in
            do* log_write bp in
            do* brelse bp in
            do* bzero dev (b + bi) in
            ret (b + bi)
        | None =>
            do* brelse bp in
            balloc_loop n dev sb (b + BPB)
        end
      else panic "balloc: out of blocks"
  end.

Definition balloc (dev : Z) : KM Z :=
  let* sb := readsb dev in
  balloc_loop (S (S (Z.to_nat (sb_size sb / BPB)))) dev sb 0.

Definition bfree (dev b : Z) : KM unit :=
  let* sb := readsb dev in
  let* bp := bread dev (BBLOCK b (sb_ninodes sb)) in
  let bi := Z.to_nat (b mod BPB) in
  let* x := get_buf bp in
  if bit_clear (b_data x) bi then panic "freeing free block" else
  do* upd_buf bp (set b_data (clear_bit bi)) in
  do* log_write bp in
  brelse bp.

(** ** Inodes *)

Definition iinit : KM unit := initlock LkIcache.

(** The cached entry of an inode, or else the first entry not in use. *)
Definition icache_hit (dev inum : Z) (l : list inode) : option nat :=
  fst <$> list_find (λ ip, (0 <? i_ref ip) && (i_dev ip =? dev) && (i_inum ip =? inum) = true) l.
Definition icache_empty (l : list inode) : option nat :=
  fst <$> list_find (λ ip, (i_ref ip =? 0) = true) l.

Definition iget (dev inum : Z) : KM nat :=
  do* acquire LkIcache in
  let* k := gets id in
  match icache_hit dev inum (k_icache k) with
  | Some ip =>
      do* upd_inode ip (set i_ref (λ r, s32 (r + 1))) in
      do* release LkIcache in
      ret ip
  | None =>
      match icache_empty (k_icache k) with
      | None => panic "iget: no inodes"
      | Some ip =>
          do* upd_inode ip (λ x, x <| i_dev := dev |> <| i_inum := inum |>
                                   <| i_ref := 1 |> <| i_flags := 0 |>) in
          do* release LkIcache in
          ret ip
      end
  end.

Fixpoint ialloc_loop (n : nat) (dev type : Z) (sb : superblock) (inum : Z) : KM nat :=
  match n with
  | O => λ _, NoFuel
  | S n =>
      if inum <? sb_ninodes sb then
        let* bp := bread dev (IBLOCK inum) in
        let* x := get_buf bp in
        if dinode_type (b_data x) inum =? 0 then
          do* upd_buf bp (set b_data (splice (dinode_off inum) (replicate dinode_size 0))) in
          do* upd_buf bp (set b_data (put16 (dinode_off inum) type)) in
          do* log_write bp in
          do* brelse bp in
          iget dev inum
        else
          do* brelse bp in
          ialloc_loop n dev type sb (inum + 1)
      else panic "ialloc: no inodes"
  end.

Definition ialloc (dev type : Z) : KM nat :=
  let* sb := readsb dev in
  ialloc_loop (S (Z.to_nat (sb_ninodes sb))) dev type sb 1.

Definition iupdate (ip : nat) : KM unit :=
  let* x := get_inode ip in
  let* bp := bread (i_dev x) (IBLOCK (i_inum x)) in
  let* x := get_inode ip in
  do* upd_buf bp (set b_data (store_dinode x)) in
  do* log_write bp in
  brelse bp.

Definition idup (ip : nat) : KM nat :=
  do* acquire LkIcache in
  do* upd_inode ip (set i_ref (λ r, s32 (r + 1))) in
  do* release LkIcache in
  ret ip.

Definition ilock (oip : option nat) : KM unit :=
  match oip with
  | None => panic "ilock"
  | Some ip =>
      let* x := get_inode ip in
      if i_ref x <? 1 then panic "ilock" else
      do* acquire LkIcache in
      do* while fuel (let* x := get_inode ip in ret (has (i_flags x) I_BUSY))
            (sleep (ChInode ip) (Some LkIcache)) in
      do* upd_inode ip (set i_flags (λ f, Z.lor f I_BUSY)) in
      do* release LkIcache in
      let* x := get_inode ip in
      if has (i_flags x) I_VALID then ret tt else
      let* bp := bread (i_dev x) (IBLOCK (i_inum x)) in
      let* b := get_buf bp in
      do* upd_inode ip (load_dinode (b_data b)) in
      do* brelse bp in
      do* upd_inode ip (set i_flags (λ f, Z.lor f I_VALID)) in
      let* x := get_inode ip in
      if i_type x =? 0 then panic "ilock: no type" else ret tt
  end.

Definition iunlock (oip : option nat) : KM unit :=
  match oip with
  | None => panic "iunlock"
  | Some ip =>
      let* x := get_inode ip in
      if negb (has (i_flags x) I_BUSY) || (i_ref x <? 1) then panic "iunlock" else
      do* acquire LkIcache in
      do* upd_inode ip (set i_flags (λ f, Z.ldiff f I_BUSY)) in
      do* wakeup (ChInode ip) in
      release LkIcache
  end.

(** ** Inode contents *)

(** [ip->addrs[i]]. *)
Definition get_addr (ip i : nat) : KM Z :=
  let* x := get_inode ip in deref "ip->addrs" (i_addrs x !! i).
Definition set_addr (ip i : nat) (v : Z) : KM unit :=
  upd_inode ip (set i_addrs (<[i := v]>)).

Definition bmap (ip : nat) (bn : Z) : KM Z :=
  if bn <? NDIRECT then
    let* addr := get_addr ip (Z.to_nat bn) in
    if addr =? 0 then
      let* x := get_inode ip in
      let* addr := balloc (i_dev x) in
      do* set_addr ip (Z.to_nat bn) addr in
      ret addr
    else ret addr
  else
  let bn := bn - NDIRECT in
  if bn <? NINDIRECT then
    let nd := Z.to_nat NDIRECT in
    let* addr := get_addr ip nd in
    let* x := get_inode ip in
    let* addr := (if addr =? 0 then
                    let* addr := balloc (i_dev x) in
                    do* set_addr ip nd addr in
                    ret addr
                  else ret addr) in
    let* bp := bread (i_dev x) addr in
    let* b := get_buf bp in
    let a := get32 (b_data b) (4 * Z.to_nat bn) in
    let* addr := (if a =? 0 then
                    let* addr := balloc (i_dev x) in
                    do* upd_buf bp (set b_data (put32 (4 * Z.to_nat bn) addr)) in
                    do* log_write bp in
                    ret addr
                  else ret a) in
    do* brelse bp in
    ret addr
  else panic "bmap: out of range".

Definition itrunc (ip : nat) : KM unit :=
  do* for_each (seq 0 (Z.to_nat NDIRECT)) (λ i,
        let* a := get_addr ip i in
        if a =? 0 then ret tt else
        let* x := get_inode ip in
        do* bfree (i_dev x) a in
        set_addr ip i 0) in
  let nd := Z.to_nat NDIRECT in
  let* a := get_addr ip nd in
  do* (if a =? 0 then ret tt else
       let* x := get_inode ip in
       let* bp := bread (i_dev x) a in
       do* for_each (seq 0 (Z.to_nat NINDIRECT)) (λ j,
             let* b := get_buf bp in
             let aj := get32 (b_data b) (4 * j) in
             if aj =? 0 then ret tt else bfree (i_dev x) aj) in
       do* brelse bp in
       do* bfree (i_dev x) a in
       set_addr ip nd 0) in
  do* upd_inode ip (set i_size (λ _, 0)) in
  iupdate ip.

Definition iput (ip : nat) : KM unit :=
  do* acquire LkIcache in
  let* x := get_inode ip in
  do* (if (i_ref x =? 1) && has (i_flags x) I_VALID && (i_nlink x =? 0) then
         if has (i_flags x) I_BUSY then panic "iput busy" else
         do* upd_inode ip (set i_flags (λ f, Z.lor f I_BUSY)) in
         do* release LkIcache in
         do* itrunc ip in
         do* upd_inode ip (set i_type (λ _, 0)) in
         do* iupdate ip in
         do* acquire LkIcache in
         do* upd_inode ip (set i_flags (λ _, 0)) in
         wakeup (ChInode ip)
       else ret tt) in
  do* upd_inode ip (set i_ref (λ r, s32 (r - 1))) in
  release LkIcache.

Definition iunlockput (ip : nat) : KM unit :=
  do* iunlock (Some ip) in
  iput ip.

Definition stati (ip : nat) : KM stat :=
  let* x := get_inode ip in
  ret (mkStat (i_type x) (s32 (i_dev x)) (i_inum x) (i_nlink x) (i_size x)).

Context `{devsw}.

(** One turn of the loops of [readi] and [writei] moves the bytes up to the
    end of the request or of the block, whichever comes first. *)
Definition chunk (off n tot : Z) : Z := Z.min (n - tot) (BSIZE - off mod BSIZE).

Fixpoint readi_loop (fu : nat) (ip : nat) (off n tot : Z) : KM (list Z) :=
  if tot <? n then
    match fu with
    | O => λ _, NoFuel
    | S fu =>
        let* x := get_inode ip in
        let* addr := bmap ip (off / BSIZE) in
        let* bp := bread (i_dev x) addr in
        let m := chunk off n tot in
        let* b := get_buf bp in
        let piece := take (Z.to_nat m) (drop (Z.to_nat (off mod BSIZE)) (b_data b)) in
        do* brelse bp in
        let* rest := readi_loop fu ip (off + m) n (tot + m) in
        ret (piece ++ rest)
    end
  else ret [].

(** The number of blocks a request of [n] bytes can touch. *)
Definition io_fuel (n : Z) : nat := (Z.to_nat (n / BSIZE) + 2)%nat.

(** The value returned and the bytes stored from [dst] on. *)
Definition readi (ip : nat) (off n : Z) : KM (Z * list Z) :=
  let* x := get_inode ip in
  if i_type x =? T_DEV then
    if (i_major x <? 0) || (NDEV <=? i_major x) then ret (-1, []) else
    match dev_read (i_major x) with
    | None => ret (-1, [])
    | Some rd => rd ip (s32 n)
    end
  else
  if (i_size x <? off) || (u32 (off + n) <? off) then ret (-1, []) else
  let n := if i_size x <? off + n then i_size x - off else n in
  let* bytes := readi_loop (io_fuel n) ip off n 0 in
  ret (s32 n, bytes).

Fixpoint writei_loop (fu : nat) (ip : nat) (src : list Z) (off n tot : Z) : KM Z :=
  if tot <? n then
    match fu with
    | O => λ _, NoFuel
    | S fu =>
        let* x := get_inode ip in
        let* addr := bmap ip (off / BSIZE) in
        let* bp := bread (i_dev x) addr in
        let m := chunk off n tot in
        let piece := take (Z.to_nat m) (drop (Z.to_nat tot) src) in
        do* upd_buf bp (set b_data (splice (Z.to_nat (off mod BSIZE)) piece)) in
        do* log_write bp in
        do* brelse bp in
        writei_loop fu ip src (off + m) n (tot + m)
    end
  else ret off.

(** [src] is the [n] bytes at the source address. *)
Definition writei (ip : nat) (src : list Z) (off n : Z) : KM Z :=
  let* x := get_inode ip in
  if i_type x =? T_DEV then
    if (i_major x <? 0) || (NDEV <=? i_major x) then ret (-1) else
    match dev_write (i_major x) with
    | None => ret (-1)
    | Some wr => wr ip src (s32 n)
    end
  else
  if (i_size x <? off) || (u32 (off + n) <? off) then ret (-1) else
  if MAXFILE * BSIZE <? off + n then ret (-1) else
  let* off := writei_loop (io_fuel n) ip src off n 0 in
  let* x := get_inode ip in
  do* (if (0 <? n) && (i_size x <? off)
       then do* upd_inode ip (set i_size (λ _, off)) in iupdate ip else ret tt) in
  ret (s32 n).

(** ** Directories *)

Definition namecmp (s t : list Z) : option Z := strncmp s t (Z.to_nat DIRSIZ).

(** The entry at byte offset [off]; [readi] must deliver all of it. *)
Definition read_dirent (dp : nat) (off : Z) : KM (list Z) :=
  let* r := readi dp off dirent_size in
  if negb (r.1 =? dirent_size) then panic "dirlink read" else ret r.2.

Fixpoint dirlookup_loop (fu : nat) (dp : nat) (name : list Z) (off : Z) : KM (option (nat * Z)) :=
  match fu with
  | O => λ _, NoFuel
  | S fu =>
      let* x := get_inode dp in
      if off <? i_size x then
        let* de := read_dirent dp off in
        if de_inum de =? 0 then dirlookup_loop fu dp name (off + dirent_size) else
        let* c := deref "namecmp" (namecmp name (de_name de)) in
        if c =? 0 then
          let* x := get_inode dp in
          let* ip := iget (i_dev x) (de_inum de) in
          ret (Some (ip, off))
        else dirlookup_loop fu dp name (off + dirent_size)
      else ret None
  end.

Definition dir_fuel (size : Z) : nat := S (S (Z.to_nat (size / dirent_size))).

(** The inode found and the value for [*poff]. *)
Definition dirlookup (dp : nat) (name : list Z) : KM (option (nat * Z)) :=
  let* x := get_inode dp in
  if negb (i_type x =? T_DIR) then panic "dirlookup not DIR" else
  dirlookup_loop (dir_fuel (i_size x)) dp name 0.

(** The offset of the first free entry, or the size of the directory. *)
Fixpoint dirlink_slot (fu : nat) (dp : nat) (off : Z) : KM Z :=
  match fu with
  | O => λ _, NoFuel
  | S fu =>
      let* x := get_inode dp in
      if off <? i_size x then
        let* de := read_dirent dp off in
        if de_inum de =? 0 then ret off else dirlink_slot fu dp (off + dirent_size)
      else ret off
  end.

Definition dirlink (dp : nat) (name : list Z) (inum : Z) : KM Z :=
  let* found := dirlookup dp name in
  match found with
  | Some (ip, _) => do* iput ip in ret (-1)
  | None =>
      let* x := get_inode dp in
      let* off := dirlink_slot (dir_fuel (i_size x)) dp 0 in
      let* nm := deref "strncpy" (strncpy (replicate (Z.to_nat DIRSIZ) 0) name (Z.to_nat DIRSIZ)) in
      let de := put16 0 (u16 inum) (0 :: 0 :: nm) in
      let* r := writei dp de off dirent_size in
      if negb (r =? dirent_size) then panic "dirlink" else ret 0
  end.

(** ** Paths *)

Definition slash : Z := 47.

Fixpoint skip_slashes (path : list Z) : list Z :=
  match path with
  | c :: p => if c =? slash then skip_slashes p else path
  | [] => []
  end.

(** The bytes before the next slash or the end, and the rest. *)
Fixpoint split_elem (path : list Z) : list Z * list Z :=
  match path with
  | c :: p => if c =? slash then ([], path) else let '(e, r) := split_elem p in (c :: e, r)
  | [] => ([], [])
  end.

Definition skipelem (path name : list Z) : option (list Z * list Z) :=
  match skip_slashes path with
  | [] => None
  | path =>
      let '(s, rest) := split_elem path in
      let len := length s in
      let name := if DIRSIZ <=? len then splice 0 (take (Z.to_nat DIRSIZ) s) name
                  else <[len := 0]> (splice 0 s name) in
      Some (skip_slashes rest, name)
  end.

Fixpoint namex_loop (fu : nat) (ip : nat) (path name : list Z) (parent : bool) : KM (option (nat * list Z)) :=
  match fu with
  | O => λ _, NoFuel
  | S fu =>
      match skipelem path name with
      | None => if parent then do* iput ip in ret None else ret (Some (ip, name))
      | Some (path, name) =>
          do* ilock (Some ip) in
          let* x := get_inode ip in
          if negb (i_type x =? T_DIR) then do* iunlockput ip in ret None else
          if parent && bool_decide (path = []) then
            do* iunlock (Some ip) in ret (Some (ip, name))
          else
          let* next := dirlookup ip name in
          match next with
          | None => do* iunlockput ip in ret None
          | Some (next, _) => do* iunlockput ip in namex_loop fu next path name parent
          end
      end
  end.

(** The inode, and the buffer [name] as it is left. *)
Definition namex (path : list Z) (parent : bool) (name : list Z) : KM (option (nat * list Z)) :=
  let* ip := (if bool_decide (head path = Some slash) then iget ROOTDEV ROOTINO
              else let* p := curproc in
                   let* pr := get_proc p in
                   let* cwd := deref "proc->cwd" (p_cwd pr) in
                   idup cwd) in
  namex_loop (S (length path)) ip path name parent.

Definition name_buf : list Z := replicate (Z.to_nat DIRSIZ) 0.

Definition namei (path : list Z) : KM (option nat) :=
  let* r := namex path false name_buf in ret (fst <$> r).

Definition nameiparent (path name : list Z) : KM (option (nat * list Z)) :=
  namex path true name.
End fs.
