(* ===== verification/FsTx.v ===== *)
(** The two ways the file system touches a sector inside a transaction,
    looking at it and changing it, as steps on the contents of the sectors. *)
From stdpp Require Import base numbers gmap strings option list.
From S2P Require Import Prelude State Spinlock Str Cprintf Kalloc Proc Mlf Sched Bio Blocks Log LogSpec Tx Crash Fs.

(** ** Transactions with room *)

(** The transaction is open and [k] more blocks fit in the log and the cache. *)
Definition tx_can (k : nat) (s : kstate) (H : gset Z) : Prop :=
  lg_busy (k_log s) ≠ 0 ∧ lh_n (lg_lh (k_log s)) + k ≤ LOGSIZE ∧
  lh_n (lg_lh (k_log s)) + k < lg_size (k_log s) ∧
  (size (H ∪ list_to_set (logged s)) + k < NBUF)%nat.
Definition tx_at (k : nat) (s : kstate) (d0 : list Z) (H : gset Z) : Prop := tx s d0 H ∧ tx_can k s H.

(** From [s] to [t] the sectors outside the log get the contents [c], the
    buffers held before are still held, and nothing above the block layer
    changes. *)
Record after (s t : kstate) (H : gset Z) (c : Z → option (list Z)) : Prop := {
  af_frame : frame (s <| k_log := k_log t |>) t;
  af_log : same_log s t;
  af_len : length (k_disk t) = length (k_disk s);
  af_content : ∀ sec, home s sec → content t sec = c sec;
  af_held : ∀ j y sec, sec ∈ H → held s j sec y → held t j sec y;
}.

(** The contents with one sector changed. *)
Definition put_c (sec : Z) (d : list Z) (c : Z → option (list Z)) : Z → option (list Z) :=
  λ sec', if decide (sec' = sec) then Some d else c sec'.

Section tx_steps.
Context `{Hk : kenv} `{Hd : disk} `{Hdl : !disk_laws}.
Implicit Types (s t : kstate) (H : gset Z).

Lemma after_home s t H c sec : after s t H c → home t sec ↔ home s sec.
Proof. intros [_ (E1 & E2 & _) E3 _ _]. unfold home. by rewrite E1, E2, E3. Qed.

Lemma after_trans s t u H c c' : after s t H c → after t u H c' → after s u H c'.
Proof.
  intros A1 A2. assert (Hh := λ sec, after_home s t H c sec A1).
  destruct A1 as [F1 (L1 & L2 & L3 & L4) N1 C1 O1], A2 as [F2 (M1 & M2 & M3 & M4) N2 C2 O2]. split.
  - etransitivity; [|exact F2]. by apply (frame_set_log _ _ (k_log u)) in F1.
  - split_and!; congruence.
  - congruence.
  - intros sec Hs. apply C2. by apply Hh.
  - intros j y sec Hin Hj. by apply O2, O1.
Qed.

Lemma after_ext s t H c c' :
  after s t H c → (∀ sec, home s sec → c sec = c' sec) → after s t H c'.
Proof. intros [F L N C O] E. split; try done. intros sec Hs. by rewrite C, E. Qed.

Lemma after_sub s t H H' c : after s t H c → H' ⊆ H → after s t H' c.
Proof. intros [F L N C O] Hs. split; try done. intros j y sec Hin. apply O. by apply Hs. Qed.

Lemma after_refl s H : after s s H (content s).
Proof. split; try done. by destruct s. Qed.

(** One more change, on top of contents already known. *)
Lemma after_put s t u H c sec d :
  after s t H c → after t u H (put_c sec d (content t)) → after s u H (put_c sec d c).
Proof.
  intros A1 A2. eapply after_ext; [by eapply after_trans|]. intros v Hv. unfold put_c.
  case_decide; [done|]. by apply (af_content _ _ _ _ A1).
Qed.

Lemma tx_can_weaken k k' s H : tx_can k s H → (k' ≤ k)%nat → tx_can k' s H.
Proof. intros (? & ? & ? & ?) ?. split_and!; try done; lia. Qed.

(** Reading a sector and letting it go. *)
Lemma tx_look k s d0 H sec :
  tx_at k s d0 H → home s sec → sec ∉ H →
  ∃ b x t1 t, bread 1 sec s = Ret b t1 ∧ get_buf b t1 = Ret x t1 ∧ content s sec = Some (b_data x) ∧
    brelse b t1 = Ret tt t ∧ tx_at k t d0 H ∧ after s t H (content s).
Proof.
  intros [Ht Hc] Hh Hni. destruct Hc as (Hc1 & Hc2 & Hc3 & Hc4).
  destruct (tx_bread s d0 H sec Ht Hh Hni) as (b & x & t1 & E1 & F1 & D1 & T1 & H1 & S1 & C1 & CC1 & O1);
    [right; lia|].
  destruct (tx_brelse t1 d0 _ b sec x T1 ltac:(set_solver) H1 S1) as (t & E2 & F2 & D2 & T2 & C2 & O2).
  assert (Hlg : k_log t = k_log s) by (by rewrite (frame_log _ _ F2), (frame_log _ _ F1)).
  replace (({[sec]} ∪ H) ∖ {[sec]}) with H in T2 by set_solver.
  exists b, x, t1, t. split_and!; try done.
  - by apply (get_held _ _ sec).
  - split; [done|]. unfold tx_can. by rewrite (logged_frame _ _ Hlg), Hlg.
  - split.
    + rewrite Hlg. etransitivity; [|exact F2]. unfold frame in *. by rewrite F1 at 1.
    + unfold same_log. by rewrite Hlg.
    + by rewrite D2, D1.
    + intros v _. by rewrite C2, CC1.
    + intros j y v Hv Hj. apply O2; [by intros ->|]. by apply O1.
Qed.

(** Changing a sector. *)
Lemma tx_change k s d0 H sec f :
  tx_at (S k) s d0 H → home s sec → sec ∉ H →
  ∃ t d, tx_update 1 sec f s = Ret tt t ∧ content s sec = Some d ∧ tx_at k t d0 H ∧
    after s t H (put_c sec (f d) (content s)).
Proof.
  intros [Ht (Hc1 & Hc2 & Hc3 & Hc4)] Hh Hni.
  assert (Hsz : ∀ X : gset Z, (size (({[sec]} ∪ H) ∪ X) ≤ size (H ∪ X) + 1)%nat).
  { intros X. rewrite <-union_assoc_L, size_union_alt, size_singleton.
    assert (size ((H ∪ X) ∖ {[sec]}) ≤ size (H ∪ X))%nat by (apply subseteq_size; set_solver). lia. }
  destruct (tx_update_view s d0 H sec f Ht) as (t & d & E & F & T & L & C0 & Lg & N & C & O);
    [by split_and!; [lia|lia|]|done|done|specialize (Hsz (list_to_set (logged s))); lia|].
  exists t, d. split_and!; try done.
  destruct L as (L1 & L2 & L3 & L4).
  assert (Hn := length_logged _ (t_log _ _ _ T)). rewrite Lg in Hn.
  assert (Hn0 := length_logged _ (t_log _ _ _ Ht)).
  assert (Ha : (length (add_logged sec (logged s)) ≤ length (logged s) + 1)%nat).
  { unfold add_logged. case_decide; [lia|]. rewrite length_app. cbn. lia. }
  destruct (lo_n _ (t_log _ _ _ T)), (lo_n _ (t_log _ _ _ Ht)).
  split; [done|]. split_and!; [congruence|lia|lia|].
  rewrite Lg. assert (Hsub : H ∪ list_to_set (add_logged sec (logged s)) ⊆ ({[sec]} ∪ H) ∪ list_to_set (logged s)).
  { intros v. rewrite !elem_of_union, !elem_of_list_to_set, elem_of_add_logged, elem_of_singleton. tauto. }
  apply subseteq_size in Hsub. specialize (Hsz (list_to_set (logged s))). lia.
Qed.
End tx_steps.
