(* ===== verification/Balloc.v ===== *)
(** The block allocator (bzero, balloc, bfree of fs.c) against the free
    bitmap on disk. *)
From stdpp Require Import base numbers gmap strings option list.
From S2P Require Import Prelude State Spinlock Str Cprintf Kalloc Proc Mlf Sched Bio Blocks Log LogSpec Tx Crash Fs FsTx.

(** ** The bitmap *)

Definition sb_of (d : list Z) : superblock := mkSuperblock (get32 d 0) (get32 d 4) (get32 d 8) (get32 d 12).
Definition zero_block : list Z := replicate (Z.to_nat BSIZE) 0.
Definition bit_of (b : Z) : nat := Z.to_nat (b mod BPB).

(** A file system on the disk: its super block, and bitmap blocks that lie
    outside the log, one bit for each of its blocks. *)
Record fs_disk (s : kstate) (H : gset Z) (sb : superblock) : Prop := {
  fd_home : home s 1;
  fd_free : 1 ∉ H;
  fd_sb : ∃ d, content s 1 = Some d ∧ sb_of d = sb;
  fd_bitmap : ∀ b, 0 ≤ b < sb_size sb →
    home s (BBLOCK b (sb_ninodes sb)) ∧ (BBLOCK b (sb_ninodes sb) ∉ H) ∧ BBLOCK b (sb_ninodes sb) ≠ 1;
  fd_len : ∀ sec d, home s sec → content s sec = Some d → length d = Z.to_nat BSIZE;
}.

(** Block [b] is free according to the contents [c] of the sectors. *)
Definition block_free (c : Z → option (list Z)) (sb : superblock) (b : Z) : Prop :=
  ∃ d, c (BBLOCK b (sb_ninodes sb)) = Some d ∧ bit_clear d (bit_of b) = true.

(** [b] is the first free block of the file system. *)
Definition first_free (c : Z → option (list Z)) (sb : superblock) (b : Z) : Prop :=
  0 ≤ b < sb_size sb ∧ block_free c sb b ∧ ∀ b', 0 ≤ b' < b → ¬ block_free c sb b'.

(** The contents with the bit of block [b] set, or cleared, and with block
    [b] itself zeroed. *)
Definition with_bit (f : nat → list Z → list Z) (sb : superblock) (b : Z)
    (c : Z → option (list Z)) : Z → option (list Z) :=
  λ sec, if decide (sec = BBLOCK b (sb_ninodes sb)) then f (bit_of b) <$> c sec else c sec.

Section bits.
Lemma free_bit_Some d b size bi :
  free_bit d b size = Some bi →
  (bi < Z.to_nat BPB)%nat ∧ b + bi < size ∧ bit_clear d bi = true ∧
  ∀ j, (j < bi)%nat → bit_clear d j = false.
Proof.
  unfold free_bit. intros Hf. apply fmap_Some in Hf as ([i x] & Hf & ->).
  apply list_find_Some in Hf as (Hi & Hc & Hm). apply lookup_seq in Hi as [-> Hi]. cbn.
  unfold BPB, BSIZE in *. split_and!; [lia|lia|done|].
  intros j Hj. apply not_true_is_false. intros Hcj. apply (Hm j j); [|done|done].
  rewrite lookup_seq. lia.
Qed.

Lemma free_bit_None d b size (bi : nat) :
  free_bit d b size = None → (bi < Z.to_nat BPB)%nat → b + bi < size → bit_clear d bi = false.
Proof.
  unfold free_bit. intros Hf Hb Hs. apply fmap_None, list_find_None in Hf. rewrite Forall_forall in Hf.
  apply not_true_is_false. apply Hf. apply elem_of_seq. unfold BPB, BSIZE in *. lia.
Qed.

(** Blocks of the same bitmap block. *)
Lemma bblock_same b (bi : nat) n : b mod BPB = 0 → (bi < Z.to_nat BPB)%nat → BBLOCK (b + bi) n = BBLOCK b n ∧ bit_of (b + bi) = bi.
Proof. unfold BBLOCK, bit_of, BPB, BSIZE. intros Hb Hbi. split; [do 2 f_equal; lia|lia]. Qed.

Lemma mask_bit bi k : 0 ≤ k → Z.testbit (bit_mask bi) k = bool_decide (k = Z.of_nat (bi mod 8)).
Proof.
  intros Hk. unfold bit_mask. rewrite Z.shiftl_spec by done.
  destruct (decide (k = Z.of_nat (bi mod 8))) as [->|Hne].
  - rewrite Z.sub_diag, bool_decide_true; done.
  - rewrite bool_decide_false by done. destruct (decide (k < Z.of_nat (bi mod 8))).
    + apply Z.testbit_neg_r. lia.
    + apply Z.bits_above_log2; [lia|]. change (Z.log2 1) with 0. lia.
Qed.

Lemma bit_clear_test d bi : bit_clear d bi = negb (Z.testbit (getb d (bi / 8)) (bi mod 8)%nat).
Proof.
  unfold bit_clear. set (k := Z.of_nat (bi mod 8)).
  assert (Hland : Z.land (getb d (bi / 8)) (bit_mask bi) =
    if Z.testbit (getb d (bi / 8)) k then bit_mask bi else 0).
  { apply Z.bits_inj'. intros n Hn. rewrite Z.land_spec, mask_bit by done.
    destruct (decide (n = k)) as [->|Hne].
    - rewrite bool_decide_true by done. destruct (Z.testbit _ _) eqn:E; [|by rewrite Z.bits_0].
      by rewrite mask_bit, bool_decide_true.
    - rewrite bool_decide_false, andb_false_r by done. destruct (Z.testbit (getb d (bi / 8)) k); [|by rewrite Z.bits_0].
      by rewrite mask_bit, bool_decide_false. }
  rewrite Hland. destruct (Z.testbit _ _); [|done]. cbn. apply Z.eqb_neq. intros E.
  assert (Hb := mask_bit bi k ltac:(lia)). rewrite E, Z.bits_0, bool_decide_true in Hb; done.
Qed.
End bits.

Section bit_updates.
(** What setting or clearing a bit does to the bits of a block. *)
Lemma bit_update_test (f : Z → Z) d bi bj :
  (bi / 8 < length d)%nat →
  bit_clear (<[(bi / 8)%nat := u8 (f (getb d (bi / 8)))]> d) bj =
    if decide (bj / 8 = bi / 8)%nat then negb (Z.testbit (f (getb d (bi / 8))) (bj mod 8)%nat)
    else bit_clear d bj.
Proof.
  intros Hl. rewrite !bit_clear_test. unfold getb at 1. case_decide as E.
  - rewrite E, list_lookup_insert_eq by done. cbn. f_equal. unfold u8.
    rewrite Z.mod_pow2_bits_low; [done|]. assert (bj mod 8 < 8)%nat by (apply Nat.mod_upper_bound; lia). lia.
  - rewrite list_lookup_insert_ne by done. done.
Qed.

Lemma same_bit (bi bj : nat) : (bj / 8 = bi / 8)%nat → (bj mod 8 = bi mod 8)%nat ↔ bj = bi.
Proof. intros E. split; [|by intros ->]. intros E'. rewrite (Nat.div_mod_eq bj 8), (Nat.div_mod_eq bi 8). congruence. Qed.

Lemma bit_clear_set d bi bj :
  (bi / 8 < length d)%nat → bit_clear (set_bit bi d) bj = bit_clear d bj && bool_decide (bj ≠ bi).
Proof.
  intros Hl. unfold set_bit. rewrite (bit_update_test (λ v, Z.lor v (bit_mask bi))) by done.
  case_decide as E; [|rewrite bool_decide_true, andb_true_r; [done|by intros ->]].
  rewrite Z.lor_spec, mask_bit, bit_clear_test, E, negb_orb by lia. f_equal.
  rewrite <-bool_decide_not. apply bool_decide_ext. rewrite <-(same_bit bi bj E). lia.
Qed.

Lemma bit_clear_clear d bi bj :
  (bi / 8 < length d)%nat → bit_clear (clear_bit bi d) bj = bit_clear d bj || bool_decide (bj = bi).
Proof.
  intros Hl. unfold clear_bit. rewrite (bit_update_test (λ v, Z.ldiff v (bit_mask bi))) by done.
  case_decide as E; [|rewrite bool_decide_false, orb_false_r; [done|by intros ->]].
  rewrite Z.ldiff_spec, mask_bit, bit_clear_test, E, negb_andb, negb_involutive by lia. f_equal.
  apply bool_decide_ext. rewrite <-(same_bit bi bj E). lia.
Qed.
End bit_updates.

Section alloc.
Context `{Hk : kenv} `{Hd : disk} `{Hdl : !disk_laws}.
Implicit Types (s t : kstate) (H : gset Z) (sb : superblock).

(** A change of contents that leaves the super block and block sizes alone. *)
Lemma fs_disk_after s t H sb c :
  fs_disk s H sb → after s t H c → c 1 = content s 1 →
  (∀ sec d, home s sec → c sec = Some d → length d = Z.to_nat BSIZE) → fs_disk t H sb.
Proof.
  intros [Hh Hn (d & Hd1 & Hsb) Hb Hl] A H1 Hlen. assert (Hho := λ v, after_home s t H c v A). split.
  - by apply Hho.
  - done.
  - exists d. rewrite (af_content _ _ _ _ A), H1 by done. done.
  - intros b Hr. rewrite Hho. by apply Hb.
  - intros sec d' Hs. rewrite (af_content _ _ _ _ A) by (by apply Hho). apply Hlen. by apply Hho.
Qed.

Lemma fs_disk_same s t H sb : fs_disk s H sb → after s t H (content s) → fs_disk t H sb.
Proof. intros Hf A. eapply fs_disk_after; [done|done|done|]. apply Hf. Qed.

Lemma readsb_view k s d0 H sb :
  tx_at k s d0 H → fs_disk s H sb →
  ∃ t, readsb 1 s = Ret sb t ∧ tx_at k t d0 H ∧ after s t H (content s).
Proof.
  intros Ht [Hh Hn (d & Hc & <-) _ _].
  destruct (tx_look k s d0 H 1 Ht Hh Hn) as (b & x & t1 & t & E1 & E2 & C & E3 & T & A).
  exists t. split_and!; try done. unfold readsb. step E1. step E2. step E3. rewrite Hc in C. by injection C as <-.
Qed.

(** Choosing the bit [bi] of the bitmap block of blocks [b], [b + 1], ... *)
Lemma balloc_take k s d0 H sb b (bi : nat) bp x t1 :
  tx_at (S (S k)) s d0 H → fs_disk s H sb → 0 ≤ b → b mod BPB = 0 → (bi < Z.to_nat BPB)%nat → b + bi < sb_size sb →
  bread 1 (BBLOCK b (sb_ninodes sb)) s = Ret bp t1 → content s (BBLOCK b (sb_ninodes sb)) = Some (b_data x) →
  home s (b + bi) → b + bi ∉ H →
  ∃ t, (do* upd_buf bp (set b_data (set_bit bi)) in do* log_write bp in do* brelse bp in
        do* bzero 1 (b + bi) in ret (b + bi)) t1 = Ret (b + bi) t ∧
    tx_at k t d0 H ∧
    after s t H (put_c (b + bi) zero_block (with_bit set_bit sb (b + bi) (content s))).
Proof.
  intros Ht Hf Hb0 Hb Hbi Hsz E1 Hc Hh Hni.
  destruct (bblock_same b bi (sb_ninodes sb) Hb Hbi) as [Hbb Hbit].
  destruct (fd_bitmap _ _ _ Hf (b + bi)) as (Hbh & Hbn & _); [lia|]. rewrite Hbb in Hbh, Hbn.
  destruct (tx_change (S k) s d0 H (BBLOCK b (sb_ninodes sb)) (set_bit bi) Ht Hbh Hbn) as (t2 & d & E2 & C2 & T2 & A2).
  unfold tx_update in E2. rewrite (bind_ret _ _ _ _ _ E1) in E2. assert (d = b_data x) as -> by congruence.
  destruct (tx_change k t2 d0 H (b + bi) (λ _, zero_block) T2) as (t & d & E3 & C3 & T3 & A3);
    [by apply (after_home _ _ _ _ _ A2)|done|].
  exists t. split_and!; [|done|].
  - rewrite (bind_run2 _ _ _ _ _ _ _ E2). cbv beta.
    change (bzero 1 (b + bi)) with (tx_update 1 (b + bi) (λ _, zero_block)). by step E3.
  - eapply after_ext; [eapply after_put; [exact A2|exact A3]|]. intros v Hv. unfold put_c, with_bit.
    rewrite Hbb, Hbit. case_decide; [done|]. case_decide as E; [|done]. subst v. by rewrite Hc.
Qed.

Lemma block_free_after s t H sb c b :
  fs_disk s H sb → after s t H c → 0 ≤ b < sb_size sb → block_free (content t) sb b ↔ block_free c sb b.
Proof.
  intros Hf A Hb. destruct (fd_bitmap _ _ _ Hf b Hb) as (Hh & _). unfold block_free.
  by rewrite (af_content _ _ _ _ A).
Qed.

(** A bitmap block without a free bit is passed over. *)
Lemma balloc_pass n k s d0 H sb b :
  tx_at k s d0 H → fs_disk s H sb → 0 ≤ b < sb_size sb → b mod BPB = 0 →
  (∀ b', b ≤ b' < Z.min (b + BPB) (sb_size sb) → ¬ block_free (content s) sb b') →
  ∃ t, balloc_loop (S n) 1 sb b s = balloc_loop n 1 sb (b + BPB) t ∧ tx_at k t d0 H ∧ after s t H (content s).
Proof.
  intros Ht Hf Hb Hm Hno. destruct (fd_bitmap _ _ _ Hf b Hb) as (Hbh & Hbn & _).
  destruct (tx_look k s d0 H _ Ht Hbh Hbn) as (bp & x & t1 & t & E1 & E2 & C & E3 & T & A).
  exists t. split_and!; try done. cbn [balloc_loop]. rewrite (proj2 (Z.ltb_lt b _)) by lia. step E1. step E2.
  destruct (free_bit (b_data x) b (sb_size sb)) as [bi|] eqn:Ef; [|by step E3].
  destruct (free_bit_Some _ _ _ _ Ef) as (Hbi & Hs & Hc & _).
  destruct (bblock_same b bi (sb_ninodes sb) Hm Hbi) as [Hbb Hbit].
  destruct (Hno (b + bi)); [lia|]. exists (b_data x). by rewrite Hbb, Hbit.
Qed.

Lemma balloc_found (n : nat) k s d0 H sb b fb :
  tx_at (S (S k)) s d0 H → fs_disk s H sb → 0 ≤ b → b mod BPB = 0 → fb < b + BPB * n →
  b ≤ fb < sb_size sb → block_free (content s) sb fb →
  (∀ b', b ≤ b' < fb → ¬ block_free (content s) sb b') → home s fb → fb ∉ H →
  ∃ t, balloc_loop n 1 sb b s = Ret fb t ∧ tx_at k t d0 H ∧
    after s t H (put_c fb zero_block (with_bit set_bit sb fb (content s))).
Proof.
  revert s b. induction n as [|n IH]; intros s b Ht Hf Hb0 Hm Hn Hr Hfr Hmin Hh Hni; [lia|].
  destruct (decide (fb < b + BPB)) as [Hlt|Hge].
  - destruct (bblock_same b (Z.to_nat (fb - b)) (sb_ninodes sb) Hm) as [Hbb Hbit]; [unfold BPB, BSIZE in *; lia|].
    replace (b + Z.to_nat (fb - b)) with fb in Hbb, Hbit by lia.
    destruct (fd_bitmap _ _ _ Hf b) as (Hbh & Hbn & _); [lia|].
    destruct (tx_look _ s d0 H _ Ht Hbh Hbn) as (bp & x & t1 & t0 & E1 & E2 & C & _).
    destruct Hfr as (d & Hd1 & Hd2). rewrite Hbb, C in Hd1. injection Hd1 as <-. rewrite Hbit in Hd2.
    assert (Ef : free_bit (b_data x) b (sb_size sb) = Some (Z.to_nat (fb - b))).
    { destruct (free_bit (b_data x) b (sb_size sb)) as [bi|] eqn:Ef.
      - destruct (free_bit_Some _ _ _ _ Ef) as (Hbi & Hs & Hc & Hm'). f_equal.
        destruct (Nat.lt_trichotomy bi (Z.to_nat (fb - b))) as [Hl|[?|Hl]]; [|done|].
        + destruct (Hmin (b + bi)); [lia|]. destruct (bblock_same b bi (sb_ninodes sb) Hm Hbi) as [Ha Hb'].
          exists (b_data x). by rewrite Ha, Hb'.
        + rewrite Hm' in Hd2 by done. done.
      - rewrite (free_bit_None _ _ _ _ Ef) in Hd2; [done|unfold BPB, BSIZE in *; lia|lia]. }
    destruct (balloc_take k s d0 H sb b (Z.to_nat (fb - b)) bp x t1 Ht Hf Hb0 Hm) as (t & E & T & A); try done;
      [unfold BPB, BSIZE in *; lia|lia|by replace (b + Z.to_nat (fb - b)) with fb by lia..|].
    replace (b + Z.to_nat (fb - b)) with fb in E, A by lia. exists t. split_and!; try done.
    cbn [balloc_loop]. rewrite (proj2 (Z.ltb_lt b _)) by lia. step E1. step E2. rewrite Ef.
    by replace (b + Z.to_nat (fb - b)) with fb by lia.
  - destruct (balloc_pass n _ s d0 H sb b Ht Hf) as (t1 & E1 & T1 & A1); [lia|done| |].
    { intros b' Hb'. apply Hmin. lia. }
    assert (Hfa := λ b Hb, block_free_after s t1 H sb _ b Hf A1 Hb).
    destruct (IH t1 (b + BPB)) as (t & E & T & A); try done.
    + by eapply fs_disk_same.
    + unfold BPB, BSIZE. lia.
    + rewrite <-Zplus_mod_idemp_r, Z_mod_same_full, Z.add_0_r. done.
    + lia.
    + lia.
    + apply Hfa; [lia|done].
    + intros b' Hb'. rewrite Hfa by (unfold BPB, BSIZE in *; lia). apply Hmin. unfold BPB, BSIZE in *. lia.
    + by apply (after_home _ _ _ _ _ A1).
    + exists t. split_and!; [by rewrite E1|done|]. eapply after_ext; [by eapply after_trans|].
      intros v Hv. unfold put_c, with_bit. case_decide; [done|].
      rewrite (af_content _ _ _ _ A1) by done. done.
Qed.

Lemma balloc_full (n : nat) k s d0 H sb b :
  tx_at k s d0 H → fs_disk s H sb → 0 ≤ b → b mod BPB = 0 → sb_size sb ≤ b + BPB * n →
  (∀ b', b ≤ b' < sb_size sb → ¬ block_free (content s) sb b') →
  ∃ t, balloc_loop (S n) 1 sb b s = Panic "balloc: out of blocks" t.
Proof.
  revert s b. induction n as [|n IH]; intros s b Ht Hf Hb0 Hm Hn Hno.
  { exists s. cbn [balloc_loop]. by rewrite (proj2 (Z.ltb_ge b _)) by lia. }
  destruct (decide (b < sb_size sb)) as [Hlt|Hge].
  - destruct (balloc_pass (S n) _ s d0 H sb b Ht Hf) as (t1 & E1 & T1 & A1); [lia|done| |].
    { intros b' Hb'. apply Hno. lia. }
    destruct (IH t1 (b + BPB)) as (t & E); try done.
    + by eapply fs_disk_same.
    + unfold BPB, BSIZE. lia.
    + rewrite <-Zplus_mod_idemp_r, Z_mod_same_full, Z.add_0_r. done.
    + lia.
    + intros b' Hb'. rewrite (block_free_after s t1 H sb _ b' Hf A1) by (unfold BPB, BSIZE in *; lia).
      apply Hno. unfold BPB, BSIZE in *. lia.
    + exists t. by rewrite E1.
  - exists s. cbn [balloc_loop]. by rewrite (proj2 (Z.ltb_ge b _)) by lia.
Qed.

Lemma balloc_view k s d0 H sb fb :
  tx_at (S (S k)) s d0 H → fs_disk s H sb → first_free (content s) sb fb → home s fb → fb ∉ H →
  ∃ t, balloc 1 s = Ret fb t ∧ tx_at k t d0 H ∧
    after s t H (put_c fb zero_block (with_bit set_bit sb fb (content s))).
Proof.
  intros Ht Hf (Hr & Hfr & Hmin) Hh Hni.
  destruct (readsb_view _ s d0 H sb Ht Hf) as (t1 & E1 & T1 & A1).
  assert (Hfa := λ b Hb, block_free_after s t1 H sb _ b Hf A1 Hb).
  destruct (balloc_found (S (S (Z.to_nat (sb_size sb / BPB)))) k t1 d0 H sb 0 fb) as (t & E & T & A); try done.
  - by eapply fs_disk_same.
  - unfold BPB, BSIZE in *. lia.
  - by apply Hfa.
  - intros b' Hb'. rewrite Hfa by lia. by apply Hmin.
  - by apply (after_home _ _ _ _ _ A1).
  - exists t. split_and!; [unfold balloc; by step E1|done|]. eapply after_ext; [by eapply after_trans|].
    intros v Hv. unfold put_c, with_bit. case_decide; [done|]. by rewrite (af_content _ _ _ _ A1) by done.
Qed.

Lemma balloc_none k s d0 H sb :
  tx_at k s d0 H → fs_disk s H sb → (∀ b, 0 ≤ b < sb_size sb → ¬ block_free (content s) sb b) →
  ∃ t, balloc 1 s = Panic "balloc: out of blocks" t.
Proof.
  intros Ht Hf Hno. destruct (readsb_view _ s d0 H sb Ht Hf) as (t1 & E1 & T1 & A1).
  destruct (balloc_full (S (Z.to_nat (sb_size sb / BPB))) k t1 d0 H sb 0) as (t & E); try done.
  - by eapply fs_disk_same.
  - unfold BPB, BSIZE in *. lia.
  - intros b' Hb'. rewrite (block_free_after s t1 H sb _ b' Hf A1) by done. by apply Hno.
  - exists t. unfold balloc. by step E1.
Qed.

Lemma bfree_view k s d0 H sb b :
  tx_at (S k) s d0 H → fs_disk s H sb → 0 ≤ b < sb_size sb →
  (block_free (content s) sb b → ∃ t, bfree 1 b s = Panic "freeing free block" t) ∧
  (¬ block_free (content s) sb b → ∃ t, bfree 1 b s = Ret tt t ∧ tx_at k t d0 H ∧
     after s t H (with_bit clear_bit sb b (content s))).
Proof.
  intros Ht Hf Hb. destruct (readsb_view _ s d0 H sb Ht Hf) as (t1 & E1 & T1 & A1).
  assert (Hf1 := fs_disk_same _ _ _ _ Hf A1). destruct (fd_bitmap _ _ _ Hf1 b Hb) as (Hbh & Hbn & _).
  assert (Hbs : home s (BBLOCK b (sb_ninodes sb))) by (by apply (after_home _ _ _ _ _ A1)).
  destruct (tx_look _ t1 d0 H _ T1 Hbh Hbn) as (bp & x & t2 & t3 & E2 & E3 & C & _).
  assert (Hx : content s (BBLOCK b (sb_ninodes sb)) = Some (b_data x)) by (by rewrite <-C, (af_content _ _ _ _ A1)).
  assert (Hcl : block_free (content s) sb b ↔ bit_clear (b_data x) (bit_of b) = true).
  { unfold block_free. rewrite Hx. split; [intros (d & [= <-] & ?); done|]. by exists (b_data x). }
  split; intros Hfr; rewrite Hcl in Hfr.
  - exists t2. unfold bfree. step E1. step E2. cbv zeta. step E3. fold (bit_of b). by rewrite Hfr.
  - destruct (tx_change k t1 d0 H _ (clear_bit (bit_of b)) T1 Hbh Hbn) as (t & d & E4 & C4 & T4 & A4).
    assert (d = b_data x) as -> by congruence.
    exists t. split_and!; [|done|].
    + unfold tx_update in E4. rewrite (bind_ret _ _ _ _ _ E2) in E4.
      unfold bfree. step E1. step E2. cbv zeta. step E3. fold (bit_of b).
      by rewrite (not_true_is_false _ Hfr).
    + eapply after_ext; [eapply after_trans; [exact A1|exact A4]|]. intros v Hv. unfold put_c, with_bit.
      case_decide; [subst v; by rewrite Hx|]. by apply (af_content _ _ _ _ A1).
Qed.

(** A block that holds neither the super block nor bits of the bitmap. *)
Definition plain_block (s : kstate) (sb : superblock) (b : Z) : Prop :=
  home s b ∧ b ≠ 1 ∧ ∀ b', 0 ≤ b' < sb_size sb → BBLOCK b' (sb_ninodes sb) ≠ b.

Lemma bit_of_byte b : (bit_of b / 8 < Z.to_nat BSIZE)%nat.
Proof. unfold bit_of, BPB, BSIZE. apply Nat.Div0.div_lt_upper_bound. lia. Qed.

(** Two blocks with the same bit are the same block. *)
Lemma bit_inj b b' n :
  0 ≤ b → 0 ≤ b' → BBLOCK b n = BBLOCK b' n → bit_of b = bit_of b' → b = b'.
Proof. unfold BBLOCK, bit_of, BPB, BSIZE. lia. Qed.

Lemma block_free_with_bit s H sb b b' f :
  fs_disk s H sb → 0 ≤ b < sb_size sb → 0 ≤ b' < sb_size sb →
  block_free (with_bit f sb b (content s)) sb b' ↔
  if decide (BBLOCK b' (sb_ninodes sb) = BBLOCK b (sb_ninodes sb))
  then ∃ d, content s (BBLOCK b (sb_ninodes sb)) = Some d ∧ bit_clear (f (bit_of b) d) (bit_of b') = true
  else block_free (content s) sb b'.
Proof.
  intros Hf Hb Hb'. unfold block_free, with_bit. case_decide as E; [|done]. rewrite E. split.
  - intros (d & Hd' & Hc). apply fmap_Some in Hd' as (d1 & Hd1 & ->). by exists d1.
  - intros (d & Hd' & Hc). exists (f (bit_of b) d). by rewrite Hd'.
Qed.

Lemma block_free_set s H sb b b' :
  fs_disk s H sb → 0 ≤ b < sb_size sb → 0 ≤ b' < sb_size sb →
  block_free (with_bit set_bit sb b (content s)) sb b' ↔ block_free (content s) sb b' ∧ b' ≠ b.
Proof.
  intros Hf Hb Hb'. rewrite (block_free_with_bit s H) by done. destruct (fd_bitmap _ _ _ Hf b Hb) as (Hh & _).
  case_decide as E; [|split; [intros ?; split; [done|by intros ->]|by intros [? _]]].
  unfold block_free. rewrite E. split.
  - intros (d & Hd' & Hc). rewrite bit_clear_set in Hc by (rewrite (fd_len _ _ _ Hf _ _ Hh Hd'); apply bit_of_byte).
    apply andb_true_iff in Hc as [Hc Hne%bool_decide_eq_true]. split; [by exists d|]. by intros ->.
  - intros ((d & Hd' & Hc) & Hne). exists d. split; [done|].
    rewrite bit_clear_set by (rewrite (fd_len _ _ _ Hf _ _ Hh Hd'); apply bit_of_byte).
    rewrite Hc, bool_decide_true; [done|]. intros Eb. apply Hne. eapply bit_inj; try done; lia.
Qed.

Lemma block_free_clear s H sb b b' :
  fs_disk s H sb → 0 ≤ b < sb_size sb → 0 ≤ b' < sb_size sb → (∃ d, content s (BBLOCK b (sb_ninodes sb)) = Some d) →
  block_free (with_bit clear_bit sb b (content s)) sb b' ↔ block_free (content s) sb b' ∨ b' = b.
Proof.
  intros Hf Hb Hb' [d0 Hd0]. rewrite (block_free_with_bit s H) by done. destruct (fd_bitmap _ _ _ Hf b Hb) as (Hh & _).
  assert (Hby : (bit_of b / 8 < length d0)%nat) by (rewrite (fd_len _ _ _ Hf _ _ Hh Hd0); apply bit_of_byte).
  case_decide as E; [|split; [by left|by intros [?| ->]]].
  unfold block_free. rewrite E, Hd0. split.
  - intros (d & [= <-] & Hc). rewrite bit_clear_clear in Hc by done.
    apply orb_true_iff in Hc as [Hc|Hne%bool_decide_eq_true]; [left; by exists d0|right; eapply bit_inj; try done; lia].
  - intros Hor. exists d0. split; [done|]. rewrite bit_clear_clear by done. apply orb_true_iff.
    destruct Hor as [(d & [= <-] & Hc)| ->]; [by left|right; by apply bool_decide_eq_true].
Qed.
End alloc.

(** ** Properties *)

Section props.
Context `{Hk : kenv} `{Hd : disk} `{Hdl : !disk_laws}.
Implicit Types (s t : kstate) (sb : superblock).

(** C12: [balloc] hands out the first free block of the bitmap: it is zeroed
    and marked used, every other block keeps its contents and its mark, and
    the transaction stays well-formed.  With no free block left it panics. *)
Theorem balloc_correct k s d0 sb :
  tx_at (S (S k)) s d0 ∅ → fs_disk s ∅ sb →
  (∀ fb, first_free (content s) sb fb → plain_block s sb fb →
    returns (balloc 1) s (λ b t, b = fb ∧ tx_at k t d0 ∅ ∧ fs_disk t ∅ sb ∧
      content t fb = Some zero_block ∧
      (∀ b', 0 ≤ b' < sb_size sb → block_free (content t) sb b' ↔ block_free (content s) sb b' ∧ b' ≠ fb) ∧
      (∀ sec, home s sec → sec ≠ fb → sec ≠ BBLOCK fb (sb_ninodes sb) → content t sec = content s sec))) ∧
  ((∀ b, 0 ≤ b < sb_size sb → ¬ block_free (content s) sb b) →
    ∃ t, balloc 1 s = Panic "balloc: out of blocks" t).
Proof.
  intros Ht Hf. split; [|by eapply balloc_none]. intros fb Hfb (Hh & H1 & Hbm).
  destruct (balloc_view k s d0 ∅ sb fb Ht Hf Hfb Hh) as (t & E & T & A); [set_solver|].
  assert (Hfr := Hfb). destruct Hfr as (Hr & _).
  destruct (fd_bitmap _ _ _ Hf fb Hr) as (Hbh & _ & Hb1).
  eapply returns_eq; [exact E|]. split_and!; try done.
  - eapply fs_disk_after; [done|done| |].
    + unfold put_c, with_bit. rewrite !decide_False by congruence. done.
    + intros sec d Hs. unfold put_c, with_bit. case_decide; [intros [= <-]; apply length_replicate|].
      case_decide; [|by apply Hf]. intros (d' & Hd' & ->)%fmap_Some. unfold set_bit. rewrite length_insert.
      by eapply Hf.
  - rewrite (af_content _ _ _ _ A) by done. unfold put_c. by rewrite decide_True.
  - intros b' Hb'. rewrite (block_free_after s t ∅ sb _ b' Hf A), <-(block_free_set s ∅) by done.
    unfold block_free, put_c. rewrite decide_False by (by apply Hbm). done.
  - intros sec Hs Hne Hne'. rewrite (af_content _ _ _ _ A) by done. unfold put_c, with_bit.
    by rewrite !decide_False.
Qed.

(** [bfree] clears the mark of a used block and of no other, leaving all
    other sectors alone; freeing a block that is free already panics. *)
Theorem bfree_correct k s d0 sb b :
  tx_at (S k) s d0 ∅ → fs_disk s ∅ sb → 0 ≤ b < sb_size sb →
  (¬ block_free (content s) sb b →
    returns (bfree 1 b) s (λ _ t, tx_at k t d0 ∅ ∧ fs_disk t ∅ sb ∧
      (∀ b', 0 ≤ b' < sb_size sb → block_free (content t) sb b' ↔ block_free (content s) sb b' ∨ b' = b) ∧
      (∀ sec, home s sec → sec ≠ BBLOCK b (sb_ninodes sb) → content t sec = content s sec))) ∧
  (block_free (content s) sb b → ∃ t, bfree 1 b s = Panic "freeing free block" t).
Proof.
  intros Ht Hf Hb. destruct (bfree_view k s d0 ∅ sb b Ht Hf Hb) as [Hp Hr]. split; [|done]. intros Hn.
  destruct (Hr Hn) as (t & E & T & A). destruct (fd_bitmap _ _ _ Hf b Hb) as (Hbh & Hbn & Hb1).
  destruct (tx_look _ s d0 ∅ _ Ht Hbh Hbn) as (_ & x & _ & _ & _ & _ & C & _).
  eapply returns_eq; [exact E|]. split_and!; try done.
  - eapply fs_disk_after; [done|done| |].
    + unfold with_bit. by rewrite decide_False by congruence.
    + intros sec d Hs. unfold with_bit.
      case_decide; [|by apply Hf]. intros (d' & Hd' & ->)%fmap_Some. unfold clear_bit. rewrite length_insert.
      by eapply Hf.
  - intros b' Hb'. rewrite (block_free_after s t ∅ sb _ b' Hf A).
    + apply (block_free_clear s ∅); try done. by exists (b_data x).
    + done.
  - intros sec Hs Hne. rewrite (af_content _ _ _ _ A) by done. unfold with_bit. by rewrite decide_False.
Qed.
End props.

(** ** Witnesses *)

Module fs_demo.
Definition sb : superblock := mkSuperblock 40 25 8 10.
Definition sb_block : list Z := put32 0 40 (put32 4 25 (put32 8 8 (put32 12 10 zero_block))).
(** The bitmap mkfs writes: the first [n] blocks are in use. *)
Definition bitmap (n : nat) : list Z := foldl (λ d i, set_bit i d) zero_block (seq 0 n).

(** A file system of 40 blocks, of which the last ten are the log, with its
    bitmap in block 4 and an open transaction. *)
Definition start (n : nat) : kstate :=
  log_demo.start_on (<[1%nat := sb_block]> (<[4%nat := bitmap n]> (replicate 40 zero_block))).

Lemma fs_start_tx k n : (k ≤ 9)%nat → tx_at k (start n) zero_block ∅.
Proof.
  intros Hk. split; [by apply log_demo.start_on_tx|]. apply (tx_can_weaken 9); [|done].
  vm_compute. split_and!; try done; lia.
Qed.

Lemma fs_content n sec : content (start n) sec = k_disk (start n) !! Z.to_nat sec.
Proof. apply content_disk. intros b x Hx. by destruct (log_demo.log_uncached _ _ _ _ Hx). Qed.

Lemma bitmap_length n : length (bitmap n) = Z.to_nat BSIZE.
Proof.
  unfold bitmap. generalize (seq 0 n). intros l.
  assert (∀ d, length d = Z.to_nat BSIZE → length (foldl (λ d i, set_bit i d) d l) = Z.to_nat BSIZE) as HH; [|by apply HH].
  induction l as [|i l IH]; intros d Hd; [done|]. cbn [foldl]. apply IH. unfold set_bit. by rewrite length_insert.
Qed.

Lemma bblock_demo b : 0 ≤ b < 40 → BBLOCK b 8 = 4.
Proof. intros Hb. unfold BBLOCK, BPB. change (8 / IPB) with 1. unfold BSIZE. lia. Qed.

Lemma home_start n sec : 0 ≤ sec < 30 → home (start n) sec.
Proof. unfold home. cbn. lia. Qed.

Lemma fs_start_disk n : fs_disk (start n) ∅ sb.
Proof.
  split.
  - by apply home_start.
  - set_solver.
  - exists sb_block. by rewrite fs_content.
  - intros b Hb. change (sb_ninodes sb) with 8. rewrite bblock_demo by done. split_and!; [by apply home_start|set_solver|done].
  - intros sec d Hs. rewrite fs_content. cbn [k_disk start log_demo.start_on].
    intros [(_ & <- & _)|[_ [(_ & <- & _)|[_ [-> _]%lookup_replicate]]%list_lookup_insert_Some]]%list_lookup_insert_Some;
      [done|apply bitmap_length|apply length_replicate].
Qed.
End fs_demo.

Lemma balloc_correct_witness :
  returns (balloc (H := kenv_example) (H0 := memide) 1) (fs_demo.start 6) (λ b t, b = 6 ∧
    tx_at 0 t zero_block ∅ ∧ fs_disk t ∅ fs_demo.sb ∧ content t 6 = Some zero_block ∧
    (∀ b', 0 ≤ b' < 40 → block_free (content t) fs_demo.sb b' ↔
       block_free (content (fs_demo.start 6)) fs_demo.sb b' ∧ b' ≠ 6) ∧
    (∀ sec, home (fs_demo.start 6) sec → sec ≠ 6 → sec ≠ 4 → content t sec = content (fs_demo.start 6) sec)).
Proof.
  apply (proj1 (balloc_correct (Hk := kenv_example) (Hd := memide) 0 (fs_demo.start 6) zero_block fs_demo.sb
    (fs_demo.fs_start_tx 2 6 ltac:(lia)) (fs_demo.fs_start_disk 6)) 6).
  - split_and!; [done|done|exists (fs_demo.bitmap 6); by vm_compute|].
    intros b Hb (d & Hd & Hc). rewrite fs_demo.fs_content in Hd.
    assert (Hbs : b = 0 ∨ b = 1 ∨ b = 2 ∨ b = 3 ∨ b = 4 ∨ b = 5) by lia.
    destruct Hbs as [->|[->|[->|[->|[->| ->]]]]]; vm_compute in Hd; injection Hd as <-; by vm_compute in Hc.
  - split_and!; [by apply fs_demo.home_start|done|].
    intros b Hb. change (sb_ninodes fs_demo.sb) with 8. by rewrite fs_demo.bblock_demo.
Defined.

Lemma bfree_correct_witness :
  returns (bfree (H := kenv_example) (H0 := memide) 1 5) (fs_demo.start 6) (λ _ t,
    tx_at 0 t zero_block ∅ ∧ fs_disk t ∅ fs_demo.sb ∧
    (∀ b', 0 ≤ b' < 40 → block_free (content t) fs_demo.sb b' ↔
       block_free (content (fs_demo.start 6)) fs_demo.sb b' ∨ b' = 5) ∧
    (∀ sec, home (fs_demo.start 6) sec → sec ≠ 4 → content t sec = content (fs_demo.start 6) sec)).
Proof.
  apply (proj1 (bfree_correct (Hk := kenv_example) (Hd := memide) 0 (fs_demo.start 6) zero_block fs_demo.sb 5
    (fs_demo.fs_start_tx 1 6 ltac:(lia)) (fs_demo.fs_start_disk 6) ltac:(done))).
  intros (d & Hd & Hc). rewrite fs_demo.fs_content in Hd. vm_compute in Hd. injection Hd as <-. by vm_compute in Hc.
Defined.

