(* ===== verification/Inode.v ===== *)
(** The on-disk form of inodes and the inode cache: the encoding round trip,
    and what [iget], [idup] and [iput] do to the reference counts. *)
From stdpp Require Import base numbers gmap strings option list.
From S2P Require Import Prelude State Spinlock Str Cprintf Kalloc Proc Mlf Sched Bio Blocks Log LogSpec Tx Crash Fs.

(** ** Encoding *)

(** [f] changes no byte outside the [n] bytes at [off]. *)
Definition writes_in (off n : nat) (f : list Z → list Z) : Prop :=
  ∀ d, length (f d) = length d ∧ ∀ i, (i < off ∨ off + n ≤ i)%nat → f d !! i = d !! i.

Section encoding.
Implicit Types (d : list Z).

Lemma put16_in off v : writes_in off 2 (put16 off v).
Proof. intros d. unfold put16. split; [by rewrite !length_insert|]. intros i Hi. by rewrite !list_lookup_insert_ne by lia. Qed.

Lemma put32_in off v : writes_in off 4 (put32 off v).
Proof. intros d. unfold put32. split; [by rewrite !length_insert|]. intros i Hi. by rewrite !list_lookup_insert_ne by lia. Qed.

Lemma put_words_in off l : writes_in off (4 * length l) (put_words off l).
Proof.
  unfold put_words. assert (∀ m j d, (j + m ≤ length l)%nat →
    let d' := foldl (λ d i, put32 (off + 4 * i) (default 0 (l !! i)) d) d (seq j m) in
    length d' = length d ∧ ∀ i, (i < off + 4 * j ∨ off + 4 * (j + m) ≤ i)%nat → d' !! i = d !! i) as Hm.
  { induction m as [|m IH]; intros j d Hj; [done|]. cbn [seq foldl].
    destruct (IH (S j) (put32 (off + 4 * j) (default 0 (l !! j)) d)) as [L E]; [lia|].
    destruct (put32_in (off + 4 * j) (default 0 (l !! j)) d) as [L' E']. split; [congruence|].
    intros i Hi. rewrite E by lia. apply E'. lia. }
  intros d. destruct (Hm (length l) 0%nat d) as [L E]; [lia|]. split; [done|]. intros i Hi. apply E. lia.
Qed.

Lemma writes_in_mono off n off' n' f :
  writes_in off n f → (off' ≤ off)%nat → (off + n ≤ off' + n')%nat → writes_in off' n' f.
Proof. intros Hf H1 H2 d. destruct (Hf d) as [L E]. split; [done|]. intros i Hi. apply E. lia. Qed.

(** One more write inside the same bytes. *)
Lemma writes_in_step off n f d d' :
  writes_in off n f → length d' = length d ∧ (∀ i, (i < off ∨ off + n ≤ i)%nat → d' !! i = d !! i) →
  length (f d') = length d ∧ (∀ i, (i < off ∨ off + n ≤ i)%nat → f d' !! i = d !! i).
Proof.
  intros Hf [L E]. destruct (Hf d') as [L' E']. split; [congruence|]. intros i Hi. by rewrite E', E.
Qed.

(** Words read outside the bytes written. *)
Lemma get16_out off n f d o :
  writes_in off n f → (o + 2 ≤ off ∨ off + n ≤ o)%nat → get16 (f d) o = get16 d o.
Proof. intros Hf Ho. destruct (Hf d) as [_ E]. unfold get16, getb. by rewrite !E by lia. Qed.
Lemma get32_out off n f d o :
  writes_in off n f → (o + 4 ≤ off ∨ off + n ≤ o)%nat → get32 (f d) o = get32 d o.
Proof. intros Hf Ho. destruct (Hf d) as [_ E]. unfold get32, getb. by rewrite !E by lia. Qed.

Lemma get16_put16 off v d : (off + 2 ≤ length d)%nat → get16 (put16 off v d) off = u16 v.
Proof.
  intros Hl. unfold get16, put16.
  rewrite (getb_insert_ne _ _ off), (getb_insert_eq _ off) by (rewrite ?length_insert; lia).
  rewrite (getb_insert_eq _ (off + 1)) by (rewrite ?length_insert; lia).
  unfold u8, u16. rewrite !Z.shiftr_div_pow2 by lia. lia.
Qed.

Lemma get32_put_words off l d i v :
  (off + 4 * length l ≤ length d)%nat → l !! i = Some v → get32 (put_words off l d) (off + 4 * i) = u32 v.
Proof.
  intros Hd Hi. assert (Hil := lookup_lt_Some _ _ _ Hi). unfold put_words.
  assert (Hseq : seq 0 (length l) = seq 0 i ++ i :: seq (S i) (length l - S i)).
  { replace (length l) with (i + S (length l - S i))%nat at 1 by lia. by rewrite seq_app. }
  assert (Hlen : ∀ js d', length (foldl (λ d i, put32 (off + 4 * i) (default 0 (l !! i)) d) d' js) = length d').
  { induction js as [|j js IH]; intros d'; [done|]. cbn [foldl]. by rewrite IH, length_put32. }
  assert (Hne : ∀ js d', (∀ j, j ∈ js → j ≠ i) →
    get32 (foldl (λ d i, put32 (off + 4 * i) (default 0 (l !! i)) d) d' js) (off + 4 * i) = get32 d' (off + 4 * i)).
  { induction js as [|j js IH]; intros d' Hj; [done|]. cbn [foldl].
    assert (j ≠ i) by (apply Hj; by left). rewrite IH by (intros k Hk; apply Hj; by right).
    apply get32_put32_ne. lia. }
  rewrite Hseq, foldl_app. cbn [foldl]. rewrite Hne by (intros j [? ?]%elem_of_seq; lia).
  rewrite Hi. apply get32_put32_eq. rewrite Hlen. lia.
Qed.

Lemma s16_u16 v : - 2 ^ 15 ≤ v < 2 ^ 15 → s16 (u16 v) = v.
Proof. intros Hv. unfold s16, u16. lia. Qed.
End encoding.

(** The fields of an inode have the widths of the C structure. *)
Record inode_wf (x : inode) : Prop := {
  iw_type : - 2 ^ 15 ≤ i_type x < 2 ^ 15;
  iw_major : - 2 ^ 15 ≤ i_major x < 2 ^ 15;
  iw_minor : - 2 ^ 15 ≤ i_minor x < 2 ^ 15;
  iw_nlink : - 2 ^ 15 ≤ i_nlink x < 2 ^ 15;
  iw_size : 0 ≤ i_size x < 2 ^ 32;
  iw_addrs : length (i_addrs x) = 13%nat;
  iw_addr : ∀ a, a ∈ i_addrs x → 0 ≤ a < 2 ^ 32;
}.

Lemma store_dinode_in x : length (i_addrs x) = 13%nat → writes_in (dinode_off (i_inum x)) 64 (store_dinode x).
Proof.
  intros Ha d. unfold store_dinode. set (o := dinode_off (i_inum x)).
  apply (writes_in_step _ _ (put_words _ _)); [eapply writes_in_mono; [apply put_words_in|..]; lia|].
  apply (writes_in_step _ _ (put32 _ _)); [eapply writes_in_mono; [apply put32_in|..]; lia|].
  do 4 (apply (writes_in_step _ _ (put16 _ _)); [eapply writes_in_mono; [apply put16_in|..]; lia|]). done.
Qed.

Lemma dinode_off_room x (d : list Z) : length d = Z.to_nat BSIZE → (dinode_off (i_inum x) + 64 ≤ length d)%nat.
Proof. intros ->. unfold dinode_off, dinode_size, IPB, BSIZE. change (512 / 64) with 8. lia. Qed.

(** Reading back what [iupdate] stores. *)
Lemma load_store x y d :
  inode_wf x → length d = Z.to_nat BSIZE → i_inum y = i_inum x →
  load_dinode (store_dinode x d) y =
    y <| i_type := i_type x |> <| i_major := i_major x |> <| i_minor := i_minor x |>
      <| i_nlink := i_nlink x |> <| i_size := i_size x |> <| i_addrs := i_addrs x |>.
Proof.
  intros Hw Hd Ei. assert (Hroom := dinode_off_room x d Hd). unfold load_dinode, store_dinode. cbv zeta. rewrite Ei.
  set (o := dinode_off (i_inum x)) in *. destruct Hw as [H1 H2 H3 H4 H5 H6 H7].
  set (d1 := put16 o (i_type x) d). set (d2 := put16 (o + 2) (i_major x) d1).
  set (d3 := put16 (o + 4) (i_minor x) d2). set (d4 := put16 (o + 6) (i_nlink x) d3).
  set (d5 := put32 (o + 8) (i_size x) d4). set (d6 := put_words (o + 12) (i_addrs x) d5).
  assert (L1 : length d1 = length d) by apply put16_in. assert (L2 : length d2 = length d1) by apply put16_in.
  assert (L3 : length d3 = length d2) by apply put16_in. assert (L4 : length d4 = length d3) by apply put16_in.
  assert (L5 : length d5 = length d4) by apply put32_in.
  assert (W6 : writes_in (o + 12) 52 (put_words (o + 12) (i_addrs x))).
  { eapply writes_in_mono; [apply put_words_in|lia|lia]. }
  assert (G6 : ∀ k, (k + 2 ≤ 8)%nat → get16 d6 (o + k) = get16 d4 (o + k)).
  { intros k Hk. unfold d6, d5. rewrite (get16_out _ _ _ _ _ W6) by lia. apply (get16_out _ _ _ _ _ (put32_in _ _)). lia. }
  assert (G0 : get16 d6 o = get16 d4 o) by (rewrite <-(Nat.add_0_r o); apply G6; lia).
  rewrite G0, !G6 by lia.
  assert (E4 : get16 d4 (o + 6) = u16 (i_nlink x)) by (apply get16_put16; lia).
  assert (E3 : get16 d4 (o + 4) = u16 (i_minor x)).
  { unfold d4. rewrite (get16_out _ _ _ _ _ (put16_in _ _)) by lia. apply get16_put16. lia. }
  assert (E2 : get16 d4 (o + 2) = u16 (i_major x)).
  { unfold d4, d3. rewrite !(get16_out _ _ _ _ _ (put16_in _ _)) by lia. apply get16_put16. lia. }
  assert (E1 : get16 d4 o = u16 (i_type x)).
  { unfold d4, d3, d2. rewrite !(get16_out _ _ _ _ _ (put16_in _ _)) by lia. apply get16_put16. lia. }
  assert (E5 : get32 d6 (o + 8) = i_size x).
  { unfold d6. rewrite (get32_out _ _ _ _ _ W6) by lia. unfold d5. rewrite get32_put32_eq by lia. by apply u32_small. }
  assert (E6 : (λ i, get32 d6 (o + 12 + 4 * i)) <$> seq 0 13 = i_addrs x).
  { apply list_eq. intros i. rewrite list_lookup_fmap. destruct (decide (i < 13)%nat).
    - rewrite lookup_seq_lt by done. destruct (lookup_lt_is_Some_2 (i_addrs x) i) as [v Hv]; [lia|].
      rewrite Hv. cbn [fmap option_fmap option_map]. f_equal. rewrite Nat.add_0_l. unfold d6. rewrite (get32_put_words _ _ _ _ v); [|lia|done].
      apply u32_small, H7. by eapply list_elem_of_lookup_2.
    - rewrite lookup_seq_ge, lookup_ge_None_2 by lia. done. }
  rewrite E1, E2, E3, E4, E5, E6, !s16_u16 by done. done.
Qed.

(** Other inodes of the same block are not touched. *)
Lemma load_store_ne x y d :
  length (i_addrs x) = 13%nat → i_inum y mod IPB ≠ i_inum x mod IPB →
  load_dinode (store_dinode x d) y = load_dinode d y.
Proof.
  intros Ha Hne. assert (W := store_dinode_in x Ha).
  assert (Ho : (dinode_off (i_inum y) + 64 ≤ dinode_off (i_inum x) ∨ dinode_off (i_inum x) + 64 ≤ dinode_off (i_inum y))%nat).
  { unfold dinode_off, dinode_size, IPB, BSIZE in *. change (512 / 64) with 8 in *. lia. }
  unfold load_dinode. cbv zeta. set (oy := dinode_off (i_inum y)) in *.
  rewrite !(get16_out _ _ _ _ _ W), (get32_out _ _ _ _ (oy + 8) W) by lia.
  assert ((λ i, get32 (store_dinode x d) (oy + 12 + 4 * i)) <$> seq 0 13 =
          (λ i, get32 d (oy + 12 + 4 * i)) <$> seq 0 13) as ->; [|done].
  apply list_fmap_ext. intros _ i [_ Hi]%list_elem_of_lookup_2%elem_of_seq. apply (get32_out _ _ _ _ _ W). lia.
Qed.

(** ** The inode cache *)

Section icache.
Context `{Hk : kenv} `{Hd : disk}.
Implicit Types (s t : kstate) (l : list inode) (x : inode).

(** An entry in use is the only one of its inode. *)
Definition icache_ok l : Prop :=
  (∀ i x, l !! i = Some x → 0 ≤ i_ref x) ∧
  (∀ i j x y, l !! i = Some x → l !! j = Some y → 0 < i_ref x → 0 < i_ref y →
     i_dev x = i_dev y → i_inum x = i_inum y → i = j).

Definition is_inode (dev inum : Z) x : Prop := 0 < i_ref x ∧ i_dev x = dev ∧ i_inum x = inum.

Lemma icache_hit_Some dev inum l ip :
  icache_hit dev inum l = Some ip → ∃ x, l !! ip = Some x ∧ is_inode dev inum x.
Proof.
  unfold icache_hit. intros ([i x] & Hf & ->)%fmap_Some.
  apply list_find_Some in Hf as (Hi & HP & _). exists x. split; [done|].
  apply andb_true_iff in HP as [[H1 H2]%andb_true_iff H3]. unfold is_inode. lia.
Qed.

Lemma icache_hit_None dev inum l i x :
  icache_hit dev inum l = None → l !! i = Some x → ¬ is_inode dev inum x.
Proof.
  unfold icache_hit. intros Hf%fmap_None Hi (H1 & H2 & H3). apply list_find_None in Hf.
  rewrite Forall_lookup in Hf. apply (Hf i x Hi).
  rewrite (proj2 (Z.ltb_lt _ _) H1), H2, H3, !Z.eqb_refl. done.
Qed.

Lemma icache_empty_Some l ip :
  icache_empty l = Some ip → ∃ x, l !! ip = Some x ∧ i_ref x = 0 ∧
    ∀ j y, l !! j = Some y → (j < ip)%nat → i_ref y ≠ 0.
Proof.
  unfold icache_empty. intros ([i x] & Hf & ->)%fmap_Some.
  apply list_find_Some in Hf as (Hi & HP & Hm). exists x. split_and!; [done|lia|].
  intros j y Hj Hlt Hr. apply (Hm j y Hj Hlt). lia.
Qed.

Lemma get_inode_eq s i x : k_icache s !! i = Some x → get_inode i s = Ret x s.
Proof. intros E. unfold get_inode. mred. by rewrite E. Qed.

Lemma upd_inode_eq s i x f :
  k_icache s !! i = Some x → upd_inode i f s = Ret tt (s <| k_icache ::= <[i := f x]> |>).
Proof.
  intros E. unfold upd_inode. step (get_inode_eq _ _ _ E). unfold modify. cbn.
  by rewrite (alter_insert _ _ _ x).
Qed.

(** A short critical section under [icache.lock] that changes one entry. *)
Lemma icache_section {A} (a : A) s i x f :
  cpu_wf s → lock_free LkIcache s → k_icache s !! i = Some x →
  (do* upd_inode i f in do* release LkIcache in ret a) (acq LkIcache s) =
  Ret a (s <| k_cpus := relcpus s |> <| k_icache ::= <[i := f x]> |>).
Proof.
  intros Hc Hl Hi. step (upd_inode_eq (acq LkIcache s) i x f Hi).
  step (release_acq LkIcache s); try done.
Qed.

Lemma iget_hit s dev inum ip x :
  cpu_wf s → lock_free LkIcache s → icache_hit dev inum (k_icache s) = Some ip → k_icache s !! ip = Some x →
  iget dev inum s = Ret ip (s <| k_cpus := relcpus s |> <| k_icache ::= <[ip := x <| i_ref ::= λ r, s32 (r + 1) |>]> |>).
Proof.
  intros Hc Hl Hf Hx. unfold iget. step (acquire_free _ _ Hc Hl). mstep. cbn [id].
  change (k_icache (acq LkIcache s)) with (k_icache s). rewrite Hf. by apply icache_section.
Qed.

Lemma iget_miss s dev inum ip x :
  cpu_wf s → lock_free LkIcache s → icache_hit dev inum (k_icache s) = None →
  icache_empty (k_icache s) = Some ip → k_icache s !! ip = Some x →
  iget dev inum s = Ret ip (s <| k_cpus := relcpus s |>
    <| k_icache ::= <[ip := x <| i_dev := dev |> <| i_inum := inum |> <| i_ref := 1 |> <| i_flags := 0 |>]> |>).
Proof.
  intros Hc Hl Hf He Hx. unfold iget. step (acquire_free _ _ Hc Hl). mstep. cbn [id].
  change (k_icache (acq LkIcache s)) with (k_icache s). rewrite Hf, He.
  by apply (icache_section ip s ip x (λ x, x <| i_dev := dev |> <| i_inum := inum |> <| i_ref := 1 |> <| i_flags := 0 |>)).
Qed.

Lemma idup_eq s ip x :
  cpu_wf s → lock_free LkIcache s → k_icache s !! ip = Some x →
  idup ip s = Ret ip (s <| k_cpus := relcpus s |> <| k_icache ::= <[ip := x <| i_ref ::= λ r, s32 (r + 1) |>]> |>).
Proof. intros Hc Hl Hx. unfold idup. step (acquire_free _ _ Hc Hl). by apply icache_section. Qed.

(** [iput] when the inode stays on disk. *)
Lemma iput_keep s ip x :
  cpu_wf s → lock_free LkIcache s → k_icache s !! ip = Some x →
  i_ref x ≠ 1 ∨ has (i_flags x) I_VALID = false ∨ i_nlink x ≠ 0 →
  iput ip s = Ret tt (s <| k_cpus := relcpus s |> <| k_icache ::= <[ip := x <| i_ref ::= λ r, s32 (r - 1) |>]> |>).
Proof.
  intros Hc Hl Hx Hk'. unfold iput. step (acquire_free _ _ Hc Hl). step (get_inode_eq (acq LkIcache s) ip x Hx).
  replace ((i_ref x =? 1) && has (i_flags x) I_VALID && (i_nlink x =? 0)) with false.
  - mstep. step (upd_inode_eq (acq LkIcache s) ip x _ Hx). by rewrite (release_acq LkIcache s).
  - symmetry. destruct (has (i_flags x) I_VALID); [|by rewrite andb_false_r].
    rewrite andb_true_r. apply andb_false_iff. rewrite !Z.eqb_neq. intuition congruence.
Qed.

(** Changing the count of an entry, or taking over an unused one. *)
Lemma icache_ok_set l i x x' :
  icache_ok l → l !! i = Some x → 0 ≤ i_ref x' →
  (0 < i_ref x' → ∀ j y, j ≠ i → l !! j = Some y → ¬ is_inode (i_dev x') (i_inum x') y) →
  icache_ok (<[i := x']> l).
Proof.
  intros [Hr Hu] Hi Hx' Hno. assert (Hlt := lookup_lt_Some _ _ _ Hi). split.
  - intros j y Hj. apply list_lookup_insert_Some in Hj as [(_ & <- & _)|[_ Hj]]; [done|by eapply Hr].
  - assert (Hone : ∀ j y, j ≠ i → l !! j = Some y → 0 < i_ref y → 0 < i_ref x' →
      i_dev y = i_dev x' → i_inum y = i_inum x' → False).
    { intros j y Hne Hj Hy Hx Hd1 Hd2. by apply (Hno Hx j y Hne Hj). }
    intros j k y z Hj Hk1 Hy Hz Hd1 Hd2.
    apply list_lookup_insert_Some in Hj as [(<- & <- & _)|[Hj1 Hj]];
      apply list_lookup_insert_Some in Hk1 as [(<- & <- & _)|[Hk1' Hk1]]; try done.
    + exfalso. by eapply (Hone k z).
    + exfalso. by eapply (Hone j y).
    + by eapply (Hu j k y z).
Qed.

Lemma icache_ok_ref l i x r :
  icache_ok l → l !! i = Some x → 0 < i_ref x → 0 ≤ r → icache_ok (<[i := x <| i_ref := r |>]> l).
Proof.
  intros Hok Hi Hx Hr. eapply icache_ok_set; try done. intros _ j y Hne Hj (H1 & H2 & H3).
  apply Hne. by eapply (proj2 Hok j i y x).
Qed.
End icache.

(** ** Locking an inode that is in memory *)

Section ilock.
Context `{Hk : kenv} `{Hd : disk}.
Implicit Types (s t : kstate) (x : inode).

Lemma busy_cleared f : has (Z.ldiff f I_BUSY) I_BUSY = false.
Proof. unfold has. by rewrite land_ldiff_same. Qed.

Lemma valid_unlocked f : has (Z.ldiff f I_BUSY) I_VALID = has f I_VALID.
Proof. change I_VALID with (2 ^ 1). rewrite has_ldiff by lia. by rewrite andb_true_r. Qed.

Lemma valid_locked f : has (Z.lor f I_BUSY) I_VALID = has f I_VALID.
Proof. rewrite has_lor. by rewrite orb_false_r. Qed.

Lemma busy_again f : has f I_BUSY = true → Z.lor (Z.ldiff f I_BUSY) I_BUSY = f.
Proof.
  change I_BUSY with (2 ^ 0). rewrite has_bit by lia. intros Hb. apply Z.bits_inj'. intros n Hn.
  rewrite Z.lor_spec, Z.ldiff_spec, Z.pow2_bits_eqb by lia. destruct (Z.eqb_spec 0 n) as [<-|].
  - by rewrite Hb, orb_true_r.
  - by rewrite andb_true_r, orb_false_r.
Qed.

Lemma iunlock_view s ip x qs :
  cpu_wf s → lock_free LkIcache s → lock_free LkPtable s → mlf_rel (k_ptable s) qs →
  k_icache s !! ip = Some x → has (i_flags x) I_BUSY = true → 1 ≤ i_ref x →
  ∃ pt, rtc pt_step (k_ptable s) pt ∧ (∃ qs', mlf_rel pt qs') ∧
    iunlock (Some ip) s = Ret tt (s <| k_cpus := relcpus s |> <| k_ptable := pt |>
      <| k_icache ::= <[ip := x <| i_flags ::= λ f, Z.ldiff f I_BUSY |>]> |>).
Proof.
  intros Hc Hl Hp Hq Hx Hb Hr.
  set (f := set i_flags (λ f, Z.ldiff f I_BUSY)).
  destruct (wakeup_release LkIcache (ChInode ip) s ((acq LkIcache s) <| k_icache ::= <[ip := f x]> |>) qs)
    as (pt & Hst & Hq' & E); try done.
  exists pt. split_and!; [done|done|]. unfold iunlock. step (get_inode_eq s ip x Hx).
  rewrite Hb, (proj2 (Z.ltb_ge _ _) Hr). cbn [negb orb]. step (acquire_free _ _ Hc Hl).
  step (upd_inode_eq (acq LkIcache s) ip x f Hx). rewrite E. by destruct s.
Qed.

Lemma ilock_view s ip x :
  cpu_wf s → lock_free LkIcache s → k_icache s !! ip = Some x →
  has (i_flags x) I_BUSY = false → has (i_flags x) I_VALID = true → 1 ≤ i_ref x →
  ilock (Some ip) s = Ret tt (s <| k_cpus := relcpus s |>
    <| k_icache ::= <[ip := x <| i_flags ::= λ f, Z.lor f I_BUSY |>]> |>).
Proof.
  intros Hc Hl Hx Hb Hv Hr. unfold ilock. step (get_inode_eq s ip x Hx). rewrite (proj2 (Z.ltb_ge _ _) Hr).
  step (acquire_free _ _ Hc Hl). unfold fuel.
  erewrite bind_ret; [|apply while_done; step (get_inode_eq (acq LkIcache s) ip x Hx); unfold ret; by rewrite Hb]. cbv beta.
  set (f := set i_flags (λ f, Z.lor f I_BUSY)).
  step (upd_inode_eq (acq LkIcache s) ip x f Hx). step (release_acq LkIcache s); try done.
  set (t := s <| k_cpus := relcpus s |> <| k_icache ::= <[ip := f x]> |>).
  assert (Ht : k_icache t !! ip = Some (f x)) by (cbn; apply list_lookup_insert_eq; by eapply lookup_lt_Some).
  step (get_inode_eq t ip (f x) Ht). change (i_flags (f x)) with (Z.lor (i_flags x) I_BUSY).
  by rewrite valid_locked, Hv.
Qed.
End ilock.

(** ** The reference counts *)

(** What the count of an entry depends on. *)
Definition entry_id (x : inode) : Z * Z * Z := (i_ref x, i_dev x, i_inum x).

(** Clients of the cache: [h] lists the pointers they hold, one occurrence per
    reference.  They call [iget], [idup] on a pointer they hold, and [iput] on
    one that is not the last of an unlinked inode; between the calls the rest
    of the kernel may do anything that leaves the counts and the identities of
    the entries alone (lock an inode, read it from disk, change its contents). *)
Section machine.
Context `{Hk : kenv} `{Hd : disk}.
Implicit Types (s t : kstate) (h : list nat).

(** Whether [iput] keeps the inode on disk. *)
Definition iput_keeps (x : inode) : Prop :=
  i_ref x ≠ 1 ∨ has (i_flags x) I_VALID = false ∨ i_nlink x ≠ 0.

Inductive iuse : kstate * list nat → kstate * list nat → Prop :=
| iuse_get s h dev inum ip t :
    length h + 1 < 2 ^ 31 → iget dev inum s = Ret ip t → iuse (s, h) (t, ip :: h)
| iuse_dup s h ip t :
    length h + 1 < 2 ^ 31 → ip ∈ h → idup ip s = Ret ip t → iuse (s, h) (t, ip :: h)
| iuse_put s h ip x t h' :
    h ≡ₚ ip :: h' → k_icache s !! ip = Some x → iput_keeps x → iput ip s = Ret tt t → iuse (s, h) (t, h')
| iuse_other s h t :
    entry_id <$> k_icache t = entry_id <$> k_icache s → cpu_wf t → lock_free LkIcache t → iuse (s, h) (t, h).

(** Each entry counts the pointers to it. *)
Definition counts s h : Prop :=
  ∀ i x, k_icache s !! i = Some x → i_ref x = Z.of_nat (length (filter (eq i) h)).

Definition iuse_inv (c : kstate * list nat) : Prop :=
  cpu_wf c.1 ∧ lock_free LkIcache c.1 ∧ icache_ok (k_icache c.1) ∧ counts c.1 c.2 ∧
  (∀ ip, ip ∈ c.2 → ∃ x, k_icache c.1 !! ip = Some x) ∧ length c.2 < 2 ^ 31.

Lemma refs_held s h ip x : counts s h → k_icache s !! ip = Some x → 0 < i_ref x ↔ ip ∈ h.
Proof.
  intros Hc Hx. rewrite (Hc _ _ Hx). split.
  - intros Hlt. destruct (filter (eq ip) h) as [|j l] eqn:E; [cbn in Hlt; lia|].
    assert (j ∈ filter (eq ip) h) as Hj by (rewrite E; by left). by apply list_elem_of_filter in Hj as [<- ?].
  - intros Hin. assert (ip ∈ filter (eq ip) h) as Hj by (by apply list_elem_of_filter).
    destruct (filter (eq ip) h); [by apply elem_of_nil in Hj|cbn; lia].
Qed.

Lemma relcpus_wf s : cpu_wf s → cpu_wf (s <| k_cpus := relcpus s |>).
Proof. intros Hc. apply cpu_wf_eqv; [done|]. apply cpus_eqv_relcpus. Qed.

(** One entry changes to count one pointer more or less. *)
Lemma iuse_inv_set s h h' ip x x' :
  iuse_inv (s, h) → k_icache s !! ip = Some x → 0 ≤ i_ref x' →
  (0 < i_ref x' → ∀ j y, j ≠ ip → k_icache s !! j = Some y → ¬ is_inode (i_dev x') (i_inum x') y) →
  i_ref x' = Z.of_nat (length (filter (eq ip) h')) →
  (∀ i, i ≠ ip → length (filter (eq i) h') = length (filter (eq i) h)) →
  (∀ i, i ∈ h' → i = ip ∨ i ∈ h) → length h' < 2 ^ 31 →
  iuse_inv (s <| k_cpus := relcpus s |> <| k_icache ::= <[ip := x']> |>, h').
Proof.
  intros (Hc & Hl & Hok & Hco & Hin & _) Hx H0 Hno Hr Hne Hsub Hlen. assert (Hlt := lookup_lt_Some _ _ _ Hx). cbn in *.
  split_and!; cbn.
  - by eapply (cpu_wf_ext (s <| k_cpus := relcpus s |>)); [done|done|apply relcpus_wf].
  - done.
  - by eapply icache_ok_set.
  - intros i y Hy. cbn in Hy. apply list_lookup_insert_Some in Hy as [(<- & <- & _)|[Hi Hy]]; [done|].
    rewrite Hne by done. by apply Hco.
  - intros i [->|Hi]%Hsub; [rewrite list_lookup_insert_eq by done; by eexists|].
    destruct (decide (i = ip)) as [->|Hi']; [rewrite list_lookup_insert_eq by done; by eexists|].
    rewrite list_lookup_insert_ne by done. by apply Hin.
  - done.
Qed.

(** The pointers after one more reference to [ip], or one fewer. *)
Lemma count_cons ip h : length (filter (eq ip) (ip :: h)) = S (length (filter (eq ip) h)).
Proof. by rewrite filter_cons_True. Qed.
Lemma count_cons_ne i ip h : i ≠ ip → length (filter (eq i) (ip :: h)) = length (filter (eq i) h).
Proof. intros Hne. by rewrite filter_cons_False. Qed.

Lemma count_le i h : (length (filter (eq i) h) ≤ length h)%nat.
Proof. apply length_filter. Qed.

Lemma iuse_get_inv s h dev inum ip t :
  iuse_inv (s, h) → length h + 1 < 2 ^ 31 → iget dev inum s = Ret ip t → iuse_inv (t, ip :: h).
Proof.
  intros Hi Hlen E. assert (Hi' := Hi). destruct Hi' as (Hc & Hl & Hok & Hco & _). cbn in *.
  destruct (icache_hit dev inum (k_icache s)) as [ip'|] eqn:Eh.
  - destruct (icache_hit_Some _ _ _ _ Eh) as (x & Hx & Hr & Hdx & Hnx).
    rewrite (iget_hit s dev inum ip' x Hc Hl Eh Hx) in E. injection E as <- <-.
    assert (Hn := Hco _ _ Hx). assert (Hle := count_le ip' h).
    eapply (iuse_inv_set s h); [done|exact Hx|..].
    + cbn. rewrite s32_small by lia. lia.
    + cbn. intros _ j y Hne Hj (H1 & H2 & H3). apply Hne. by eapply (proj2 Hok j ip' y x).
    + cbn [i_ref set Settable]. rewrite count_cons. cbn. rewrite s32_small by lia. lia.
    + intros i Hne. by apply count_cons_ne.
    + by intros i [->|?]%elem_of_cons; [left|right].
    + cbn [length]. lia.
  - destruct (icache_empty (k_icache s)) as [ip'|] eqn:Ee.
    + destruct (icache_empty_Some _ _ Ee) as (x & Hx & Hr & _).
      rewrite (iget_miss s dev inum ip' x Hc Hl Eh Ee Hx) in E. injection E as <- <-.
      assert (Hn := Hco _ _ Hx).
      eapply (iuse_inv_set s h); [done|exact Hx|cbn; lia|..].
      * cbn. intros _ j y Hne Hj. by eapply icache_hit_None.
      * rewrite count_cons. cbn. lia.
      * intros i Hne. by apply count_cons_ne.
      * by intros i [->|?]%elem_of_cons; [left|right].
      * cbn [length]. lia.
    + exfalso. revert E. unfold iget. step (acquire_free _ _ Hc Hl). mstep. cbn [id].
      change (k_icache (acq LkIcache s)) with (k_icache s). by rewrite Eh, Ee.
Qed.

(** A reference added to, or dropped from, an entry in use. *)
Lemma iuse_ref_inv s h h' ip x r :
  iuse_inv (s, h) → k_icache s !! ip = Some x → ip ∈ h → 0 ≤ r →
  r = Z.of_nat (length (filter (eq ip) h')) →
  (∀ i, i ≠ ip → length (filter (eq i) h') = length (filter (eq i) h)) →
  (∀ i, i ∈ h' → i = ip ∨ i ∈ h) → length h' < 2 ^ 31 →
  iuse_inv (s <| k_cpus := relcpus s |> <| k_icache ::= <[ip := x <| i_ref := r |>]> |>, h').
Proof.
  intros Hi Hx Hin H0 Hr Hne Hsub Hlen. assert (Hi' := Hi). destruct Hi' as (_ & _ & Hok & Hco & _). cbn in *.
  assert (Hpos := proj2 (refs_held s h ip x Hco Hx) Hin).
  eapply (iuse_inv_set s h); [done|exact Hx|done| |done|done|done|done].
  cbn. intros _ j y Hj Hy (H1 & H2 & H3). apply Hj. by eapply (proj2 Hok j ip y x).
Qed.

Lemma iuse_step_inv c c' : iuse_inv c → iuse c c' → iuse_inv c'.
Proof.
  intros Hi Hs. destruct Hs as [s h dev inum ip t Hlen E|s h ip t Hlen Hin E|s h ip x t h' Hp Hx Hk' E|s h t Hids Hc' Hl'].
  - by eapply iuse_get_inv.
  - assert (Hi' := Hi). destruct Hi' as (Hc & Hl & Hok & Hco & Hex & Hn31). cbn in *. destruct (Hex ip Hin) as [x Hx].
    rewrite (idup_eq s ip x Hc Hl Hx) in E. injection E as <-. assert (Hn := Hco _ _ Hx). assert (Hle := count_le ip h).
    assert (Hr : s32 (i_ref x + 1) = i_ref x + 1) by (apply s32_small; lia).
    apply (iuse_ref_inv s h (ip :: h) ip x); [done|done|done|lia|rewrite count_cons; lia|by intros; apply count_cons_ne| |cbn [length]; lia].
    by intros i [->|?]%elem_of_cons; [left|right].
  - assert (Hi' := Hi). destruct Hi' as (Hc & Hl & Hok & Hco & Hex & Hn31). cbn in *.
    rewrite (iput_keep s ip x Hc Hl Hx Hk') in E. injection E as <-. assert (Hn := Hco _ _ Hx).
    assert (Hf : ∀ i, filter (eq i) h ≡ₚ filter (eq i) (ip :: h')) by (intros i; by rewrite Hp).
    assert (Hli : ∀ i, length (filter (eq i) h) = length (filter (eq i) (ip :: h'))) by (intros i; by rewrite Hf).
    rewrite Hli, count_cons in Hn. assert (Hle := count_le ip h').
    assert (ip ∈ h) as Hin by (rewrite Hp; by left).
    assert (Hpl : length h = S (length h')) by (by rewrite Hp).
    assert (Hr : s32 (i_ref x - 1) = i_ref x - 1) by (apply s32_small; lia).
    apply (iuse_ref_inv s h h' ip x); [done|done|done|lia|lia| | |lia].
    + intros i Hne. by rewrite Hli, count_cons_ne.
    + intros i Hi'. right. rewrite Hp. by right.
  - destruct Hi as (Hc & Hl & Hok & Hco & Hex & Hn31). cbn in *.
    assert (Hid : ∀ i y, k_icache t !! i = Some y → ∃ x, k_icache s !! i = Some x ∧ entry_id x = entry_id y).
    { intros i y Hy. assert ((entry_id <$> k_icache t) !! i = Some (entry_id y)) as Hm by (by rewrite list_lookup_fmap, Hy).
      rewrite Hids, list_lookup_fmap in Hm. by apply fmap_Some in Hm as (x & ? & ?); exists x. }
    split_and!; [done|done|split| | |done].
    + intros i y (x & Hx & [= E1 E2 E3])%Hid. rewrite <-E1. by eapply Hok.
    + intros i j y z (x & Hx & [= <- <- <-])%Hid (w & Hw & [= <- <- <-])%Hid. by eapply Hok.
    + intros i y (x & Hx & [= <- _ _])%Hid. by apply Hco.
    + intros ip (x & Hx)%Hex. assert (Hlt := lookup_lt_Some _ _ _ Hx). apply lookup_lt_is_Some_2.
      apply (f_equal length) in Hids. rewrite !length_fmap in Hids.
      by rewrite <-Hids in Hlt.
Qed.

Lemma iuse_reach_inv c c' : iuse_inv c → rtc iuse c c' → iuse_inv c'.
Proof. intros Hi Hs. induction Hs; eauto using iuse_step_inv. Qed.
End machine.

(** ** Properties *)

Section props.
Context `{Hk : kenv} `{Hd : disk} `{Hdl : !disk_laws}.
Implicit Types (s t : kstate) (h : list nat).

End props.

(** ** Witnesses *)

Module icache_demo.
Definition got (dev inum : Z) (s : kstate) : kstate :=
  match iget (H := kenv_example) dev inum s with Ret _ t => t | _ => s end.
(** Two references to inode 1, one to inode 2. *)
Definition s1 : kstate := got 1 1 boot_state.
Definition s2 : kstate := got 1 2 s1.
Definition s3 : kstate := got 1 1 s2.
End icache_demo.

