(* ===== verification/Contents.v ===== *)
(** The contents of files (iupdate, bmap, readi and writei of fs.c) inside a
    transaction, for files whose blocks are allocated. *)
From stdpp Require Import base numbers gmap strings option list.
From S2P Require Import Prelude State Spinlock Str Cprintf Kalloc Proc Mlf Sched Bio Blocks Log LogSpec Tx Crash Fs FsTx Balloc Inode.

(** ** Files as byte sequences *)

Definition contents := Z → option (list Z).

(** The disk block of block [bn] of a file: a direct address, or an address
    in the indirect block. *)
Definition file_block (c : contents) (x : inode) (bn : Z) : option Z :=
  if bn <? NDIRECT then i_addrs x !! Z.to_nat bn
  else if bn - NDIRECT <? NINDIRECT then
    ind ← i_addrs x !! Z.to_nat NDIRECT; d ← c ind; Some (get32 d (4 * Z.to_nat (bn - NDIRECT)))
  else None.

(** Byte [i] of a file. *)
Definition file_byte (c : contents) (x : inode) (i : Z) : option Z :=
  a ← file_block c x (i / BSIZE); d ← c a; d !! Z.to_nat (i mod BSIZE).

(** Block [bn] is allocated: its address is set, and so is the one of the
    indirect block if it is needed. *)
Definition maps (s : kstate) (x : inode) (bn a : Z) : Prop :=
  file_block (content s) x bn = Some a ∧ a ≠ 0 ∧ home s a ∧
  (NDIRECT ≤ bn → ∃ ind, i_addrs x !! Z.to_nat NDIRECT = Some ind ∧ ind ≠ 0 ∧ home s ind).

(** Blocks have their full size. *)
Definition full_blocks (s : kstate) : Prop :=
  ∀ sec d, home s sec → content s sec = Some d → length d = Z.to_nat BSIZE.

(** The first [nb] blocks of a file are allocated, each to a block of its own
    that is neither the indirect block nor the block of the inode. *)
Record file_ok (s : kstate) (x : inode) (nb : Z) : Prop := {
  fo_dev : i_dev x = 1;
  fo_maps : ∀ bn, 0 ≤ bn < nb → ∃ a, maps s x bn a;
  fo_inj : ∀ bn bn' a, 0 ≤ bn < nb → 0 ≤ bn' < nb →
    file_block (content s) x bn = Some a → file_block (content s) x bn' = Some a → bn = bn';
  fo_ind : ∀ bn a, 0 ≤ bn < nb → file_block (content s) x bn = Some a → i_addrs x !! Z.to_nat NDIRECT ≠ Some a;
  fo_inode : ∀ bn a, 0 ≤ bn < nb → file_block (content s) x bn = Some a → a ≠ IBLOCK (i_inum x);
  fo_apart : i_addrs x !! Z.to_nat NDIRECT ≠ Some (IBLOCK (i_inum x));
  fo_full : full_blocks s;
}.

Section contents.
Context `{Hk : kenv} `{Hd : disk} `{Hdl : !disk_laws}.
Implicit Types (s t : kstate) (x : inode) (H : gset Z).

Lemma after_icache s t H c : after s t H c → k_icache t = k_icache s.
Proof. intros [F _ _ _ _]. by rewrite F. Qed.

Lemma get_inode_after s t H c ip x :
  after s t H c → k_icache s !! ip = Some x → get_inode ip t = Ret x t.
Proof. intros A Hx. apply get_inode_eq. by rewrite (after_icache _ _ _ _ A). Qed.

Lemma get_addr_eq s ip x i a : k_icache s !! ip = Some x → i_addrs x !! i = Some a → get_addr ip i s = Ret a s.
Proof. intros Hx Ha. unfold get_addr. step (get_inode_eq s ip x Hx). by rewrite Ha. Qed.

Lemma bmap_view k s d0 ip x bn a :
  tx_at k s d0 ∅ → k_icache s !! ip = Some x → i_dev x = 1 → maps s x bn a →
  ∃ t, bmap ip bn s = Ret a t ∧ tx_at k t d0 ∅ ∧ after s t ∅ (content s).
Proof.
  intros Ht Hx Hdev (Hb & Ha & Hh & Hi). unfold bmap, file_block in *.
  destruct (Z.ltb_spec bn NDIRECT) as [Hlt|Hge].
  - exists s. split_and!; [|done|apply after_refl]. step (get_addr_eq s ip x _ a Hx Hb).
    by rewrite (proj2 (Z.eqb_neq a 0) Ha).
  - destruct (Hi Hge) as (ind & Hind & Hind0 & Hindh). rewrite Hind in Hb. cbn [mbind option_bind] in Hb.
    destruct (Z.ltb_spec (bn - NDIRECT) NINDIRECT) as [Hlt|]; [|done].
    destruct (content s ind) as [d|] eqn:Ed; [|done]. apply (inj Some) in Hb.
    destruct (tx_look k s d0 ∅ ind Ht Hindh) as (bp & b & t1 & t & E1 & E2 & C & E3 & T & A); [set_solver|].
    exists t. split_and!; [|done|done]. cbv zeta.
    step (get_addr_eq s ip x _ ind Hx Hind). step (get_inode_eq s ip x Hx).
    rewrite (proj2 (Z.eqb_neq ind 0) Hind0), Hdev. mstep. step E1. step E2.
    rewrite Ed in C. injection C as <-. rewrite Hb, (proj2 (Z.eqb_neq a 0) Ha). mstep. by step E3.
Qed.

(** What a file is depends on the contents of the sectors. *)
Lemma maps_after s t x bn a : after s t ∅ (content s) → maps s x bn a → maps t x bn a.
Proof.
  intros A (Hb & Ha & Hh & Hi). assert (Hho := λ v, after_home s t _ _ v A). unfold maps.
  rewrite !Hho. split_and!; [|done|done|].
  - revert Hb. unfold file_block. destruct (Z.ltb_spec bn NDIRECT) as [|Hge]; [done|].
    destruct (Hi Hge) as (ind & -> & _ & Hindh). cbn [mbind option_bind]. by rewrite (af_content _ _ _ _ A).
  - intros Hge. destruct (Hi Hge) as (ind & ? & ? & ?). exists ind. by rewrite Hho.
Qed.

Lemma file_byte_after s t x i a :
  after s t ∅ (content s) → maps s x (i / BSIZE) a → file_byte (content t) x i = file_byte (content s) x i.
Proof.
  intros A Ha. unfold file_byte. destruct (maps_after _ _ _ _ _ A Ha) as (-> & _), Ha as (-> & _ & Hh & _).
  cbn [mbind option_bind]. by rewrite (af_content _ _ _ _ A).
Qed.

Lemma full_blocks_after s t H c :
  after s t H c → (∀ sec d, home s sec → c sec = Some d → length d = Z.to_nat BSIZE) → full_blocks t.
Proof.
  intros A Hl sec d Hs. rewrite (after_home s t _ _ sec A) in Hs. rewrite (af_content _ _ _ _ A) by done.
  by apply Hl.
Qed.

(** [file_byte] read in the block that holds it. *)
Lemma file_byte_in s x off a d (i : nat) :
  file_block (content s) x (off / BSIZE) = Some a → content s a = Some d → 0 ≤ off →
  off mod BSIZE + i < BSIZE →
  file_byte (content s) x (off + i) = d !! (Z.to_nat (off mod BSIZE) + i)%nat.
Proof.
  intros Hb Hd' H0 Hi. unfold file_byte, BSIZE in *. replace ((off + i) / 512) with (off / 512) by lia.
  rewrite Hb. cbn. rewrite Hd'. cbn. f_equal. lia.
Qed.

Lemma lookup_piece (l : list Z) m o i :
  (i < m)%nat → take m (drop o l) !! i = l !! (o + i)%nat.
Proof. intros Hi. rewrite lookup_take_lt, lookup_drop by done. done. Qed.

(** Bytes [off], [off + 1], ... of a file. *)
Definition bytes_at (c : contents) x (off : Z) (l : list Z) : Prop :=
  ∀ i, (i < length l)%nat → l !! i = file_byte c x (off + i).

Lemma readi_loop_view (fu : nat) k s d0 ip x off n tot :
  tx_at k s d0 ∅ → k_icache s !! ip = Some x → i_dev x = 1 → full_blocks s → 0 ≤ off → 0 ≤ tot ≤ n →
  (∀ bn, off / BSIZE ≤ bn → bn * BSIZE < off + (n - tot) → ∃ a, maps s x bn a) →
  (tot < n → off mod BSIZE + (n - tot) ≤ BSIZE * fu) →
  ∃ l t, readi_loop fu ip off n tot s = Ret l t ∧ length l = Z.to_nat (n - tot) ∧
    bytes_at (content s) x off l ∧ tx_at k t d0 ∅ ∧ after s t ∅ (content s).
Proof.
  revert s off tot. induction fu as [|fu IH]; intros s off tot Ht Hx Hdev Hfull Ho Htot Hm Hfu.
  all: unfold readi_loop; fold readi_loop; destruct (Z.ltb_spec tot n) as [Hlt|Hge];
    [|exists [], s; split_and!; [done|cbn; lia|by intros i Hi%Nat.nlt_0_r|done|apply after_refl]].
  { specialize (Hfu Hlt). unfold BSIZE in Hfu. lia. }
  specialize (Hfu Hlt). set (m := chunk off n tot).
  assert (Hmr : 0 < m ≤ n - tot ∧ m ≤ BSIZE - off mod BSIZE) by (unfold m, chunk, BSIZE in *; lia).
  destruct (Hm (off / BSIZE)) as (a & Ha); [lia|unfold BSIZE in *; lia|].
  destruct (bmap_view k s d0 ip x (off / BSIZE) a Ht Hx Hdev Ha) as (t1 & E1 & T1 & A1).
  assert (Ha1 := Ha). destruct Ha1 as (Hb & Ha0 & Hh & _).
  destruct (tx_look k t1 d0 ∅ a T1) as (bp & b & t2 & t3 & E2 & E3 & C & E4 & T3 & A3);
    [by apply (after_home _ _ _ _ _ A1)|set_solver|].
  assert (A := after_trans _ _ _ _ _ _ A1 A3).
  assert (A' : after s t3 ∅ (content s)).
  { eapply after_ext; [exact A|]. intros v Hv. by rewrite (af_content _ _ _ _ A1). }
  rewrite (af_content _ _ _ _ A1) in C by done. assert (Hlb := Hfull a _ Hh C).
  destruct (IH t3 (off + m) (tot + m)) as (l & t & E5 & Hl & Hby & T & A5); try done.
  - by rewrite (after_icache _ _ _ _ A').
  - eapply full_blocks_after; [exact A'|done].
  - lia.
  - lia.
  - intros bn H1 H2. destruct (Hm bn) as (a' & Ha'); [unfold BSIZE in *; lia|lia|].
    exists a'. by eapply maps_after.
  - intros Hlt'. assert (m = BSIZE - off mod BSIZE) as -> by (unfold m, chunk in *; lia). unfold BSIZE in *. lia.
  - exists (take (Z.to_nat m) (drop (Z.to_nat (off mod BSIZE)) (b_data b)) ++ l), t.
    assert (Hpl : length (take (Z.to_nat m) (drop (Z.to_nat (off mod BSIZE)) (b_data b))) = Z.to_nat m).
    { rewrite length_take, length_drop, Hlb. unfold BSIZE in *. lia. }
    split_and!; [| | |done|].
    + step (get_inode_eq s ip x Hx). step E1. rewrite Hdev. step E2. step E3. step E4.
      fold m. by step E5.
    + rewrite length_app, Hpl, Hl. lia.
    + intros i Hi. rewrite length_app, Hpl in Hi. destruct (decide (i < Z.to_nat m)%nat).
      * rewrite lookup_app_l by (by rewrite Hpl). rewrite lookup_piece by done.
        symmetry. eapply file_byte_in; [done|done|done|lia].
      * rewrite lookup_app_r, Hpl by lia. rewrite (Hby (i - Z.to_nat m)%nat) by lia.
        replace (off + m + (i - Z.to_nat m)%nat) with (off + i) by lia.
        destruct (Hm ((off + i) / BSIZE)) as (a' & Ha'); [unfold BSIZE; lia|unfold BSIZE; lia|].
        by eapply file_byte_after.
    + eapply after_ext; [eapply after_trans; [exact A'|exact A5]|]. intros v Hv.
      by rewrite (af_content _ _ _ _ A').
Qed.

(** ** Changing a block of a file *)

Lemma splice_lookup o (l d : list Z) j :
  (o + length l ≤ length d)%nat →
  splice o l d !! j = if decide (o ≤ j < o + length l)%nat then l !! (j - o)%nat else d !! j.
Proof.
  intros Hl. unfold splice. assert (Ht : length (take o d) = o) by (rewrite length_take; lia).
  case_decide as Hj.
  - rewrite lookup_app_r, Ht, lookup_app_l by lia. done.
  - destruct (decide (j < o)%nat).
    + by rewrite lookup_app_l, lookup_take_lt by lia.
    + rewrite !lookup_app_r, Ht, lookup_drop by lia. f_equal. lia.
Qed.

Lemma splice_length o (l d : list Z) : (o + length l ≤ length d)%nat → length (splice o l d) = length d.
Proof. intros Hl. unfold splice. rewrite !length_app, length_take, length_drop. lia. Qed.

(** The indirect block is not touched, so the blocks stay where they are. *)
Lemma file_block_after s t x c bn a :
  after s t ∅ c → (∀ ind, i_addrs x !! Z.to_nat NDIRECT = Some ind → c ind = content s ind) →
  maps s x bn a → maps t x bn a.
Proof.
  intros A Hc (Hb & Ha & Hh & Hi). assert (Hho := λ v, after_home s t _ _ v A). unfold maps.
  rewrite !Hho. split_and!; [|done|done|].
  - revert Hb. unfold file_block. destruct (Z.ltb_spec bn NDIRECT) as [|Hge]; [done|].
    destruct (Hi Hge) as (ind & Hind & _ & Hindh). rewrite Hind. cbn [mbind option_bind].
    by rewrite (af_content _ _ _ _ A), Hc.
  - intros Hge. destruct (Hi Hge) as (ind & ? & ? & ?). exists ind. by rewrite Hho.
Qed.

Lemma file_ok_after s t x nb c :
  file_ok s x nb → after s t ∅ c → (∀ ind, i_addrs x !! Z.to_nat NDIRECT = Some ind → c ind = content s ind) →
  (∀ sec d, home s sec → c sec = Some d → length d = Z.to_nat BSIZE) →
  file_ok t x nb ∧ ∀ bn, 0 ≤ bn < nb → file_block (content t) x bn = file_block (content s) x bn.
Proof.
  intros [Hdev Hm Hinj Hind Hino Hap Hfull] A Hc Hl.
  assert (Hsame : ∀ bn, 0 ≤ bn < nb → file_block (content t) x bn = file_block (content s) x bn).
  { intros bn Hbn. destruct (Hm bn Hbn) as (a & Ha).
    destruct (file_block_after _ _ _ _ _ _ A Hc Ha) as (-> & _), Ha as (-> & _). done. }
  split; [|done]. split; [done|..].
  - intros bn Hbn. destruct (Hm bn Hbn) as (a & Ha). exists a. by eapply file_block_after.
  - intros bn bn' a H1 H2. rewrite !Hsame by done. by apply Hinj.
  - intros bn a H1. rewrite Hsame by done. by apply Hind.
  - intros bn a H1. rewrite Hsame by done. by apply Hino.
  - done.
  - by eapply full_blocks_after.
Qed.

(** From [s] to [t] the bytes [l] are stored at offset [off] of the file, and
    nothing else changes on disk. *)
Record wrote s t x (nb off : Z) (l : list Z) : Prop := {
  wr_after : after s t ∅ (content t);
  wr_ok : file_ok t x nb;
  wr_block : ∀ bn, 0 ≤ bn < nb → file_block (content t) x bn = file_block (content s) x bn;
  wr_byte : ∀ i, 0 ≤ i < nb * BSIZE → file_byte (content t) x i =
    if decide (off ≤ i < off + length l) then l !! Z.to_nat (i - off) else file_byte (content s) x i;
  wr_other : ∀ sec, home s sec → (∀ bn, 0 ≤ bn < nb → file_block (content s) x bn ≠ Some sec) →
    content t sec = content s sec;
}.

Lemma wrote_nil s x nb off : file_ok s x nb → wrote s s x nb off [].
Proof.
  intros Hf. split; try done; [apply after_refl|]. intros i Hi. rewrite decide_False; [done|]. cbn. lia.
Qed.

Lemma wrote_app s t u x nb off l l' :
  wrote s t x nb off l → wrote t u x nb (off + length l) l' → wrote s u x nb off (l ++ l').
Proof.
  intros [A1 O1 B1 Y1 X1] [A2 O2 B2 Y2 X2]. split.
  - by eapply after_trans.
  - done.
  - intros bn Hbn. by rewrite B2, B1.
  - intros i Hi. rewrite Y2, Y1 by done. rewrite length_app, Nat2Z.inj_add.
    repeat case_decide; try lia; try done.
    + rewrite lookup_app_r by lia. f_equal. lia.
    + rewrite lookup_app_l by lia. done.
  - intros sec Hs Hno. rewrite X2.
    + by apply X1.
    + by apply (after_home _ _ _ _ _ A1).
    + intros bn Hbn. rewrite B1 by done. by apply Hno.
Qed.

(** One block. *)
Lemma wrote_block s t x nb off a d l :
  file_ok s x nb → 0 ≤ off → off / BSIZE < nb → off mod BSIZE + length l ≤ BSIZE →
  file_block (content s) x (off / BSIZE) = Some a → content s a = Some d →
  after s t ∅ (put_c a (splice (Z.to_nat (off mod BSIZE)) l d) (content s)) →
  wrote s t x nb off l.
Proof.
  intros Hf Ho Hnb Hl Ha Hd' A. assert (Hbn : 0 ≤ off / BSIZE < nb) by (unfold BSIZE in *; lia).
  destruct (fo_maps _ _ _ Hf _ Hbn) as (a' & Ha'). assert (Ha'' := Ha'). destruct Ha'' as (Hb & Ha0 & Hh & _).
  rewrite Ha in Hb. injection Hb as <-. assert (Hld := fo_full _ _ _ Hf _ _ Hh Hd').
  assert (Hlen : (Z.to_nat (off mod BSIZE) + length l ≤ length d)%nat) by (rewrite Hld; unfold BSIZE in *; lia).
  destruct (file_ok_after s t x nb _ Hf A) as [Hok Hsame].
  { intros ind Hind. unfold put_c. rewrite decide_False; [done|]. intros ->. by destruct (fo_ind _ _ _ Hf _ _ Hbn Ha). }
  { intros sec d' Hs. unfold put_c. case_decide; [|by apply (fo_full _ _ _ Hf)].
    intros [= <-]. by rewrite splice_length. }
  split.
  - eapply after_ext; [exact A|]. intros v Hv. by rewrite (af_content _ _ _ _ A).
  - done.
  - done.
  - intros i Hi. assert (Hib : 0 ≤ i / BSIZE < nb) by (unfold BSIZE in *; lia). unfold file_byte.
    rewrite Hsame by done. destruct (fo_maps _ _ _ Hf _ Hib) as (b & Hbm). destruct Hbm as (Hb & _ & Hbh & _).
    rewrite Hb. cbn [mbind option_bind]. rewrite (af_content _ _ _ _ A) by done. unfold put_c.
    destruct (decide (b = a)) as [->|Hne].
    + assert (i / BSIZE = off / BSIZE) as E by (by eapply (fo_inj _ _ _ Hf)).
      cbn [mbind option_bind]. rewrite splice_lookup, Hd' by done. cbn [mbind option_bind].
      repeat case_decide; try done; try (unfold BSIZE in *; lia). f_equal. unfold BSIZE in *. lia.
    + rewrite decide_False; [done|]. intros Hr. apply Hne.
      assert (i / BSIZE = off / BSIZE) as E by (unfold BSIZE in *; lia). rewrite E in Hb. congruence.
  - intros sec Hs Hno. rewrite (af_content _ _ _ _ A) by done. unfold put_c.
    rewrite decide_False; [done|]. intros ->. by apply (Hno (off / BSIZE)).
Qed.

(** ** [writei] and [iupdate] *)

Lemma writei_loop_view (fu room : nat) k s d0 ip x nb src off n tot :
  tx_at (room + k) s d0 ∅ → k_icache s !! ip = Some x → file_ok s x nb → 0 ≤ off → 0 ≤ tot ≤ n →
  length src = Z.to_nat n → off + (n - tot) ≤ nb * BSIZE → (room ≤ fu)%nat →
  (tot < n → off mod BSIZE + (n - tot) ≤ BSIZE * room) →
  ∃ t, writei_loop fu ip src off n tot s = Ret (off + (n - tot)) t ∧
    tx_at k t d0 ∅ ∧ wrote s t x nb off (drop (Z.to_nat tot) src).
Proof.
  revert room s off tot. induction fu as [|fu IH]; intros room s off tot Ht Hx Hf Ho Htot Hsrc Hnb Hfu Hr.
  all: unfold writei_loop; fold writei_loop; destruct (Z.ltb_spec tot n) as [Hlt|Hge];
    [|exists s; split_and!; [unfold ret; f_equal; lia|split; [apply Ht|eapply tx_can_weaken; [apply Ht|lia]]
      |rewrite drop_ge by lia; by apply wrote_nil]].
  { specialize (Hr Hlt). unfold BSIZE in Hr. lia. }
  specialize (Hr Hlt). destruct room as [|room]; [unfold BSIZE in Hr; lia|]. set (m := chunk off n tot).
  assert (Hmr : 0 < m ≤ n - tot ∧ m ≤ BSIZE - off mod BSIZE) by (unfold m, chunk, BSIZE in *; lia).
  assert (Hbn : 0 ≤ off / BSIZE < nb) by (unfold BSIZE in *; lia).
  destruct (fo_maps _ _ _ Hf _ Hbn) as (a & Ha). assert (Hdev := fo_dev _ _ _ Hf).
  destruct (bmap_view _ s d0 ip x _ a Ht Hx Hdev Ha) as (t1 & E1 & T1 & A1).
  destruct Ha as (Hb & Ha0 & Hh & _). set (piece := take (Z.to_nat m) (drop (Z.to_nat tot) src)).
  assert (Hpl : length piece = Z.to_nat m) by (unfold piece; rewrite length_take, length_drop; lia).
  destruct (tx_change (room + k) t1 d0 ∅ a (splice (Z.to_nat (off mod BSIZE)) piece) T1)
    as (t2 & d & E2 & C2 & T2 & A2); [by apply (after_home _ _ _ _ _ A1)|set_solver|].
  rewrite (af_content _ _ _ _ A1) in C2 by done.
  assert (A : after s t2 ∅ (put_c a (splice (Z.to_nat (off mod BSIZE)) piece d) (content s))) by (by eapply after_put).
  assert (W : wrote s t2 x nb off piece) by (eapply wrote_block; try done; [lia|rewrite Hpl; lia]).
  destruct (IH room t2 (off + m) (tot + m)) as (t & E3 & T3 & W3); try done.
  - by rewrite (after_icache _ _ _ _ A).
  - apply W.
  - lia.
  - lia.
  - lia.
  - lia.
  - intros Hlt'. assert (m = BSIZE - off mod BSIZE) as -> by (unfold m, chunk in *; lia). unfold BSIZE in *. lia.
  - exists t. split_and!; [|done|].
    + step (get_inode_eq s ip x Hx). step E1. rewrite Hdev. unfold tx_update in E2. fold m piece.
      replace (off + (n - tot)) with (off + m + (n - (tot + m))) by lia. rewrite <-E3.
      by rewrite (bind_run3 _ _ _ _ _ _ _ _ E2).
    + replace (drop (Z.to_nat tot) src) with (piece ++ drop (Z.to_nat (tot + m)) src).
      * eapply wrote_app; [exact W|]. rewrite Hpl. by replace (off + Z.to_nat m) with (off + m) by lia.
      * unfold piece. rewrite <-(take_drop (Z.to_nat m) (drop (Z.to_nat tot) src)) at 2. f_equal.
        rewrite drop_drop. f_equal. lia.
Qed.

(** The block of an inode in a transaction. *)
Lemma iupdate_view k s d0 ip x :
  tx_at (S k) s d0 ∅ → k_icache s !! ip = Some x → i_dev x = 1 → home s (IBLOCK (i_inum x)) →
  ∃ t d, iupdate ip s = Ret tt t ∧ tx_at k t d0 ∅ ∧ content s (IBLOCK (i_inum x)) = Some d ∧
    after s t ∅ (put_c (IBLOCK (i_inum x)) (store_dinode x d) (content s)).
Proof.
  intros Ht Hx Hdev Hh.
  destruct (tx_change k s d0 ∅ _ (store_dinode x) Ht Hh) as (t & d & E & C & T & A); [set_solver|].
  exists t, d. split_and!; try done. unfold iupdate. step (get_inode_eq s ip x Hx). rewrite Hdev.
  destruct Ht as [Ht Hc]. destruct (tx_bread s d0 ∅ (IBLOCK (i_inum x)) Ht Hh) as (b & y & t1 & E1 & F1 & _);
    [set_solver|right; destruct Hc as (_ & _ & _ & ?); lia|].
  unfold tx_update in E. rewrite (bind_ret _ _ _ _ _ E1) in E. step E1.
  assert (Hx1 : k_icache t1 !! ip = Some x) by (by rewrite F1). by step (get_inode_eq t1 ip x Hx1).
Qed.

(** The inodes in memory are no concern of the block layer. *)
Lemma tx_at_icache k s d0 H f : tx_at k s d0 H → tx_at k (s <| k_icache ::= f |>) d0 H.
Proof.
  intros [[Hb [] ? ? ? ? ? ? ? ? ? ?] Hc]. split; [|done]. split; try done.
  by eapply blk_ext.
Qed.

Lemma file_ok_size s x nb v : file_ok s x nb → file_ok s (x <| i_size := v |>) nb.
Proof. by intros []. Qed.

Lemma file_ok_icache s x nb f : file_ok s x nb → file_ok (s <| k_icache ::= f |>) x nb.
Proof. by intros []. Qed.

Context `{Hv : devsw}.

Lemma readi_view k s d0 ip x nb off n :
  tx_at k s d0 ∅ → k_icache s !! ip = Some x → file_ok s x nb → i_type x ≠ T_DEV →
  0 ≤ off ≤ i_size x → i_size x ≤ nb * BSIZE → i_size x < 2 ^ 31 → 0 ≤ n → off + n < 2 ^ 32 →
  ∃ l t, readi ip off n s = Ret (Z.min n (i_size x - off), l) t ∧ length l = Z.to_nat (Z.min n (i_size x - off)) ∧
    bytes_at (content s) x off l ∧ tx_at k t d0 ∅ ∧ after s t ∅ (content s).
Proof.
  intros Ht Hx Hf Hty Hoff Hsz Hs31 Hn Hon. set (m := Z.min n (i_size x - off)).
  destruct (readi_loop_view (io_fuel m) k s d0 ip x off m 0) as (l & t & E & Hl & Hb & T & A); try done.
  - apply Hf.
  - apply Hf.
  - lia.
  - lia.
  - intros bn H1 H2. apply (fo_maps _ _ _ Hf). unfold BSIZE in *. lia.
  - intros _. unfold io_fuel, BSIZE. lia.
  - exists l, t. rewrite Z.sub_0_r in Hl. split_and!; try done. unfold readi. step (get_inode_eq s ip x Hx).
    rewrite (proj2 (Z.eqb_neq _ _) Hty), u32_small by lia.
    rewrite (proj2 (Z.ltb_ge (i_size x) off)), (proj2 (Z.ltb_ge (off + n) off)) by lia. cbn [orb]. cbv zeta.
    replace (if i_size x <? off + n then i_size x - off else n) with m.
    + step E. rewrite s32_small by lia. done.
    + destruct (Z.ltb_spec (i_size x) (off + n)); lia.
Qed.

(** The number of blocks that the [n] bytes from [off] lie in. *)
Definition span (off n : Z) : nat := Z.to_nat ((off mod BSIZE + n + BSIZE - 1) / BSIZE).

(** The file after a write: its size, its bytes, and the inode on disk if the
    file has grown. *)
Record written s t ip x (nb off : Z) (src : list Z) : Prop := {
  wn_inodes : k_icache t = <[ip := x <| i_size := Z.max (i_size x) (off + length src) |>]> (k_icache s);
  wn_ok : file_ok t (x <| i_size := Z.max (i_size x) (off + length src) |>) nb;
  wn_byte : ∀ i, 0 ≤ i < nb * BSIZE → file_byte (content t) x i =
    if decide (off ≤ i < off + length src) then src !! Z.to_nat (i - off) else file_byte (content s) x i;
  wn_disk : i_size x < off + length src → ∃ d, content t (IBLOCK (i_inum x)) = Some d ∧
    load_dinode d x = x <| i_size := off + length src |>;
  wn_other : ∀ sec, home s sec → sec ≠ IBLOCK (i_inum x) →
    (∀ bn, 0 ≤ bn < nb → file_block (content s) x bn ≠ Some sec) → content t sec = content s sec;
}.

Lemma inode_same x : x <| i_size := i_size x |> = x.
Proof. by destruct x. Qed.

(** The size of the file is raised and its inode written. *)
Lemma grow_view k s t1 d0 ip x nb off src :
  tx_at (S k) t1 d0 ∅ → k_icache s !! ip = Some x → inode_wf x → home s (IBLOCK (i_inum x)) →
  wrote s t1 x nb off src → i_size x < off + length src → off + length src < 2 ^ 32 →
  ∃ t, (do* upd_inode ip (set i_size (λ _, off + length src)) in iupdate ip) t1 = Ret tt t ∧
    tx_at k t d0 ∅ ∧ written s t ip x nb off src.
Proof.
  intros Ht Hx Hw Hh W Hg Hlt. set (x' := x <| i_size := off + length src |>).
  assert (A1 := wr_after _ _ _ _ _ _ W). assert (Hx1 : k_icache t1 !! ip = Some x) by (by rewrite (after_icache _ _ _ _ A1)).
  set (t2 := t1 <| k_icache ::= <[ip := x']> |>).
  assert (Hx2 : k_icache t2 !! ip = Some x') by (cbn; by rewrite list_lookup_insert_eq by (by eapply lookup_lt_Some)).
  assert (Hh2 : home t2 (IBLOCK (i_inum x'))) by (apply (after_home _ _ _ _ _ A1); done).
  assert (Hf2 : file_ok t2 x' nb) by (apply file_ok_icache, file_ok_size, W).
  destruct (iupdate_view k t2 d0 ip x') as (t & d & E & T & C & A); try done;
    [by apply tx_at_icache|by apply W|].
  assert (Hld : length d = Z.to_nat BSIZE) by (by eapply (fo_full _ _ _ Hf2)).
  assert (Hw' : inode_wf x') by (destruct Hw; split; try done; cbn; lia).
  assert (Hls : length (store_dinode x' d) = Z.to_nat BSIZE).
  { destruct (store_dinode_in x' (iw_addrs _ Hw') d) as [-> _]. done. }
  destruct (file_ok_after t2 t x' nb _ Hf2 A) as [Hok Hsame].
  { intros ind Hind. unfold put_c. rewrite decide_False; [done|]. intros ->. by destruct (fo_apart _ _ _ Hf2). }
  { intros sec d' Hs. unfold put_c. case_decide; [by intros [= <-]|]. by apply (fo_full _ _ _ Hf2). }
  exists t. split_and!; [|done|].
  { step (upd_inode_eq t1 ip x (set i_size (λ _, off + length src)) Hx1). exact E. }
  assert (Hmax : Z.max (i_size x) (off + length src) = off + length src) by lia.
  split; rewrite ?Hmax; try done.
  - rewrite (after_icache _ _ _ _ A). cbn. by rewrite (after_icache _ _ _ _ A1).
  - intros i Hi. rewrite <-(wr_byte _ _ _ _ _ _ W) by done.
    assert (Hib : 0 ≤ i / BSIZE < nb) by (unfold BSIZE in *; lia).
    unfold file_byte. change (file_block (content t) x) with (file_block (content t) x'). rewrite Hsame by done.
    change (file_block (content t2) x') with (file_block (content t1) x).
    destruct (fo_maps _ _ _ Hf2 _ Hib) as (a & Ha & _ & Hah & _).
    change (file_block (content t2) x') with (file_block (content t1) x) in Ha. rewrite Ha. cbn [mbind option_bind].
    rewrite (af_content _ _ _ _ A) by done. unfold put_c. rewrite decide_False; [done|].
    by apply (fo_inode _ _ _ Hf2 _ _ Hib).
  - intros _. exists (store_dinode x' d). split.
    + rewrite (af_content _ _ _ _ A) by done. unfold put_c. by rewrite decide_True.
    + rewrite (load_store x' x d Hw' Hld) by done. unfold x'. by destruct x.
  - intros sec Hs Hne Hno. rewrite (af_content _ _ _ _ A) by (by apply (after_home _ _ _ _ _ A1)).
    unfold put_c. rewrite decide_False by done. by apply (wr_other _ _ _ _ _ _ W).
Qed.

Lemma writei_view k s d0 ip x nb src off :
  let n := Z.of_nat (length src) in
  tx_at (span off n + S k) s d0 ∅ → k_icache s !! ip = Some x → file_ok s x nb → inode_wf x →
  home s (IBLOCK (i_inum x)) → i_type x ≠ T_DEV → 0 ≤ off ≤ i_size x → off + n ≤ nb * BSIZE → nb ≤ MAXFILE →
  ∃ t, writei ip src off n s = Ret n t ∧ tx_at k t d0 ∅ ∧ written s t ip x nb off src.
Proof.
  intros n Ht Hx Hf Hw Hh Hty Hoff Hnb Hmf. assert (0 ≤ n) by lia.
  assert (Hmf' : nb * BSIZE ≤ 71680) by (revert Hmf; unfold MAXFILE, NDIRECT, NINDIRECT, BSIZE; change (512 / 4) with 128; lia).
  destruct (writei_loop_view (io_fuel n) (span off n) (S k) s d0 ip x nb src off n 0) as (t1 & E1 & T1 & W); try done.
  - lia.
  - lia.
  - lia.
  - unfold span, io_fuel, BSIZE. lia.
  - intros _. unfold span, BSIZE. lia.
  - rewrite drop_0 in W. rewrite Z.sub_0_r in E1.
    assert (Hx1 : k_icache t1 !! ip = Some x) by (by rewrite (after_icache _ _ _ _ (wr_after _ _ _ _ _ _ W))).
    assert (Hrun : ∀ t, (do* (if (0 <? n) && (i_size x <? off + n)
        then do* upd_inode ip (set i_size (λ _, off + n)) in iupdate ip else ret tt) in ret (s32 n)) t1 = Ret n t →
        writei ip src off n s = Ret n t).
    { intros t E. unfold writei. step (get_inode_eq s ip x Hx).
      rewrite (proj2 (Z.eqb_neq _ _) Hty), u32_small by (unfold BSIZE in *; lia).
      rewrite (proj2 (Z.ltb_ge (i_size x) off)), (proj2 (Z.ltb_ge (off + n) off)) by lia. cbn [orb].
      rewrite (proj2 (Z.ltb_ge (MAXFILE * BSIZE) (off + n))) by (unfold BSIZE in *; lia).
      step E1. step (get_inode_eq t1 ip x Hx1). done. }
    destruct (Z.ltb_spec (i_size x) (off + n)) as [Hg|Hng].
    + destruct (grow_view k s t1 d0 ip x nb off src) as (t & E & T & Wn); try done; [unfold BSIZE in *; lia|].
      exists t. split_and!; [|done|done]. apply Hrun. rewrite (proj2 (Z.ltb_lt 0 n)) by lia. cbn [andb].
      step E. unfold ret. by rewrite s32_small by (unfold BSIZE in *; lia).
    + exists t1. split_and!.
      * apply Hrun. rewrite andb_false_r. mstep. unfold ret. by rewrite s32_small by (unfold BSIZE in *; lia).
      * split; [apply T1|]. eapply tx_can_weaken; [apply T1|lia].
      * destruct W as [A O B Y X]. split.
        -- rewrite Z.max_l, inode_same, list_insert_id by done. by apply (after_icache _ _ _ _ A).
        -- by rewrite Z.max_l, inode_same by done.
        -- done.
        -- lia.
        -- intros sec Hs _. by apply X.
Qed.
End contents.

(** ** Properties *)

Section props.
Context `{Hk : kenv} `{Hd : disk} `{Hdl : !disk_laws} `{Hv : devsw}.
Implicit Types (s t : kstate) (x : inode).

(** [readi] delivers the bytes of the file from [off] on, as many as were
    asked for or as the file has, through direct and indirect blocks alike,
    and changes nothing; an offset past the end, or a request whose end wraps
    around, is refused. *)
Theorem readi_correct k s d0 ip x nb off n :
  tx_at k s d0 ∅ → k_icache s !! ip = Some x → file_ok s x nb → i_type x ≠ T_DEV →
  0 ≤ i_size x ≤ nb * BSIZE → i_size x < 2 ^ 31 → 0 ≤ off < 2 ^ 32 → 0 ≤ n < 2 ^ 32 →
  (i_size x < off ∨ 2 ^ 32 ≤ off + n → readi ip off n s = Ret (-1, []) s) ∧
  (off ≤ i_size x → off + n < 2 ^ 32 →
    returns (readi ip off n) s (λ r t, r.1 = Z.min n (i_size x - off) ∧ length r.2 = Z.to_nat r.1 ∧
      bytes_at (content s) x off r.2 ∧ tx_at k t d0 ∅ ∧ after s t ∅ (content s))).
Proof.
  intros Ht Hx Hf Hty Hsz H31 Hoff Hn. split.
  - intros Hbad. unfold readi. step (get_inode_eq s ip x Hx). rewrite (proj2 (Z.eqb_neq _ _) Hty).
    replace ((i_size x <? off) || (u32 (off + n) <? off)) with true; [done|]. symmetry. apply orb_true_iff.
    rewrite !Z.ltb_lt. destruct Hbad; [by left|right]. unfold u32. lia.
  - intros H1 H2. destruct (readi_view k s d0 ip x nb off n) as (l & t & E & Hl & Hb & T & A); try done; try lia.
    eapply returns_eq; [exact E|]. done.
Qed.

End props.

(** ** Witnesses *)

Module file_demo.
(** A file of 13 blocks, the last one through the indirect block 17. *)
Definition ind_block : list Z := put32 0 18 zero_block.
Definition ino : inode :=
  mkInode 1 2 1 I_VALID T_FILE 0 0 1 6150 (seqZ 5 12 ++ [17]).
Definition start : kstate :=
  (log_demo.start_on (<[17%nat := ind_block]> (replicate 40 zero_block))) <| k_icache ::= <[0%nat := ino]> |>.
Definition src : list Z := replicate 100 65.

#[global] Instance no_devices : devsw := { dev_read _ := None; dev_write _ := None }.

Lemma file_start_tx k : (k ≤ 9)%nat → tx_at k start zero_block ∅.
Proof.
  intros Hk. apply tx_at_icache. split; [by apply log_demo.start_on_tx|].
  apply (tx_can_weaken 9); [|done]. vm_compute. split_and!; try done; lia.
Qed.

Lemma file_content sec : content start sec = k_disk start !! Z.to_nat sec.
Proof. apply content_disk. intros b x Hx. by destruct (log_demo.log_uncached (k_disk start) sec b x Hx). Qed.

Lemma file_home sec : 0 ≤ sec < 30 → home start sec.
Proof. unfold home. cbn. lia. Qed.

Definition block (bn : Z) : Z := if bn <? 12 then 5 + bn else 18.
Lemma file_blocks bn : 0 ≤ bn < 13 → file_block (content start) ino bn = Some (block bn).
Proof.
  intros Hbn. unfold file_block, block. change NDIRECT with 12. destruct (Z.ltb_spec bn 12).
  - change (i_addrs ino) with (seqZ 5 12 ++ [17]). rewrite lookup_app_l by (rewrite length_seqZ; lia).
    rewrite lookup_seqZ. lia.
  - assert (bn = 12) as -> by lia. change (i_addrs ino !! Z.to_nat 12) with (Some 17). cbn [mbind option_bind].
    rewrite file_content. vm_compute. done.
Qed.

Lemma file_start_ok : file_ok start ino 13.
Proof.
  split.
  - done.
  - intros bn Hbn. exists (block bn). split_and!; [by apply file_blocks|..]; unfold block.
    + case_match; lia.
    + apply file_home. case_match; lia.
    + intros _. exists 17. split_and!; [done|done|by apply file_home].
  - intros bn bn' a H1 H2. rewrite !file_blocks by done. intros [= <-] [= E]. revert E. unfold block.
    destruct (Z.ltb_spec bn 12), (Z.ltb_spec bn' 12); lia.
  - intros bn a H1. rewrite file_blocks by done. intros [= <-] [= E]. revert E. unfold block.
    destruct (Z.ltb_spec bn 12); lia.
  - intros bn a H1. rewrite file_blocks by done. intros [= <-]. unfold block. change (IBLOCK _) with 2.
    destruct (Z.ltb_spec bn 12); lia.
  - done.
  - intros sec d Hs. rewrite file_content. cbn [k_disk start log_demo.start_on].
    intros [(_ & <- & _)|[_ [-> _]%lookup_replicate]]%list_lookup_insert_Some; [done|apply length_replicate].
Qed.

Lemma ino_wf : inode_wf ino.
Proof.
  split; try done. intros a. change (i_addrs ino) with (seqZ 5 12 ++ [17]).
  rewrite elem_of_app, elem_of_seqZ, list_elem_of_singleton. lia.
Qed.
End file_demo.

Lemma readi_correct_witness :
  returns (readi (H := kenv_example) (H0 := memide) 0 6100 4096) file_demo.start (λ r t,
    r.1 = 50 ∧ length r.2 = 50%nat ∧ bytes_at (content file_demo.start) file_demo.ino 6100 r.2 ∧
    tx_at 0 t zero_block ∅ ∧ after file_demo.start t ∅ (content file_demo.start)).
Proof.
  destruct (readi_correct (Hk := kenv_example) (Hd := memide) 0 file_demo.start zero_block 0 file_demo.ino 13 6100 4096)
    as [_ Hr]; try done.
  - apply file_demo.file_start_tx. lia.
  - apply file_demo.file_start_ok.
  - destruct (Hr ltac:(done) ltac:(done)) as (r & t & E & H1 & H2 & H3). eapply returns_eq; [exact E|].
    split_and!; [exact H1| |apply H3..]. by rewrite H2, H1.
Defined.

