(* ===== verification/Paths.v ===== *)
(** Path names and directories (skipelem, namex, dirlookup, dirlink of fs.c). *)
From stdpp Require Import base numbers gmap strings option list.
From Stdlib Require Import FunctionalExtensionality.
From S2P Require Import Prelude State Spinlock Str Cprintf Kalloc Proc Mlf Sched Bio Blocks Log LogSpec Tx Crash Fs FsTx Balloc Inode Contents.

(** ** Elements of a path *)

(** The stretches of a path between slashes. *)
Fixpoint stretches (path : list Z) : list Z * list (list Z) :=
  match path with
  | [] => ([], [])
  | c :: p => let '(w, ws) := stretches p in if c =? slash then ([], w :: ws) else (c :: w, ws)
  end.
Definition elements_of (path : list Z) : list (list Z) :=
  filter (λ w, w ≠ []) ((stretches path).1 :: (stretches path).2).

Section elements.
Implicit Types (path name : list Z).

Lemma elements_slash path : elements_of (slash :: path) = elements_of path.
Proof.
  unfold elements_of. cbn [stretches]. destruct (stretches path) as [w ws]. cbn [fst snd Z.eqb slash Pos.eqb].
  rewrite (filter_cons_False _ []) by (by intros []). done.
Qed.

Lemma skip_slashes_elements path : elements_of (skip_slashes path) = elements_of path.
Proof.
  induction path as [|c p IH]; [done|]. cbn [skip_slashes]. destruct (Z.eqb_spec c slash) as [->|]; [|done].
  by rewrite IH, elements_slash.
Qed.

Lemma skip_slashes_head path : head (skip_slashes path) ≠ Some slash.
Proof.
  induction path as [|c p IH]; [done|]. cbn [skip_slashes]. destruct (Z.eqb_spec c slash) as [->|]; [done|].
  by intros [= ->].
Qed.

Lemma skip_slashes_le path : (length (skip_slashes path) ≤ length path)%nat.
Proof. induction path as [|c p IH]; [done|]. cbn [skip_slashes]. destruct (c =? slash); cbn; lia. Qed.

Lemma split_elem_app path : let '(e, r) := split_elem path in path = e ++ r.
Proof.
  induction path as [|c p IH]; [done|]. cbn [split_elem]. destruct (c =? slash); [done|].
  destruct (split_elem p) as [e r]. cbn. by rewrite IH.
Qed.

(** The first element is split off. *)
Lemma split_elem_elements path e r :
  split_elem path = (e, r) → head path ≠ Some slash → path ≠ [] → e ≠ [] ∧ elements_of path = e :: elements_of r.
Proof.
  assert (Hst : ∀ p e r, split_elem p = (e, r) → (stretches p).1 = e ∧
    ((stretches p).2 = [] ∧ r = [] ∨ ∃ q, r = slash :: q ∧ (stretches p).2 = (stretches q).1 :: (stretches q).2)).
  { clear. induction p as [|c p IH]; intros e r; cbn [split_elem stretches]; [intros [= <- <-]; split; [done|by left]|].
    destruct (Z.eqb_spec c slash) as [->|Hne].
    - intros [= <- <-]. destruct (stretches p) as [w ws] eqn:E. cbn. split; [done|]. right. exists p. by rewrite E.
    - destruct (split_elem p) as [e' r'] eqn:E. intros [= <- <-]. destruct (IH e' r' eq_refl) as [H1 H2].
      destruct (stretches p) as [w ws]. cbn in *. split; [by rewrite H1|done]. }
  intros E Hh Hn. assert (He : e ≠ []).
  { destruct path as [|c p]; [done|]. cbn [split_elem] in E. destruct (Z.eqb_spec c slash) as [->|]; [done|].
    destruct (split_elem p). by injection E as <- _. }
  split; [done|]. destruct (Hst _ _ _ E) as [H1 H2]. unfold elements_of at 1. rewrite H1, filter_cons_True by done.
  f_equal. destruct H2 as [[-> ->]|(q & -> & ->)]; [done|]. by rewrite elements_slash.
Qed.

Lemma elements_nil path : head path ≠ Some slash → elements_of path = [] → path = [].
Proof.
  intros Hh He. destruct path as [|c p]; [done|]. destruct (split_elem (c :: p)) as [e r] eqn:E.
  by destruct (split_elem_elements _ _ _ E Hh) as [_ Hx]; [done|rewrite Hx in He].
Qed.

(** The element as it is left in the name buffer. *)
Definition copy_elem (e name : list Z) : list Z :=
  if DIRSIZ <=? length e then splice 0 (take (Z.to_nat DIRSIZ) e) name else <[length e := 0]> (splice 0 e name).

Lemma skipelem_eq path name :
  skipelem path name =
    match skip_slashes path with
    | [] => None
    | p => Some (skip_slashes (split_elem p).2, copy_elem (split_elem p).1 name)
    end.
Proof.
  unfold skipelem, copy_elem. destruct (skip_slashes path) as [|c p]; [done|]. by destruct (split_elem (c :: p)).
Qed.

Lemma cstr_nonzero e l : Forall (λ c, c ≠ 0) e → cstr (e ++ 0 :: l) = e ∧ cstr e = e.
Proof.
  induction 1 as [|c e Hc _ [IH1 IH2]]; [done|]. cbn. rewrite (proj2 (Z.eqb_neq c 0) Hc). by rewrite IH1, IH2.
Qed.

Lemma copy_elem_name e name :
  Forall (λ c, c ≠ 0) e → length name = Z.to_nat DIRSIZ →
  length (copy_elem e name) = Z.to_nat DIRSIZ ∧ cstr (copy_elem e name) = take (Z.to_nat DIRSIZ) e.
Proof.
  intros He Hn. unfold copy_elem. destruct (Z.leb_spec DIRSIZ (length e)) as [Hle|Hlt].
  - assert (Hl : length (take (Z.to_nat DIRSIZ) e) = Z.to_nat DIRSIZ) by (rewrite length_take; unfold DIRSIZ in *; lia).
    unfold splice. rewrite take_0, drop_ge, app_nil_r by lia. split; [done|].
    by apply (cstr_nonzero _ []), Forall_take.
  - rewrite length_insert, splice_length by (unfold DIRSIZ in *; lia). split; [done|].
    unfold splice. rewrite take_0. cbn [app Nat.add]. rewrite (take_ge e) by lia.
    destruct (drop (length e) name) as [|c l] eqn:E.
    { apply (f_equal length) in E. rewrite length_drop in E. cbn in E. unfold DIRSIZ in *. lia. }
    rewrite <-(Nat.add_0_r (length e)) at 1. rewrite insert_app_r. cbn. by apply cstr_nonzero.
Qed.
End elements.

(** [skipelem] in terms of the elements. *)
Lemma skipelem_spec path name :
  match skipelem path name with
  | None => elements_of path = []
  | Some (rest, name') => ∃ e, e ≠ [] ∧ elements_of path = e :: elements_of rest ∧ name' = copy_elem e name ∧
      head rest ≠ Some slash ∧ (length rest < length path)%nat ∧ ∀ c, c ∈ e → c ∈ path
  end.
Proof.
  rewrite skipelem_eq. rewrite <-(skip_slashes_elements path). assert (Hle := skip_slashes_le path).
  assert (Hh := skip_slashes_head path).
  assert (Hsub : ∀ c, c ∈ skip_slashes path → c ∈ path).
  { clear. induction path as [|a p IH]; intros c; [done|]. cbn [skip_slashes]. destruct (a =? slash); [|done].
    intros Hc. right. by apply IH. }
  destruct (skip_slashes path) as [|c p]; [done|]. cbv beta iota zeta.
  destruct (split_elem (c :: p)) as [e r] eqn:E. destruct (split_elem_elements _ _ _ E Hh) as [He Hel]; [done|].
  assert (Happ := split_elem_app (c :: p)). rewrite E in Happ. cbn [fst snd].
  exists e. rewrite skip_slashes_elements. split_and!; try done.
  - apply skip_slashes_head.
  - assert (Hr := skip_slashes_le r). assert (length (c :: p) = length e + length r)%nat by (by rewrite Happ, length_app).
    destruct e; [done|cbn in *; lia].
  - intros a Ha. apply Hsub. rewrite Happ. set_solver.
Qed.

(** ** The walk along a path *)

Section walk.
Context `{Hk : kenv} `{Hd : disk} `{Hv : devsw}.

Lemma obind_ext {S A B} (o : outcome S A) (f g : A → M S B) :
  (∀ a s, f a s = g a s) → obind o f = obind o g.
Proof.
  intros Hfg. induction o; cbn; try done. f_equal. apply functional_extensionality. done.
Qed.

Lemma bind_ext {S A B} (c : M S A) (f g : A → M S B) s :
  (∀ a s, f a s = g a s) → bind c f s = bind c g s.
Proof. intros. by apply obind_ext. Qed.

Lemma namex_loop_enough fu fu' ip path name parent s :
  (length (elements_of path) < fu)%nat → (length (elements_of path) < fu')%nat →
  namex_loop fu ip path name parent s = namex_loop fu' ip path name parent s.
Proof.
  revert fu' ip path name s. induction fu as [|fu IH]; intros [|fu'] ip path name s H1 H2; try lia.
  cbn [namex_loop]. assert (Hs := skipelem_spec path name). destruct (skipelem path name) as [[rest name']|]; [|done].
  destruct Hs as (e & _ & Hel & _). rewrite Hel in H1, H2. cbn [length] in H1, H2.
  apply bind_ext. intros _ s1. apply bind_ext. intros x s2.
  destruct (negb (i_type x =? T_DIR)); [done|]. destruct (parent && bool_decide (rest = [])); [done|].
  apply bind_ext. intros [[next off]|] s3; [|done]. apply bind_ext. intros _ s4. apply IH; lia.
Qed.
End walk.

(** ** Properties of paths *)

(** [skipelem] takes the first element off a path: it reports [None] exactly
    for a path without elements; otherwise the name buffer holds the element
    cut to [DIRSIZ] bytes, and the rest is shorter, starts with no slash and
    has the remaining elements, so that it is empty exactly when the element
    was the last. *)
Theorem skipelem_correct path name :
  length name = Z.to_nat DIRSIZ → Forall (λ c, c ≠ 0) path →
  match skipelem path name with
  | None => elements_of path = []
  | Some (rest, name') =>
      ∃ e, e ≠ [] ∧ elements_of path = e :: elements_of rest ∧
        length name' = Z.to_nat DIRSIZ ∧ cstr name' = take (Z.to_nat DIRSIZ) e ∧
        head rest ≠ Some slash ∧ (length rest < length path)%nat ∧ (rest = [] ↔ elements_of rest = [])
  end.
Proof.
  intros Hn Hp. assert (Hs := skipelem_spec path name). destruct (skipelem path name) as [[rest name']|]; [|done].
  destruct Hs as (e & He & Hel & -> & Hh & Hlen & Hin). exists e.
  assert (Hz : Forall (λ c, c ≠ 0) e) by (rewrite Forall_forall in *; intros c Hc; by apply Hp, Hin).
  destruct (copy_elem_name e name Hz Hn). split_and!; try done.
  split; [by intros ->|]. by apply elements_nil.
Qed.

(** C36: [namex] resolves a path in at most one step per element: a bound on the
    loop above that number is never reached, whatever the directories hold and
    however long the calls in it wait. *)
Theorem namex_terminates `{Hk : kenv} `{Hd : disk} `{Hv : devsw} ip path name parent s fu :
  (length path < fu)%nat →
  namex_loop fu ip path name parent s = namex_loop (S (length (elements_of path))) ip path name parent s.
Proof.
  intros Hf. apply namex_loop_enough; [|lia].
  assert (length (elements_of path) ≤ length path)%nat; [|lia].
  assert (∀ n p, (length p ≤ n)%nat → (length (elements_of p) ≤ length p)%nat) as Hle; [|by eapply Hle].
  clear. induction n as [|n IH]; intros p Hp; [by destruct p; [|cbn in Hp; lia]|].
  assert (Hs := skipelem_spec p name_buf). destruct (skipelem p name_buf) as [[rest name']|]; [|by rewrite Hs; cbn; lia].
  destruct Hs as (e & _ & -> & _ & _ & Hlt & _). cbn [length]. specialize (IH rest ltac:(lia)). lia.
Qed.

(** ** Directories *)

Definition dirent_at (c : contents) (x : inode) (off : Z) : list Z :=
  (λ j : nat, default 0 (file_byte c x (off + j))) <$> seq 0 16.
(** The entries of a directory, in the order of their offsets. *)
Definition dirents (c : contents) (x : inode) : list (list Z) :=
  (λ i : nat, dirent_at c x (dirent_size * i)) <$> seq 0 (Z.to_nat (i_size x / dirent_size)).

Definition same_name (name de : list Z) : Prop :=
  take (Z.to_nat DIRSIZ) (cstr name) = take (Z.to_nat DIRSIZ) (cstr (de_name de)).
(** An entry in use with a given name. *)
Definition names (name de : list Z) : Prop := de_inum de ≠ 0 ∧ same_name name de.
#[global] Instance names_dec name de : Decision (names name de).
Proof. unfold names, same_name. apply _. Defined.

(** A directory: an inode of type [T_DIR] made of whole entries. *)
Record dir_ok (s : kstate) (x : inode) (nb : Z) : Prop := {
  do_file : file_ok s x nb;
  do_type : i_type x = T_DIR;
  do_size : 0 ≤ i_size x ≤ nb * BSIZE;
  do_max : nb ≤ MAXFILE;
  do_whole : i_size x mod dirent_size = 0;
  do_byte : ∀ i b, 0 ≤ i < i_size x → file_byte (content s) x i = Some b → 0 ≤ b < 256;
}.

Section dirs.
Context `{Hk : kenv} `{Hd : disk} `{Hdl : !disk_laws} `{Hv : devsw}.
Implicit Types (s t : kstate) (x : inode).

Lemma bytes_at_dirent c x off l : bytes_at c x off l → length l = 16%nat → l = dirent_at c x off.
Proof.
  intros Hb Hl. apply list_eq. intros i. unfold dirent_at. rewrite list_lookup_fmap.
  destruct (decide (i < 16)%nat).
  - rewrite lookup_seq_lt by done. cbn [fmap option_fmap option_map]. rewrite Nat.add_0_l, <-Hb by lia.
    destruct (lookup_lt_is_Some_2 l i) as [v ->]; [lia|]. done.
  - by rewrite lookup_seq_ge, lookup_ge_None_2 by lia.
Qed.

Lemma max_file_bytes nb : nb ≤ MAXFILE → nb * BSIZE ≤ 71680.
Proof. unfold MAXFILE, NDIRECT, NINDIRECT, BSIZE. change (512 / 4) with 128. lia. Qed.

Lemma dir_after s t x nb : dir_ok s x nb → after s t ∅ (content s) → dir_ok t x nb ∧
  ∀ i, 0 ≤ i < nb * BSIZE → file_byte (content t) x i = file_byte (content s) x i.
Proof.
  intros [Hf Hty Hsz Hmx Hwh Hby] A.
  destruct (file_ok_after s t x nb _ Hf A) as [Hf' _]; [done|apply Hf|].
  assert (Hsame : ∀ i, 0 ≤ i < nb * BSIZE → file_byte (content t) x i = file_byte (content s) x i).
  { intros i Hi. destruct (fo_maps _ _ _ Hf (i / BSIZE)) as (a & Ha); [unfold BSIZE in *; lia|].
    by eapply file_byte_after. }
  split; [|done]. split; try done. intros i b Hi. rewrite Hsame by lia. by apply Hby.
Qed.

(** One entry is read. *)
Lemma read_dirent_view k s d0 dp x nb off :
  tx_at k s d0 ∅ → k_icache s !! dp = Some x → dir_ok s x nb → 0 ≤ off < i_size x → off mod dirent_size = 0 →
  ∃ t, read_dirent dp off s = Ret (dirent_at (content s) x off) t ∧ tx_at k t d0 ∅ ∧ after s t ∅ (content s).
Proof.
  intros Ht Hx [Hf Hty Hsz Hmx Hwh _] Hoff Hal. assert (Hmb := max_file_bytes nb Hmx).
  destruct (readi_view k s d0 dp x nb off dirent_size) as (l & t & E & Hl & Hb & T & A); try done;
    try (unfold dirent_size; lia).
  { by rewrite Hty. }
  assert (Hmin : Z.min dirent_size (i_size x - off) = dirent_size) by (unfold dirent_size in *; lia).
  rewrite Hmin in E, Hl. exists t. split_and!; [|done|done]. unfold read_dirent. step E. cbn [fst snd].
  rewrite Z.eqb_refl. cbn [negb]. unfold ret. f_equal. by apply bytes_at_dirent.
Qed.

Lemma strncmp_defined p q n : (n ≤ length p)%nat → (n ≤ length q)%nat → ∃ r, strncmp p q n = Some r.
Proof.
  revert p q. induction n as [|n IH]; intros [|a p] [|b q] Hp Hq; cbn in *; try lia; try (by eexists).
  destruct (a =? 0); [by eexists|]. destruct (a =? b); [|by eexists]. apply IH; lia.
Qed.

Lemma dirent_bytes s x nb off :
  dir_ok s x nb → 0 ≤ off → off + 16 ≤ i_size x → Forall (λ b, 0 ≤ b < 256) (dirent_at (content s) x off).
Proof.
  intros Hdir H0 H16. apply Forall_fmap, Forall_forall. intros j [_ Hj]%elem_of_seq. cbn.
  destruct (file_byte (content s) x (off + j)) as [b|] eqn:E; [|done]. cbn. eapply (do_byte _ _ _ Hdir); [|done]. lia.
Qed.

(** The comparison the loop makes decides [same_name]. *)
Lemma namecmp_dirent s x nb off name :
  dir_ok s x nb → 0 ≤ off → off + 16 ≤ i_size x →
  length name = Z.to_nat DIRSIZ → Forall (λ b, 0 ≤ b < 256) name →
  ∃ c, namecmp name (de_name (dirent_at (content s) x off)) = Some c ∧
    (c = 0 ↔ same_name name (dirent_at (content s) x off)).
Proof.
  intros Hdir H0 H16 Hl Hb. assert (Hby := dirent_bytes s x nb off Hdir H0 H16). unfold namecmp.
  destruct (strncmp_defined name (de_name (dirent_at (content s) x off)) (Z.to_nat DIRSIZ)) as (c & Hc);
    [by rewrite Hl|done|].
  exists c. split; [done|]. eapply strncmp_zero; [done| |done]. by apply Forall_drop.
Qed.

(** Entries from [off] on that do not have the name are passed over. *)
Lemma dirents_lookup c x i : (i < Z.to_nat (i_size x / dirent_size))%nat →
  dirents c x !! i = Some (dirent_at c x (dirent_size * i)).
Proof. intros Hi. unfold dirents. rewrite list_lookup_fmap, lookup_seq_lt by done. done. Qed.

Lemma dirents_after s t x nb : dir_ok s x nb → after s t ∅ (content s) → dirents (content t) x = dirents (content s) x.
Proof.
  intros Hdir A. destruct (dir_after _ _ _ _ Hdir A) as [_ Hs]. destruct Hdir as [_ _ Hsz _ Hwh _].
  unfold dirents. apply list_fmap_ext. intros _ i [_ Hi]%list_elem_of_lookup_2%elem_of_seq.
  unfold dirent_at. apply list_fmap_ext. intros _ j [_ Hj]%list_elem_of_lookup_2%elem_of_seq.
  f_equal. apply Hs. unfold dirent_size in *. lia.
Qed.

(** The search for a name from entry [i] on, up to the call of [iget]. *)
Lemma dirlookup_loop_view (fu : nat) k s d0 dp x nb name i :
  tx_at k s d0 ∅ → k_icache s !! dp = Some x → dir_ok s x nb →
  length name = Z.to_nat DIRSIZ → Forall (λ b, 0 ≤ b < 256) name →
  (i + fu = S (S (Z.to_nat (i_size x / dirent_size))))%nat → (0 < fu)%nat →
  ∃ t, tx_at k t d0 ∅ ∧ after s t ∅ (content s) ∧
    dirlookup_loop fu dp name (dirent_size * i) s =
      match list_find (names name) (drop i (dirents (content s) x)) with
      | Some (j, de) => (let* ip := iget 1 (de_inum de) in ret (Some (ip, dirent_size * (i + j)%nat))) t
      | None => Ret None t
      end.
Proof.
  revert s i. induction fu as [|fu IH]; intros s i Ht Hx Hdir Hl Hb Hfu H0; [lia|].
  assert (Hdir' := Hdir). destruct Hdir' as [Hf Hty Hsz _ Hwh _].
  cbn [dirlookup_loop]. step (get_inode_eq s dp x Hx).
  destruct (Z.ltb_spec (dirent_size * i) (i_size x)) as [Hlt|Hge].
  - assert (Hi : (i < Z.to_nat (i_size x / dirent_size))%nat) by (unfold dirent_size in *; lia).
    assert (Hsz16 : dirent_size * i + 16 ≤ i_size x) by (unfold dirent_size in *; lia).
    destruct (read_dirent_view k s d0 dp x nb (dirent_size * i) Ht Hx Hdir) as (t1 & E1 & T1 & A1);
      [unfold dirent_size in *; lia|by rewrite Z.mul_comm, Z_mod_mult|].
    set (de := dirent_at (content s) x (dirent_size * i)) in *.
    rewrite (drop_S _ de) by (by apply dirents_lookup).
    destruct (dir_after _ _ _ _ Hdir A1) as [Hdir1 _].
    destruct (IH t1 (S i)) as (t & T & A & E); try done; try lia.
    { by rewrite (after_icache _ _ _ _ A1). }
    rewrite (dirents_after _ _ _ _ Hdir A1) in E.
    replace (dirent_size * S i) with (dirent_size * i + dirent_size) in E by (unfold dirent_size; lia).
    assert (A' : after s t ∅ (content s)).
    { eapply after_ext; [eapply after_trans; [exact A1|exact A]|]. intros v Hv'. by rewrite (af_content _ _ _ _ A1). }
    assert (Hskip : ¬ names name de → ∃ t, tx_at k t d0 ∅ ∧ after s t ∅ (content s) ∧
      dirlookup_loop fu dp name (dirent_size * i + dirent_size) t1 =
      match list_find (names name) (de :: drop (S i) (dirents (content s) x)) with
      | Some (j, de) => (let* ip := iget 1 (de_inum de) in ret (Some (ip, dirent_size * (i + j)%nat))) t
      | None => Ret None t
      end).
    { intros Hn. exists t. split_and!; [done|done|]. rewrite E. cbn [list_find]. rewrite decide_False by done.
      destruct (list_find (names name) _) as [[j de']|]; [|done]. cbn. by replace (i + S j)%nat with (S i + j)%nat by lia. }
    erewrite bind_ret by exact E1. cbv beta.
    destruct (Z.eqb_spec (de_inum de) 0) as [Hz|Hnz]; [apply Hskip; by intros [? _]|].
    destruct (namecmp_dirent s x nb (dirent_size * i) name Hdir) as (c & Hc & Hc0); try done;
      [unfold dirent_size; lia|]. fold de in Hc, Hc0. rewrite Hc. cbn [deref].
    destruct (Z.eqb_spec c 0) as [Ec|Hne]; [|].
    + exists t1. split_and!; [done|done|]. mstep. rewrite (proj2 (Z.eqb_eq c 0) Ec).
      cbn [list_find]. rewrite decide_True by (split; [done|by apply Hc0]).
      assert (Hx1 : k_icache t1 !! dp = Some x) by (by rewrite (after_icache _ _ _ _ A1)).
      step (get_inode_eq t1 dp x Hx1). rewrite (fo_dev _ _ _ Hf). by rewrite Nat.add_0_r.
    + destruct Hskip as (t' & T' & At & Et); [by intros [_ ?%Hc0]|]. exists t'. split_and!; [done|done|].
      mstep. by rewrite (proj2 (Z.eqb_neq c 0) Hne).
  - exists s. split_and!; [done|apply after_refl|]. rewrite drop_ge; [done|].
    unfold dirents. rewrite length_fmap, length_seq. unfold dirent_size in *. lia.
Qed.
End dirs.

Section linking.
Context `{Hk : kenv} `{Hd : disk} `{Hdl : !disk_laws} `{Hv : devsw}.
Implicit Types (s t : kstate) (x : inode).

Lemma dirlookup_view k s d0 dp x nb name :
  tx_at k s d0 ∅ → k_icache s !! dp = Some x → dir_ok s x nb →
  length name = Z.to_nat DIRSIZ → Forall (λ b, 0 ≤ b < 256) name →
  ∃ t, tx_at k t d0 ∅ ∧ after s t ∅ (content s) ∧
    dirlookup dp name s =
      match list_find (names name) (dirents (content s) x) with
      | Some (j, de) => (let* ip := iget 1 (de_inum de) in ret (Some (ip, dirent_size * j))) t
      | None => Ret None t
      end.
Proof.
  intros Ht Hx Hdir Hl Hb.
  destruct (dirlookup_loop_view (dir_fuel (i_size x)) k s d0 dp x nb name 0 Ht Hx Hdir Hl Hb)
    as (t & T & A & E); [done|unfold dir_fuel; lia|].
  exists t. split_and!; [done|done|]. unfold dirlookup. step (get_inode_eq s dp x Hx).
  rewrite (do_type _ _ _ Hdir). cbn [Z.eqb T_DIR Pos.eqb negb]. rewrite drop_0 in E. exact E.
Qed.

(** The first entry that is not in use, or one past the last. *)
Definition free_slot (des : list (list Z)) : nat :=
  default (length des) (fst <$> list_find (λ de, de_inum de = 0) des).

Lemma dirlink_slot_view (fu : nat) k s d0 dp x nb i :
  tx_at k s d0 ∅ → k_icache s !! dp = Some x → dir_ok s x nb →
  (i + fu = S (S (Z.to_nat (i_size x / dirent_size))))%nat → (0 < fu)%nat →
  (i ≤ Z.to_nat (i_size x / dirent_size))%nat →
  ∃ t, tx_at k t d0 ∅ ∧ after s t ∅ (content s) ∧
    dirlink_slot fu dp (dirent_size * i) s =
      Ret (dirent_size * (i + free_slot (drop i (dirents (content s) x)))%nat) t.
Proof.
  revert s i. induction fu as [|fu IH]; intros s i Ht Hx Hdir Hfu H0 Hin; [lia|].
  assert (Hdir' := Hdir). destruct Hdir' as [Hf Hty Hsz _ Hwh _].
  cbn [dirlink_slot]. step (get_inode_eq s dp x Hx).
  destruct (Z.ltb_spec (dirent_size * i) (i_size x)) as [Hlt|Hge].
  - assert (Hi : (i < Z.to_nat (i_size x / dirent_size))%nat) by (unfold dirent_size in *; lia).
    destruct (read_dirent_view k s d0 dp x nb (dirent_size * i) Ht Hx Hdir) as (t1 & E1 & T1 & A1);
      [unfold dirent_size in *; lia|by rewrite Z.mul_comm, Z_mod_mult|].
    set (de := dirent_at (content s) x (dirent_size * i)) in *.
    rewrite (drop_S _ de) by (by apply dirents_lookup). erewrite bind_ret by exact E1. cbv beta.
    unfold free_slot. cbn [list_find]. destruct (Z.eqb_spec (de_inum de) 0) as [Hz|Hnz].
    + exists t1. split_and!; [done|done|]. rewrite decide_True by done. cbn. by rewrite Nat.add_0_r.
    + destruct (dir_after _ _ _ _ Hdir A1) as [Hdir1 _].
      destruct (IH t1 (S i)) as (t & T & A & E); try done; try lia.
      { by rewrite (after_icache _ _ _ _ A1). }
      rewrite (dirents_after _ _ _ _ Hdir A1) in E. exists t. split_and!; [done| |].
      * eapply after_ext; [eapply after_trans; [exact A1|exact A]|]. intros v Hv'. by rewrite (af_content _ _ _ _ A1).
      * rewrite decide_False by done. replace (dirent_size * i + dirent_size) with (dirent_size * S i) by (unfold dirent_size; lia).
        rewrite E. f_equal. f_equal. f_equal. unfold free_slot.
        destruct (list_find _ (drop (S i) _)) as [[j de']|]; cbn; lia.
  - exists s. split_and!; [done|apply after_refl|].
    assert (Hnil : drop i (dirents (content s) x) = []).
    { apply drop_ge. unfold dirents. rewrite length_fmap, length_seq. unfold dirent_size in *. lia. }
    rewrite Hnil. cbn. by rewrite Nat.add_0_r.
Qed.

(** The entry that [dirlink] builds. *)
Lemma new_dirent name inum :
  length name = Z.to_nat DIRSIZ → Forall (λ b, 0 ≤ b < 256) name →
  ∃ nm, strncpy (replicate (Z.to_nat DIRSIZ) 0) name (Z.to_nat DIRSIZ) = Some nm ∧
    let de := put16 0 (u16 inum) (0 :: 0 :: nm) in
    length de = 16%nat ∧ de_inum de = u16 inum ∧ same_name name de ∧ Forall (λ b, 0 ≤ b < 256) de.
Proof.
  intros Hl Hb. destruct (strncpy_spec (replicate (Z.to_nat DIRSIZ) 0) name (Z.to_nat DIRSIZ)) as (nm & E & Hn & Ht & _);
    [by rewrite length_replicate|left; by rewrite Hl|].
  rewrite length_replicate in Hn. rewrite take_ge in Ht by (by rewrite Hn).
  exists nm. split; [done|]. cbv zeta. split_and!.
  - unfold put16. rewrite !length_insert. cbn [length]. by rewrite Hn.
  - unfold de_inum. rewrite get16_put16 by (cbn; lia). unfold u16. lia.
  - unfold same_name. change (de_name (put16 0 (u16 inum) (0 :: 0 :: nm))) with nm. rewrite Ht. symmetry. apply cstr_take_pad.
  - unfold put16. cbn. constructor; [unfold u8; lia|]. constructor; [unfold u8; lia|]. rewrite Ht.
    apply Forall_take, Forall_app. split; [by apply cstr_bytes|by apply Forall_replicate].
Qed.

(** The entries with one replaced, or with one more at the end. *)
Definition put_entry (i : nat) (de : list Z) (des : list (list Z)) : list (list Z) :=
  take i des ++ de :: drop (S i) des.

Lemma dirents_written s t dp x nb de i :
  dir_ok s x nb → length de = 16%nat → (i ≤ length (dirents (content s) x))%nat →
  written s t dp x nb (dirent_size * i) de → dirent_size * i + dirent_size ≤ nb * BSIZE →
  dirents (content t) (x <| i_size := Z.max (i_size x) (dirent_size * i + length de) |>) =
    put_entry i de (dirents (content s) x).
Proof.
  intros [Hf Hty Hsz _ Hwh _] Hl Hi W Hnb. set (x' := x <| i_size := _ |>).
  assert (Hlen : length (dirents (content s) x) = Z.to_nat (i_size x / dirent_size))
    by (unfold dirents; by rewrite length_fmap, length_seq).
  assert (Hlen' : length (dirents (content t) x') = Z.to_nat (i_size x' / dirent_size))
    by (unfold dirents; by rewrite length_fmap, length_seq).
  change (i_size x') with (Z.max (i_size x) (dirent_size * i + length de)) in Hlen'. rewrite Hl in *.
  assert (Hpl : length (put_entry i de (dirents (content s) x)) = length (dirents (content t) x')).
  { unfold put_entry. rewrite length_app, length_take. cbn [length]. rewrite length_drop.
    unfold dirent_size in *. lia. }
  apply list_eq_same_length with (n := length (dirents (content t) x')); [by rewrite Hpl|done|].
  intros j de1 de2 Hj. rewrite dirents_lookup by (unfold x', dirent_size in *; cbn; rewrite ?Hl; lia).
  intros [= <-]. unfold put_entry.
  assert (Hb : ∀ m : nat, (m < 16)%nat → file_byte (content t) x' (dirent_size * j + m) =
    if decide (j = i) then de !! m else file_byte (content s) x (dirent_size * j + m)).
  { intros m Hm. change (file_byte (content t) x') with (file_byte (content t) x).
    rewrite (wn_byte _ _ _ _ _ _ _ W) by (unfold dirent_size in *; lia). rewrite Hl.
    destruct (decide (j = i)) as [->|Hne].
    - rewrite decide_True by (unfold dirent_size; lia). f_equal. lia.
    - rewrite decide_False by (unfold dirent_size; lia). done. }
  assert (Hde : dirent_at (content t) x' (dirent_size * j) =
    if decide (j = i) then de else dirent_at (content s) x (dirent_size * j)).
  { unfold dirent_at at 1. destruct (decide (j = i)) as [->|Hne].
    - symmetry. apply list_eq. intros m. rewrite list_lookup_fmap. destruct (decide (m < 16)%nat).
      + rewrite lookup_seq_lt by done. cbn [fmap option_fmap option_map]. rewrite Nat.add_0_l, Hb by done.
        destruct (lookup_lt_is_Some_2 de m) as [v ->]; [lia|done].
      + by rewrite lookup_seq_ge, lookup_ge_None_2 by lia.
    - apply list_fmap_ext. intros _ m [_ Hm]%list_elem_of_lookup_2%elem_of_seq. by rewrite Hb by lia. }
  rewrite Hde. assert (Htl : length (take i (dirents (content s) x)) = i) by (rewrite length_take; lia).
  destruct (Nat.lt_trichotomy j i) as [Hji|[->|Hji]].
  - rewrite decide_False, lookup_app_l, lookup_take_lt, dirents_lookup by lia. by intros [= <-].
  - rewrite decide_True, lookup_app_r, Htl, Nat.sub_diag by lia. by intros [= <-].
  - rewrite decide_False, lookup_app_r, Htl by lia. destruct (j - i)%nat as [|m] eqn:E; [lia|].
    change ((de :: drop (S i) (dirents (content s) x)) !! S m) with (drop (S i) (dirents (content s) x) !! m).
    rewrite lookup_drop. replace (S i + m)%nat with j by lia. intros Hd'.
    rewrite dirents_lookup in Hd' by (apply lookup_lt_Some in Hd'; lia). by injection Hd' as <-.
Qed.

Lemma dir_written s t dp x nb de (i : nat) :
  dir_ok s x nb → length de = 16%nat → Forall (λ b, 0 ≤ b < 256) de → dirent_size * i ≤ i_size x →
  written s t dp x nb (dirent_size * i) de → dirent_size * i + dirent_size ≤ nb * BSIZE →
  dir_ok t (x <| i_size := Z.max (i_size x) (dirent_size * i + length de) |>) nb.
Proof.
  intros [Hf Hty Hsz Hmx Hwh Hby] Hl Hde Hi W Hnb. set (x' := x <| i_size := _ |>).
  assert (Hs' : i_size x' = Z.max (i_size x) (dirent_size * i + 16)) by (cbn; by rewrite Hl). split; try done.
  - apply W.
  - rewrite Hs'. unfold dirent_size in *. lia.
  - rewrite Hs'. unfold dirent_size in *. lia.
  - intros j b Hj. change (file_byte (content t) x') with (file_byte (content t) x).
    rewrite (wn_byte _ _ _ _ _ _ _ W) by (unfold dirent_size in *; lia). case_decide as Hr.
    + intros Hb. rewrite Forall_forall in Hde. apply Hde. by eapply list_elem_of_lookup_2.
    + apply Hby. rewrite Hl in Hr. unfold dirent_size in *. lia.
Qed.

Lemma free_slot_le des : (free_slot des ≤ length des)%nat.
Proof.
  unfold free_slot. destruct (list_find _ des) as [[i de]|] eqn:E; [|done].
  apply list_find_Some in E as [Hi%lookup_lt_Some _]. cbn. lia.
Qed.

(** The new entry is the first of its name. *)
Lemma find_put_entry name i de des :
  (i ≤ length des)%nat → list_find (names name) des = None → names name de →
  list_find (names name) (put_entry i de des) = Some (i, de).
Proof.
  intros Hi Hno Hde. apply list_find_Some. unfold put_entry.
  assert (Htl : length (take i des) = i) by (rewrite length_take; lia). split_and!; [|done|].
  - by rewrite lookup_app_r, Htl, Nat.sub_diag by lia.
  - intros j y Hj Hlt Hy. rewrite lookup_app_l, lookup_take_lt in Hj by lia.
    apply list_find_None in Hno. rewrite Forall_lookup in Hno. by eapply Hno.
Qed.

(** [written] seen from a state with the same contents. *)
Lemma written_from s s1 t ip x nb off src :
  after s s1 ∅ (content s) → file_ok s x nb → written s1 t ip x nb off src → written s t ip x nb off src.
Proof.
  intros A Hf [W1 W2 W3 W4 W5]. destruct (file_ok_after s s1 x nb _ Hf A) as [_ Hsame]; [done|apply Hf|]. split; try done.
  - by rewrite W1, (after_icache _ _ _ _ A).
  - intros i Hi. rewrite W3 by done. case_decide; [done|].
    destruct (fo_maps _ _ _ Hf (i / BSIZE)) as (a & Ha); [unfold BSIZE in *; lia|]. by eapply file_byte_after.
  - intros sec Hs Hne Hno. rewrite W5; [by rewrite (af_content _ _ _ _ A)| |done|].
    + by apply (after_home _ _ _ _ _ A).
    + intros bn Hbn. rewrite Hsame by done. by apply Hno.
Qed.

Lemma dirlink_view k s d0 dp x nb name inum :
  let i := free_slot (dirents (content s) x) in
  tx_at (2 + k) s d0 ∅ → k_icache s !! dp = Some x → dir_ok s x nb → inode_wf x → home s (IBLOCK (i_inum x)) →
  length name = Z.to_nat DIRSIZ → Forall (λ b, 0 ≤ b < 256) name →
  list_find (names name) (dirents (content s) x) = None → dirent_size * i + dirent_size ≤ nb * BSIZE →
  ∃ t de, dirlink dp name inum s = Ret 0 t ∧ tx_at k t d0 ∅ ∧ written s t dp x nb (dirent_size * i) de ∧
    length de = 16%nat ∧ de_inum de = u16 inum ∧ same_name name de ∧ Forall (λ b, 0 ≤ b < 256) de.
Proof.
  intros i Ht Hx Hdir Hw Hh Hl Hb Hno Hroom.
  destruct (dirlookup_view _ s d0 dp x nb name Ht Hx Hdir Hl Hb) as (t1 & T1 & A1 & E1). rewrite Hno in E1.
  destruct (dir_after _ _ _ _ Hdir A1) as [Hdir1 _].
  assert (Hx1 : k_icache t1 !! dp = Some x) by (by rewrite (after_icache _ _ _ _ A1)).
  destruct (dirlink_slot_view (dir_fuel (i_size x)) _ t1 d0 dp x nb 0 T1 Hx1 Hdir1) as (t2 & T2 & A2 & E2);
    [done|unfold dir_fuel; lia|lia|].
  rewrite drop_0, (dirents_after _ _ _ _ Hdir A1) in E2. fold i in E2.
  assert (Hx2 : k_icache t2 !! dp = Some x) by (by rewrite (after_icache _ _ _ _ A2)).
  destruct (dir_after _ _ _ _ Hdir1 A2) as [Hdir2 _].
  assert (A : after s t2 ∅ (content s)).
  { eapply after_ext; [eapply after_trans; [exact A1|exact A2]|]. intros v Hv'. by rewrite (af_content _ _ _ _ A1). }
  destruct (new_dirent name inum Hl Hb) as (nm & E3 & Hdl' & Hdi & Hdn & Hdb). cbv zeta in *.
  set (de := put16 0 (u16 inum) (0 :: 0 :: nm)) in *.
  assert (Hle := free_slot_le (dirents (content s) x)). fold i in Hle.
  unfold dirents in Hle. rewrite length_fmap, length_seq in Hle.
  assert (Hdir' := Hdir). destruct Hdir' as [Hf Hty Hsz Hmx Hwh _].
  destruct (writei_view k t2 d0 dp x nb de (dirent_size * i)) as (t & E4 & T4 & W4); try done.
  - rewrite Hdl'. replace (span (dirent_size * i) 16%nat) with 1%nat; [done|].
    unfold span, dirent_size, BSIZE. lia.
  - apply Hdir2.
  - by apply (after_home _ _ _ _ _ A).
  - by rewrite Hty.
  - unfold dirent_size in *. lia.
  - rewrite Hdl'. unfold dirent_size in *. lia.
  - exists t, de. split_and!; try done; [|by eapply written_from].
    unfold dirlink. step E1. cbv iota. step (get_inode_eq t1 dp x Hx1). erewrite bind_ret by exact E2. cbv beta.
    rewrite E3. cbn [deref]. mstep. cbv zeta. fold de.
    rewrite Hdl' in E4. change (Z.of_nat 16%nat) with dirent_size in E4. step E4. by rewrite Z.eqb_refl.
Qed.
End linking.
(** ** Properties of directories *)

Section props.
Context `{Hk : kenv} `{Hd : disk} `{Hdl : !disk_laws} `{Hv : devsw}.
Implicit Types (s t : kstate) (x : inode).

(** [iget] when an entry of the cache is free. *)
Lemma iget_some s dev inum :
  cpu_wf s → lock_free LkIcache s → icache_empty (k_icache s) ≠ None →
  (∀ x, x ∈ k_icache s → i_ref x < 2 ^ 31 - 1) →
  ∃ ip y t, iget dev inum s = Ret ip t ∧ k_icache t !! ip = Some y ∧ is_inode dev inum y ∧ k_disk t = k_disk s.
Proof.
  intros Hc Hl He Hmax. destruct (icache_hit dev inum (k_icache s)) as [ip|] eqn:Eh.
  - destruct (icache_hit_Some _ _ _ _ Eh) as (x & Hx & Hr & Hdx & Hnx). eexists ip, _, _.
    split_and!; [by apply iget_hit|cbn; apply list_lookup_insert_eq; by eapply lookup_lt_Some| |done].
    assert (i_ref x < 2 ^ 31 - 1) by (apply Hmax; by eapply list_elem_of_lookup_2).
    split_and!; cbn; [|done|done]. rewrite s32_small; lia.
  - destruct (icache_empty (k_icache s)) as [ip|] eqn:Ee; [|done].
    destruct (icache_empty_Some _ _ Ee) as (x & Hx & Hr & _). eexists ip, _, _.
    split_and!; [by eapply iget_miss|cbn; apply list_lookup_insert_eq; by eapply lookup_lt_Some|by split_and!|done].
Qed.

(** C10: [dirlookup] finds the first entry in use whose name agrees with [name] up
    to its NUL or [DIRSIZ] bytes: it returns that entry's offset and a counted
    pointer to its inode, and [None] if there is no such entry. *)
Theorem dirlookup_correct k s d0 dp x nb name :
  tx_at k s d0 ∅ → k_icache s !! dp = Some x → dir_ok s x nb →
  length name = Z.to_nat DIRSIZ → Forall (λ b, 0 ≤ b < 256) name →
  lock_free LkIcache s → icache_empty (k_icache s) ≠ None → (∀ y, y ∈ k_icache s → i_ref y < 2 ^ 31 - 1) →
  returns (dirlookup dp name) s (λ r t,
    match list_find (names name) (dirents (content s) x) with
    | Some (i, de) => ∃ ip y, r = Some (ip, dirent_size * i) ∧ k_icache t !! ip = Some y ∧ is_inode 1 (de_inum de) y
    | None => r = None ∧ tx_at k t d0 ∅ ∧ after s t ∅ (content s)
    end).
Proof.
  intros Ht Hx Hdir Hl Hb Hlk He Hmax.
  destruct (dirlookup_view k s d0 dp x nb name Ht Hx Hdir Hl Hb) as (t & T & A & E).
  destruct (list_find (names name) (dirents (content s) x)) as [[i de]|]; [|by eapply returns_eq].
  assert (Hic := after_icache _ _ _ _ A).
  destruct (iget_some t 1 (de_inum de)) as (ip & y & u & Eu & Hy & Hi & _).
  - by destruct T as [[[(Hc & _) _]] _].
  - unfold lock_free. by rewrite (af_frame _ _ _ _ A).
  - by rewrite Hic.
  - by rewrite Hic.
  - eapply returns_eq; [rewrite E; by step Eu|]. by exists ip, y.
Qed.

(** C9: [dirlink] stores the new entry in the first one not in use, or after the
    last, extends the directory then, and changes no other entry; a later
    [dirlookup] of the name finds exactly that entry and calls [iget] on it. *)
Theorem dirlink_correct k s d0 dp x nb name inum :
  let des := dirents (content s) x in let i := free_slot des in
  tx_at (2 + k) s d0 ∅ → k_icache s !! dp = Some x → dir_ok s x nb → inode_wf x → home s (IBLOCK (i_inum x)) →
  length name = Z.to_nat DIRSIZ → Forall (λ b, 0 ≤ b < 256) name → 0 < inum < 2 ^ 16 →
  list_find (names name) des = None → dirent_size * i + dirent_size ≤ nb * BSIZE →
  returns (dirlink dp name inum) s (λ r t, r = 0 ∧ tx_at k t d0 ∅ ∧
    ∃ x' de, k_icache t = <[dp := x']> (k_icache s) ∧ dirents (content t) x' = put_entry i de des ∧
      de_inum de = inum ∧ same_name name de ∧
      (i_size x < i_size x' → ∃ d, content t (IBLOCK (i_inum x)) = Some d ∧ load_dinode d x = x') ∧
      ∃ u, after t u ∅ (content t) ∧
        dirlookup dp name t = (let* ip := iget 1 inum in ret (Some (ip, dirent_size * i))) u).
Proof.
  intros des i Ht Hx Hdir Hw Hh Hl Hb Hin Hno Hroom.
  destruct (dirlink_view k s d0 dp x nb name inum) as (t & de & E & T & W & Hlen & Hnum & Hname & Hby); try done.
  fold des i in W. assert (u16 inum = inum) as Hu by (unfold u16; lia). rewrite Hu in Hnum.
  assert (Hle := free_slot_le des). fold i in Hle.
  set (x' := x <| i_size := Z.max (i_size x) (dirent_size * i + length de) |>).
  assert (Hents : dirents (content t) x' = put_entry i de des) by (by eapply dirents_written).
  assert (Hx' : k_icache t !! dp = Some x').
  { rewrite (wn_inodes _ _ _ _ _ _ _ W). apply list_lookup_insert_eq. by eapply lookup_lt_Some. }
  assert (Hdir' : dir_ok t x' nb).
  { eapply dir_written; try done. unfold des, dirents in Hle. rewrite length_fmap, length_seq in Hle.
    destruct (do_size _ _ _ Hdir). unfold dirent_size in *. lia. }
  eapply returns_eq; [exact E|]. split_and!; [done|done|]. exists x', de. split_and!; try done.
  - by rewrite (wn_inodes _ _ _ _ _ _ _ W).
  - intros Hg. cbn in Hg. destruct (wn_disk _ _ _ _ _ _ _ W) as (d & Hd1 & Hd2); [lia|].
    exists d. split; [done|]. rewrite Hd2. unfold x'. by rewrite Z.max_r by lia.
  - destruct (dirlookup_view k t d0 dp x' nb name T Hx' Hdir' Hl Hb) as (u & _ & A & Eu).
    assert (Hna : names name de) by (split; [lia|done]).
    exists u. split; [done|]. rewrite Eu, Hents, (find_put_entry name i de des Hle Hno Hna). by rewrite Hnum.
Qed.
End props.

(** ** Witnesses *)

Module dir_demo.
Definition dent (inum : Z) (name : list Z) : list Z :=
  put16 0 inum (0 :: 0 :: name ++ replicate (14 - length name) 0).
(** A directory with the entries "." and "..", one that was removed, and "a". *)
Definition block : list Z :=
  splice 0 (dent 1 [46] ++ dent 1 [46; 46] ++ dent 0 [98] ++ dent 7 [97]) zero_block.
Definition ino : inode := mkInode 1 1 1 I_VALID T_DIR 0 0 1 64 (5 :: replicate 12 0).
Definition start : kstate :=
  (log_demo.start_on (<[5%nat := block]> (replicate 40 zero_block))) <| k_icache ::= <[0%nat := ino]> |>.
(** A name as the kernel holds it: [DIRSIZ] bytes, padded with NULs. *)
Definition nm (l : list Z) : list Z := l ++ replicate (14 - length l) 0.

Lemma dir_start_tx k : (k ≤ 9)%nat → tx_at k start zero_block ∅.
Proof.
  intros Hk. apply tx_at_icache. split; [by apply log_demo.start_on_tx|].
  apply (tx_can_weaken 9); [|done]. vm_compute. split_and!; try done; lia.
Qed.

Lemma dir_content sec : content start sec = k_disk start !! Z.to_nat sec.
Proof. apply content_disk. intros b x Hx. by destruct (log_demo.log_uncached (k_disk start) sec b x Hx). Qed.

Lemma dir_home sec : 0 ≤ sec < 30 → home start sec.
Proof. unfold home. cbn. lia. Qed.

Lemma dir_blocks bn : 0 ≤ bn < 1 → file_block (content start) ino bn = Some 5.
Proof. intros Hbn. by assert (bn = 0) as -> by lia. Qed.

Lemma dir_bytes i : 0 ≤ i < 64 → file_byte (content start) ino i = block !! Z.to_nat i.
Proof.
  intros Hi. unfold file_byte. rewrite dir_blocks by (unfold BSIZE; lia). cbn [mbind option_bind].
  rewrite dir_content. cbn [k_disk start log_demo.start_on]. cbn [mbind option_bind].
  replace (i mod BSIZE) with i by (unfold BSIZE; lia). done.
Qed.

Lemma dir_start_ok : dir_ok start ino 1.
Proof.
  split; try done.
  - split; try done.
    + intros bn Hbn. exists 5. split_and!; [by apply dir_blocks|done|by apply dir_home|]. unfold NDIRECT. lia.
    + intros bn bn' a H1 H2 _ _. lia.
    + intros bn a H1. rewrite dir_blocks by done. by intros [= <-].
    + intros bn a H1. rewrite dir_blocks by done. by intros [= <-].
    + intros sec d Hs. rewrite dir_content. cbn [k_disk start log_demo.start_on].
      intros [(_ & <- & _)|[_ [-> _]%lookup_replicate]]%list_lookup_insert_Some; [done|apply length_replicate].
  - intros i b Hi. rewrite dir_bytes by done. intros Hb%list_elem_of_lookup_2.
    assert (Forall (λ b, 0 ≤ b < 256) block) as Hall; [|by rewrite Forall_forall in Hall; apply Hall].
    apply (bool_decide_unpack _). vm_compute. done.
Qed.

Lemma dir_ino_wf : inode_wf ino.
Proof.
  split; try done. intros a. change (i_addrs ino) with (5 :: replicate 12 0).
  rewrite elem_of_cons, elem_of_replicate. lia.
Qed.

(** The entries as they are read. *)
Lemma dir_entries : dirents (content start) ino = [dent 1 [46]; dent 1 [46; 46]; dent 0 [98]; dent 7 [97]].
Proof. vm_compute. done. Qed.
End dir_demo.

Lemma skipelem_correct_witness :
  ∃ e, e ≠ [] ∧ elements_of [47; 97; 47; 47; 98] = e :: elements_of [98] ∧
    cstr (copy_elem [97] name_buf) = take (Z.to_nat DIRSIZ) e.
Proof.
  destruct (skipelem_correct [47; 97; 47; 47; 98] name_buf) as (e & H1 & H2 & _ & H3 & _); [done|by repeat constructor|].
  exists e. split_and!; [exact H1|exact H2|exact H3].
Defined.

Lemma namex_terminates_witness :
  namex_loop (H := kenv_example) (H0 := memide) 100 0 [47; 97] name_buf false dir_demo.start =
  namex_loop (H := kenv_example) (H0 := memide) 2 0 [47; 97] name_buf false dir_demo.start.
Proof. apply (namex_terminates (Hk := kenv_example) (Hd := memide) 0 [47; 97] name_buf false dir_demo.start 100). cbn. lia. Defined.

Lemma dirlookup_correct_witness :
  returns (dirlookup (H := kenv_example) (H0 := memide) 0 (dir_demo.nm [97])) dir_demo.start (λ r t,
    ∃ ip y, r = Some (ip, 48) ∧ k_icache t !! ip = Some y ∧ is_inode 1 7 y).
Proof.
  eapply returns_mono; [apply (dirlookup_correct (Hk := kenv_example) (Hd := memide) 0 dir_demo.start zero_block 0 dir_demo.ino 1 (dir_demo.nm [97]))|].
  - apply dir_demo.dir_start_tx. lia.
  - done.
  - apply dir_demo.dir_start_ok.
  - done.
  - by repeat constructor.
  - done.
  - done.
  - intros y Hy. apply list_elem_of_lookup in Hy as (i & Hy). cbn [k_icache dir_demo.start] in Hy.
    apply list_lookup_insert_Some in Hy as [(_ & <- & _)|[_ [-> _]%lookup_replicate]]; done.
  - rewrite dir_demo.dir_entries. intros r t. vm_compute (list_find _ _). done.
Defined.

(** The removed entry is used again. *)
Lemma dirlink_correct_witness :
  returns (dirlink (H := kenv_example) (H0 := memide) 0 (dir_demo.nm [99]) 9) dir_demo.start (λ r t, r = 0 ∧
    ∃ x' de, dirents (content t) x' = [dir_demo.dent 1 [46]; dir_demo.dent 1 [46; 46]; de; dir_demo.dent 7 [97]] ∧
      de_inum de = 9).
Proof.
  eapply returns_mono; [apply (dirlink_correct (Hk := kenv_example) (Hd := memide) 0 dir_demo.start zero_block 0 dir_demo.ino 1 (dir_demo.nm [99]) 9)|].
  - apply dir_demo.dir_start_tx. lia.
  - done.
  - apply dir_demo.dir_start_ok.
  - apply dir_demo.dir_ino_wf.
  - by apply dir_demo.dir_home.
  - done.
  - by repeat constructor.
  - done.
  - rewrite dir_demo.dir_entries. vm_compute. done.
  - rewrite dir_demo.dir_entries. vm_compute. done.
  - intros r t (-> & _ & x' & de & _ & Hd & Hi & _). split; [done|]. exists x', de. rewrite Hd, dir_demo.dir_entries. done.
Defined.
