(* ===== verification/Mkfs.v ===== *)
(** The host tool that builds the disk image (mkfs.c).

    The image file is the list of its sectors.  The calls of the host that can
    fail without the image being wrong (open, lseek, write) are taken to succeed;
    a read behind the end of the image, and every failed [assert], is the outcome
    [Panic].  A file to be copied is the list of what successive calls of [read]
    return. *)
From stdpp Require Import base numbers gmap strings option list.
From S2P Require Import Prelude State Spinlock Str Cprintf Kalloc Proc Mlf Sched Bio Blocks Log LogSpec Tx Crash Fs FsTx Balloc Inode Contents.

(** ** Definitions *)

Record image := mkImage {
  im_file : list (list Z);
  freeblock : Z;
  usedblocks : Z;
  freeinode : Z;
}.
#[export] Instance eta_image : Settable image :=
  λ i, mkImage (im_file i) (freeblock i) (usedblocks i) (freeinode i).

Abbreviation IM := (M image).

Definition nblocks : Z := 985.
Definition nlog : Z := LOGSIZE.
Definition ninodes : Z := 200.
Definition fs_size : Z := 1024.
Definition bitblocks : Z := fs_size / (512 * 8) + 1.

(** The value whose bytes in memory are those of [x] in Intel order; the host
    has that order too. *)
Definition xshort (x : Z) : Z := get16 [u8 x; u8 (Z.shiftr x 8)] 0.
Definition xint (x : Z) : Z := get32 [u8 x; u8 (Z.shiftr x 8); u8 (Z.shiftr x 16); u8 (Z.shiftr x 24)] 0.

Definition assert (b : bool) : IM unit := if b then ret tt else panic "assert".

(** A write behind the end of the file leaves a hole that reads as zeroes. *)
Definition wsect (sec : Z) (buf : list Z) : IM unit :=
  modify (set im_file (λ f,
    if Z.to_nat sec <? length f then <[Z.to_nat sec := buf]> f
    else f ++ replicate (Z.to_nat sec - length f) zero_block ++ [buf])%nat).

Definition rsect (sec : Z) : IM (list Z) :=
  let* f := gets im_file in
  match f !! Z.to_nat sec with Some d => ret d | None => panic "read" end.

Definition i2b (inum : Z) : Z := inum / IPB + 2.

(** The fields of a [struct dinode] are those of an [inode]. *)
Definition winode (inum : Z) (ip : inode) : IM unit :=
  let bn := i2b inum in
  let* buf := rsect bn in
  wsect bn (store_dinode (ip <| i_inum := inum |>) buf).

Definition no_inode (inum : Z) : inode := mkInode 0 inum 0 0 0 0 0 0 0 (replicate 13 0).

Definition rinode (inum : Z) : IM inode :=
  let* buf := rsect (i2b inum) in
  ret (load_dinode buf (no_inode inum)).

Definition mk_ialloc (type : Z) : IM Z :=
  let* k := gets id in
  let inum := freeinode k in
  do* modify (set freeinode (λ n, u32 (n + 1))) in
  do* winode inum ((no_inode inum) <| i_type := s16 (xshort type) |> <| i_nlink := s16 (xshort 1) |> <| i_size := xint 0 |>) in
  ret inum.

Definition mk_balloc (used : Z) : IM unit :=
  do* assert (used <? 512 * 8) in
  wsect (ninodes / IPB + 3) (foldl (λ buf i, set_bit i buf) (replicate 512 0) (seq 0 (Z.to_nat used))).

(** [freeblock++], with [usedblocks++]. *)
Definition next_block : IM Z :=
  let* k := gets id in
  do* modify (λ k, k <| freeblock ::= λ n, u32 (n + 1) |> <| usedblocks ::= λ n, u32 (n + 1) |>) in
  ret (xint (freeblock k)).

(** The block for block [fbn] of the file, and the inode with its address. *)
Definition iappend_block (din : inode) (fbn : Z) : IM (Z * inode) :=
  if fbn <? NDIRECT then
    let* a := deref "din.addrs" (i_addrs din !! Z.to_nat fbn) in
    if xint a =? 0 then
      let* b := next_block in
      ret (xint b, din <| i_addrs ::= <[Z.to_nat fbn := b]> |>)
    else ret (xint a, din)
  else
    let* a := deref "din.addrs" (i_addrs din !! Z.to_nat NDIRECT) in
    let* din := (if xint a =? 0 then
      let* b := next_block in
      ret (din <| i_addrs ::= <[Z.to_nat NDIRECT := b]> |>)
    else ret din) in
    let* a := deref "din.addrs" (i_addrs din !! Z.to_nat NDIRECT) in
    let* indirect := rsect (xint a) in
    let o := (4 * Z.to_nat (fbn - NDIRECT))%nat in
    let* indirect := (if get32 indirect o =? 0 then
      let* b := next_block in
      do* wsect (xint a) (put32 o b indirect) in
      ret (put32 o b indirect)
    else ret indirect) in
    ret (xint (get32 indirect o), din).

Fixpoint iappend_loop (n : nat) (p : list Z) (off : Z) (din : inode) : IM (Z * inode) :=
  match n with
  | O => λ _, NoFuel
  | S n =>
      if (length p =? 0)%nat then ret (off, din) else
      let fbn := off / 512 in
      do* assert (fbn <? MAXFILE) in
      let* '(x, din) := iappend_block din fbn in
      let n1 := Z.min (length p) (u32 (u32 ((fbn + 1) * 512) - off)) in
      let* buf := rsect x in
      do* wsect x (splice (Z.to_nat (off - fbn * 512)) (take (Z.to_nat n1) p) buf) in
      iappend_loop n (drop (Z.to_nat n1) p) (u32 (off + n1)) din
  end.

Definition iappend (inum : Z) (p : list Z) : IM unit :=
  let* din := rinode inum in
  let* '(off, din) := iappend_loop (S (length p)) p (xint (i_size din)) din in
  winode inum (din <| i_size := xint off |>).

(** [struct dirent] *)
Definition dirent (inum : Z) (name : list Z) : list Z := put16 0 (xshort inum) (replicate 2 0) ++ name.

(** A file named on the command line: its name, and what [read] returns if it
    can be opened. *)
Record host_file := mkHost { h_name : list Z; h_open : option (list (list Z)) }.

Definition strip (name : list Z) : list Z := match name with 95 :: r => r | _ => name end.

Fixpoint copy_file (inum : Z) (chunks : list (list Z)) : IM unit :=
  match chunks with
  | [] => ret tt
  | c :: chunks => if (length c =? 0)%nat then ret tt else do* iappend inum c in copy_file inum chunks
  end.

Definition add_file (rootino : Z) (h : host_file) : IM unit :=
  do* assert (negb (existsb (λ c, c =? 47) (h_name h))) in
  match h_open h with
  | None => panic "open"
  | Some chunks =>
      let* inum := mk_ialloc T_FILE in
      let* name := deref "strncpy" (strncpy (replicate 14 0) (strip (h_name h) ++ [0]) (Z.to_nat DIRSIZ)) in
      do* iappend rootino (dirent inum name) in
      copy_file inum chunks
  end.

Definition sb_bytes : list Z :=
  put32 0 (xint fs_size) (put32 4 (xint nblocks) (put32 8 (xint ninodes) (put32 12 (xint nlog) (replicate 512 0)))).

Definition mkfs_main (files : list host_file) : IM unit :=
  let used := ninodes / IPB + 3 + bitblocks in
  do* modify (λ k, k <| usedblocks := used |> <| freeblock := used |>) in
  do* assert (nblocks + used + nlog =? fs_size) in
  do* for_each (seq 0 (Z.to_nat (nblocks + used + nlog))) (λ i, wsect (Z.of_nat i) (replicate 512 0)) in
  do* wsect 1 sb_bytes in
  let* rootino := mk_ialloc T_DIR in
  do* assert (rootino =? ROOTINO) in
  do* iappend rootino (dirent rootino (46 :: replicate 13 0)) in
  do* iappend rootino (dirent rootino (46 :: 46 :: replicate 12 0)) in
  do* for_each files (add_file rootino) in
  let* din := rinode rootino in
  let off := xint (i_size din) in
  let off := u32 ((off / BSIZE + 1) * BSIZE) in
  do* winode rootino (din <| i_size := xint off |>) in
  let* k := gets id in
  mk_balloc (usedblocks k).

(** The image before [main] runs. *)
Definition no_image : image := mkImage [] 0 0 1.

(** ** The image as sectors *)

Definition first_data : Z := ninodes / IPB + 3 + bitblocks.

Lemma first_data_29 : first_data = 29.
Proof. reflexivity. Qed.

Ltac mk_lia := rewrite ?first_data_29 in *; unfold fs_size, MAXFILE, NDIRECT, NINDIRECT, BSIZE in *; change (512 / 4) with 128 in *; lia.

Definition sect (s : image) : contents := λ sec, if decide (0 ≤ sec) then im_file s !! Z.to_nat sec else None.
Definition put_sect (sec : Z) (d : list Z) (s : image) : image := s <| im_file ::= <[Z.to_nat sec := d]> |>.

Section sectors.
Implicit Types (s : image) (c : contents) (x : inode) (sec : Z).

Lemma xint_id v : 0 ≤ v < 2 ^ 32 → xint v = v.
Proof.
  intros Hv. unfold xint, get32, getb. cbn. unfold u8. rewrite !Z.shiftr_div_pow2 by lia. lia.
Qed.

Lemma rsect_eq s sec d : sect s sec = Some d → rsect sec s = Ret d s.
Proof. unfold sect. case_decide; [|done]. intros E. unfold rsect. mred. by rewrite E. Qed.

Lemma wsect_eq s sec d : 0 ≤ sec < length (im_file s) → wsect sec d s = Ret tt (put_sect sec d s).
Proof.
  intros Hs. unfold wsect, modify, put_sect. cbn -[Nat.ltb].
  by rewrite (proj2 (Nat.ltb_lt (Z.to_nat sec) (length (im_file s)))) by lia.
Qed.

Lemma sect_put s sec d sec' :
  0 ≤ sec < length (im_file s) → sect (put_sect sec d s) sec' = if decide (sec' = sec) then Some d else sect s sec'.
Proof.
  intros Hs. unfold sect, put_sect. cbn. repeat case_decide; subst; try done; try lia.
  - rewrite list_lookup_insert_eq by lia. done.
  - rewrite list_lookup_insert_ne by lia. done.
Qed.
End sectors.

(** ** Files in the image *)

(** Block [k] of a file, or its indirect block for [k = -1]. *)
Definition slot (c : contents) (x : inode) (k : Z) : option Z :=
  if decide (k = -1) then i_addrs x !! Z.to_nat NDIRECT else file_block c x k.

(** The slots of a file of [nb] blocks. *)
Definition used (nb k : Z) : Prop := k = -1 ∧ NDIRECT < nb ∨ 0 ≤ k < nb.
#[export] Instance used_dec nb k : Decision (used nb k).
Proof. unfold used. apply _. Defined.

(** A file: its inode, the number of its blocks, its bytes. *)
Record fent := mkFent { f_ino : inode; f_nb : Z; f_data : list Z }.

(** Every slot in use has a block of its own below [fb]; the others are 0. *)
Record files_ok (c : contents) (fb : Z) (F : gmap Z fent) : Prop := {
  fs_addrs : ∀ i f, F !! i = Some f → length (i_addrs (f_ino f)) = 13%nat;
  fs_fit : ∀ i f, F !! i = Some f → length (f_data f) ≤ f_nb f * 512 ≤ length (f_data f) + 512 ∧ f_nb f ≤ MAXFILE;
  fs_slot : ∀ i f k, F !! i = Some f → used (f_nb f) k → ∃ a, slot c (f_ino f) k = Some a ∧ first_data ≤ a < fb;
  fs_inj : ∀ i j f g k k' a, F !! i = Some f → F !! j = Some g → used (f_nb f) k → used (f_nb g) k' →
    slot c (f_ino f) k = Some a → slot c (f_ino g) k' = Some a → i = j ∧ k = k';
  fs_unset : ∀ i f k, F !! i = Some f → -1 ≤ k < MAXFILE → ¬ used (f_nb f) k → k < NDIRECT ∨ NDIRECT < f_nb f →
    slot c (f_ino f) k = Some 0;
  fs_bytes : ∀ i f j b, F !! i = Some f → f_data f !! j = Some b → file_byte c (f_ino f) (Z.of_nat j) = Some b;
}.

Record image_ok (s : image) (F : gmap Z fent) : Prop := {
  im_len : length (im_file s) = Z.to_nat fs_size;
  im_full : ∀ sec d, sect s sec = Some d → length d = 512%nat;
  im_fb : first_data ≤ freeblock s ≤ fs_size;
  im_used : usedblocks s = freeblock s;
  im_zero : ∀ sec, freeblock s ≤ sec < fs_size → sect s sec = Some zero_block;
  im_files : files_ok (sect s) (freeblock s) F;
}.

Section files.
Implicit Types (s : image) (c : contents) (x : inode) (F : gmap Z fent) (f g : fent) (a fb k : Z).

Lemma image_sect s F sec : image_ok s F → 0 ≤ sec < fs_size → ∃ d, sect s sec = Some d ∧ length d = 512%nat.
Proof.
  intros Hok Hs. unfold sect. destruct (lookup_lt_is_Some_2 (im_file s) (Z.to_nat sec)) as [d Hd].
  { rewrite (im_len _ _ Hok). unfold fs_size in *. lia. }
  exists d. assert (sect s sec = Some d) as E by (unfold sect; by rewrite decide_True by lia).
  rewrite decide_True by lia. split; [done|]. by eapply im_full.
Qed.

(** A file does not depend on sectors that are not its own. *)
Lemma slot_frame c c' x nb k :
  (∀ a, used nb (-1) → slot c x (-1) = Some a → c' a = c a) → used nb k ∨ k < NDIRECT ∨ NDIRECT < nb →
  slot c' x k = slot c x k.
Proof.
  intros Hc Hk. unfold slot at 1 2. destruct (decide (k = -1)) as [->|E]; [done|]. unfold file_block.
  destruct (Z.ltb_spec k NDIRECT); [done|]. destruct (_ <? NINDIRECT) eqn:E2; [|done].
  assert (used nb (-1)) as Hu by (left; split; [done|]; unfold used in Hk; lia).
  unfold slot in Hc. rewrite decide_True in Hc by done. destruct (i_addrs x !! Z.to_nat NDIRECT) as [ind|] eqn:Ei; [|done]. cbn.
  by rewrite (Hc ind).
Qed.

Lemma slot_block c x k : 0 ≤ k → slot c x k = file_block c x k.
Proof. intros Hk. unfold slot. by rewrite decide_False by lia. Qed.

Lemma file_byte_at c x j a d :
  file_block c x (j / 512) = Some a → c a = Some d → file_byte c x j = d !! Z.to_nat (j mod 512).
Proof. intros Hb Hd. unfold file_byte. change BSIZE with 512. rewrite Hb. cbn. by rewrite Hd. Qed.

Lemma image_slot s F i f k :
  image_ok s F → F !! i = Some f → used (f_nb f) k →
  ∃ a d, slot (sect s) (f_ino f) k = Some a ∧ first_data ≤ a < freeblock s ∧ sect s a = Some d ∧ length d = 512%nat.
Proof.
  intros Hok Hf Hk. destruct (fs_slot _ _ _ (im_files _ _ Hok) i f k Hf Hk) as (a & Ha & Hr).
  pose proof (im_fb _ _ Hok). destruct (image_sect s F a Hok) as (d & Hd & Hl); [mk_lia|].
  by exists a, d.
Qed.

Lemma byte_frame c c' x nb j :
  (∀ k a, used nb k → slot c x k = Some a → c' a = c a) → 0 ≤ j < nb * 512 → file_byte c' x j = file_byte c x j.
Proof.
  intros Hc Hj. unfold file_byte. change BSIZE with 512.
  assert (used nb (j / 512)) as Hu by (right; lia).
  rewrite <- !slot_block by lia. rewrite (slot_frame c c' x nb) by first [by left|intros a; by apply Hc].
  destruct (slot c x (j / 512)) as [a|] eqn:E; [|done]. cbn. by rewrite (Hc _ _ Hu E).
Qed.

(** The bytes of a file after a write within its last block. *)
Lemma fill_bytes c c' x nb (data l : list Z) a buf n b :
  let off := Z.of_nat (length data) in
  (∀ j v, data !! j = Some v → file_byte c x (Z.of_nat j) = Some v) →
  (∀ k, 0 ≤ k < nb → file_block c' x k = file_block c x k) →
  off mod 512 + length l ≤ 512 → off / 512 < nb →
  (∀ k v, 0 ≤ k < nb → k ≠ off / 512 → file_block c x k = Some v → c' v = c v) →
  file_block c x (off / 512) = Some a → c a = Some buf → length buf = 512%nat →
  c' a = Some (splice (Z.to_nat (off mod 512)) l buf) →
  (data ++ l) !! n = Some b → file_byte c' x (Z.of_nat n) = Some b.
Proof.
  intros off Hby Hblk Hl Hnb Hoth Ha Hbuf Hlen Ha' Hn.
  assert (Hlt := lookup_lt_Some _ _ _ Hn). rewrite length_app in Hlt.
  assert (0 ≤ n / 512 ≤ off / 512) as Hq by lia.
  destruct (decide (Z.of_nat n / 512 = off / 512)) as [E|E].
  - erewrite (file_byte_at c' x n a); [|rewrite E, Hblk; [done|lia]|exact Ha']. rewrite splice_lookup by lia.
    apply lookup_app_Some in Hn as [Hn|[Hge Hn]].
    + assert (Hn' := lookup_lt_Some _ _ _ Hn). rewrite decide_False by lia.
      rewrite <- (Hby n b Hn). symmetry. apply (file_byte_at c x n a buf); [by rewrite E|done].
    + rewrite decide_True by lia. rewrite <- Hn. f_equal. lia.
  - apply lookup_app_Some in Hn as [Hn|[Hge _]]; [|lia]. rewrite <- (Hby n b Hn). unfold file_byte. change BSIZE with 512.
    rewrite Hblk by lia. destruct (file_block c x (n / 512)) as [v|] eqn:Ev; [|done]. cbn. by rewrite (Hoth (n / 512) v) by (done || lia).
Qed.

(** Writing within the block at the end of a file. *)
Lemma fill_step s F i f l a buf :
  image_ok s F → F !! i = Some f →
  let off := Z.of_nat (length (f_data f)) in
  off / 512 < f_nb f → file_block (sect s) (f_ino f) (off / 512) = Some a → sect s a = Some buf → off mod 512 + length l ≤ 512 →
  image_ok (put_sect a (splice (Z.to_nat (off mod 512)) l buf) s) (<[i := mkFent (f_ino f) (f_nb f) (f_data f ++ l)]> F).
Proof.
  intros Hok Hf off Hfbn Ha Hbuf Hl. destruct Hok as [Hlen Hfull Hfb Husd Hzero HF]. destruct HF as [Hadr Hfit Hslot Hinj Hun Hby].
  assert (0 ≤ off) as Hoff by lia. assert (0 ≤ off / 512 ∧ 0 ≤ off mod 512 < 512) as [Hd0 Hm0] by lia.
  assert (used (f_nb f) (off / 512)) as Hu by (right; lia).
  assert (slot (sect s) (f_ino f) (off / 512) = Some a) as Hsa by (by rewrite slot_block).
  destruct (Hslot i f _ Hf Hu) as (a0 & Ha0 & Har). assert (a0 = a) as -> by congruence. clear Ha0.
  set (d' := splice _ l buf). set (s' := put_sect a d' s).
  assert (length buf = 512%nat) as Hbl by (by eapply Hfull).
  assert (0 ≤ a < length (im_file s)) as Hain by (rewrite Hlen; mk_lia).
  assert (∀ sec, sect s' sec = if decide (sec = a) then Some d' else sect s sec) as Hs' by (intros; by apply sect_put).
  set (f' := mkFent (f_ino f) (f_nb f) (f_data f ++ l)).
  assert (∀ j g', <[i := f']> F !! j = Some g' → ∃ g, F !! j = Some g ∧ f_ino g' = f_ino g ∧ f_nb g' = f_nb g) as Hback.
  { intros j g' [[<- <-]|[_ Hg]]%lookup_insert_Some; eauto. }
  assert (∀ j g k, F !! j = Some g → used (f_nb g) k ∨ k < NDIRECT ∨ NDIRECT < f_nb g →
    slot (sect s') (f_ino g) k = slot (sect s) (f_ino g) k) as Hsl.
  { intros j g k Hg Hk. eapply slot_frame; [|exact Hk]. intros b Hub Hb. rewrite Hs'. rewrite decide_False; [done|]. intros ->.
    destruct (Hinj j i g f (-1) (off / 512) a) as [_ ?]; try done. lia. }
  destruct (Hfit i f Hf) as [Hfit1 Hfit2].
  split; cbn [freeblock usedblocks put_sect]; [|..|split].
  - unfold s', put_sect. cbn. by rewrite length_insert.
  - intros sec d. rewrite Hs'. case_decide; [|by apply Hfull]. intros [= <-]. unfold d'. rewrite splice_length; lia.
  - done.
  - done.
  - change (freeblock s') with (freeblock s). intros sec Hsec. rewrite Hs', decide_False by lia. by apply Hzero.
  - intros j g' (g & Hg & -> & _)%Hback. by eapply Hadr.
  - intros j g' [[<- <-]|[_ Hg]]%lookup_insert_Some; [|by eapply Hfit]. cbn. rewrite length_app. lia.
  - intros j g' k (g & Hg & -> & ->)%Hback Hk. rewrite (Hsl j g) by auto. by eapply Hslot.
  - intros j1 j2 g1' g2' k1 k2 b (g1 & Hg1 & -> & ->)%Hback (g2 & Hg2 & -> & ->)%Hback Hk1 Hk2.
    rewrite (Hsl j1 g1), (Hsl j2 g2) by auto. by eapply Hinj.
  - intros j g' k (g & Hg & -> & ->)%Hback Hk Hnu Hk2. rewrite (Hsl j g) by tauto. by eapply Hun.
  - intros j g' n b [[<- <-]|[Hne Hg]]%lookup_insert_Some Hb.
    + apply (fill_bytes (sect s) (sect s') (f_ino f) (f_nb f) (f_data f) l a buf); try done; [intros ??; by apply (Hby i f)| | |].
      * intros k Hk. rewrite <- !slot_block by lia. apply (Hsl i f); [done|]. left. by right.
      * intros k b' Hk Hka Hb'. rewrite Hs', decide_False; [done|]. intros ->.
        apply Hka. destruct (Hinj i i f f k (off / 512) a) as [_ ?]; try done; [by right|]. by rewrite slot_block by lia.
      * by rewrite Hs', decide_True.
    + assert (Hn := lookup_lt_Some _ _ _ Hb). destruct (Hfit j g' Hg) as [Hg1 _].
      rewrite (byte_frame (sect s) (sect s') (f_ino g') (f_nb g')); [by eapply Hby| |lia].
      intros k b' Hk Hb'. rewrite Hs', decide_False; [done|]. intros ->.
      destruct (Hinj j i g' f k (off / 512) a) as [? _]; try done.
Qed.

(** One more block for a file: [c1] and [x1] are the sectors and the inode
    after it, and nothing below [fb] has changed but the indirect block. *)
Section grow.
Context (c c1 : contents) (fb fb1 : Z) (F : gmap Z fent) (i : Z) (f : fent) (x1 : inode) (a : Z).
Abbreviation x := (f_ino f).
Abbreviation nb := (f_nb f).
Abbreviation f1 := (mkFent x1 (nb + 1) (f_data f)).
Hypothesis HF : files_ok c fb F.
Hypothesis Hf : F !! i = Some f.
Hypothesis Hnb : 0 ≤ nb < MAXFILE.
Hypothesis Hfull : Z.of_nat (length (f_data f)) = nb * 512.
Hypothesis Haddrs : length (i_addrs x1) = 13%nat.
Hypothesis Hfb : first_data ≤ fb ≤ fb1.
Hypothesis Hold : ∀ k, used nb k → slot c1 x1 k = slot c x k.
Hypothesis Hnew : slot c1 x1 nb = Some a ∧ fb ≤ a < fb1.
Hypothesis Hind : nb = NDIRECT → ∃ a', slot c1 x1 (-1) = Some a' ∧ fb ≤ a' < fb1 ∧ a' ≠ a.
Hypothesis Hunset : ∀ k, -1 ≤ k < MAXFILE → ¬ used (nb + 1) k → k < NDIRECT ∨ NDIRECT < nb + 1 → slot c1 x1 k = Some 0.
Hypothesis Hkept : ∀ b, first_data ≤ b < fb → (NDIRECT < nb → slot c x (-1) ≠ Some b) → c1 b = c b.

Lemma used_grow k : used (nb + 1) k → used nb k ∨ k = nb ∨ k = -1 ∧ nb = NDIRECT.
Proof using f. clear. unfold used. lia. Qed.

(** What is owned by another file, or is a data block of this one, is kept. *)
Lemma grow_kept j g k b :
  F !! j = Some g → used (f_nb g) k → j ≠ i ∨ k ≠ -1 → slot c (f_ino g) k = Some b → c1 b = c b.
Proof using All.
  intros Hg Hk Hne Hb. destruct (fs_slot _ _ _ HF j g k Hg Hk) as (b' & Hb' & Hr). simplify_eq.
  apply Hkept; [done|]. intros Hlt E. destruct (fs_inj _ _ _ HF i j f g (-1) k b) as [? ?]; try done; [by left|]. lia.
Qed.

Lemma grow_slot j g k : j ≠ i → F !! j = Some g → used (f_nb g) k ∨ k < NDIRECT ∨ NDIRECT < f_nb g →
  slot c1 (f_ino g) k = slot c (f_ino g) k.
Proof using All.
  intros Hne Hg Hk. eapply slot_frame; [|exact Hk]. intros b Hu Hb. by eapply grow_kept; [..|left|].
Qed.

(** Each slot is an old one or a new one. *)
Lemma grow_cases j g k b :
  <[i := f1]> F !! j = Some g → used (f_nb g) k → slot c1 (f_ino g) k = Some b →
  (∃ g0, F !! j = Some g0 ∧ used (f_nb g0) k ∧ slot c (f_ino g0) k = Some b ∧ b < fb) ∨
  j = i ∧ fb ≤ b < fb1 ∧ (k = nb ∧ b = a ∨ k = -1 ∧ b ≠ a).
Proof using All.
  intros [[<- <-]|[Hne Hg]]%lookup_insert_Some Hk Hb; cbn in *.
  - destruct (used_grow k Hk) as [Hu|[->|[-> E]]].
    + left. exists f. rewrite Hold in Hb by done. destruct (fs_slot _ _ _ HF i f k Hf Hu) as (b' & Hb' & Hr). simplify_eq.
      split_and!; [done|done|done|lia].
    + right. destruct Hnew as [Hn ?]. simplify_eq. auto.
    + right. destruct (Hind E) as (a' & ? & ? & ?). simplify_eq. auto.
  - left. exists g. rewrite (grow_slot j g k) in Hb by auto.
    destruct (fs_slot _ _ _ HF j g k Hg Hk) as (b' & Hb' & Hr). simplify_eq. split_and!; [done|done|done|lia].
Qed.

Lemma grow_files : files_ok c1 fb1 (<[i := f1]> F).
Proof using All.
  split.
  - intros j g [[<- <-]|[_ Hg]]%lookup_insert_Some; [done|]. by eapply fs_addrs.
  - intros j g [[<- <-]|[_ Hg]]%lookup_insert_Some; [|by eapply fs_fit]. cbn. lia.
  - intros j g k [[<- <-]|[Hne Hg]]%lookup_insert_Some Hk; cbn in *.
    + destruct (used_grow k Hk) as [Hu|[->|[-> E]]].
      * rewrite Hold by done. destruct (fs_slot _ _ _ HF i f k Hf Hu) as (b & ? & ?). exists b. split; [done|lia].
      * destruct Hnew. exists a. split; [done|lia].
      * destruct (Hind E) as (a' & ? & ? & _). exists a'. split; [done|lia].
    + rewrite (grow_slot j g k) by auto. destruct (fs_slot _ _ _ HF j g k Hg Hk) as (b & ? & ?). exists b. split; [done|lia].
  - intros j1 j2 g1 g2 k1 k2 b Hg1 Hg2 Hk1 Hk2 Hb1 Hb2.
    destruct (grow_cases j1 g1 k1 b Hg1 Hk1 Hb1) as [(h1 & ? & ? & ? & ?)|(-> & ? & Hc1)],
      (grow_cases j2 g2 k2 b Hg2 Hk2 Hb2) as [(h2 & ? & ? & ? & ?)|(-> & ? & Hc2)]; try lia.
    by eapply (fs_inj _ _ _ HF j1 j2 h1 h2).
  - intros j g k [[<- <-]|[Hne Hg]]%lookup_insert_Some Hk Hnu Hk2; cbn in *; [by apply Hunset|].
    rewrite (grow_slot j g k) by auto. by eapply fs_unset.
  - intros j g n b [[<- <-]|[Hne Hg]]%lookup_insert_Some Hb; cbn in *; rewrite <- (fs_bytes _ _ _ HF _ _ n b ltac:(eassumption) Hb).
    + assert (Hn := lookup_lt_Some _ _ _ Hb). unfold file_byte. change BSIZE with 512.
      assert (used nb (n / 512)) as Hu by (right; lia). rewrite <- !slot_block by lia. rewrite Hold by done.
      destruct (slot c x (n / 512)) as [v|] eqn:Ev; [|done]. cbn. rewrite (grow_kept i f (n / 512)); [done|done|done| |done]. right. lia.
    + assert (Hn := lookup_lt_Some _ _ _ Hb). destruct (fs_fit _ _ _ HF j g Hg).
      apply (byte_frame c c1 (f_ino g) (f_nb g)); [|lia]. intros k v Hk Hv. by eapply grow_kept; [..|left|].
Qed.
End grow.

Lemma slot_direct c x k : 0 ≤ k < NDIRECT → slot c x k = i_addrs x !! Z.to_nat k.
Proof. intros Hk. rewrite slot_block by lia. unfold file_block. by rewrite (proj2 (Z.ltb_lt _ _)) by lia. Qed.

Lemma slot_indirect c x k ind d :
  NDIRECT ≤ k < MAXFILE → i_addrs x !! Z.to_nat NDIRECT = Some ind → c ind = Some d →
  slot c x k = Some (get32 d (4 * Z.to_nat (k - NDIRECT))).
Proof.
  intros Hk Hi Hd. rewrite slot_block by mk_lia. unfold file_block. rewrite (proj2 (Z.ltb_ge _ _)) by lia.
  rewrite (proj2 (Z.ltb_lt _ _)) by mk_lia. rewrite Hi. cbn. by rewrite Hd.
Qed.

(** The state after [next_block]. *)
Definition bump s : image := s <| freeblock ::= Z.succ |> <| usedblocks ::= Z.succ |>.

Lemma next_block_eq s :
  0 ≤ freeblock s < fs_size → usedblocks s = freeblock s → next_block s = Ret (freeblock s) (bump s).
Proof.
  intros Hlt Hus. unfold next_block. mstep. unfold modify. cbn [bind obind ret id].
  rewrite xint_id by mk_lia. unfold bind, obind, ret, bump. cbn. rewrite Hus.
  rewrite !u32_small by mk_lia. done.
Qed.

(** What [iappend_block] leaves behind when it adds block [nb] to a file. *)
Record grown s F (i : Z) (f : fent) s1 (x1 : inode) (a : Z) : Prop := {
  gr_ok : image_ok s1 (<[i := mkFent x1 (f_nb f + 1) (f_data f)]> F);
  gr_block : file_block (sect s1) x1 (f_nb f) = Some a;
  gr_fb : freeblock s1 = freeblock s + (if decide (f_nb f = NDIRECT) then 2 else 1);
  gr_ino : x1 = (f_ino f) <| i_addrs := i_addrs x1 |>;
  gr_inum : freeinode s1 = freeinode s;
  gr_low : ∀ sec, sec < first_data → sect s1 sec = sect s sec;
}.

Lemma grow_direct s F i f :
  image_ok s F → F !! i = Some f → 0 ≤ f_nb f < NDIRECT → Z.of_nat (length (f_data f)) = f_nb f * 512 →
  freeblock s < fs_size →
  ∃ s1 x1 a, iappend_block (f_ino f) (f_nb f) s = Ret (a, x1) s1 ∧ grown s F i f s1 x1 a.
Proof.
  intros Hok Hf Hnb Hd Hlt. pose proof (im_files _ _ Hok) as HF. pose proof (im_fb _ _ Hok) as Hfb.
  assert (length (i_addrs (f_ino f)) = 13%nat) as Hal by (by eapply fs_addrs).
  set (nb := f_nb f) in *. set (x1 := (f_ino f) <| i_addrs ::= <[Z.to_nat nb := freeblock s]> |>).
  assert (i_addrs (f_ino f) !! Z.to_nat nb = Some 0) as H0.
  { rewrite <- (slot_direct (sect s)) by done. eapply (fs_unset _ _ _ HF i f); [done|mk_lia|unfold used; fold nb; lia|by left; lia]. }
  assert (slot (sect s) x1 nb = Some (freeblock s)) as Hs1.
  { rewrite slot_direct by done. cbn. apply list_lookup_insert_eq. mk_lia. }
  assert (∀ k, k ≠ nb → 0 ≤ k → slot (sect s) x1 k = slot (sect s) (f_ino f) k) as Hsk.
  { intros k Hk Hk0. rewrite !slot_block by done. unfold file_block.
    destruct (Z.ltb_spec k NDIRECT); cbn; rewrite list_lookup_insert_ne by mk_lia; done. }
  assert (slot (sect s) x1 (-1) = slot (sect s) (f_ino f) (-1)) as Hsm.
  { unfold slot. rewrite !decide_True by done. cbn. rewrite list_lookup_insert_ne by mk_lia. done. }
  exists (bump s), x1, (freeblock s). split.
  - unfold iappend_block. rewrite (proj2 (Z.ltb_lt _ _)) by lia. rewrite H0. unfold deref. mstep. rewrite xint_id by lia. cbn [Z.eqb].
    step (next_block_eq s); [|mk_lia|apply Hok]. rewrite xint_id by mk_lia. done.
  - split; [|by rewrite <- slot_block by lia|by rewrite decide_False by mk_lia|done|done|done]. destruct Hok as [Hl Hfu _ Hus Hz _].
    split; [done|done|cbn; lia|cbn; lia|intros sec Hsec; apply Hz; cbn in Hsec; lia|].
    apply (grow_files (sect s) (sect s) (freeblock s) _ F i f x1 (freeblock s)); try done; cbn.
    + mk_lia.
    + by rewrite length_insert.
    + lia.
    + intros k [[-> ?]|Hk]; [done|]. apply Hsk; fold nb in Hk; lia.
    + fold nb. split; [done|lia].
    + fold nb. mk_lia.
    + intros k Hk Hnu Hk2. fold nb in Hnu, Hk2. destruct (decide (k = -1)) as [->|Hne].
      * rewrite Hsm. eapply (fs_unset _ _ _ HF i f); [done|mk_lia|unfold used in *; fold nb; mk_lia|left; mk_lia].
      * rewrite Hsk by (unfold used in Hnu; lia). eapply (fs_unset _ _ _ HF i f); [done|done|unfold used in *; fold nb; lia|].
        left. mk_lia.
Qed.

Lemma get32_zero o : get32 zero_block o = 0.
Proof.
  assert (∀ j, getb zero_block j = 0) as Hz; [|unfold get32; by rewrite !Hz].
  intros j. unfold getb, zero_block. destruct (decide (j < Z.to_nat BSIZE)%nat).
  - by rewrite lookup_replicate_2.
  - by rewrite lookup_ge_None_2 by (rewrite length_replicate; lia).
Qed.

(** An entry of an indirect block that is set to [v]. *)
Lemma entry_put d k k' v :
  length d = 512%nat → NDIRECT ≤ k < MAXFILE → NDIRECT ≤ k' < MAXFILE → 0 ≤ v < 2 ^ 32 →
  get32 (put32 (4 * Z.to_nat (k - NDIRECT)) v d) (4 * Z.to_nat (k' - NDIRECT)) =
    if decide (k' = k) then v else get32 d (4 * Z.to_nat (k' - NDIRECT)).
Proof.
  intros Hd Hk Hk' Hv. case_decide as E.
  - subst k'. rewrite get32_put32_eq by mk_lia. by apply u32_small.
  - apply get32_put32_ne. mk_lia.
Qed.

Lemma grow_entry s F i f :
  image_ok s F → F !! i = Some f → NDIRECT < f_nb f < MAXFILE → Z.of_nat (length (f_data f)) = f_nb f * 512 →
  freeblock s < fs_size →
  ∃ s1 x1 a, iappend_block (f_ino f) (f_nb f) s = Ret (a, x1) s1 ∧ grown s F i f s1 x1 a.
Proof.
  intros Hok Hf Hnb Hd Hlt. pose proof (im_files _ _ Hok) as HF. pose proof (im_fb _ _ Hok) as Hfb.
  assert (used (f_nb f) (-1)) as Hum by (left; split; [done|lia]).
  destruct (image_slot s F i f (-1) Hok Hf Hum) as (ind & dind & Hi & Hr & Hdi & Hdl).
  assert (i_addrs (f_ino f) !! Z.to_nat NDIRECT = Some ind) as Hai by (unfold slot in Hi; by rewrite decide_True in Hi by done).
  set (nb := f_nb f) in *. set (x := f_ino f) in *. set (o := (4 * Z.to_nat (nb - NDIRECT))%nat).
  assert (∀ k, NDIRECT ≤ k < MAXFILE → slot (sect s) x k = Some (get32 dind (4 * Z.to_nat (k - NDIRECT)))) as Hsl
    by (intros k Hk; by apply (slot_indirect _ _ _ ind dind)).
  assert (get32 dind o = 0) as H0.
  { assert (slot (sect s) x nb = Some 0) as E; [|rewrite Hsl in E by lia; by injection E].
    eapply (fs_unset _ _ _ HF i f); [done|mk_lia|unfold used; fold nb; lia|fold nb; lia]. }
  set (s1 := put_sect ind (put32 o (freeblock s) dind) (bump s)).
  assert (0 ≤ ind < length (im_file s)) as Hin by (rewrite (im_len _ _ Hok); mk_lia).
  assert (∀ sec, sect s1 sec = if decide (sec = ind) then Some (put32 o (freeblock s) dind) else sect s sec) as Hs1
    by (intros sec; apply (sect_put (bump s)); exact Hin).
  assert (∀ k, NDIRECT ≤ k < MAXFILE → slot (sect s1) x k = if decide (k = nb) then Some (freeblock s) else slot (sect s) x k) as Hsl1.
  { intros k Hk. rewrite (slot_indirect _ _ _ ind (put32 o (freeblock s) dind)); [|done|done|by rewrite Hs1, decide_True].
    unfold o. rewrite entry_put by (done || mk_lia). rewrite Hsl by done. by case_decide. }
  assert (∀ k, -1 ≤ k < NDIRECT → slot (sect s1) x k = slot (sect s) x k) as Hslow.
  { intros k Hk. unfold slot, file_block. case_decide; [done|]. by rewrite (proj2 (Z.ltb_lt _ _)) by lia. }
  exists s1, x, (freeblock s). split.
  - unfold iappend_block. rewrite (proj2 (Z.ltb_ge _ _)) by lia. rewrite Hai. unfold deref. mstep.
    rewrite (xint_id ind) by mk_lia. rewrite (proj2 (Z.eqb_neq ind 0)) by mk_lia. mstep. rewrite Hai. mstep.
    rewrite !(xint_id ind) by mk_lia. step (rsect_eq _ _ _ Hdi). fold o. rewrite H0. cbn [Z.eqb].
    erewrite bind_ret.
    2:{ step (next_block_eq s); [|mk_lia|apply Hok]. step (wsect_eq (bump s) ind (put32 o (freeblock s) dind)); [done|exact Hin]. }
    cbv beta. fold s1. unfold o. rewrite entry_put by (done || mk_lia). rewrite decide_True, xint_id by (done || mk_lia). done.
  - assert (length (put32 o (freeblock s) dind) = 512%nat) as Hpl by (by rewrite length_put32).
    split; [|rewrite <- slot_block, Hsl1, decide_True by (done || mk_lia); done|by rewrite decide_False by (fold nb; lia)|unfold x; by destruct (f_ino f)|done|].
    2:{ intros sec Hsec. rewrite Hs1, decide_False by mk_lia. done. }
    destruct Hok as [Hl Hfu _ Hus Hz _]. change (freeblock s1) with (Z.succ (freeblock s)).
    split; [unfold s1, put_sect, bump; cbn; by rewrite length_insert| |cbn; lia|cbn; lia| |].
    { intros sec d. rewrite Hs1. case_decide; [by intros [= <-]|by apply Hfu]. }
    { intros sec Hsec. cbn in Hsec. rewrite Hs1, decide_False by lia. apply Hz. lia. }
    apply (grow_files (sect s) (sect s1) (freeblock s) _ F i f x (freeblock s)); try done; cbn; fold nb; fold x.
    + mk_lia.
    + by eapply fs_addrs.
    + lia.
    + intros k [[-> ?]|Hk]; [by apply Hslow|]. destruct (decide (k < NDIRECT)); [by apply Hslow; lia|].
      rewrite Hsl1, decide_False by mk_lia. done.
    + rewrite Hsl1, decide_True by (done || mk_lia). split; [done|lia].
    + lia.
    + intros k Hk Hnu Hk2. unfold used in Hnu. rewrite Hsl1, decide_False by mk_lia.
      eapply (fs_unset _ _ _ HF i f); [done|mk_lia|unfold used; fold nb; lia|fold nb; lia].
    + intros b Hb Hne. rewrite Hs1, decide_False; [done|]. intros ->. by apply Hne; [lia|].
Qed.

Lemma grow_first s F i f :
  image_ok s F → F !! i = Some f → f_nb f = NDIRECT → Z.of_nat (length (f_data f)) = f_nb f * 512 →
  freeblock s + 1 < fs_size →
  ∃ s1 x1 a, iappend_block (f_ino f) (f_nb f) s = Ret (a, x1) s1 ∧ grown s F i f s1 x1 a.
Proof.
  intros Hok Hf Hnb Hd Hlt. pose proof (im_files _ _ Hok) as HF. pose proof (im_fb _ _ Hok) as Hfb.
  assert (length (i_addrs (f_ino f)) = 13%nat) as Hal by (by eapply fs_addrs).
  set (x := f_ino f) in *. set (fb := freeblock s) in *. set (x1 := x <| i_addrs ::= <[Z.to_nat NDIRECT := fb]> |>).
  assert (i_addrs x !! Z.to_nat NDIRECT = Some 0) as H0.
  { assert (slot (sect s) x (-1) = Some 0) as E; [|unfold slot in E; by rewrite decide_True in E by done].
    eapply (fs_unset _ _ _ HF i f); [done|mk_lia|unfold used; rewrite Hnb; mk_lia|left; mk_lia]. }
  assert (i_addrs x1 !! Z.to_nat NDIRECT = Some fb) as Hai by (cbn; apply list_lookup_insert_eq; mk_lia).
  assert (sect s fb = Some zero_block) as Hz by (apply (im_zero _ _ Hok); fold fb; lia).
  set (o := (4 * Z.to_nat (NDIRECT - NDIRECT))%nat). set (d1 := put32 o (fb + 1) zero_block).
  set (s1 := put_sect fb d1 (bump (bump s))).
  assert (0 ≤ fb < length (im_file s)) as Hin by (rewrite (im_len _ _ Hok); mk_lia).
  assert (∀ sec, sect s1 sec = if decide (sec = fb) then Some d1 else sect s sec) as Hs1
    by (intros sec; apply (sect_put (bump (bump s))); exact Hin).
  assert (∀ k, NDIRECT ≤ k < MAXFILE → slot (sect s1) x1 k = Some (if decide (k = NDIRECT) then fb + 1 else 0)) as Hsl1.
  { intros k Hk. rewrite (slot_indirect _ _ _ fb d1); [|done|done|by rewrite Hs1, decide_True].
    unfold d1, o. rewrite entry_put by (done || mk_lia). by rewrite get32_zero. }
  assert (∀ k, 0 ≤ k < NDIRECT → slot (sect s1) x1 k = slot (sect s) x k) as Hslow.
  { intros k Hk. rewrite !slot_direct by done. cbn. by rewrite list_lookup_insert_ne by mk_lia. }
  exists s1, x1, (fb + 1). rewrite Hnb. split.
  - unfold iappend_block. rewrite (proj2 (Z.ltb_ge _ _)) by lia. rewrite H0. unfold deref. mstep.
    rewrite (xint_id 0) by lia. cbn [Z.eqb].
    rewrite (bind_ret _ _ s x1 (bump s)) by (step (next_block_eq s); [done|mk_lia|apply Hok]).
    cbv beta. rewrite Hai. mstep. rewrite !(xint_id fb) by mk_lia. step (rsect_eq (bump s) fb zero_block Hz).
    rewrite get32_zero. cbn [Z.eqb].
    rewrite (bind_ret _ _ (bump s) d1 s1).
    2:{ step (next_block_eq (bump s)); [|cbn; mk_lia|cbn; by rewrite (im_used _ _ Hok)].
        change (freeblock (bump s)) with (fb + 1). step (wsect_eq (bump (bump s)) fb d1); [done|exact Hin]. }
    cbv beta. unfold d1, o. rewrite entry_put by (done || mk_lia). rewrite decide_True, xint_id by (done || mk_lia). done.
  - split; [|rewrite Hnb, <- slot_block, Hsl1, decide_True by (done || mk_lia); done|rewrite Hnb, decide_True by done; cbn; lia|done|done|].
    2:{ intros sec Hsec. rewrite Hs1, decide_False by mk_lia. done. }
    destruct Hok as [Hl Hfu _ Hus Hzo _].
    split; [unfold s1, put_sect, bump; cbn; by rewrite length_insert| |cbn; lia|cbn; lia| |].
    { intros sec d. rewrite Hs1. case_decide; [|by apply Hfu]. intros [= <-]. unfold d1. by rewrite length_put32. }
    { intros sec Hsec. cbn in Hsec. rewrite Hs1, decide_False by (fold fb in Hsec; lia). apply Hzo. fold fb in Hsec |- *. lia. }
    replace (freeblock s1) with (fb + 2) by (unfold s1, put_sect, bump; cbn; fold fb; lia).
    apply (grow_files (sect s) (sect s1) fb (fb + 2) F i f x1 (fb + 1)); try done; rewrite ?Hnb; fold x.
    + mk_lia.
    + cbn. by rewrite length_insert.
    + lia.
    + intros k [[-> ?]|Hk]; [lia|]. by apply Hslow.
    + rewrite Hsl1, decide_True by (done || mk_lia). split; [done|lia].
    + intros _. exists fb. split_and!; [|lia|lia|lia]. unfold slot. by rewrite decide_True.
    + intros k Hk Hnu Hk2. unfold used in Hnu. rewrite Hsl1, decide_False by mk_lia. done.
    + intros b Hb Hne. rewrite Hs1, decide_False by lia. done.
Qed.

(** Adding a block to a file whose blocks are full. *)
Lemma grow_block s F i f :
  image_ok s F → F !! i = Some f → 0 ≤ f_nb f < MAXFILE → Z.of_nat (length (f_data f)) = f_nb f * 512 →
  freeblock s + (if decide (f_nb f = NDIRECT) then 2 else 1) ≤ fs_size →
  ∃ s1 x1 a, iappend_block (f_ino f) (f_nb f) s = Ret (a, x1) s1 ∧ grown s F i f s1 x1 a.
Proof.
  intros Hok Hf Hnb Hd Hlt. destruct (Z.lt_trichotomy (f_nb f) NDIRECT) as [H|[H|H]].
  - rewrite decide_False in Hlt by lia. apply grow_direct; try done; lia.
  - rewrite decide_True in Hlt by done. apply grow_first; try done; lia.
  - rewrite decide_False in Hlt by lia. apply grow_entry; try done; lia.
Qed.

(** A block that is there already. *)
Lemma same_block s F i f k a :
  image_ok s F → F !! i = Some f → 0 ≤ k < f_nb f → file_block (sect s) (f_ino f) k = Some a →
  iappend_block (f_ino f) k s = Ret (a, f_ino f) s.
Proof.
  intros Hok Hf Hk Ha. pose proof (im_files _ _ Hok) as HF. pose proof (im_fb _ _ Hok) as Hfb.
  destruct (fs_fit _ _ _ HF i f Hf) as [_ Hmax].
  destruct (fs_slot _ _ _ HF i f k Hf) as (a' & Ha' & Hr); [by right|]. rewrite slot_block in Ha' by lia. simplify_eq.
  unfold iappend_block. destruct (Z.ltb_spec k NDIRECT) as [Hlt|Hge].
  - rewrite <- slot_block, slot_direct in Ha by lia. rewrite Ha. unfold deref. mstep. rewrite !xint_id by mk_lia.
    by rewrite (proj2 (Z.eqb_neq a 0)) by mk_lia.
  - destruct (image_slot s F i f (-1) Hok Hf) as (ind & dind & Hi & Hri & Hdi & Hdl); [left; split; [done|lia]|].
    unfold slot in Hi. rewrite decide_True in Hi by done. rewrite Hi. unfold deref. mstep.
    rewrite (xint_id ind) by mk_lia. rewrite (proj2 (Z.eqb_neq ind 0)) by mk_lia. mstep. rewrite Hi. mstep.
    rewrite !(xint_id ind) by mk_lia. step (rsect_eq _ _ _ Hdi).
    rewrite <- slot_block, (slot_indirect _ _ _ ind dind) in Ha by (done || mk_lia). apply (inj Some) in Ha. rewrite Ha.
    rewrite (proj2 (Z.eqb_neq a 0)) by mk_lia. mstep. rewrite Ha, xint_id by mk_lia. done.
Qed.

(** The blocks of a file of [n] bytes, without and with its indirect block. *)
Definition nbs (n : Z) : Z := (n + 511) / 512.
Definition cost (n : Z) : Z := nbs n + (if decide (NDIRECT < nbs n) then 1 else 0).

(** [l] has been appended to the file [f]; its inode is now [x']. *)
Record appended s F (i : Z) (f : fent) (l : list Z) s' (x' : inode) : Prop := {
  ap_ok : image_ok s' (<[i := mkFent x' (nbs (length (f_data f ++ l))) (f_data f ++ l)]> F);
  ap_fb : freeblock s' = freeblock s + cost (length (f_data f ++ l)) - cost (length (f_data f));
  ap_ino : x' = (f_ino f) <| i_addrs := i_addrs x' |>;
  ap_inum : freeinode s' = freeinode s;
  ap_low : ∀ sec, sec < first_data → sect s' sec = sect s sec;
}.

(** One block: making sure it is there, and writing to it. *)
Lemma append_block s F i f l :
  image_ok s F → F !! i = Some f → f_nb f = nbs (length (f_data f)) →
  let off := Z.of_nat (length (f_data f)) in
  off / 512 < MAXFILE → (0 < length l)%nat → off mod 512 + length l ≤ 512 →
  freeblock s + cost (off + length l) - cost off ≤ fs_size →
  ∃ s1 x1 a buf, iappend_block (f_ino f) (off / 512) s = Ret (a, x1) s1 ∧ sect s1 a = Some buf ∧
    0 ≤ a < length (im_file s1) ∧
    appended s F i f l (put_sect a (splice (Z.to_nat (off mod 512)) l buf) s1) x1.
Proof.
  intros Hok Hf Hnb off Hmax Hl Hfit Hfb. unfold nbs in Hnb. fold off in Hnb.
  assert (nbs (off + length l) = off / 512 + 1) as Hnbs by (unfold nbs; lia).
  destruct (decide (off mod 512 = 0)) as [E|E].
  - assert (f_nb f = off / 512) as Hnb' by lia.
    assert (cost (off + length l) - cost off = if decide (f_nb f = NDIRECT) then 2 else 1) as Hcost.
    { unfold cost. rewrite Hnbs. replace (nbs off) with (off / 512) by (unfold nbs; lia). rewrite Hnb'.
      repeat case_decide; lia. }
    destruct (grow_block s F i f) as (s1 & x1 & a & Hrun & [Gok Gb Gfb Gx Gi Gl]); [done|done|lia|lia|lia|].
    rewrite Hnb' in Hrun. set (f1 := mkFent x1 (f_nb f + 1) (f_data f)) in Gok.
    assert (<[i := f1]> F !! i = Some f1) as Hf1 by apply lookup_insert_eq.
    destruct (image_slot s1 _ i f1 (f_nb f) Gok Hf1) as (a' & buf & Ha' & Hr & Hbuf & _); [right; cbn; lia|].
    rewrite slot_block in Ha' by lia. cbn in Ha'. simplify_eq.
    exists s1, x1, a, buf. pose proof (im_fb _ _ Gok). pose proof (im_len _ _ Gok). split_and!; [done|done|mk_lia|mk_lia|].
    split; cbn [freeblock freeinode put_sect]; try done.
    + replace (nbs _) with (f_nb f + 1) by (rewrite length_app, Nat2Z.inj_add; fold off; lia).
      rewrite <- (insert_insert_eq F i _ f1). apply (fill_step s1 _ i f1 l a buf); try done; cbn; fold off; [lia|by rewrite <- Hnb'].
    + change (freeblock s1 = freeblock s + cost (length (f_data f ++ l)) - cost off).
      rewrite Gfb, length_app, Nat2Z.inj_add. fold off. lia.
    + intros sec Hsec. rewrite sect_put, decide_False by mk_lia. by apply Gl.
  - assert (off / 512 < f_nb f) as Hlt by lia.
    assert (cost (off + length l) = cost off) as Hcost.
    { unfold cost. rewrite Hnbs. by replace (nbs off) with (off / 512 + 1) by (unfold nbs; lia). }
    destruct (image_slot s F i f (off / 512) Hok Hf) as (a & buf & Ha & Hr & Hbuf & _); [right; lia|].
    rewrite slot_block in Ha by lia. exists s, (f_ino f), a, buf. pose proof (im_fb _ _ Hok). pose proof (im_len _ _ Hok).
    split_and!; [by apply (same_block s F i f); [..|lia|]|done|mk_lia|mk_lia|].
    split; cbn [freeblock freeinode put_sect]; try done.
    + replace (nbs _) with (f_nb f) by (rewrite length_app, Nat2Z.inj_add; fold off; lia).
      by apply (fill_step s F i f l a buf).
    + change (freeblock s = freeblock s + cost (length (f_data f ++ l)) - cost off). rewrite length_app, Nat2Z.inj_add. fold off. lia.
    + by destruct (f_ino f).
    + intros sec Hsec. rewrite sect_put, decide_False by mk_lia. done.
Qed.

Lemma appended_nil s F i f :
  image_ok s F → F !! i = Some f → f_nb f = nbs (length (f_data f)) → appended s F i f [] s (f_ino f).
Proof.
  intros Hok Hf Hnb. split; rewrite ?app_nil_r; [|lia|by destruct (f_ino f)|done|done].
  rewrite <- Hnb, insert_id; [done|]. rewrite Hf. by destruct f.
Qed.

Lemma appended_app s F i f l1 l2 s1 x1 s2 x2 :
  appended s F i f l1 s1 x1 →
  let f1 := mkFent x1 (nbs (length (f_data f ++ l1))) (f_data f ++ l1) in
  appended s1 (<[i := f1]> F) i f1 l2 s2 x2 → appended s F i f (l1 ++ l2) s2 x2.
Proof.
  intros [A1 A2 A3 A4 A5] f1 [B1 B2 B3 B4 B5]. cbn in *. rewrite insert_insert_eq, <- app_assoc in B1. rewrite <- app_assoc in B2.
  split; [done|lia|by rewrite B3, A3|congruence|]. intros sec Hsec. by rewrite B5, A5.
Qed.

Lemma iappend_loop_view i n : ∀ p s F f,
  image_ok s F → F !! i = Some f → f_nb f = nbs (length (f_data f)) → (length p < n)%nat →
  length (f_data f) + length p ≤ MAXFILE * 512 →
  freeblock s + cost (length (f_data f) + length p) - cost (length (f_data f)) ≤ fs_size →
  ∃ s' x', iappend_loop n p (length (f_data f)) (f_ino f) s = Ret (Z.of_nat (length (f_data f ++ p)), x') s' ∧
    appended s F i f p s' x'.
Proof.
  induction n as [|n IH]; intros p s F f Hok Hf Hnb Hn Hmax Hfb; [lia|]. cbn [iappend_loop].
  destruct (Nat.eqb_spec (length p) 0) as [E|E].
  { destruct p; [|done]. exists s, (f_ino f). rewrite app_nil_r. split; [done|]. by apply appended_nil. }
  set (off := Z.of_nat (length (f_data f))) in *. assert (off / 512 < MAXFILE) as Hm by mk_lia.
  set (n1 := Z.min (length p) (512 - off mod 512)).
  assert (Z.min (length p) (u32 (u32 ((off / 512 + 1) * 512) - off)) = n1) as Hn1.
  { rewrite (u32_small ((off / 512 + 1) * 512)) by mk_lia. rewrite u32_small by mk_lia. unfold n1. f_equal. lia. }
  cbv zeta. rewrite Hn1. replace (off - off / 512 * 512) with (off mod 512) by lia.
  set (l := take (Z.to_nat n1) p). assert (Z.of_nat (length l) = n1) as Hll by (unfold l, n1; rewrite length_take; lia).
  assert (cost (off + length l) ≤ cost (off + length p)) as Hmono.
  { unfold cost, nbs. assert (length l ≤ length p) by (unfold l; rewrite length_take; lia). repeat case_decide; lia. }
  destruct (append_block s F i f l) as (s1 & x1 & a & buf & E1 & Hbuf & Ha & Hap); try done; [unfold n1 in Hll; lia|fold off; unfold n1 in Hll; lia|fold off; lia|].
  unfold assert. rewrite (proj2 (Z.ltb_lt _ _)) by done. mstep. fold off in E1. step E1. cbv beta iota. step (rsect_eq _ _ _ Hbuf).
  step (wsect_eq s1 a (splice (Z.to_nat (off mod 512)) l buf) Ha). fold off in Hap.
  set (s2 := put_sect a _ s1) in *. set (f1 := mkFent x1 (nbs (length (f_data f ++ l))) (f_data f ++ l)).
  assert (u32 (off + n1) = Z.of_nat (length (f_data f1))) as ->.
  { unfold f1. cbn. rewrite length_app, Nat2Z.inj_add. fold off. rewrite Hll. apply u32_small. mk_lia. }
  assert (length (drop (Z.to_nat n1) p) + n1 = length p) as Hdrop by (rewrite length_drop; unfold n1; lia).
  assert (length (f_data f1) + length (drop (Z.to_nat n1) p) = off + length p) as Hsum
    by (unfold f1; cbn; rewrite length_app, Nat2Z.inj_add; fold off; lia).
  destruct (IH (drop (Z.to_nat n1) p) s2 (<[i := f1]> F) f1) as (s' & x' & E2 & Hap2);
    [apply Hap|apply lookup_insert_eq|done|lia|lia| |].
  { rewrite Hsum, (ap_fb _ _ _ _ _ _ _ Hap). fold off. cbn. lia. }
  change x1 with (f_ino f1). exists s', x'. split.
  - rewrite E2. cbn. unfold l. by rewrite <- app_assoc, take_drop.
  - rewrite <- (take_drop (Z.to_nat n1) p). by eapply appended_app.
Qed.

(** ** Files on disk *)

(** The inodes in the image are those of the files, with their sizes. *)
Record disk_ok s F : Prop := {
  do_image : image_ok s F;
  do_free : 1 ≤ freeinode s ≤ ninodes;
  do_dom : ∀ i, is_Some (F !! i) ↔ 1 ≤ i < freeinode s;
  do_nb : ∀ i f, F !! i = Some f → f_nb f = nbs (length (f_data f)) ∧ inode_wf (f_ino f) ∧ i_inum (f_ino f) = i ∧
    i_size (f_ino f) = length (f_data f);
  do_inode : ∀ i f, F !! i = Some f → ∃ d, sect s (i2b i) = Some d ∧ load_dinode d (no_inode i) = f_ino f;
}.

Lemma i2b_low i : 1 ≤ i < ninodes → 2 ≤ i2b i < first_data.
Proof. unfold i2b, ninodes, IPB, BSIZE. rewrite first_data_29. change (512 / 64) with 8. lia. Qed.

(** Writing a sector of inodes leaves the files alone. *)
Lemma low_put s F sec d :
  image_ok s F → 0 ≤ sec < first_data → length d = 512%nat → image_ok (put_sect sec d s) F.
Proof.
  intros [Hl Hfu Hfb Hus Hz HF] Hsec Hd.
  assert (∀ sec', sect (put_sect sec d s) sec' = if decide (sec' = sec) then Some d else sect s sec') as Hs
    by (intros; apply sect_put; rewrite Hl; mk_lia).
  split; [unfold put_sect; cbn; by rewrite length_insert| |done|done| |].
  - intros sec' d'. rewrite Hs. case_decide; [by intros [= <-]|by apply Hfu].
  - intros sec' Hsec'. cbn in Hsec'. rewrite Hs, decide_False by lia. by apply Hz.
  - assert (∀ b, first_data ≤ b → sect (put_sect sec d s) b = sect s b) as Hk by (intros b Hb; by rewrite Hs, decide_False by lia).
    assert (∀ j g k, F !! j = Some g → used (f_nb g) k ∨ k < NDIRECT ∨ NDIRECT < f_nb g →
      slot (sect (put_sect sec d s)) (f_ino g) k = slot (sect s) (f_ino g) k) as Hsl.
    { intros j g k Hg Hk'. eapply slot_frame; [|exact Hk']. intros b Hub Hb. apply Hk.
      destruct (fs_slot _ _ _ HF j g (-1) Hg Hub) as (b' & Hb' & ?). simplify_eq. lia. }
    split; [by apply HF|by apply HF|..].
    + intros j g k Hg Hk'. rewrite (Hsl j g) by auto. by eapply fs_slot.
    + intros j1 j2 g1 g2 k1 k2 b Hg1 Hg2 Hk1 Hk2. rewrite (Hsl j1 g1), (Hsl j2 g2) by auto. by eapply fs_inj.
    + intros j g k Hg Hk' Hnu Hk2. rewrite (Hsl j g) by auto. by eapply fs_unset.
    + intros j g n b Hg Hb. rewrite <- (fs_bytes _ _ _ HF j g n b Hg Hb). assert (Hn := lookup_lt_Some _ _ _ Hb).
      destruct (fs_fit _ _ _ HF j g Hg). apply (byte_frame _ _ _ (f_nb g)); [|lia]. intros k v Hk' Hv. apply Hk.
      destruct (fs_slot _ _ _ HF j g k Hg Hk') as (b' & Hb' & ?). simplify_eq. lia.
Qed.

Lemma addrs_range s F i f a : image_ok s F → F !! i = Some f → a ∈ i_addrs (f_ino f) → 0 ≤ a < fs_size.
Proof.
  intros Hok Hf Ha. pose proof (im_files _ _ Hok) as HF. pose proof (im_fb _ _ Hok).
  apply list_elem_of_lookup in Ha as [n Hn]. assert (Hlt := lookup_lt_Some _ _ _ Hn). rewrite (fs_addrs _ _ _ HF i f Hf) in Hlt.
  set (k := if decide (n = 12%nat) then -1 else Z.of_nat n).
  assert (slot (sect s) (f_ino f) k = Some a) as Hs.
  { unfold k. case_decide as E; [subst n; unfold slot; by rewrite decide_True|].
    rewrite slot_direct by mk_lia. by rewrite Nat2Z.id. }
  assert (-1 ≤ k < NDIRECT) as Hk by (unfold k; case_decide; mk_lia).
  destruct (decide (used (f_nb f) k)) as [Hu|Hu].
  - destruct (fs_slot _ _ _ HF i f k Hf Hu) as (b & Hb & ?). simplify_eq. mk_lia.
  - rewrite (fs_unset _ _ _ HF i f k) in Hs by (done || mk_lia || (left; lia)). simplify_eq. mk_lia.
Qed.

(** What an inode read from disk looks like in memory. *)
Definition loaded (i : Z) (x : inode) : Prop := i_dev x = 0 ∧ i_inum x = i ∧ i_ref x = 0 ∧ i_flags x = 0.

Lemma load_loaded d i : loaded i (load_dinode d (no_inode i)).
Proof. done. Qed.

Lemma load_store_loaded i x d :
  loaded i x → inode_wf x → length d = 512%nat → load_dinode (store_dinode x d) (no_inode i) = x.
Proof. intros (E1 & E2 & E3 & E4) Hw Hd. rewrite load_store by done. destruct x; cbn in *. by subst. Qed.

(** Storing an inode of the files. *)
Lemma winode_view s F i f x :
  image_ok s (<[i := f]> F) → 1 ≤ i < ninodes → loaded i x → inode_wf x → f_ino f = x →
  (∀ j g, F !! j = Some g → j ≠ i → 1 ≤ j < ninodes ∧ ∃ d, sect s (i2b j) = Some d ∧ load_dinode d (no_inode j) = f_ino g) →
  ∃ s', winode i x s = Ret tt s' ∧ image_ok s' (<[i := f]> F) ∧ freeblock s' = freeblock s ∧ freeinode s' = freeinode s ∧
    (∀ sec, sec ≠ i2b i → sect s' sec = sect s sec) ∧
    ∀ j g, <[i := f]> F !! j = Some g → ∃ d, sect s' (i2b j) = Some d ∧ load_dinode d (no_inode j) = f_ino g.
Proof.
  intros Hok Hi Hld Hwf Hx Hoth. assert (Hlow := i2b_low i Hi).
  destruct (image_sect s _ (i2b i) Hok) as (d & Hd & Hdl); [mk_lia|].
  assert (x <| i_inum := i |> = x) as Ex by (destruct Hld as (_ & E & _); destruct x; cbn in *; by subst).
  assert (length (store_dinode x d) = 512%nat) as Hsl by (rewrite <- Hdl; apply (store_dinode_in x); apply Hwf).
  assert (0 ≤ i2b i < length (im_file s)) as Hin by (rewrite (im_len _ _ Hok); mk_lia).
  exists (put_sect (i2b i) (store_dinode x d) s). split_and!; [|by apply low_put; [|lia|]|done|done| |].
  - unfold winode. cbv zeta. step (rsect_eq _ _ _ Hd). rewrite Ex. by apply wsect_eq.
  - intros sec Hne. by rewrite sect_put, decide_False.
  - intros j g Hg. rewrite sect_put by done. case_decide as E.
    + exists (store_dinode x d). split; [done|]. destruct (decide (j = i)) as [->|Hne].
      * rewrite lookup_insert_eq in Hg. simplify_eq. by apply load_store_loaded.
      * rewrite lookup_insert_ne in Hg by done. destruct (Hoth j g Hg Hne) as (Hj & d' & Hd' & Hl). rewrite E in Hd'. simplify_eq.
        rewrite <- Hl. apply load_store_ne; [apply Hwf|]. destruct Hld as (_ & -> & _). cbn.
        unfold i2b in E. intros Em. apply Hne. unfold IPB, BSIZE in *. change (512 / 64) with 8 in *. lia.
    + rewrite lookup_insert_ne in Hg by congruence. destruct (Hoth j g Hg) as (_ & d' & Hd' & Hl); [congruence|]. by exists d'.
Qed.

Lemma slot_addrs c x x' k : i_addrs x' = i_addrs x → slot c x' k = slot c x k.
Proof. intros E. unfold slot, file_block. by rewrite E. Qed.
Lemma byte_addrs c x x' j : i_addrs x' = i_addrs x → file_byte c x' j = file_byte c x j.
Proof. intros E. unfold file_byte, file_block. by rewrite E. Qed.

(** Files are about the addresses in the inodes only. *)
Lemma image_resize s F i x x' nb data :
  image_ok s (<[i := mkFent x nb data]> F) → i_addrs x' = i_addrs x → image_ok s (<[i := mkFent x' nb data]> F).
Proof.
  intros [H1 H2 H3 H4 H5 HF] E. split; [done..|].
  assert (∀ j g', <[i := mkFent x' nb data]> F !! j = Some g' → ∃ g, <[i := mkFent x nb data]> F !! j = Some g ∧
    i_addrs (f_ino g') = i_addrs (f_ino g) ∧ f_nb g' = f_nb g ∧ f_data g' = f_data g) as Hback.
  { intros j g' [[<- <-]|[Hne Hg]]%lookup_insert_Some; [rewrite lookup_insert_eq|rewrite lookup_insert_ne by done]; eauto. }
  split.
  - intros j g' (g & Hg & -> & _)%Hback. by eapply fs_addrs.
  - intros j g' (g & Hg & _ & -> & ->)%Hback. by eapply fs_fit.
  - intros j g' k (g & Hg & Ea & -> & _)%Hback. rewrite (slot_addrs _ _ _ _ Ea). by eapply fs_slot.
  - intros j1 j2 g1' g2' k1 k2 b (g1 & Hg1 & Ea1 & -> & _)%Hback (g2 & Hg2 & Ea2 & -> & _)%Hback.
    rewrite (slot_addrs _ _ _ _ Ea1), (slot_addrs _ _ _ _ Ea2). by eapply fs_inj.
  - intros j g' k (g & Hg & Ea & -> & _)%Hback. rewrite (slot_addrs _ _ _ _ Ea). by eapply fs_unset.
  - intros j g' n b (g & Hg & Ea & _ & ->)%Hback. rewrite (byte_addrs _ _ _ _ Ea). by eapply fs_bytes.
Qed.

(** A sector that holds no inodes. *)
Definition other_sector (sec : Z) : Prop := sec < first_data ∧ ∀ j, 1 ≤ j < ninodes → sec ≠ i2b j.

(** [l] has been appended to file [i], on disk. *)
Record stored s F (i : Z) (f : fent) (l : list Z) s' (f' : fent) : Prop := {
  sto_ok : disk_ok s' (<[i := f']> F);
  sto_data : f_data f' = f_data f ++ l;
  sto_fb : freeblock s' = freeblock s + cost (length (f_data f ++ l)) - cost (length (f_data f));
  sto_inum : freeinode s' = freeinode s;
  sto_meta : i_type (f_ino f') = i_type (f_ino f) ∧ i_nlink (f_ino f') = i_nlink (f_ino f);
  sto_low : ∀ sec, other_sector sec → sect s' sec = sect s sec;
}.

Lemma iappend_view s F i f l :
  disk_ok s F → F !! i = Some f → length (f_data f) + length l ≤ MAXFILE * 512 →
  freeblock s + cost (length (f_data f) + length l) - cost (length (f_data f)) ≤ fs_size →
  ∃ s' f', iappend i l s = Ret tt s' ∧ stored s F i f l s' f'.
Proof.
  intros [Hok Hfr Hdom Hnb Hino] Hf Hmax Hfb. destruct (Hnb i f Hf) as (Hn & Hwf & Hinum & Hsz).
  destruct (Hino i f Hf) as (d & Hd & Hl). assert (1 ≤ i < freeinode s) as Hi by (apply Hdom; eauto).
  assert (loaded i (f_ino f)) as Hld by (rewrite <- Hl; apply load_loaded).
  destruct (iappend_loop_view i (S (length l)) l s F f) as (s1 & x1 & E1 & [A1 A2 A3 A4 A5]); try done; [lia|].
  set (sz := length (f_data f ++ l)) in *. assert (Z.of_nat sz = length (f_data f) + length l) as Hszl by (unfold sz; rewrite length_app; lia).
  set (x2 := x1 <| i_size := Z.of_nat sz |>). set (f' := mkFent x2 (nbs sz) (f_data f ++ l)).
  assert (image_ok s1 (<[i := f']> F)) as A1' by (by apply (image_resize _ _ _ x1)).
  assert (loaded i x2) as Hld2 by (unfold x2; rewrite A3; exact Hld).
  assert (inode_wf x2) as Hwf2.
  { destruct Hwf. unfold x2. split; try (cbn; rewrite A3; done).
    - cbn. mk_lia.
    - apply (fs_addrs _ _ _ (im_files _ _ A1') i f'), lookup_insert_eq.
    - intros a Ha. assert (0 ≤ a < fs_size) as ? by (eapply (addrs_range s1 _ i f'); [exact A1'|apply lookup_insert_eq|exact Ha]). mk_lia. }
  assert (∀ j g, F !! j = Some g → j ≠ i → 1 ≤ j < ninodes ∧ ∃ d, sect s1 (i2b j) = Some d ∧ load_dinode d (no_inode j) = f_ino g) as Hoth.
  { intros j g Hg Hne. assert (1 ≤ j < freeinode s) by (apply Hdom; eauto). split; [lia|]. destruct (Hino j g Hg) as (d' & Hd' & Hl').
    exists d'. split; [|done]. rewrite A5; [done|]. apply i2b_low. lia. }
  destruct (winode_view s1 F i f' x2) as (s2 & E2 & B1 & B2 & B3 & B4 & B5); try done; [lia|].
  exists s2, f'. split.
  - unfold iappend, rinode. rewrite (bind_ret _ _ s (f_ino f) s) by (step (rsect_eq _ _ _ Hd); by rewrite Hl).
    cbv beta. rewrite Hsz, xint_id by mk_lia. step E1. cbv beta iota. rewrite xint_id by mk_lia. exact E2.
  - split; [|done|rewrite B2; exact A2|congruence|unfold f', x2; cbn; rewrite A3; done|].
    + split; [done|rewrite B3, A4; lia| | |done].
      * intros j. rewrite B3, A4, <- Hdom. destruct (decide (j = i)) as [->|Hne].
        -- rewrite lookup_insert_eq. split; [by eexists|done].
        -- by rewrite lookup_insert_ne.
      * intros j g [[<- <-]|[Hne Hg]]%lookup_insert_Some; [|by apply Hnb]. cbn. split_and!; [done|done|by destruct Hld2 as (_ & ? & _)|done].
    + intros sec [Hs1 Hs2]. rewrite B4 by (apply Hs2; lia). by apply A5.
Qed.

(** An inode without blocks. *)
Definition new_file (i type : Z) : fent := mkFent ((no_inode i) <| i_type := type |> <| i_nlink := 1 |>) 0 [].

Lemma image_new s F i type : image_ok s F → F !! i = None → image_ok s (<[i := new_file i type]> F).
Proof.
  intros [H1 H2 H3 H4 H5 HF] Hi. split; [done..|].
  assert (∀ k, ¬ used 0 k) as Hu by (unfold used; mk_lia).
  split.
  - intros j g [[<- <-]|[_ Hg]]%lookup_insert_Some; [done|by eapply fs_addrs].
  - intros j g [[<- <-]|[_ Hg]]%lookup_insert_Some; [cbn; mk_lia|by eapply fs_fit].
  - intros j g k [[<- <-]|[_ Hg]]%lookup_insert_Some Hk; [by destruct (Hu k)|by eapply fs_slot].
  - intros j1 j2 g1 g2 k1 k2 b [[<- <-]|[_ Hg1]]%lookup_insert_Some [[<- <-]|[_ Hg2]]%lookup_insert_Some Hk1 Hk2;
      [by destruct (Hu k1)..|by destruct (Hu k2)|by eapply fs_inj].
  - intros j g k [[<- <-]|[_ Hg]]%lookup_insert_Some Hk Hnu Hk2; [|by eapply fs_unset]. cbn in Hk2.
    destruct (decide (k = -1)) as [->|Hne]; [done|]. rewrite slot_direct by mk_lia. cbn.
    change (replicate 13 0 !! Z.to_nat k = Some 0). apply lookup_replicate_2. mk_lia.
  - intros j g n b [[<- <-]|[_ Hg]]%lookup_insert_Some Hb; [cbn in Hb; by destruct n|by eapply fs_bytes].
Qed.

Lemma mk_ialloc_view s F type :
  disk_ok s F → freeinode s < ninodes → 0 ≤ type < 2 ^ 15 →
  ∃ s', mk_ialloc type s = Ret (freeinode s) s' ∧ disk_ok s' (<[freeinode s := new_file (freeinode s) type]> F) ∧
    freeblock s' = freeblock s ∧ freeinode s' = freeinode s + 1 ∧ ∀ sec, other_sector sec → sect s' sec = sect s sec.
Proof.
  intros [Hok Hfr Hdom Hnb Hino] Hlt Ht. set (i := freeinode s) in *.
  assert (F !! i = None) as Hi by (apply eq_None_not_Some; rewrite Hdom; lia).
  set (f := new_file i type). set (s1 := s <| freeinode := i + 1 |>).
  assert (inode_wf (f_ino f)) as Hwf.
  { split; try (cbn; lia); try done. intros a Ha. cbn in Ha. change (a ∈ replicate 13 0) in Ha. apply elem_of_replicate in Ha as [-> _]. lia. }
  assert (image_ok s (<[i := f]> F)) as Hok' by (by apply image_new).
  assert (∀ j g, F !! j = Some g → 1 ≤ j < i) as Hj by (intros j g Hg; apply Hdom; eauto).
  destruct (winode_view s1 F i f (f_ino f)) as (s2 & E2 & B1 & B2 & B3 & B4 & B5); try done.
  { by destruct Hok'. }
  { lia. }
  { intros j g Hg _. specialize (Hj j g Hg). split; [lia|]. by apply Hino. }
  exists s2. split_and!; [|split|done|done|].
  - unfold mk_ialloc. mstep. cbn [id]. fold i. rewrite (bind_ret _ _ s tt s1).
    2:{ unfold modify, s1. cbn. fold i. by rewrite u32_small by (unfold ninodes in *; lia). }
    cbv beta.
    replace (_ <| i_size := _ |>) with (f_ino f).
    2:{ unfold f, new_file. cbn. f_equal. unfold xshort, get16, getb. cbn. unfold s16, u8. rewrite Z.shiftr_div_pow2 by lia. lia. }
    by step E2.
  - done.
  - rewrite B3. cbn. unfold ninodes in *. lia.
  - intros j. rewrite B3. cbn. destruct (decide (j = i)) as [->|Hne].
    + rewrite lookup_insert_eq. split; [lia|by eexists].
    + rewrite lookup_insert_ne by done. rewrite Hdom. lia.
  - intros j g [[<- <-]|[Hne Hg]]%lookup_insert_Some; [|by apply Hnb]. by split_and!.
  - done.
  - intros sec [_ Hs2]. rewrite B4 by (apply Hs2; lia). done.
Qed.

Lemma cost_mono n m : n ≤ m → cost n ≤ cost m.
Proof. intros H. unfold cost, nbs. repeat case_decide; lia. Qed.

Lemma stored_nil s F i f : disk_ok s F → F !! i = Some f → stored s F i f [] s f.
Proof. intros Hok Hf. split; rewrite ?app_nil_r; try done; [by rewrite insert_id|lia]. Qed.

Lemma stored_app s F i f l1 l2 s1 f1 s2 f2 :
  stored s F i f l1 s1 f1 → stored s1 (<[i := f1]> F) i f1 l2 s2 f2 → stored s F i f (l1 ++ l2) s2 f2.
Proof.
  intros [A1 A2 A3 A4 [A5 A5'] A6] [B1 B2 B3 B4 [B5 B5'] B6]. rewrite insert_insert_eq in B1. rewrite A2, <- app_assoc in B2, B3.
  split; [done|done|lia|congruence|split; congruence|]. intros sec Hs. by rewrite B6, A6.
Qed.

(** What the successive calls of [read] return, up to the end of the file. *)
Fixpoint read_all (chunks : list (list Z)) : list Z :=
  match chunks with
  | [] => []
  | c :: chunks => if (length c =? 0)%nat then [] else c ++ read_all chunks
  end.

Lemma copy_file_view i chunks : ∀ s F f,
  disk_ok s F → F !! i = Some f → length (f_data f) + length (read_all chunks) ≤ MAXFILE * 512 →
  freeblock s + cost (length (f_data f) + length (read_all chunks)) - cost (length (f_data f)) ≤ fs_size →
  ∃ s' f', copy_file i chunks s = Ret tt s' ∧ stored s F i f (read_all chunks) s' f'.
Proof.
  induction chunks as [|c chunks IH]; intros s F f Hok Hf Hmax Hfb; cbn [copy_file read_all] in *.
  { exists s, f. split; [done|by apply stored_nil]. }
  destruct (_ =? 0)%nat eqn:E; [exists s, f; split; [done|by apply stored_nil]|].
  rewrite length_app, Nat2Z.inj_add in Hmax, Hfb.
  pose proof (cost_mono (length (f_data f) + length c) (length (f_data f) + (length c + length (read_all chunks))) ltac:(lia)).
  destruct (iappend_view s F i f c) as (s1 & f1 & E1 & Hs1); [done|done|lia|lia|].
  assert (Z.of_nat (length (f_data f1)) = length (f_data f) + length c) as Hl1 by (rewrite (sto_data _ _ _ _ _ _ _ Hs1), length_app; lia).
  destruct (IH s1 (<[i := f1]> F) f1) as (s2 & f2 & E2 & Hs2); [apply Hs1|apply lookup_insert_eq|lia| |].
  { rewrite (sto_fb _ _ _ _ _ _ _ Hs1), length_app, Nat2Z.inj_add, Hl1. replace (length (f_data f) + length c + length (read_all chunks))
      with (length (f_data f) + (length c + length (read_all chunks))) by lia. lia. }
  exists s2, f2. split; [by step E1|]. by eapply stored_app.
Qed.

(** ** The directory *)

Definition entry_name (name : list Z) : list Z := take 14 (name ++ replicate 14 0).

Lemma strncpy_name name :
  0 ∉ name → strncpy (replicate 14 0) (name ++ [0]) (Z.to_nat DIRSIZ) = Some (entry_name name).
Proof.
  intros H0. change (Z.to_nat DIRSIZ) with 14%nat. unfold entry_name. revert H0.
  generalize 14%nat. intros n. revert name. induction n as [|n IH]; intros name H0; [done|].
  destruct name as [|c name]; cbn [replicate app strncpy].
  - rewrite decide_True by (rewrite length_replicate; lia). cbn.
    rewrite drop_ge, app_nil_r, take_ge by (rewrite length_replicate; lia). done.
  - apply not_elem_of_cons in H0 as [Hc H0]. rewrite (proj2 (Z.eqb_neq c 0)) by done. rewrite IH by done. cbn. do 2 f_equal.
    change (0 :: replicate n 0) with (replicate (S n) 0). rewrite replicate_S_end, app_assoc.
    rewrite (take_app_le (name ++ replicate n 0) [0]); [done|]. rewrite length_app, length_replicate. lia.
Qed.

(** A file that can be copied. *)
Definition readable (h : host_file) : Prop :=
  (47 ∉ h_name h) ∧ (0 ∉ h_name h) ∧ ∃ chunks, h_open h = Some chunks ∧ length (read_all chunks) ≤ MAXFILE * 512.
Definition h_data (h : host_file) : list Z := read_all (default [] (h_open h)).

Definition dir_entry (i : Z) (h : host_file) : list Z := dirent i (entry_name (strip (h_name h))).

Lemma dir_entry_length i h : length (dir_entry i h) = 16%nat.
Proof.
  unfold dir_entry, dirent, entry_name. rewrite length_app, length_take, length_app, length_replicate. unfold put16.
  rewrite !length_insert, length_replicate. lia.
Qed.

Lemma strip_sub name (b : Z) : b ∉ name → b ∉ strip name.
Proof. unfold strip. repeat case_match; set_solver. Qed.

Lemma add_file_view s F r h :
  disk_ok s F → F !! ROOTINO = Some r → readable h → freeinode s < ninodes → ROOTINO < freeinode s →
  length (f_data r) + 16 ≤ MAXFILE * 512 →
  freeblock s + cost (length (f_data r) + 16) - cost (length (f_data r)) + cost (length (h_data h)) ≤ fs_size →
  let i := freeinode s in
  ∃ s' r' f, add_file ROOTINO h s = Ret tt s' ∧ disk_ok s' (<[i := f]> (<[ROOTINO := r']> F)) ∧
    f_data r' = f_data r ++ dir_entry i h ∧ f_data f = h_data h ∧
    i_type (f_ino r') = i_type (f_ino r) ∧ i_nlink (f_ino r') = i_nlink (f_ino r) ∧
    i_type (f_ino f) = T_FILE ∧ i_nlink (f_ino f) = 1 ∧
    freeblock s' = freeblock s + cost (length (f_data r) + 16) - cost (length (f_data r)) + cost (length (h_data h)) ∧
    freeinode s' = i + 1 ∧ ∀ sec, other_sector sec → sect s' sec = sect s sec.
Proof.
  intros Hok Hr (Hsl & Hz & chunks & Eo & Hlen) Hfr Hroot Hmax Hfb i.
  assert (h_data h = read_all chunks) as Ehd by (unfold h_data; by rewrite Eo). rewrite Ehd in *.
  assert (0 ≤ cost (length (read_all chunks))) as Hc0 by (unfold cost, nbs; case_decide; lia).
  assert (cost 0 = 0) as Ec0 by reflexivity.
  destruct (mk_ialloc_view s F T_FILE Hok Hfr ltac:(by vm_compute)) as (s1 & E1 & Hok1 & Hfb1 & Hfi1 & Hlow1). fold i in E1, Hok1, Hfi1.
  set (f0 := new_file i T_FILE) in *. assert (<[i := f0]> F !! ROOTINO = Some r) as Hr1 by (by rewrite lookup_insert_ne by lia).
  assert (length (dir_entry i h) = 16%nat) as Hel by apply dir_entry_length.
  destruct (iappend_view s1 _ ROOTINO r (dir_entry i h) Hok1 Hr1) as (s2 & r' & E2 & [A1 A2 A3 A4 [A5 A5'] A6]); [rewrite Hel; lia|rewrite Hel; change (Z.of_nat 16) with 16; lia|].
  assert (<[ROOTINO := r']> (<[i := f0]> F) !! i = Some f0) as Hf2 by (rewrite lookup_insert_ne by lia; apply lookup_insert_eq).
  rewrite length_app, Hel, Nat2Z.inj_add in A3. change (Z.of_nat 16) with 16 in A3.
  destruct (copy_file_view i chunks s2 _ f0 A1 Hf2) as (s3 & f & E3 & [B1 B2 B3 B4 [B5 B5'] B6]); [cbn; lia| |].
  { cbn [f_data f0 new_file length]. rewrite Z.add_0_l, A3, Hfb1. change (Z.of_nat 0) with 0. rewrite Ec0. lia. }
  exists s3, r', f. split_and!; try done.
  - unfold add_file. rewrite (bind_ret _ _ s tt s).
    2:{ unfold assert. replace (existsb _ _) with false; [done|]. symmetry. apply not_true_is_false. intros (c & Hin & Hc%Z.eqb_eq)%existsb_exists.
        subst c. apply Hsl. by apply list_elem_of_In. }
    cbv beta. rewrite Eo. step E1. rewrite strncpy_name by (by apply strip_sub). unfold deref. mstep. step E2. exact E3.
  - rewrite insert_insert_ne, insert_insert_eq in B1 by lia. by rewrite insert_insert_ne by lia.
  - rewrite B3, A3, Hfb1. change (Z.of_nat (length (f_data f0))) with 0. change (f_data f0 ++ read_all chunks) with (read_all chunks). lia.
  - congruence.
  - intros sec Hsec. by rewrite B6, A6, Hlow1.
Qed.

(** ** The whole tree *)

Definition dots : list Z := dirent ROOTINO (46 :: replicate 13 0) ++ dirent ROOTINO (46 :: 46 :: replicate 12 0).
Definition root_data (fs : list host_file) : list Z := dots ++ concat (imap (λ (k : nat) h, dir_entry (2 + Z.of_nat k) h) fs).
Definition sum_cost (fs : list host_file) : Z := foldr (λ h n, cost (length (h_data h)) + n) 0 fs.

Lemma root_data_snoc fs h : root_data (fs ++ [h]) = root_data fs ++ dir_entry (2 + Z.of_nat (length fs)) h.
Proof. unfold root_data. rewrite imap_app, concat_app, <- app_assoc. cbn. by rewrite app_nil_r, Nat.add_0_r. Qed.

Lemma root_data_length fs : Z.of_nat (length (root_data fs)) = 16 * (2 + length fs).
Proof.
  induction fs as [|h fs IH] using rev_ind; [reflexivity|].
  rewrite root_data_snoc, !length_app, dir_entry_length. cbn [length]. lia.
Qed.

Lemma sum_cost_app fs gs : sum_cost (fs ++ gs) = sum_cost fs + sum_cost gs.
Proof. unfold sum_cost. induction fs as [|h fs IH]; cbn; [done|]. rewrite IH. lia. Qed.

Lemma sum_cost_pos fs : 0 ≤ sum_cost fs.
Proof.
  unfold sum_cost. induction fs as [|h fs IH]; cbn; [done|].
  assert (0 ≤ cost (length (h_data h))) by (unfold cost, nbs; case_decide; lia). lia.
Qed.

Record tree s F (fs : list host_file) : Prop := {
  tr_ok : disk_ok s F;
  tr_inum : freeinode s = 2 + length fs;
  tr_root : ∃ r, F !! ROOTINO = Some r ∧ f_data r = root_data fs ∧ i_type (f_ino r) = T_DIR ∧ i_nlink (f_ino r) = 1;
  tr_files : ∀ (k : nat) h, fs !! k = Some h →
    ∃ f, F !! (2 + Z.of_nat k) = Some f ∧ f_data f = h_data h ∧ i_type (f_ino f) = T_FILE ∧ i_nlink (f_ino f) = 1;
  tr_fb : freeblock s = first_data + cost (16 * (2 + length fs)) + sum_cost fs;
}.

Lemma add_files_view todo : ∀ s F fs,
  tree s F fs → Forall readable todo → 2 + length (fs ++ todo) ≤ ninodes →
  first_data + cost (16 * (2 + length (fs ++ todo))) + sum_cost (fs ++ todo) ≤ fs_size →
  ∃ s' F', for_each todo (add_file ROOTINO) s = Ret tt s' ∧ tree s' F' (fs ++ todo) ∧
    ∀ sec, other_sector sec → sect s' sec = sect s sec.
Proof.
  induction todo as [|h todo IH]; intros s F fs Ht Hr Hn Hfb.
  { exists s, F. rewrite app_nil_r. done. }
  apply Forall_cons in Hr as [Hh Hr]. destruct Ht as [Hok Hi (r & Hr1 & Hrd & Hrt & Hrn) Hfs Hfb0].
  pose proof (root_data_length fs) as Hrl. rewrite length_app in Hn, Hfb. cbn [length] in Hn, Hfb. rewrite sum_cost_app in Hfb. cbn [sum_cost foldr] in Hfb.
  pose proof (sum_cost_pos todo). fold (sum_cost todo) in Hfb.
  pose proof (cost_mono (16 * (2 + length fs) + 16) (16 * (2 + (length fs + S (length todo))%nat)) ltac:(lia)).
  destruct (add_file_view s F r h) as (s1 & r' & f & E1 & Hok1 & Hr' & Hf & Hrt' & Hrn' & Hft & Hfn & Hfb1 & Hfi1 & Hlow1); try done.
  { lia. } { rewrite Hi. unfold ROOTINO. lia. } { rewrite Hrd, Hrl. unfold ninodes in *. mk_lia. } { rewrite Hrd, Hrl, Hfb0. lia. }
  rewrite Hrd, Hrl, Hfb0 in Hfb1. rewrite Hi in *.
  destruct (IH s1 (<[2 + Z.of_nat (length fs) := f]> (<[ROOTINO := r']> F)) (fs ++ [h])) as (s2 & F2 & E2 & Ht2 & Hlow2); [|done| | |].
  - split; [done|rewrite length_app; cbn [length]; lia| | |].
    + exists r'. rewrite lookup_insert_ne by (unfold ROOTINO; lia). rewrite lookup_insert_eq, root_data_snoc, Hr', Hrd. split_and!; congruence.
    + intros k g Hg. apply lookup_app_Some in Hg as [Hg|[Hge Hg]].
      * assert (Hlt := lookup_lt_Some _ _ _ Hg). rewrite !lookup_insert_ne by (unfold ROOTINO; lia). by apply Hfs.
      * apply list_lookup_singleton_Some in Hg as [Hk ->]. assert (k = length fs) as -> by lia. exists f. by rewrite lookup_insert_eq.
    + rewrite sum_cost_app, length_app. cbn [sum_cost foldr length]. replace (16 * (2 + (length fs + 1)%nat)) with (16 * (2 + length fs) + 16) by lia. lia.
  - rewrite !length_app. cbn [length]. lia.
  - rewrite <- app_assoc, length_app, sum_cost_app. cbn [length app sum_cost foldr]. fold (sum_cost todo). lia.
  - exists s2, F2. rewrite <- app_assoc in Ht2. split_and!; [cbn [for_each]; by step E1|done|]. intros sec Hs. by rewrite Hlow2, Hlow1.
Qed.

(** ** The empty image *)

Lemma zero_loop n : ∀ (k : nat) s, im_file s = replicate k zero_block →
  for_each (seq k n) (λ i, wsect (Z.of_nat i) (replicate 512 0)) s = Ret tt (s <| im_file := replicate (k + n) zero_block |>).
Proof.
  induction n as [|n IH]; intros k s Hs; cbn [seq for_each].
  - rewrite Nat.add_0_r, <- Hs. by destruct s.
  - rewrite (bind_ret _ _ s tt (s <| im_file := replicate (S k) zero_block |>)).
    + rewrite IH by done. by replace (S k + n)%nat with (k + S n)%nat by lia.
    + unfold wsect, modify. change (replicate 512 0) with zero_block. cbn -[Nat.ltb replicate].
      rewrite Hs, length_replicate, Nat2Z.id, Nat.ltb_irrefl, Nat.sub_diag. by rewrite replicate_S_end.
Qed.

Definition empty_image : image :=
  put_sect 1 sb_bytes (mkImage (replicate 1024 zero_block) first_data first_data 1).

Lemma empty_sect sec : 0 ≤ sec < 1024 → sect empty_image sec = Some (if decide (sec = 1) then sb_bytes else zero_block).
Proof.
  intros Hs. unfold empty_image. rewrite sect_put by (cbn [im_file]; rewrite length_replicate; lia). case_decide; [done|].
  unfold sect. rewrite decide_True by lia. cbn [im_file]. apply lookup_replicate_2. lia.
Qed.

Lemma empty_disk : disk_ok empty_image ∅.
Proof.
  assert (length (im_file empty_image) = 1024%nat) as Hl by (unfold empty_image, put_sect; cbn [im_file set]; by rewrite length_insert, length_replicate).
  split; [|split; by vm_compute| |done|done].
  - split; [done| |split; by vm_compute|done| |split; done].
    + intros sec d Hd. destruct (decide (0 ≤ sec < 1024)) as [Hs|Hs].
      * rewrite empty_sect in Hd by done. injection Hd as <-. case_decide; [unfold sb_bytes; by rewrite !length_put32, length_replicate|apply length_replicate].
      * unfold sect in Hd. case_decide; [|done]. apply lookup_lt_Some in Hd. lia.
    + intros sec Hs. change (freeblock empty_image) with first_data in Hs. rewrite empty_sect by mk_lia. by rewrite decide_False by mk_lia.
  - intros i. rewrite lookup_empty. cbn. split; [by intros [? ?]|lia].
Qed.

(** ** The bitmap *)

Lemma bitmap_bits n (b : nat) :
  (n ≤ 4096)%nat → (b < 4096)%nat →
  let d := foldl (λ buf i, set_bit i buf) (replicate 512 0) (seq 0 n) in
  length d = 512%nat ∧ bit_clear d b = bool_decide (n ≤ b)%nat.
Proof.
  intros Hn Hb. cbv zeta. induction n as [|n IH].
  - split; [apply length_replicate|]. cbn [seq foldl]. rewrite bool_decide_true by lia. unfold bit_clear, getb.
    rewrite lookup_replicate_2; [done|]. apply Nat.Div0.div_lt_upper_bound. lia.
  - rewrite seq_S, foldl_app. cbn [foldl]. destruct IH as [Hl Hbit]; [lia|]. split; [unfold set_bit; by rewrite length_insert|].
    rewrite bit_clear_set, Hbit; [|rewrite Hl; apply Nat.Div0.div_lt_upper_bound; lia].
    repeat case_bool_decide; cbn; try done; lia.
Qed.

Definition mk_sb : superblock := mkSuperblock fs_size nblocks ninodes nlog.

(** What the image of [files] is. *)
Record made (files : list host_file) s F : Prop := {
  md_sb : ∃ d, sect s 1 = Some d ∧ sb_of d = mk_sb;
  md_files : files_ok (sect s) (usedblocks s) F;
  md_inode : ∀ i f, F !! i = Some f → ∃ d, sect s (IBLOCK i) = Some d ∧ load_dinode d (no_inode i) = f_ino f;
  md_root : ∃ r, F !! ROOTINO = Some r ∧ f_data r = root_data files ∧ i_type (f_ino r) = T_DIR ∧ i_nlink (f_ino r) = 1 ∧
    i_size (f_ino r) = (16 * (2 + length files) / BSIZE + 1) * BSIZE ∧ f_nb r = nbs (16 * (2 + length files));
  md_file : ∀ (k : nat) h, files !! k = Some h →
    ∃ f, F !! (2 + Z.of_nat k) = Some f ∧ f_data f = h_data h ∧ i_type (f_ino f) = T_FILE ∧ i_nlink (f_ino f) = 1 ∧
      i_size (f_ino f) = length (h_data h);
  md_bits : ∀ b, 0 ≤ b < fs_size → block_free (sect s) mk_sb b ↔ usedblocks s ≤ b;
  md_log : usedblocks s ≤ fs_size - nlog ∧ ∀ sec, fs_size - nlog ≤ sec < fs_size → sect s sec = Some zero_block;
}.

Lemma other_1 : other_sector 1 ∧ other_sector 28.
Proof.
  assert (∀ j, 1 ≤ j < ninodes → 2 ≤ i2b j < 28) as Hj by (intros j; unfold i2b, ninodes, IPB, BSIZE; change (512 / 64) with 8; lia).
  split; (split; [by vm_compute|]); intros j Hj'; specialize (Hj j Hj'); lia.
Qed.

(** The root directory with its two first entries. *)
Lemma root_view : ∃ s1 s2 s F, mk_ialloc T_DIR empty_image = Ret ROOTINO s1 ∧
  iappend ROOTINO (dirent ROOTINO (46 :: replicate 13 0)) s1 = Ret tt s2 ∧
  iappend ROOTINO (dirent ROOTINO (46 :: 46 :: replicate 12 0)) s2 = Ret tt s ∧
  tree s F [] ∧ ∀ sec, other_sector sec → sect s sec = sect empty_image sec.
Proof.
  destruct (mk_ialloc_view empty_image ∅ T_DIR empty_disk ltac:(by vm_compute) ltac:(by vm_compute)) as (s1 & E1 & Hok1 & Hfb1 & Hfi1 & Hlow1).
  change (freeinode empty_image) with ROOTINO in *. set (f0 := new_file ROOTINO T_DIR) in *. change (freeblock empty_image) with first_data in Hfb1.
  destruct (iappend_view s1 _ ROOTINO f0 (dirent ROOTINO (46 :: replicate 13 0)) Hok1 (lookup_insert_eq _ _ _)) as (s2 & f1 & E2 & Hs2);
    [by vm_compute|rewrite Hfb1; by vm_compute|].
  assert (f_data f1 = dirent ROOTINO (46 :: replicate 13 0)) as Hd1 by apply Hs2.
  assert (freeblock s2 = 30) as Hfb2 by (rewrite (sto_fb _ _ _ _ _ _ _ Hs2), Hfb1; reflexivity).
  destruct (iappend_view s2 _ ROOTINO f1 (dirent ROOTINO (46 :: 46 :: replicate 12 0)) (sto_ok _ _ _ _ _ _ _ Hs2) (lookup_insert_eq _ _ _)) as (s3 & f2 & E3 & Hs3);
    [rewrite Hd1; by vm_compute|rewrite Hd1, Hfb2; by vm_compute|].
  exists s1, s2, s3, (<[ROOTINO := f2]> ∅). split_and!; [done|done|done| |].
  - pose proof (sto_ok _ _ _ _ _ _ _ Hs3) as Hok3. rewrite !insert_insert_eq in Hok3. split; [done| | |done|].
    + rewrite (sto_inum _ _ _ _ _ _ _ Hs3), (sto_inum _ _ _ _ _ _ _ Hs2), Hfi1. reflexivity.
    + exists f2. rewrite lookup_insert_eq, (sto_data _ _ _ _ _ _ _ Hs3), Hd1. destruct (sto_meta _ _ _ _ _ _ _ Hs3) as [-> ->].
      destruct (sto_meta _ _ _ _ _ _ _ Hs2) as [-> ->]. by split_and!.
    + rewrite (sto_fb _ _ _ _ _ _ _ Hs3), Hd1, Hfb2. reflexivity.
  - intros sec Hs. by rewrite (sto_low _ _ _ _ _ _ _ Hs3), (sto_low _ _ _ _ _ _ _ Hs2), Hlow1.
Qed.

(** The end of [main]: the size of the root directory, and the bitmap. *)
Definition mk_finish : IM unit :=
  let* din := rinode ROOTINO in
  let off := xint (i_size din) in
  let off := u32 ((off / BSIZE + 1) * BSIZE) in
  do* winode ROOTINO (din <| i_size := xint off |>) in
  let* im := gets id in
  mk_balloc (usedblocks im).

Lemma finish_view s F files :
  tree s F files → 2 + length files ≤ ninodes → freeblock s ≤ fs_size - nlog → sect s 1 = Some sb_bytes →
  ∃ s' F', mk_finish s = Ret tt s' ∧ made files s' F'.
Proof.
  intros [[Hok Hfr Hdom Hnb Hino] Hi (r & Hr & Hrd & Hrt & Hrn) Hfs Hfb] Hn Hlog Hsb.
  destruct (Hnb _ _ Hr) as (Hrnb & Hwf & _ & Hsz). destruct (Hino _ _ Hr) as (d & Hd & Hl).
  pose proof (root_data_length files) as Hrl. rewrite Hrd, Hrl in Hsz.
  set (sz := (16 * (2 + length files) / BSIZE + 1) * BSIZE).
  assert (0 ≤ 16 * (2 + length files) < 2 ^ 31 ∧ 0 ≤ sz < 2 ^ 32) as [Hs1 Hs2] by (unfold sz, BSIZE, ninodes in *; lia).
  set (x := (f_ino r) <| i_size := sz |>). set (r' := mkFent x (f_nb r) (f_data r)).
  assert (image_ok s (<[ROOTINO := r']> F)) as Hok'.
  { apply (image_resize s F ROOTINO (f_ino r)); [|done]. rewrite insert_id; [done|]. rewrite Hr. by destruct r. }
  assert (inode_wf x) as Hwf' by (destruct Hwf; by split).
  assert (∀ j g, F !! j = Some g → 1 ≤ j < freeinode s) as Hj by (intros j g Hg; apply Hdom; eauto).
  destruct (winode_view s F ROOTINO r' x) as (s1 & E1 & B1 & B2 & B3 & B4 & B5); try done.
  { assert (loaded ROOTINO (f_ino r)) as Hld by (rewrite <- Hl; apply load_loaded). exact Hld. }
  { intros j g Hg _. split; [|by apply Hino]. specialize (Hj j g Hg). lia. }
  set (bm := foldl (λ buf i, set_bit i buf) (replicate 512 0) (seq 0 (Z.to_nat (usedblocks s1)))).
  assert (usedblocks s1 = freeblock s) as Hus by (rewrite (im_used _ _ B1); exact B2).
  pose proof (im_fb _ _ Hok) as Hfbr.
  assert (length bm = 512%nat) as Hbm by (apply (bitmap_bits _ 0); unfold nlog, LOGSIZE in *; mk_lia).
  assert (0 ≤ 28 < length (im_file s1)) as Hin by (rewrite (im_len _ _ B1); mk_lia).
  set (s2 := put_sect 28 bm s1). assert (image_ok s2 (<[ROOTINO := r']> F)) as Hok2 by (by apply low_put; [|mk_lia|]).
  destruct other_1 as [[_ Ho1] [_ Ho28]].
  assert (∀ sec, sect s2 sec = if decide (sec = 28) then Some bm else sect s1 sec) as Hs2' by (intros; by apply sect_put).
  exists s2, (<[ROOTINO := r']> F). split.
  - unfold mk_finish, rinode. rewrite (bind_ret _ _ s (f_ino r) s) by (step (rsect_eq _ _ _ Hd); by rewrite Hl).
    cbv beta zeta. rewrite Hsz, (xint_id (16 * _)) by lia. fold sz. rewrite u32_small, xint_id by lia. fold x. step E1. mstep. cbn [id].
    unfold mk_balloc, assert. rewrite (proj2 (Z.ltb_lt _ _)) by mk_lia. mstep. by apply wsect_eq.
  - split.
    + exists sb_bytes. split; [|reflexivity]. rewrite Hs2', decide_False, B4 by first [lia|apply Ho1; by vm_compute]. done.
    + change (usedblocks s2) with (usedblocks s1). rewrite Hus, <- B2. apply Hok2.
    + intros i f Hf. destruct (B5 i f Hf) as (d' & Hd' & Hl'). exists d'. split; [|done]. rewrite Hs2', decide_False; [done|].
      apply not_eq_sym, Ho28. destruct (decide (i = ROOTINO)) as [->|Hne]; [by vm_compute|]. rewrite lookup_insert_ne in Hf by done.
      specialize (Hj i f Hf). lia.
    + exists r'. rewrite lookup_insert_eq. rewrite Hrd, Hrl in Hrnb. by split_and!.
    + intros k h Hh. destruct (Hfs k h Hh) as (f & Hf & Hfd & Hft & Hfn). exists f.
      rewrite lookup_insert_ne by (unfold ROOTINO; lia). destruct (Hnb _ _ Hf) as (_ & _ & _ & Hfsz). rewrite Hfd in Hfsz. by split_and!.
    + intros b Hb. change (usedblocks s2) with (usedblocks s1). unfold block_free.
      assert (BBLOCK b (sb_ninodes mk_sb) = 28) as -> by (unfold BBLOCK, BPB, mk_sb, ninodes, IPB, BSIZE; cbn [sb_ninodes]; change (512 / 64) with 8; mk_lia).
      assert (bit_of b = Z.to_nat b) as -> by (unfold bit_of, BPB; f_equal; mk_lia).
      destruct (bitmap_bits (Z.to_nat (usedblocks s1)) (Z.to_nat b)) as [_ Hbit]; [mk_lia|mk_lia|]. fold bm in Hbit.
      rewrite Hs2', decide_True by done. split.
      * intros (d' & [= <-] & Hc). rewrite Hbit in Hc. apply bool_decide_eq_true in Hc. lia.
      * intros Hle. exists bm. split; [done|]. rewrite Hbit. apply bool_decide_eq_true. lia.
    + change (usedblocks s2) with (usedblocks s1). split; [lia|]. intros sec Hsec. unfold nlog, LOGSIZE in *.
      apply (im_zero _ _ Hok2). change (freeblock s2) with (freeblock s1). rewrite B2. mk_lia.
Qed.

(** Files that fit: enough inodes, and enough blocks before the log. *)
Record fits (files : list host_file) : Prop := {
  ft_readable : Forall readable files;
  ft_inodes : 2 + length files ≤ ninodes;
  ft_blocks : first_data + cost (16 * (2 + length files)) + sum_cost files ≤ fs_size - nlog;
}.

Lemma mkfs_view files : fits files → ∃ s F, mkfs_main files no_image = Ret tt s ∧ made files s F.
Proof.
  intros [Hr Hn Hb]. destruct root_view as (s1 & s2 & s3 & F3 & E1 & E2 & E3 & Ht3 & Hlow3).
  destruct (add_files_view files s3 F3 []) as (s4 & F4 & E4 & Ht4 & Hlow4); [done|done|done|unfold nlog, LOGSIZE in *; cbn [app]; lia|].
  cbn [app] in Ht4. destruct (finish_view s4 F4 files Ht4 Hn) as (s5 & F5 & E5 & Hm).
  { rewrite (tr_fb _ _ _ Ht4). lia. }
  { rewrite Hlow4, Hlow3 by apply other_1. by apply empty_sect. }
  exists s5, F5. split; [|done]. unfold mkfs_main. cbv zeta.
  rewrite (bind_ret _ _ no_image tt (no_image <| usedblocks := first_data |> <| freeblock := first_data |>)) by reflexivity.
  rewrite (bind_ret (assert _) _ _ tt (no_image <| usedblocks := first_data |> <| freeblock := first_data |>)) by reflexivity.
  set (st := mkImage (replicate 1024 zero_block) first_data first_data 1).
  rewrite (bind_ret (for_each _ _) _ _ tt st)
    by exact (zero_loop 1024 0 (no_image <| usedblocks := first_data |> <| freeblock := first_data |>) eq_refl).
  rewrite (bind_ret (wsect 1 _) _ st tt empty_image) by (apply (wsect_eq st); cbn [im_file st]; rewrite length_replicate; lia).
  step E1. rewrite (bind_ret (assert _) _ _ tt s1) by reflexivity. step E2. step E3. step E4. exact E5.
Qed.
End files.

(** ** Properties *)

(** C14: mkfs, given files that fit, builds the file system the kernel expects: a
    super block; an inode for each file with exactly its bytes, found through
    the same direct and indirect blocks the kernel follows; a root directory
    with the entries of the files; every block in use in one file only; a bitmap
    in which exactly the blocks up to the last one used are taken; and an empty
    log. *)
Theorem mkfs_correct files : fits files → ∃ s F, mkfs_main files no_image = Ret tt s ∧ made files s F.
Proof. apply mkfs_view. Qed.

Lemma exact_blocks n :
  0 ≤ n → 2 + n ≤ ninodes → (2 + n) mod 32 = 0 → 16 * (2 + n) / BSIZE = nbs (16 * (2 + n)) ∧ 0 ≤ 16 * (2 + n) / BSIZE ≤ 6.
Proof. unfold ninodes, nbs, BSIZE. lia. Qed.

(** C38: If the entries of the root directory fill its blocks exactly, mkfs makes
    its size one block too large: the directory then has a block within its size
    that is not allocated. *)
Theorem mkfs_root_block_missing files :
  fits files → (2 + length files) mod 32 = 0 →
  ∃ s d, mkfs_main files no_image = Ret tt s ∧ sect s (IBLOCK ROOTINO) = Some d ∧
    let x := load_dinode d (no_inode ROOTINO) in
    let bn := 16 * (2 + length files) / BSIZE in
    bn * BSIZE < i_size x ∧ file_block (sect s) x bn = Some 0.
Proof.
  intros Hf Hm. destruct (exact_blocks (length files) ltac:(lia) (ft_inodes _ Hf) Hm) as [Hq Hr6].
  destruct (mkfs_view files Hf) as (s & F & E & Hmd). destruct (md_root _ _ _ Hmd) as (r & Hr & _ & _ & _ & Hsz & Hnb).
  destruct (md_inode _ _ _ Hmd _ _ Hr) as (d & Hsd & Hl). exists s, d. split_and!; [done|done|]. cbv zeta. rewrite Hl, Hsz. rewrite <- Hq in Hnb.
  set (bn := 16 * (2 + length files) / BSIZE) in *. clearbody bn. clear E Hsd Hl Hsz Hm Hq. split; [unfold BSIZE; lia|].
  assert (-1 ≤ bn < MAXFILE ∧ bn < NDIRECT ∧ ¬ used bn bn ∧ 0 ≤ bn) as (Hb1 & Hb2 & Hb3 & Hb4) by (clear - Hr6; unfold used; mk_lia).
  rewrite <- slot_block by done. rewrite <- Hnb in Hb3 at 1.
  apply (fs_unset _ _ _ (md_files _ _ _ Hmd) ROOTINO r); [done|done|done|by left].
Qed.

(** ** Witnesses *)

Module mkfs_demo.
(** A program of two chunks, and text files with one-letter names. *)
Definition file_A : host_file := mkHost [95; 99] (Some [replicate 512 7; [1; 2; 3]]).
Definition file_B (n : nat) : host_file := mkHost [Z.of_nat n + 48] (Some [[65; 66]]).

Definition readable_b (h : host_file) : bool :=
  bool_decide (47 ∉ h_name h) && bool_decide (0 ∉ h_name h) && bool_decide (is_Some (h_open h)) && (length (h_data h) <=? MAXFILE * 512).

Lemma readable_check h : readable_b h = true → readable h.
Proof.
  unfold readable_b. rewrite !andb_true_iff, !bool_decide_eq_true, Z.leb_le. unfold h_data. intros [[[H1 H2] [c Hc]] H3].
  rewrite Hc in H3. split_and!; [done|done|]. by exists c.
Qed.

Lemma fits_check files :
  forallb readable_b files && (2 + length files <=? ninodes) &&
    (first_data + cost (16 * (2 + length files)) + sum_cost files <=? fs_size - nlog) = true → fits files.
Proof.
  rewrite !andb_true_iff, !Z.leb_le, forallb_forall. intros [[H1 H2] H3]. split; [|done|done].
  apply Forall_forall. intros h Hh. apply readable_check, H1. by apply list_elem_of_In.
Qed.

Lemma mkfs_correct_witness : ∃ s F, mkfs_main [file_A; file_B 1] no_image = Ret tt s ∧ made [file_A; file_B 1] s F.
Proof. apply (mkfs_correct [file_A; file_B 1]), fits_check. vm_compute. reflexivity. Defined.

(** Thirty files: 32 entries fill the first block of the directory. *)
Lemma mkfs_root_block_missing_witness :
  let files := file_B <$> seq 0 30 in
  ∃ s d, mkfs_main files no_image = Ret tt s ∧ sect s (IBLOCK ROOTINO) = Some d ∧
    BSIZE < i_size (load_dinode d (no_inode ROOTINO)) ∧ file_block (sect s) (load_dinode d (no_inode ROOTINO)) 1 = Some 0.
Proof.
  intros files. destruct (mkfs_root_block_missing files) as (s & d & E & Hd & Hlt & Hb);
    [apply fits_check; vm_compute; reflexivity|reflexivity|]. exists s, d. split_and!; [exact E|exact Hd|exact Hlt|exact Hb].
Defined.
End mkfs_demo.
