(* ===== verification/Pipe.v ===== *)
(** Pipes (pipe.c): a ring of [PIPESIZE] bytes with free-running 32-bit read
    and write counters, and the proof that it is a FIFO queue of bytes. *)
From stdpp Require Import base numbers gmap strings option list.
From S2P Require Import Prelude State Spinlock Str Cprintf Kalloc Proc Mlf Sched Bio Blocks.

(** ** Definitions *)

Definition get_pipe (p : Z) : KM pipe :=
  let* k := gets id in deref "pipe" (k_pipes k !! p).
Definition upd_pipe (p : Z) (f : pipe → pipe) : KM unit :=
  let* _ := get_pipe p in modify (λ k, k <| k_pipes ::= alter f p |>).

(** [proc->killed]. *)
Definition curkilled : KM bool :=
  let* p := curproc in let* pr := get_proc p in ret (negb (p_killed pr =? 0)).

Section pipe.
Context `{kenv}.

(** A page turned into a pipe, and the pipe gone with its page. *)
Definition pipe_make (p : Z) : KM unit :=
  modify (λ k, k <| k_pipes ::= <[p := mkPipe ((λ i : nat, ldb (k_mem k) (p + 52 + i)) <$> seq 0 (Z.to_nat PIPESIZE)) 0 0 1 1]> |>).
Definition pipe_free (p : Z) : KM unit :=
  do* modify (λ k, k <| k_pipes ::= delete p |>) in
  kfree p.

Definition pipeclose (p : Z) (writable : Z) : KM unit :=
  do* acquire (LkPipe p) in
  do* (if negb (writable =? 0) then
         do* upd_pipe p (set pi_writeopen (λ _, 0)) in
         wakeup (ChPipeRead p)
       else
         do* upd_pipe p (set pi_readopen (λ _, 0)) in
         wakeup (ChPipeWrite p)) in
  let* pi := get_pipe p in
  if (pi_readopen pi =? 0) && (pi_writeopen pi =? 0) then
    do* release (LkPipe p) in
    pipe_free p
  else release (LkPipe p).

Definition pipe_full (pi : pipe) : bool := pi_nwrite pi =? u32 (pi_nread pi + PIPESIZE).

(** The inner loop of [pipewrite]: true once there is room, false if the
    call is to return -1. *)
Fixpoint pipewrite_wait (n : nat) (p : Z) : KM bool :=
  match n with
  | O => λ _, NoFuel
  | S n =>
      let* pi := get_pipe p in
      if pipe_full pi then
        let* killed := curkilled in
        if (pi_readopen pi =? 0) || killed then do* release (LkPipe p) in ret false else
        do* wakeup (ChPipeRead p) in
        do* sleep (ChPipeWrite p) (Some (LkPipe p)) in
        pipewrite_wait n p
      else ret true
  end.

(** [p->data[p->nwrite++ % PIPESIZE] = c]. *)
Definition pipe_put (c : Z) (pi : pipe) : pipe :=
  pi <| pi_data ::= <[Z.to_nat (pi_nwrite pi mod PIPESIZE) := c]> |>
     <| pi_nwrite := u32 (pi_nwrite pi + 1) |>.

Fixpoint pipewrite_loop (p : Z) (addr : list Z) : KM bool :=
  match addr with
  | [] => ret true
  | c :: addr =>
      let* ok := pipewrite_wait fuel p in
      if ok then do* upd_pipe p (pipe_put c) in pipewrite_loop p addr else ret false
  end.

(** [addr] is the [n] bytes to write. *)
Definition pipewrite (p : Z) (addr : list Z) (n : Z) : KM Z :=
  do* acquire (LkPipe p) in
  let* ok := pipewrite_loop p (take (Z.to_nat n) addr) in
  if ok then
    do* wakeup (ChPipeRead p) in
    do* release (LkPipe p) in
    ret n
  else ret (-1).

Definition pipe_empty (pi : pipe) : bool := pi_nread pi =? pi_nwrite pi.

Fixpoint piperead_wait (n : nat) (p : Z) : KM bool :=
  match n with
  | O => λ _, NoFuel
  | S n =>
      let* pi := get_pipe p in
      if pipe_empty pi && negb (pi_writeopen pi =? 0) then
        let* killed := curkilled in
        if killed then do* release (LkPipe p) in ret false else
        do* sleep (ChPipeRead p) (Some (LkPipe p)) in
        piperead_wait n p
      else ret true
  end.

Fixpoint piperead_loop (n : nat) (p : Z) : KM (list Z) :=
  match n with
  | O => ret []
  | S n =>
      let* pi := get_pipe p in
      if pipe_empty pi then ret [] else
      let* c := deref "p->data" (pi_data pi !! Z.to_nat (pi_nread pi mod PIPESIZE)) in
      do* upd_pipe p (set pi_nread (λ r, u32 (r + 1))) in
      let* rest := piperead_loop n p in
      ret (c :: rest)
  end.

(** The value returned and the bytes stored from [addr] on. *)
Definition piperead (p : Z) (n : Z) : KM (Z * list Z) :=
  do* acquire (LkPipe p) in
  let* ok := piperead_wait fuel p in
  if ok then
    let* bytes := piperead_loop (Z.to_nat n) p in
    do* wakeup (ChPipeWrite p) in
    do* release (LkPipe p) in
    ret (Z.of_nat (length bytes), bytes)
  else ret (-1, []).
End pipe.

(** ** The queue *)

(** How many bytes are in the pipe, and which, oldest first. *)
Definition pipe_count (pi : pipe) : Z := u32 (pi_nwrite pi - pi_nread pi).
Definition pipe_at (pi : pipe) (i : Z) : Z := default 0 (pi_data pi !! Z.to_nat (i mod PIPESIZE)).
Definition pipe_queue (pi : pipe) : list Z :=
  (λ i : nat, pipe_at pi (pi_nread pi + i)) <$> seq 0 (Z.to_nat (pipe_count pi)).

Record pipe_ok (pi : pipe) : Prop := {
  po_len : length (pi_data pi) = Z.to_nat PIPESIZE;
  po_read : 0 ≤ pi_nread pi < 2 ^ 32;
  po_write : 0 ≤ pi_nwrite pi < 2 ^ 32;
  po_count : pipe_count pi ≤ PIPESIZE;
}.

Section queue.
Implicit Types pi : pipe.

Lemma pipe_full_iff pi : pipe_ok pi → pipe_full pi = true ↔ pipe_count pi = PIPESIZE.
Proof. intros []. unfold pipe_full, pipe_count, u32, PIPESIZE in *. lia. Qed.

Lemma pipe_empty_iff pi : pipe_ok pi → pipe_empty pi = true ↔ pipe_queue pi = [].
Proof.
  intros [Hl Hr Hw Hc]. unfold pipe_empty, pipe_queue. transitivity (pipe_count pi = 0).
  - unfold pipe_count, u32 in *. lia.
  - assert (0 ≤ pipe_count pi) by (unfold pipe_count, u32; lia). split; [by intros ->|].
    intros E%fmap_nil_inv. destruct (Z.to_nat (pipe_count pi)) eqn:En; [lia|done].
Qed.

Lemma length_queue pi : length (pipe_queue pi) = Z.to_nat (pipe_count pi).
Proof. unfold pipe_queue. by rewrite length_fmap, length_seq. Qed.

(** Writing a byte into a pipe that is not full appends it to the queue. *)
Lemma pipe_put_queue pi c :
  pipe_ok pi → pipe_count pi < PIPESIZE →
  pipe_ok (pipe_put c pi) ∧ pipe_queue (pipe_put c pi) = pipe_queue pi ++ [c].
Proof.
  intros [Hl Hr Hw Hc] Hlt. assert (H0 : 0 ≤ pipe_count pi) by (unfold pipe_count, u32; lia).
  assert (Hcnt : pipe_count (pipe_put c pi) = pipe_count pi + 1).
  { unfold pipe_count, pipe_put, u32, PIPESIZE in *. cbn. lia. }
  split.
  - split; cbn; [by rewrite length_insert|done|apply u32_range|rewrite Hcnt; lia].
  - assert (E : Z.to_nat (pipe_count pi + 1) = S (Z.to_nat (pipe_count pi))) by lia.
    unfold pipe_queue. rewrite Hcnt, E, seq_S, fmap_app. cbn [fmap list_fmap]. f_equal.
    + apply list_fmap_ext. intros _ i [_ Hi]%list_elem_of_lookup_2%elem_of_seq. unfold pipe_at. cbn.
      rewrite list_lookup_insert_ne; [done|]. unfold pipe_count, u32, PIPESIZE in *. lia.
    + f_equal. unfold pipe_at. cbn.
      assert ((pi_nread pi + Z.of_nat (Z.to_nat (pipe_count pi))) mod PIPESIZE = pi_nwrite pi mod PIPESIZE) as ->.
      { unfold pipe_count, u32, PIPESIZE in *. lia. }
      rewrite list_lookup_insert_eq; [done|]. rewrite Hl. unfold PIPESIZE. lia.
Qed.

(** Reading a byte takes the head of the queue. *)
Lemma pipe_get_queue pi c q :
  pipe_ok pi → pipe_queue pi = c :: q →
  let pi' := pi <| pi_nread ::= λ r, u32 (r + 1) |> in
  pi_data pi !! Z.to_nat (pi_nread pi mod PIPESIZE) = Some c ∧ pipe_ok pi' ∧ pipe_queue pi' = q.
Proof.
  intros [Hl Hr Hw Hc] Hq pi'. assert (Hlen := length_queue pi). rewrite Hq in Hlen. cbn in Hlen.
  assert (H0 : 0 ≤ pipe_count pi) by (unfold pipe_count, u32; lia).
  assert (Hcnt : pipe_count pi' = pipe_count pi - 1).
  { unfold pi', pipe_count, u32, PIPESIZE in *. cbn. lia. }
  assert (E : Z.to_nat (pipe_count pi) = S (length q)) by lia.
  unfold pipe_queue in Hq. rewrite E in Hq. cbn [seq fmap list_fmap] in Hq. injection Hq as Hh Ht. split_and!.
  - unfold pipe_at in Hh. rewrite Z.add_0_r in Hh.
    destruct (lookup_lt_is_Some_2 (pi_data pi) (Z.to_nat (pi_nread pi mod PIPESIZE))) as [v Hv].
    { rewrite Hl. unfold PIPESIZE. lia. }
    rewrite Hv in Hh |- *. cbn in Hh. by subst.
  - split; try done; [apply u32_range|lia].
  - rewrite <-Ht. unfold pipe_queue. rewrite Hcnt. replace (Z.to_nat (pipe_count pi - 1)) with (length q) by lia.
    rewrite <-fmap_S_seq, <-list_fmap_compose. apply list_fmap_ext. intros _ i _. unfold pipe_at, pi'. cbn.
    do 3 f_equal. unfold u32, PIPESIZE. lia.
Qed.
End queue.

(** ** The operations on the queue *)

Section ops.
Context `{Hk : kenv}.
Implicit Types (s t u : kstate) (pi : pipe).

Lemma get_pipe_eq s p pi : k_pipes s !! p = Some pi → get_pipe p s = Ret pi s.
Proof. intros E. unfold get_pipe. mred. by rewrite E. Qed.

Lemma upd_pipe_eq s p pi f :
  k_pipes s !! p = Some pi → upd_pipe p f s = Ret tt (s <| k_pipes ::= <[p := f pi]> |>).
Proof.
  intros E. unfold upd_pipe. step (get_pipe_eq _ _ _ E). unfold modify. f_equal.
  assert (Ha : alter f p (k_pipes s) = <[p := f pi]> (k_pipes s)); [|cbn; by rewrite Ha].
  apply map_eq. intros j. destruct (decide (j = p)) as [->|Hne].
  - by rewrite lookup_alter_eq, E, lookup_insert_eq.
  - by rewrite lookup_alter_ne, lookup_insert_ne.
Qed.

(** As long as there is room no byte waits. *)
Lemma pipewrite_loop_eq s p pi addr :
  k_pipes s !! p = Some pi → pipe_ok pi → pipe_count pi + length addr ≤ PIPESIZE →
  ∃ pi', pipewrite_loop p addr s = Ret true (s <| k_pipes ::= <[p := pi']> |>) ∧ pipe_ok pi' ∧
    pipe_queue pi' = pipe_queue pi ++ addr ∧
    pi_readopen pi' = pi_readopen pi ∧ pi_writeopen pi' = pi_writeopen pi.
Proof.
  revert s pi. induction addr as [|c addr IH]; intros s pi Hp Hok Hn.
  { exists pi. rewrite app_nil_r. split_and!; try done. cbn. f_equal. destruct s; cbn in *. f_equal.
    by rewrite insert_id. }
  cbn in Hn. assert (Hlt : pipe_count pi < PIPESIZE) by lia.
  destruct (pipe_put_queue pi c Hok Hlt) as [Hok1 Hq1].
  assert (Hw : pipewrite_wait fuel p s = Ret true s).
  { unfold fuel. cbn [pipewrite_wait]. step (get_pipe_eq _ _ _ Hp).
    destruct (pipe_full pi) eqn:Ef; [apply pipe_full_iff in Ef; [lia|done]|done]. }
  assert (Hc1 : pipe_count (pipe_put c pi) + length addr ≤ PIPESIZE).
  { assert (Hl := length_queue (pipe_put c pi)). rewrite Hq1, length_app, length_queue in Hl. cbn in Hl.
    unfold pipe_count, u32 in *. lia. }
  destruct (IH (s <| k_pipes ::= <[p := pipe_put c pi]> |>) (pipe_put c pi)) as (pi' & E & Hok' & Hq' & R & W); try done.
  { cbn. by rewrite lookup_insert_eq. }
  exists pi'. split_and!; try done.
  - cbn [pipewrite_loop]. step Hw. cbv iota. step (upd_pipe_eq _ _ _ _ Hp). rewrite E. f_equal. destruct s; cbn. f_equal.
    apply insert_insert_eq.
  - by rewrite Hq', Hq1, <-app_assoc.
Qed.

Lemma piperead_loop_eq s p pi n :
  k_pipes s !! p = Some pi → pipe_ok pi →
  ∃ pi', piperead_loop n p s = Ret (take n (pipe_queue pi)) (s <| k_pipes ::= <[p := pi']> |>) ∧ pipe_ok pi' ∧
    pipe_queue pi' = drop n (pipe_queue pi) ∧
    pi_readopen pi' = pi_readopen pi ∧ pi_writeopen pi' = pi_writeopen pi.
Proof.
  assert (Hnone : ∀ s pi, k_pipes s !! p = Some pi → s = s <| k_pipes ::= <[p := pi]> |>).
  { intros s' pi' E. destruct s'; cbn in *. f_equal. by rewrite insert_id. }
  revert s pi. induction n as [|n IH]; intros s pi Hp Hok.
  { exists pi. split_and!; try done. cbn. unfold ret. f_equal. by apply Hnone. }
  cbn [piperead_loop]. step (get_pipe_eq _ _ _ Hp). destruct (pipe_queue pi) as [|c q] eqn:Eq.
  - rewrite (proj2 (pipe_empty_iff pi Hok) Eq). exists pi. split_and!; try done. unfold ret. f_equal. by apply Hnone.
  - destruct (pipe_empty pi) eqn:Ee; [apply pipe_empty_iff in Ee; [congruence|done]|].
    destruct (pipe_get_queue pi c q Hok Eq) as (Hc & Hok1 & Hq1). cbv zeta in *.
    set (pi1 := pi <| pi_nread ::= λ r, u32 (r + 1) |>) in *.
    destruct (IH (s <| k_pipes ::= <[p := pi1]> |>) pi1) as (pi' & E & Hok' & Hq' & R & W); try done.
    { cbn. by rewrite lookup_insert_eq. }
    exists pi'. rewrite Hq1 in *. split_and!; try done. rewrite Hc. unfold deref. mstep.
    step (upd_pipe_eq _ _ _ _ Hp). fold pi1. step E. unfold ret. cbn [take]. f_equal. destruct s; cbn. f_equal.
    apply insert_insert_eq.
Qed.

(** The pipe's lock and the process table are free. *)
Definition pipe_quiet (s : kstate) (p : Z) : Prop :=
  cpu_wf s ∧ lock_free (LkPipe p) s ∧ lock_free LkPtable s ∧ ∃ qs, mlf_rel (k_ptable s) qs.

(** The end of both operations: [u] is the state reached under the lock, in
    which only the pipe differs. *)
Lemma pipe_leave {B} (b : B) s p pi' chan :
  pipe_quiet s p →
  ∃ pt', rtc pt_step (k_ptable s) pt' ∧ (∃ qs', mlf_rel pt' qs') ∧
    (do* wakeup chan in do* release (LkPipe p) in ret b) ((acq (LkPipe p) s) <| k_pipes ::= <[p := pi']> |>) =
    Ret b (s <| k_cpus := relcpus s |> <| k_ptable := pt' |> <| k_pipes ::= <[p := pi']> |>).
Proof.
  intros (Hc & Hl & Hp & qs & Hrel). set (u := (acq (LkPipe p) s) <| k_pipes ::= <[p := pi']> |>).
  destruct (wakeup_release (LkPipe p) chan s u qs) as (pt' & Hst & Hq & Hw); try done.
  exists pt'. split_and!; try done. rewrite (bind_run _ _ _ _ _ _ Hw). unfold ret. done.
Qed.

Lemma piperead_wait_ready s p pi :
  k_pipes s !! p = Some pi → pipe_ok pi → pipe_queue pi ≠ [] ∨ pi_writeopen pi = 0 →
  piperead_wait fuel p s = Ret true s.
Proof.
  intros Hp Hok Hne. unfold fuel. cbn [piperead_wait]. step (get_pipe_eq _ _ _ Hp).
  destruct Hne as [Hne| ->]; [|by rewrite andb_false_r].
  destruct (pipe_empty pi) eqn:E; [apply pipe_empty_iff in E; done|done].
Qed.
End ops.

(** ** Properties *)

Section props.
Context `{Hk : kenv}.
Implicit Types (s t : kstate) (pi : pipe).

(** C29: writing bytes that fit appends them to the pipe's queue, in order,
    wakes the readers and returns their number, wherever in the ring and
    at whatever value of the wrapping 32-bit counters the pipe is. *)
Theorem pipewrite_correct s p pi bytes :
  pipe_quiet s p → k_pipes s !! p = Some pi → pipe_ok pi →
  length (pipe_queue pi) + length bytes ≤ PIPESIZE →
  returns (pipewrite p bytes (length bytes)) s (λ r t, r = length bytes ∧ pipe_quiet t p ∧
    rtc pt_step (k_ptable s) (k_ptable t) ∧ k_locks t = k_locks s ∧
    ∃ pi', k_pipes t = <[p := pi']> (k_pipes s) ∧ pipe_ok pi' ∧ pipe_queue pi' = pipe_queue pi ++ bytes ∧
      pi_readopen pi' = pi_readopen pi ∧ pi_writeopen pi' = pi_writeopen pi).
Proof.
  intros Hq Hp Hok Hn. rewrite length_queue in Hn. assert (Hq' := Hq). destruct Hq' as (Hc & Hl & Hpt & qs & Hrel).
  destruct (pipewrite_loop_eq (acq (LkPipe p) s) p pi bytes) as (pi' & E & Hok' & Hqu & R & W);
    [done|done|unfold pipe_count, u32 in *; lia|].
  destruct (pipe_leave (Z.of_nat (length bytes)) s p pi' (ChPipeRead p) Hq) as (pt' & Hst & Hr' & El).
  eapply returns_eq.
  { unfold pipewrite. step (acquire_free _ _ Hc Hl). rewrite Nat2Z.id, firstn_all. step E. cbv iota. exact El. }
  split_and!; try done; [|by exists pi'].
  split_and!; try done. apply (cpu_wf_eqv s); try done. apply cpus_eqv_relcpus.
Qed.

(** C30: reading from a pipe that has bytes, or whose write end is closed,
    delivers the oldest bytes in order, as many as asked for or as there are
    (none only at end of file), takes them off the queue and wakes the
    writers. *)
Theorem piperead_correct s p pi n :
  pipe_quiet s p → k_pipes s !! p = Some pi → pipe_ok pi →
  pipe_queue pi ≠ [] ∨ pi_writeopen pi = 0 →
  returns (piperead p n) s (λ r t, r.2 = take (Z.to_nat n) (pipe_queue pi) ∧ r.1 = length r.2 ∧ pipe_quiet t p ∧
    rtc pt_step (k_ptable s) (k_ptable t) ∧ k_locks t = k_locks s ∧
    ∃ pi', k_pipes t = <[p := pi']> (k_pipes s) ∧ pipe_ok pi' ∧
      pipe_queue pi' = drop (Z.to_nat n) (pipe_queue pi) ∧
      pi_readopen pi' = pi_readopen pi ∧ pi_writeopen pi' = pi_writeopen pi).
Proof.
  intros Hq Hp Hok Hne. assert (Hq' := Hq). destruct Hq' as (Hc & Hl & Hpt & qs & Hrel).
  destruct (piperead_loop_eq (acq (LkPipe p) s) p pi (Z.to_nat n)) as (pi' & E & Hok' & Hqu & R & W); [done..|].
  set (bytes := take (Z.to_nat n) (pipe_queue pi)) in *.
  destruct (pipe_leave (Z.of_nat (length bytes), bytes) s p pi' (ChPipeWrite p) Hq) as (pt' & Hst & Hr' & El).
  eapply returns_eq.
  { unfold piperead. step (acquire_free _ _ Hc Hl).
    step (piperead_wait_ready (acq (LkPipe p) s) p pi Hp Hok Hne). cbv iota. step E. exact El. }
  split_and!; try done; [|by exists pi'].
  split_and!; try done. apply (cpu_wf_eqv s); try done. apply cpus_eqv_relcpus.
Qed.
End props.

(** ** Witnesses *)

Module pipe_demo.
Definition page : Z := 0x80113000.
(** An open pipe whose counters are about to wrap, holding two bytes. *)
Definition pi0 : pipe := mkPipe (replicate (Z.to_nat PIPESIZE) 7) (2 ^ 32 - 2) 0 1 1.
Definition start : kstate := boot_state <| k_pipes := {[page := pi0]} |> <| k_locks ::= <[LkPipe page := lk_free]> |>.

Lemma start_pipe_quiet : pipe_quiet start page.
Proof. split_and!; [apply boot_cpu_wf|done|done|]. exists zero_queues. apply zero_rel. Qed.

Lemma pi0_ok : pipe_ok pi0.
Proof. by split. Qed.
End pipe_demo.

Lemma pipewrite_correct_witness :
  returns (pipewrite (H := kenv_example) pipe_demo.page [1; 2; 3] 3) pipe_demo.start (λ r t, r = 3 ∧
    pipe_quiet t pipe_demo.page ∧ rtc pt_step (k_ptable pipe_demo.start) (k_ptable t) ∧
    k_locks t = k_locks pipe_demo.start ∧
    ∃ pi', k_pipes t = <[pipe_demo.page := pi']> (k_pipes pipe_demo.start) ∧ pipe_ok pi' ∧
      pipe_queue pi' = [7; 7] ++ [1; 2; 3] ∧ pi_readopen pi' = 1 ∧ pi_writeopen pi' = 1).
Proof.
  apply (pipewrite_correct (Hk := kenv_example) pipe_demo.start pipe_demo.page pipe_demo.pi0 [1; 2; 3]).
  - apply pipe_demo.start_pipe_quiet.
  - done.
  - apply pipe_demo.pi0_ok.
  - by vm_compute.
Defined.

Lemma piperead_correct_witness :
  returns (piperead (H := kenv_example) pipe_demo.page 1) pipe_demo.start (λ r t, r.2 = [7] ∧ r.1 = length r.2 ∧
    pipe_quiet t pipe_demo.page ∧ rtc pt_step (k_ptable pipe_demo.start) (k_ptable t) ∧
    k_locks t = k_locks pipe_demo.start ∧
    ∃ pi', k_pipes t = <[pipe_demo.page := pi']> (k_pipes pipe_demo.start) ∧ pipe_ok pi' ∧
      pipe_queue pi' = [7] ∧ pi_readopen pi' = 1 ∧ pi_writeopen pi' = 1).
Proof.
  apply (piperead_correct (Hk := kenv_example) pipe_demo.start pipe_demo.page pipe_demo.pi0 1).
  - apply pipe_demo.start_pipe_quiet.
  - done.
  - apply pipe_demo.pi0_ok.
  - by left.
Defined.
