(* ===== verification/File.v ===== *)
(** Open files (file.c) and the creation of pipes ([pipealloc] of pipe.c). A
    [struct file] pointer is an index of [ftable.file]. *)
From stdpp Require Import base numbers gmap strings option list.
From S2P Require Import Prelude State Spinlock Str Cprintf Kalloc Proc Mlf Sched Bio Blocks Log LogSpec Tx Crash Fs Pipe.

(** ** Definitions *)

Definition get_file (f : nat) : KM file :=
  let* k := gets id in deref "ftable.file" (k_ftable k !! f).
Definition upd_file (f : nat) (g : file → file) : KM unit :=
  let* _ := get_file f in modify (λ k, k <| k_ftable ::= alter g f |>).

Section file.
Context `{kenv} `{disk} `{devsw}.

Definition fileinit : KM unit := initlock LkFtable.

Definition file_free (l : list file) : option nat := fst <$> list_find (λ f, (f_ref f =? 0) = true) l.

Definition filealloc : KM (option nat) :=
  do* acquire LkFtable in
  let* k := gets id in
  match file_free (k_ftable k) with
  | Some f =>
      do* upd_file f (set f_ref (λ _, 1)) in
      do* release LkFtable in
      ret (Some f)
  | None =>
      do* release LkFtable in
      ret None
  end.

Definition filedup (f : nat) : KM nat :=
  do* acquire LkFtable in
  let* x := get_file f in
  if f_ref x <? 1 then panic "filedup" else
  do* upd_file f (set f_ref (λ r, s32 (r + 1))) in
  do* release LkFtable in
  ret f.

Definition fileclose (f : nat) : KM unit :=
  do* acquire LkFtable in
  let* x := get_file f in
  if f_ref x <? 1 then panic "fileclose" else
  do* upd_file f (set f_ref (λ r, s32 (r - 1))) in
  let* ff := get_file f in
  if 0 <? f_ref ff then release LkFtable else
  do* upd_file f (λ x, x <| f_ref := 0 |> <| f_type := FD_NONE |>) in
  do* release LkFtable in
  match f_type ff with
  | FD_PIPE => pipeclose (f_pipe ff) (f_writable ff)
  | FD_INODE =>
      do* begin_trans in
      let* ip := deref "ff.ip" (f_ip ff) in
      do* iput ip in
      commit_trans
  | FD_NONE => ret tt
  end.

(** [None] for the value -1; otherwise what is stored at [st]. *)
Definition filestat (f : nat) : KM (option stat) :=
  let* x := get_file f in
  match f_type x with
  | FD_INODE =>
      do* ilock (f_ip x) in
      let* ip := deref "f->ip" (f_ip x) in
      let* st := stati ip in
      do* iunlock (f_ip x) in
      ret (Some st)
  | _ => ret None
  end.

(** The value returned and the bytes stored from [addr] on. *)
Definition fileread (f : nat) (n : Z) : KM (Z * list Z) :=
  let* x := get_file f in
  if f_readable x =? 0 then ret (-1, []) else
  match f_type x with
  | FD_PIPE => piperead (f_pipe x) n
  | FD_INODE =>
      do* ilock (f_ip x) in
      let* ip := deref "f->ip" (f_ip x) in
      let* x := get_file f in
      let* r := readi ip (f_off x) (u32 n) in
      do* (if 0 <? r.1 then upd_file f (set f_off (λ o, u32 (o + r.1))) else ret tt) in
      do* iunlock (f_ip x) in
      ret r
  | FD_NONE => panic "fileread"
  end.

(** The largest write done in one transaction. *)
Definition filewrite_max : Z := (LOGSIZE - 1 - 1 - 2) / 2 * 512.

(** The loop of [filewrite]; the value of [i] when it is left. *)
Fixpoint filewrite_loop (fu : nat) (f ip : nat) (addr : list Z) (n i : Z) : KM Z :=
  if i <? n then
    match fu with
    | O => λ _, NoFuel
    | S fu =>
        let n1 := Z.min (n - i) filewrite_max in
        do* begin_trans in
        do* ilock (Some ip) in
        let* x := get_file f in
        let* r := writei ip (take (Z.to_nat n1) (drop (Z.to_nat i) addr)) (f_off x) n1 in
        do* (if 0 <? r then upd_file f (set f_off (λ o, u32 (o + r))) else ret tt) in
        do* iunlock (Some ip) in
        do* commit_trans in
        if r <? 0 then ret i else
        if negb (r =? n1) then panic "short filewrite" else
        filewrite_loop fu f ip addr n (i + r)
    end
  else ret i.

(** [addr] is the [n] bytes at the source address. *)
Definition filewrite (f : nat) (addr : list Z) (n : Z) : KM Z :=
  let* x := get_file f in
  if f_writable x =? 0 then ret (-1) else
  match f_type x with
  | FD_PIPE => pipewrite (f_pipe x) addr n
  | FD_INODE =>
      let* ip := deref "f->ip" (f_ip x) in
      let* i := filewrite_loop (S (Z.to_nat (n / filewrite_max))) f ip addr n 0 in
      ret (if i =? n then n else -1)
  | FD_NONE => panic "filewrite"
  end.

(** The exit of [pipealloc] on failure. *)
Definition pipealloc_bad (f0 f1 : option nat) : KM (option (nat * nat)) :=
  do* (match f0 with Some f => fileclose f | None => ret tt end) in
  do* (match f1 with Some f => fileclose f | None => ret tt end) in
  ret None.

(** [None] for the value -1; otherwise the files for reading and writing. *)
Definition pipealloc : KM (option (nat * nat)) :=
  let* f0 := filealloc in
  match f0 with
  | None => pipealloc_bad None None
  | Some a =>
      let* f1 := filealloc in
      match f1 with
      | None => pipealloc_bad (Some a) None
      | Some b =>
          let* p := kalloc in
          if p =? 0 then pipealloc_bad (Some a) (Some b) else
          do* pipe_make p in
          do* initlock (LkPipe p) in
          do* upd_file a (λ x, x <| f_type := FD_PIPE |> <| f_readable := 1 |>
                                 <| f_writable := 0 |> <| f_pipe := p |>) in
          do* upd_file b (λ x, x <| f_type := FD_PIPE |> <| f_readable := 0 |>
                                 <| f_writable := 1 |> <| f_pipe := p |>) in
          ret (Some (a, b))
      end
  end.
End file.
