(* ===== verification/Vm.v ===== *)
(** Page tables and user address spaces (vm.c): the two-level page tables of
    the x86, kept in memory as the 32-bit words the hardware reads. *)
From stdpp Require Import base numbers gmap strings option list.
From S2P Require Import Prelude State Spinlock Str Cprintf Kalloc Proc Mlf Sched Bio Blocks Log LogSpec Tx Crash Fs.

(** ** Page table entries (mmu.h) *)

Definition PTE_P : Z := 1.
Definition PTE_W : Z := 2.
Definition PTE_U : Z := 4.
Definition NPDENTRIES : Z := 1024.
Definition NPTENTRIES : Z := 1024.
Definition PDX (va : Z) : Z := Z.land (Z.shiftr va 22) 0x3FF.
Definition PTX (va : Z) : Z := Z.land (Z.shiftr va 12) 0x3FF.
Definition PTE_ADDR (pte : Z) : Z := Z.land pte (u32 (Z.lnot 0xFFF)).

(** ** Memory accesses *)

Definition load32 (a : Z) : KM Z := gets (λ k, ld32 (k_mem k) a).
Definition store32 (a v : Z) : KM unit := modify (λ k, k <| k_mem ::= λ m, st32 m a v |>).
Definition mem_set (dst c n : Z) : KM unit := modify (λ k, k <| k_mem ::= λ m, memset m dst c n |>).
Definition mem_move (dst src n : Z) : KM unit := modify (λ k, k <| k_mem ::= λ m, memmove m dst src n |>).

Fixpoint stbs (m : gmap Z Z) (a : Z) (l : list Z) : gmap Z Z :=
  match l with [] => m | c :: l => stbs (stb m a c) (a + 1) l end.
Definition mem_bytes (m : gmap Z Z) (a : Z) (n : nat) : list Z := (λ i : nat, ldb m (a + i)) <$> seq 0 n.
Definition mem_put (dst : Z) (l : list Z) : KM unit := modify (λ k, k <| k_mem ::= λ m, stbs m dst l |>).

Section vm.
Context `{kenv} `{disk} `{devsw}.

(** ** Building page tables *)

(** The address of the entry for [va], or 0. *)
Definition walkpgdir (pgdir va : Z) (alloc : bool) : KM Z :=
  let pde := pgdir + 4 * PDX va in
  let* e := load32 pde in
  if has e PTE_P then ret (p2v (PTE_ADDR e) + 4 * PTX va)
  else if negb alloc then ret 0
  else
    let* pgtab := kalloc in
    if pgtab =? 0 then ret 0 else
    do* mem_set pgtab 0 PGSIZE in
    do* store32 pde (Z.lor (Z.lor (Z.lor (v2p pgtab) PTE_P) PTE_W) PTE_U) in
    ret (pgtab + 4 * PTX va).

Fixpoint mappages_loop (n : nat) (pgdir a last pa perm : Z) : KM Z :=
  match n with
  | O => λ _, NoFuel
  | S n =>
      let* pte := walkpgdir pgdir a true in
      if pte =? 0 then ret (-1) else
      let* e := load32 pte in
      if has e PTE_P then panic "remap" else
      do* store32 pte (Z.lor (Z.lor pa perm) PTE_P) in
      if a =? last then ret 0
      else mappages_loop n pgdir (u32 (a + PGSIZE)) last (u32 (pa + PGSIZE)) perm
  end.

Definition mappages (pgdir va size pa perm : Z) : KM Z :=
  let a := PGROUNDDOWN va in
  let last := PGROUNDDOWN (u32 (va + size - 1)) in
  mappages_loop (S (Z.to_nat (u32 (last - a) / PGSIZE))) pgdir a last pa perm.

(** [kmap]: virtual address, physical start and end, permissions. *)
Definition kmap : list (Z * Z * Z * Z) :=
  [ (KERNBASE, 0, EXTMEM, PTE_W);
    (KERNLINK, v2p KERNLINK, v2p data_addr, 0);
    (data_addr, v2p data_addr, PHYSTOP, PTE_W);
    (DEVSPACE, DEVSPACE, 0, PTE_W) ].

Fixpoint map_kernel (pgdir : Z) (l : list (Z * Z * Z * Z)) : KM Z :=
  match l with
  | [] => ret pgdir
  | (virt, phys_start, phys_end, perm) :: l =>
      let* r := mappages pgdir virt (u32 (phys_end - phys_start)) phys_start perm in
      if r <? 0 then ret 0 else map_kernel pgdir l
  end.

Definition setupkvm : KM Z :=
  let* pgdir := kalloc in
  if pgdir =? 0 then ret 0 else
  do* mem_set pgdir 0 PGSIZE in
  if DEVSPACE <? p2v PHYSTOP then panic "PHYSTOP too high" else
  map_kernel pgdir kmap.

Definition kvmalloc : KM unit :=
  let* p := setupkvm in
  do* modify (λ k, k <| k_kpgdir := p |>) in
  switchkvm.

(** [init] is the [sz] bytes of the first program. *)
Definition inituvm (pgdir : Z) (init : list Z) (sz : Z) : KM unit :=
  if PGSIZE <=? sz then panic "inituvm: more than a page" else
  let* mem := kalloc in
  do* mem_set mem 0 PGSIZE in
  let* _ := mappages pgdir 0 PGSIZE (v2p mem) (Z.lor PTE_W PTE_U) in
  mem_put mem (take (Z.to_nat sz) init).

Fixpoint loaduvm_loop (n : nat) (pgdir addr : Z) (ip : nat) (offset sz i : Z) : KM Z :=
  if i <? sz then
    match n with
    | O => λ _, NoFuel
    | S n =>
        let* pte := walkpgdir pgdir (u32 (addr + i)) false in
        if pte =? 0 then panic "loaduvm: address should exist" else
        let* e := load32 pte in
        let m := if sz - i <? PGSIZE then sz - i else PGSIZE in
        let* r := readi ip (u32 (offset + i)) m in
        do* mem_put (p2v (PTE_ADDR e)) r.2 in
        if negb (r.1 =? m) then ret (-1) else
        loaduvm_loop n pgdir addr ip offset sz (u32 (i + PGSIZE))
    end
  else ret 0.

Definition loaduvm (pgdir addr : Z) (ip : nat) (offset sz : Z) : KM Z :=
  if negb (addr mod PGSIZE =? 0) then panic "loaduvm: addr must be page aligned" else
  loaduvm_loop (S (Z.to_nat (sz / PGSIZE))) pgdir addr ip offset sz 0.

(** ** Growing and shrinking a process *)

Fixpoint deallocuvm_loop (n : nat) (pgdir oldsz a : Z) : KM unit :=
  if a <? oldsz then
    match n with
    | O => λ _, NoFuel
    | S n =>
        let* pte := walkpgdir pgdir a false in
        if pte =? 0 then
          deallocuvm_loop n pgdir oldsz (u32 (a + (NPTENTRIES - 1) * PGSIZE + PGSIZE))
        else
          let* e := load32 pte in
          do* (if has e PTE_P then
                 let pa := PTE_ADDR e in
                 if pa =? 0 then panic "kfree" else
                 do* kfree (p2v pa) in
                 store32 pte 0
               else ret tt) in
          deallocuvm_loop n pgdir oldsz (u32 (a + PGSIZE))
    end
  else ret tt.

Definition deallocuvm (pgdir oldsz newsz : Z) : KM Z :=
  if oldsz <=? newsz then ret oldsz else
  do* deallocuvm_loop (S (Z.to_nat (oldsz / PGSIZE))) pgdir oldsz (PGROUNDUP newsz) in
  ret newsz.

Fixpoint allocuvm_loop (n : nat) (pgdir oldsz newsz a : Z) : KM Z :=
  if a <? newsz then
    match n with
    | O => λ _, NoFuel
    | S n =>
        let* mem := kalloc in
        if mem =? 0 then
          do* cprintf "allocuvm out of memory
" [] in
          let* _ := deallocuvm pgdir newsz oldsz in
          ret 0
        else
        do* mem_set mem 0 PGSIZE in
        let* _ := mappages pgdir a PGSIZE (v2p mem) (Z.lor PTE_W PTE_U) in
        allocuvm_loop n pgdir oldsz newsz (a + PGSIZE)
    end
  else ret newsz.

Definition allocuvm (pgdir oldsz newsz : Z) : KM Z :=
  if KERNBASE <=? newsz then ret 0 else
  if newsz <? oldsz then ret oldsz else
  allocuvm_loop (S (Z.to_nat (newsz / PGSIZE))) pgdir oldsz newsz (PGROUNDUP oldsz).

Definition freevm (pgdir : Z) : KM unit :=
  if pgdir =? 0 then panic "freevm: no pgdir" else
  let* _ := deallocuvm pgdir KERNBASE 0 in
  do* for_each (seq 0 (Z.to_nat NPDENTRIES)) (λ i,
        let* e := load32 (pgdir + 4 * i) in
        if has e PTE_P then kfree (p2v (PTE_ADDR e)) else ret tt) in
  kfree pgdir.

Definition clearpteu (pgdir uva : Z) : KM unit :=
  let* pte := walkpgdir pgdir uva false in
  if pte =? 0 then panic "clearpteu" else
  let* e := load32 pte in
  store32 pte (Z.ldiff e PTE_U).

Fixpoint copyuvm_loop (n : nat) (d pgdir sz i : Z) : KM Z :=
  if i <? sz then
    match n with
    | O => λ _, NoFuel
    | S n =>
        let* pte := walkpgdir pgdir i false in
        if pte =? 0 then panic "copyuvm: pte should exist" else
        let* e := load32 pte in
        if negb (has e PTE_P) then panic "copyuvm: page not present" else
        let pa := PTE_ADDR e in
        let* mem := kalloc in
        if mem =? 0 then do* freevm d in ret 0 else
        do* mem_move mem (p2v pa) PGSIZE in
        let* r := mappages d i PGSIZE (v2p mem) (Z.lor PTE_W PTE_U) in
        if r <? 0 then do* freevm d in ret 0 else
        copyuvm_loop n d pgdir sz (u32 (i + PGSIZE))
    end
  else ret d.

Definition copyuvm (pgdir sz : Z) : KM Z :=
  let* d := setupkvm in
  if d =? 0 then ret 0 else
  copyuvm_loop (S (Z.to_nat (sz / PGSIZE))) d pgdir sz 0.

(** ** User memory *)

(** The entry is read through the pointer [walkpgdir] returns, null or not. *)
Definition uva2ka (pgdir uva : Z) : KM Z :=
  let* pte := walkpgdir pgdir uva false in
  if pte =? 0 then undef "*pte" else
  let* e := load32 pte in
  if negb (has e PTE_P) then ret 0 else
  if negb (has e PTE_U) then ret 0 else
  ret (p2v (PTE_ADDR e)).

Fixpoint copyout_loop (fu : nat) (pgdir va : Z) (buf : list Z) : KM Z :=
  match buf with
  | [] => ret 0
  | _ =>
      match fu with
      | O => λ _, NoFuel
      | S fu =>
          let va0 := PGROUNDDOWN va in
          let* pa0 := uva2ka pgdir va0 in
          if pa0 =? 0 then ret (-1) else
          let n := Z.min (PGSIZE - (va - va0)) (length buf) in
          do* mem_put (pa0 + (va - va0)) (take (Z.to_nat n) buf) in
          copyout_loop fu pgdir (u32 (va0 + PGSIZE)) (drop (Z.to_nat n) buf)
      end
  end.

(** [p] is the [len] bytes to copy. *)
Definition copyout (pgdir va : Z) (p : list Z) : KM Z :=
  copyout_loop (S (S (Z.to_nat (length p / PGSIZE)))) pgdir va p.

(** Where the hardware finds virtual address [va]: the kernel runs on the
    page table of the process, and may use pages that users may not; an
    access to an address that is not mapped ends in [trap]'s panic. *)
Definition translate (m : gmap Z Z) (pgdir va : Z) : option Z :=
  let pde := ld32 m (pgdir + 4 * PDX va) in
  if negb (has pde PTE_P) then None else
  let pte := ld32 m (p2v (PTE_ADDR pde) + 4 * PTX va) in
  if negb (has pte PTE_P) then None else
  Some (p2v (PTE_ADDR pte) + va mod PGSIZE).

Definition user_ldb (va : Z) : KM Z :=
  let* p := curproc in
  let* pr := get_proc p in
  let* k := gets id in
  match translate (k_mem k) (p_pgdir pr) va with
  | Some a => ret (ldb (k_mem k) a)
  | None => panic "trap"
  end.
Definition user_stb (va v : Z) : KM unit :=
  let* p := curproc in
  let* pr := get_proc p in
  let* k := gets id in
  match translate (k_mem k) (p_pgdir pr) va with
  | Some a => modify (λ k, k <| k_mem ::= λ m, stb m a v |>)
  | None => panic "trap"
  end.

Fixpoint user_read (n : nat) (va : Z) : KM (list Z) :=
  match n with
  | O => ret []
  | S n => let* c := user_ldb va in let* l := user_read n (va + 1) in ret (c :: l)
  end.
Fixpoint user_write (va : Z) (l : list Z) : KM unit :=
  match l with
  | [] => ret tt
  | c :: l => do* user_stb va c in user_write (va + 1) l
  end.
End vm.
