(* ===== verification/PageTable.v ===== *)
(** Page tables: what [walkpgdir] and [mappages] of vm.c do to the addresses
    the hardware translates. *)
From stdpp Require Import base numbers gmap strings option list.
From S2P Require Import Prelude State Spinlock Str Cprintf Kalloc Proc Mlf Sched Bio Blocks Log LogSpec Tx Crash Fs Vm.

(** ** Addresses and entries *)

Definition NADDR : Z := 2 ^ 32.

Lemma pdx_div va : 0 ≤ va < NADDR → PDX va = va / 2 ^ 22 ∧ 0 ≤ PDX va < 1024.
Proof.
  intros Hva. assert (PDX va = va / 2 ^ 22) as ->.
  { unfold PDX. change 0x3FF with (Z.ones 10). rewrite Z.land_ones, Z.shiftr_div_pow2 by lia.
    apply Z.mod_small. unfold NADDR in *. lia. }
  split; [done|]. unfold NADDR in *. lia.
Qed.

Lemma ptx_div va : 0 ≤ va → PTX va = va / PGSIZE mod 1024 ∧ 0 ≤ PTX va < 1024.
Proof.
  intros Hva. assert (PTX va = va / PGSIZE mod 1024) as ->.
  { unfold PTX. change 0x3FF with (Z.ones 10). by rewrite Z.land_ones, Z.shiftr_div_pow2 by lia. }
  split; [done|lia].
Qed.

(** Two addresses have the same entry exactly if they lie in the same page. *)
Lemma same_page va va' :
  0 ≤ va < NADDR → 0 ≤ va' < NADDR →
  PDX va' = PDX va ∧ PTX va' = PTX va ↔ va' / PGSIZE = va / PGSIZE.
Proof.
  intros H H'. destruct (pdx_div va H) as [-> _], (pdx_div va' H') as [-> _].
  destruct (ptx_div va) as [-> _]; [lia|]. destruct (ptx_div va') as [-> _]; [lia|]. unfold PGSIZE. lia.
Qed.

Lemma pte_addr_div e : PTE_ADDR e mod PGSIZE = 0 ∧ 0 ≤ PTE_ADDR e < NADDR.
Proof.
  unfold PTE_ADDR. change (u32 (Z.lnot 0xFFF)) with 0xFFFFF000.
  assert (E : Z.land e 0xFFFFF000 = Z.land (u32 e) 0xFFFFF000).
  { unfold u32. rewrite <-Z.land_ones by lia. rewrite <-Z.land_assoc. done. }
  rewrite E, land_page_mask by apply u32_range. assert (H := u32_range e). unfold PGSIZE, NADDR. lia.
Qed.

(** A page frame number and the bits below it. *)
Lemma low_bits_apart pa x : pa mod PGSIZE = 0 → 0 ≤ x < PGSIZE → Z.lor pa x = pa + x ∧ Z.land (pa + x) 0xFFF = x.
Proof.
  intros Hal Hx.
  assert (Hland : Z.land pa x = 0).
  { apply Z.bits_inj'. intros n Hn. rewrite Z.land_spec, Z.bits_0. destruct (decide (n < 12)).
    - rewrite <-(Z.mod_pow2_bits_low pa 12 n) by lia. change (2 ^ 12) with PGSIZE. by rewrite Hal, Z.bits_0.
    - assert (Z.testbit x n = false) as ->; [|by rewrite andb_false_r].
      apply Z.testbit_false; [lia|]. rewrite Z.div_small; [done|].
      split; [lia|]. apply Z.lt_le_trans with (2 ^ 12); [apply Hx|]. apply Z.pow_le_mono_r; lia. }
  split.
  - rewrite <-(Z.add_lor_land pa x), Hland. lia.
  - change 0xFFF with (Z.ones 12). rewrite Z.land_ones by lia. change (2 ^ 12) with PGSIZE.
    rewrite <-Zplus_mod_idemp_l, Hal. by apply Z.mod_small.
Qed.

Lemma perm_bits perm : 0 ≤ perm < PGSIZE → 0 ≤ Z.lor perm PTE_P < PGSIZE ∧ has (Z.lor perm PTE_P) PTE_P = true.
Proof.
  intros Hp. split; [|unfold has; by rewrite land_lor_same].
  split; [apply Z.lor_nonneg; split; [lia|done]|]. apply Z.log2_lt_cancel. rewrite Z.log2_lor by (unfold PTE_P; lia).
  change (Z.log2 PGSIZE) with 12. apply Z.max_lub_lt; [|done].
  destruct (decide (perm = 0)) as [->|]; [done|]. apply Z.log2_lt_pow2; [lia|]. apply Hp.
Qed.

(** The entry for a page frame. *)
Lemma pte_entry pa perm :
  pa mod PGSIZE = 0 → 0 ≤ pa < NADDR → 0 ≤ perm < PGSIZE →
  let e := Z.lor (Z.lor pa perm) PTE_P in u32 e = e ∧ PTE_ADDR e = pa ∧ has e PTE_P = true.
Proof.
  intros Hal Hpa Hp e. destruct (perm_bits perm Hp) as [Hr Hh].
  destruct (low_bits_apart pa (Z.lor perm PTE_P) Hal Hr) as [E _].
  assert (He : e = pa + Z.lor perm PTE_P) by (unfold e; by rewrite <-Z.lor_assoc).
  assert (Hb : 0 ≤ e < 2 ^ 32) by (unfold NADDR, PGSIZE in *; lia).
  split_and!; [by apply u32_small| |unfold e, has; by rewrite land_lor_same].
  unfold PTE_ADDR. change (u32 (Z.lnot 0xFFF)) with 0xFFFFF000. rewrite land_page_mask by done.
  unfold PGSIZE in *. lia.
Qed.

(** ** The tables of a page directory *)

Section tables.
Implicit Types (m : gmap Z Z) (va : Z).

Definition pde m (pgdir i : Z) : Z := ld32 m (pgdir + 4 * i).
Definition present m (pgdir i : Z) : Prop := has (pde m pgdir i) PTE_P = true.
#[global] Instance present_dec m pgdir i : Decision (present m pgdir i).
Proof. unfold present. apply _. Defined.
Definition table m (pgdir i : Z) : Z := p2v (PTE_ADDR (pde m pgdir i)).

(** The entry of the page of [va], if the hardware finds one. *)
Definition mapping m (pgdir va : Z) : option Z :=
  if has (pde m pgdir (PDX va)) PTE_P then
    let e := ld32 m (table m pgdir (PDX va) + 4 * PTX va) in
    if has e PTE_P then Some e else None
  else None.

Lemma translate_mapping m pgdir va :
  translate m pgdir va = (λ e, p2v (PTE_ADDR e) + va mod PGSIZE) <$> mapping m pgdir va.
Proof.
  unfold translate, mapping, table, pde. destruct (has _ PTE_P); [|done]. cbn [negb]. cbv zeta.
  by destruct (has _ PTE_P).
Qed.

Context `{Hk : kenv}.

(** The directory and its tables are pages of their own. *)
Record pgdir_ok m (pgdir : Z) : Prop := {
  pd_page : valid_page pgdir;
  pd_table : ∀ i, 0 ≤ i < 1024 → present m pgdir i → valid_page (table m pgdir i) ∧ table m pgdir i ≠ pgdir;
  pd_apart : ∀ i j, 0 ≤ i < 1024 → 0 ≤ j < 1024 → present m pgdir i → present m pgdir j →
    table m pgdir i = table m pgdir j → i = j;
}.

(** No page of [l] is one of them. *)
Definition unused m (pgdir : Z) (l : list Z) : Prop :=
  ∀ v, v ∈ l → v ≠ pgdir ∧ ∀ i, 0 ≤ i < 1024 → present m pgdir i → table m pgdir i ≠ v.

(** The pages the directory consists of. *)
Definition dir_page m (pgdir v : Z) : Prop :=
  v = pgdir ∨ ∃ i, 0 ≤ i < 1024 ∧ present m pgdir i ∧ table m pgdir i = v.

Lemma unused_dir m pgdir v : unused m pgdir [v] ↔ ¬ dir_page m pgdir v.
Proof.
  unfold dir_page. split.
  - intros Hu [->|(i & Hi & Hp & E)]; destruct (Hu _ (list_elem_of_here _ _)) as [? Ht]; [done|]. by apply (Ht i).
  - intros Hd w ->%list_elem_of_singleton. split; [naive_solver|]. intros i Hi Hp E. apply Hd. right. by exists i.
Qed.

(** The directory takes pages from [l], of which [l'] are left, and touches no
    other page but its own. *)
Record grows m (pgdir : Z) (l : list Z) m' (l' : list Z) : Prop := {
  gr_free : l' `suffix_of` l;
  gr_dir : ∀ v, v ∈ l' ∨ dir_page m' pgdir v ↔ v ∈ l ∨ dir_page m pgdir v;
  gr_kept : ∀ v a, valid_page v → v ∉ l → ¬ dir_page m pgdir v → v ≤ a < v + PGSIZE → ldb m' a = ldb m a;
}.

Lemma grows_refl m pgdir l : grows m pgdir l m l.
Proof. by split. Qed.

Lemma grows_trans m1 m2 m3 pgdir l1 l2 l3 :
  grows m1 pgdir l1 m2 l2 → grows m2 pgdir l2 m3 l3 → grows m1 pgdir l1 m3 l3.
Proof.
  intros [F1 D1 K1] [F2 D2 K2]. split.
  - by etransitivity.
  - intros v. by rewrite D2, D1.
  - intros v a Hv Hl Hd Ha. assert ((v ∉ l2) ∧ ¬ dir_page m2 pgdir v) as [? ?] by (specialize (D1 v); tauto).
    rewrite (K2 v) by done. by apply (K1 v).
Qed.

(** A word of a page, and a word of another page. *)
Lemma words_apart u v i j :
  valid_page u → valid_page v → 0 ≤ i < 1024 → 0 ≤ j < 1024 → u ≠ v ∨ i ≠ j →
  u + 4 * i + 4 ≤ v + 4 * j ∨ v + 4 * j + 4 ≤ u + 4 * i.
Proof.
  intros Hu Hv Hi Hj Hne. destruct (decide (u = v)) as [->|Huv]; [lia|].
  destruct (valid_page_apart u v Hu Hv Huv); unfold PGSIZE in *; lia.
Qed.

(** Storing an entry of a table that is there. *)
Section store.
Context m (pgdir va e : Z).
Context (Hok : pgdir_ok m pgdir) (Hva : 0 ≤ va < NADDR) (Hpr : present m pgdir (PDX va)).
Let m' : gmap Z Z := st32 m (table m pgdir (PDX va) + 4 * PTX va) e.

Lemma store_pde i : 0 ≤ i < 1024 → pde m' pgdir i = pde m pgdir i.
Proof using All.
  intros Hi. destruct (pdx_div va Hva) as [_ Hd], (ptx_div va) as [_ Ht]; [lia|].
  destruct (pd_table _ _ Hok _ Hd Hpr) as [Hv Hne]. unfold pde, m'. apply ld32_st32_ne.
  apply words_apart; [apply Hok|done|done|done|]. left. done.
Qed.

Lemma store_table i : 0 ≤ i < 1024 → table m' pgdir i = table m pgdir i.
Proof using All. intros Hi. unfold table at 1. by rewrite store_pde. Qed.

Lemma store_present i : 0 ≤ i < 1024 → present m' pgdir i ↔ present m pgdir i.
Proof using All. intros Hi. unfold present. by rewrite store_pde. Qed.

Lemma store_ok : pgdir_ok m' pgdir.
Proof using All.
  destruct Hok as [H1 H2 H3]. split; [done|..].
  - intros i Hi. rewrite store_present, store_table by done. by apply H2.
  - intros i j Hi Hj. rewrite !store_present, !store_table by done. by apply H3.
Qed.

Lemma store_unused l : unused m pgdir l → unused m' pgdir l.
Proof using All.
  intros Hu v Hv. destruct (Hu v Hv) as [Hne Hi]. split; [done|]. intros i Hr.
  rewrite store_present, store_table by done. by apply Hi.
Qed.

Lemma store_grows l : grows m pgdir l m' l.
Proof using All.
  destruct (pdx_div va Hva) as [_ Hd], (ptx_div va) as [_ Ht]; [lia|]. split; [done|..].
  - intros v. assert (dir_page m' pgdir v ↔ dir_page m pgdir v) as ->; [|done]. unfold dir_page.
    split; (intros [->|(i & Hi & Hp & E)]; [by left|right; exists i]);
      rewrite ?store_present, ?store_table in * by done; done.
  - intros v a Hv _ Hnd Ha. destruct (pd_table _ _ Hok _ Hd Hpr) as [Hvt _].
    assert (v ≠ table m pgdir (PDX va)) as Hne by (intros ->; apply Hnd; right; by exists (PDX va)).
    unfold m'. apply ldb_st32_ne. destruct (valid_page_apart _ _ Hv Hvt Hne); unfold PGSIZE in *; lia.
Qed.

Lemma store_mapping va' : 0 ≤ va' < NADDR →
  mapping m' pgdir va' =
    if decide (va' / PGSIZE = va / PGSIZE) then if has (u32 e) PTE_P then Some (u32 e) else None
    else mapping m pgdir va'.
Proof using All.
  intros Hva'. destruct (pdx_div va Hva) as [_ Hd], (pdx_div va' Hva') as [_ Hd'].
  destruct (ptx_div va) as [_ Ht]; [lia|]. destruct (ptx_div va') as [_ Ht']; [lia|].
  unfold mapping. rewrite store_pde, store_table by done. cbv zeta.
  destruct (decide (va' / PGSIZE = va / PGSIZE)) as [E|Hne].
  - apply (same_page va va') in E as [-> ->]; [|done|done]. unfold present in Hpr. rewrite Hpr.
    unfold m'. by rewrite ld32_st32_eq.
  - destruct (has (pde m pgdir (PDX va')) PTE_P) eqn:Hp'; [|done].
    replace (ld32 m' (table m pgdir (PDX va') + 4 * PTX va')) with (ld32 m (table m pgdir (PDX va') + 4 * PTX va')); [done|].
    symmetry. unfold m'. apply ld32_st32_ne.
    destruct (pd_table _ _ Hok _ Hd Hpr) as [Hv _], (pd_table _ _ Hok _ Hd' Hp') as [Hv' _].
    apply words_apart; [done|done|done|done|].
    destruct (decide (PDX va' = PDX va)) as [Ed|Hnd].
    + right. intros Et. apply Hne, same_page; done.
    + left. intros Et. apply Hnd. by apply (pd_apart _ _ Hok).
Qed.
End store.

(** ** A new table *)

Lemma v2p_page v : valid_page v → v2p v = v - KERNBASE ∧ v2p v mod PGSIZE = 0 ∧ 0 ≤ v2p v < NADDR ∧ p2v (v2p v) = v.
Proof.
  intros (Hal & _ & Hr). unfold v2p, p2v, KERNBASE, PHYSTOP, PGSIZE, NADDR in *.
  assert (u32 (v - 2147483648) = v - 2147483648) as -> by (apply u32_small; lia).
  split_and!; [done|lia|lia|lia|]. rewrite u32_small; lia.
Qed.

Definition table_entry (v : Z) : Z := Z.lor (Z.lor (Z.lor (v2p v) PTE_P) PTE_W) PTE_U.
Lemma table_entry_ok v : valid_page v →
  u32 (table_entry v) = table_entry v ∧ PTE_ADDR (table_entry v) = v2p v ∧ has (table_entry v) PTE_P = true.
Proof.
  intros Hv. destruct (v2p_page v Hv) as (_ & Hal & Hr & _).
  assert (E : table_entry v = Z.lor (Z.lor (v2p v) 6) PTE_P).
  { unfold table_entry. rewrite <-!Z.lor_assoc. f_equal. }
  rewrite E. by apply pte_entry.
Qed.

Lemma ld32_memset0 m v a : valid_page v → 0 ≤ a →
  (v ≤ a ∧ a + 4 ≤ v + PGSIZE → ld32 (memset m v 0 PGSIZE) a = 0) ∧
  (a + 4 ≤ v ∨ v + PGSIZE ≤ a → ld32 (memset m v 0 PGSIZE) a = ld32 m a).
Proof.
  intros Hv Ha. unfold ld32. rewrite !ldb_memset by done. split; intros Hr.
  - by rewrite !decide_True by lia.
  - by rewrite !decide_False by lia.
Qed.

Section newtable.
Context m (pgdir va v : Z).
Context (Hok : pgdir_ok m pgdir) (Hva : 0 ≤ va < NADDR) (Hpr : ¬ present m pgdir (PDX va)).
Context (Hv : valid_page v) (Hun : unused m pgdir [v]).
Let m' : gmap Z Z := st32 (memset m v 0 PGSIZE) (pgdir + 4 * PDX va) (table_entry v).

(** A word outside the new page and other than the entry is not changed. *)
Lemma newtable_word u i :
  valid_page u → 0 ≤ i < 1024 → u ≠ v → u ≠ pgdir ∨ i ≠ PDX va → ld32 m' (u + 4 * i) = ld32 m (u + 4 * i).
Proof using All.
  intros Hu Hi Hne Hor. destruct (pdx_div va Hva) as [_ Hd]. unfold m'.
  assert (Hu0 : 0 ≤ u) by (destruct Hu as (_ & _ & ?); unfold KERNBASE in *; lia).
  rewrite ld32_st32_ne by (apply words_apart; [done|apply Hok|done|done|done]).
  apply ld32_memset0; [done|lia|]. destruct (valid_page_apart u v Hu Hv Hne); unfold PGSIZE in *; lia.
Qed.

Lemma newtable_pde i : 0 ≤ i < 1024 → pde m' pgdir i = if decide (i = PDX va) then table_entry v else pde m pgdir i.
Proof using All.
  intros Hi. destruct (Hun v) as [Hne _]; [by left|]. unfold pde. case_decide as E.
  - rewrite E. unfold m'. rewrite ld32_st32_eq. by apply table_entry_ok.
  - apply newtable_word; [apply Hok|done|done|by right].
Qed.

Lemma newtable_present i : 0 ≤ i < 1024 → present m' pgdir i ↔ i = PDX va ∨ present m pgdir i.
Proof using All.
  intros Hi. unfold present. rewrite newtable_pde by done. case_decide as E.
  - split; [by left|]. intros _. by apply table_entry_ok.
  - naive_solver.
Qed.

Lemma newtable_table i : 0 ≤ i < 1024 → table m' pgdir i = if decide (i = PDX va) then v else table m pgdir i.
Proof using All.
  intros Hi. unfold table at 1. rewrite newtable_pde by done. case_decide as E; [|done].
  destruct (table_entry_ok v Hv) as (_ & -> & _). by apply v2p_page.
Qed.

Lemma newtable_ok : pgdir_ok m' pgdir.
Proof using All.
  destruct (Hun v) as [Hne Hi0]; [by left|]. split; [apply Hok|..].
  - intros i Hi. rewrite newtable_present, newtable_table by done. case_decide; [done|].
    intros [?|Hp]; [done|]. by apply (pd_table _ _ Hok).
  - intros i j Hi Hj. rewrite !newtable_present, !newtable_table by done.
    intros [->|Hp] [->|Hp']; try done; repeat case_decide; subst; try done; intros E.
    + by destruct (Hi0 j Hj Hp').
    + by destruct (Hi0 i Hi Hp).
    + by apply (pd_apart _ _ Hok).
Qed.

Lemma newtable_unused l : unused m pgdir l → v ∉ l → unused m' pgdir l.
Proof using All.
  intros Hu Hvl w Hw. destruct (Hu w Hw) as [Hne Hi]. split; [done|]. intros i Hr.
  rewrite newtable_present, newtable_table by done. case_decide; [by intros _ ->|].
  intros [?|Hp]; [done|]. by apply Hi.
Qed.

Lemma newtable_grows l : grows m pgdir (v :: l) m' l.
Proof using All.
  destruct (pdx_div va Hva) as [_ Hd]. split; [by apply suffix_cons_r|..].
  - intros w. assert (dir_page m' pgdir w ↔ w = v ∨ dir_page m pgdir w) as ->.
    2:{ rewrite elem_of_cons. tauto. }
    unfold dir_page. split.
    + intros [->|(i & Hi & Hp & E)]; [by right; left|]. rewrite newtable_present in Hp by done.
      rewrite newtable_table in E by done. case_decide; [by left|]. destruct Hp; [done|]. right. right. by exists i.
    + intros [->|[->|(i & Hi & Hp & E)]]; [|by left|]; right.
      * exists (PDX va). rewrite newtable_present, newtable_table, decide_True by done. auto.
      * exists i. rewrite newtable_present, newtable_table by done. case_decide; [by subst|auto].
  - intros w a Hw Hwl Hwd Ha. rewrite not_elem_of_cons in Hwl. destruct Hwl as [Hwv _].
    assert (w ≠ pgdir) as Hwp by (intros ->; apply Hwd; by left). unfold m'.
    destruct (valid_page_apart w v Hw Hv Hwv), (valid_page_apart w pgdir Hw (pd_page _ _ Hok) Hwp); unfold PGSIZE in *;
      rewrite ldb_st32_ne by lia; rewrite ldb_memset by done; by rewrite decide_False by lia.
Qed.

(** Nothing is mapped by the new table, and the rest as before. *)
Lemma newtable_mapping va' : 0 ≤ va' < NADDR → mapping m' pgdir va' = mapping m pgdir va'.
Proof using All.
  intros Hva'. destruct (pdx_div va' Hva') as [_ Hd']. destruct (ptx_div va') as [_ Ht']; [lia|].
  destruct (Hun v) as [Hne Hi0]; [by left|].
  unfold mapping. rewrite newtable_pde, newtable_table by done. cbv zeta. case_decide as E.
  - unfold present in Hpr. rewrite E in *. apply not_true_is_false in Hpr. rewrite Hpr.
    destruct (table_entry_ok v Hv) as (_ & _ & ->). unfold m'.
    assert (0 ≤ v) by (destruct Hv as (_ & _ & ?); unfold KERNBASE in *; lia).
    rewrite ld32_st32_ne by (apply words_apart; [done|apply Hok|done|done|by left]).
    by rewrite (proj1 (ld32_memset0 m v (v + 4 * PTX va') Hv ltac:(lia))) by (unfold PGSIZE; lia).
  - destruct (has (pde m pgdir (PDX va')) PTE_P) eqn:Hp'; [|done].
    destruct (pd_table _ _ Hok _ Hd' Hp') as [Hvt Hnt].
    by rewrite newtable_word by first [done|by apply Hi0|by left].
Qed.
End newtable.
End tables.

(** ** [walkpgdir] and [mappages] *)

Section walk.
Context `{Hk : kenv}.
Implicit Types (s t : kstate) (l : list Z).

(** A page directory next to the list of free pages. *)
Record vm_ok s (pgdir : Z) l : Prop := {
  vo_sync : kmem_sync s;
  vo_free : free_ok s l;
  vo_dir : pgdir_ok (k_mem s) pgdir;
  vo_unused : unused (k_mem s) pgdir l;
}.

(** The free list depends on the first words of its pages only. *)
Lemma free_ok_mem s t l :
  free_ok s l → k_kmem t = k_kmem s → (∀ v, v ∈ l → ld32 (k_mem t) v = ld32 (k_mem s) v) → free_ok t l.
Proof.
  intros (Hc & Hn & Hv) Ek Em. split; [|done]. rewrite Ek. eapply chain_ext; [|exact Hc]. done.
Qed.

Lemma unused_tail m pgdir v l : unused m pgdir (v :: l) → unused m pgdir l ∧ unused m pgdir [v].
Proof. intros Hu. split; intros w Hw; apply Hu; set_solver. Qed.

Lemma table_nonzero m pgdir i j : valid_page (table m pgdir i) → 0 ≤ j → table m pgdir i + 4 * j ≠ 0.
Proof. intros (_ & _ & Hr) Hj. unfold KERNBASE in *. lia. Qed.

Lemma walk_alloc s l pgdir va :
  vm_ok s pgdir l → 0 ≤ va < NADDR →
  (∃ t l', walkpgdir pgdir va true s = Ret (table (k_mem t) pgdir (PDX va) + 4 * PTX va) t ∧
     vm_ok t pgdir l' ∧ grows (k_mem s) pgdir l (k_mem t) l' ∧ (length l ≤ S (length l'))%nat ∧
     present (k_mem t) pgdir (PDX va) ∧ mem_only s t ∧
     ∀ va', 0 ≤ va' < NADDR → mapping (k_mem t) pgdir va' = mapping (k_mem s) pgdir va') ∨
  (l = [] ∧ ∃ t, walkpgdir pgdir va true s = Ret 0 t ∧ vm_ok t pgdir [] ∧ mem_only s t ∧ k_mem t = k_mem s).
Proof.
  intros [Hsy Hfr Hok Hun] Hva. destruct (pdx_div va Hva) as [_ Hd].
  destruct (decide (present (k_mem s) pgdir (PDX va))) as [Hp|Hp].
  { left. exists s, l. split_and!; try done; try apply grows_refl; try lia. unfold walkpgdir, load32. mstep. unfold present, pde in Hp. by rewrite Hp. }
  assert (Hw : ∀ o, kalloc s = o → walkpgdir pgdir va true s = obind o (λ pgtab, if pgtab =? 0 then ret 0 else
    do* mem_set pgtab 0 PGSIZE in do* store32 (pgdir + 4 * PDX va) (table_entry pgtab) in ret (pgtab + 4 * PTX va))).
  { intros o <-. unfold walkpgdir, load32. mstep. unfold present, pde in Hp. by rewrite (not_true_is_false _ Hp). }
  destruct (kalloc_returns s l Hsy Hfr) as (v & s1 & E & -> & Hz & Hfr1 & Hm & Hl). pose proof (mem_only_sync _ _ Hl Hsy) as Hsy1. rewrite (Hw _ E). cbn [obind].
  destruct l as [|v l]; cbn [head from_option id tail] in *.
  { right. split; [done|]. exists s1. split_and!; try done. split; [done|done|by rewrite Hm|by rewrite Hm]. }
  left. assert (Hv : valid_page v) by (destruct Hfr as (_ & _ & Hf); by apply Forall_inv in Hf).
  destruct (unused_tail _ _ _ _ Hun) as [Hun1 Hunv].
  assert (Hvl : v ∉ l) by (destruct Hfr as (_ & Hn & _); by apply NoDup_cons in Hn as [? _]).
  rewrite (proj2 (Z.eqb_neq v 0)) by (by apply valid_page_nonzero).
  unfold mem_set, store32. mstep. mstep.
  set (m' := st32 (memset (k_mem s) v 0 PGSIZE) (pgdir + 4 * PDX va) (table_entry v)).
  set (t := s1 <| k_mem ::= _ |> <| k_mem ::= _ |>).
  assert (Em : k_mem t = m') by (unfold t, m'; cbn; by rewrite Hm).
  exists t, l. rewrite !Em. split_and!; [|split|by apply newtable_grows|done| |by do 2 apply mem_only_set|].
  - unfold ret. f_equal. unfold m'. rewrite newtable_table by done. by rewrite decide_True.
  - done.
  - eapply free_ok_mem; [exact Hfr1|done|]. intros w Hw'. rewrite Em, Hm.
    destruct Hfr1 as (_ & _ & Hf). rewrite Forall_forall in Hf. assert (Hvw := Hf w Hw').
    destruct (Hun1 w Hw') as [Hne _].
    assert (H0 := newtable_word (k_mem s) pgdir va v Hok Hva Hp Hv Hunv w 0 Hvw ltac:(lia) ltac:(by intros ->) ltac:(by left)).
    by rewrite Z.mul_0_r, Z.add_0_r in H0.
  - rewrite Em. by apply newtable_ok.
  - rewrite Em. by apply newtable_unused.
  - apply newtable_present; try done. by left.
  - intros va' Hva'. by apply newtable_mapping.
Qed.

(** Storing the entry of an address whose table is there. *)
Lemma store_vm s l pgdir va e :
  vm_ok s pgdir l → 0 ≤ va < NADDR → present (k_mem s) pgdir (PDX va) →
  vm_ok (s <| k_mem ::= λ m, st32 m (table (k_mem s) pgdir (PDX va) + 4 * PTX va) e |>) pgdir l.
Proof.
  intros [Hsy Hfr Hok Hun] Hva Hp. destruct (pdx_div va Hva) as [_ Hd]. destruct (ptx_div va) as [_ Ht]; [lia|].
  split.
  - done.
  - eapply free_ok_mem; [exact Hfr|done|]. intros w Hw. cbn.
    destruct (Hun w Hw) as [_ Hne]. destruct Hfr as (_ & _ & Hf). rewrite Forall_forall in Hf.
    rewrite <-(Z.add_0_r w). change 0 with (4 * 0). apply ld32_st32_ne.
    destruct (words_apart w (table (k_mem s) pgdir (PDX va)) 0 (PTX va)); try lia; [by apply Hf|by apply (pd_table _ _ Hok)|].
    left. intros E. by apply (Hne _ Hd Hp).
  - by apply store_ok.
  - by apply store_unused.
Qed.

(** The entry [mappages] stores for the page of [va] when page [a] goes to
    frame [pa]. *)
Definition entry_for (a pa perm va : Z) : Z := Z.lor (Z.lor (pa + (va / PGSIZE * PGSIZE - a)) perm) PTE_P.

(** The addresses of [n] pages from [a] on. *)
Definition in_pages (a : Z) (n : nat) (va : Z) : Prop := a ≤ va < a + n * PGSIZE.
#[global] Instance in_pages_dec a n va : Decision (in_pages a n va).
Proof. unfold in_pages. apply _. Defined.

(** One page: the entry is stored in the table that [walkpgdir] finds. *)
Lemma map_one s l pgdir a pa perm :
  vm_ok s pgdir l → 0 ≤ a < NADDR → a mod PGSIZE = 0 → pa mod PGSIZE = 0 → 0 ≤ pa < NADDR → 0 ≤ perm < PGSIZE →
  mapping (k_mem s) pgdir a = None →
  (l = [] ∧ ∃ t, walkpgdir pgdir a true s = Ret 0 t ∧ vm_ok t pgdir [] ∧ mem_only s t ∧ k_mem t = k_mem s) ∨
  ∃ pte t l', walkpgdir pgdir a true s = Ret pte t ∧ pte ≠ 0 ∧ has (ld32 (k_mem t) pte) PTE_P = false ∧
    let u := t <| k_mem ::= λ m, st32 m pte (Z.lor (Z.lor pa perm) PTE_P) |> in
    vm_ok u pgdir l' ∧ grows (k_mem s) pgdir l (k_mem u) l' ∧ (length l ≤ S (length l'))%nat ∧ mem_only s u ∧
    ∀ va, 0 ≤ va < NADDR → mapping (k_mem u) pgdir va =
      if decide (in_pages a 1 va) then Some (entry_for a pa perm va) else mapping (k_mem s) pgdir va.
Proof.
  intros Hvm Ha Hal Hpal Hpa Hperm Hno.
  destruct (walk_alloc s l pgdir a Hvm Ha) as [(t & l' & E & Hvt & Hsuf & Hlen & Hp & Hl & Hm)|Hnone]; [right|by left].
  destruct (pdx_div a Ha) as [_ Hd]. destruct (ptx_div a) as [_ Ht]; [lia|].
  exists (table (k_mem t) pgdir (PDX a) + 4 * PTX a), t, l'. split_and!; [done| | |].
  - apply table_nonzero; [|lia]. by apply (pd_table _ _ (vo_dir _ _ _ Hvt)).
  - assert (Hna : mapping (k_mem t) pgdir a = None) by (by rewrite Hm).
    unfold mapping in Hna. unfold present in Hp. rewrite Hp in Hna. cbv zeta in Hna. revert Hna. by destruct (has (ld32 _ _) PTE_P).
  - cbv zeta. split_and!; [by apply store_vm|eapply grows_trans; [exact Hsuf|apply store_grows; [apply Hvt|done|done]]|done|by apply mem_only_set|]. intros va Hva. cbn [k_mem set].
    rewrite (store_mapping (k_mem t) pgdir a) by (try done; apply Hvt). rewrite Hm by done.
    destruct (pte_entry pa perm Hpal Hpa Hperm) as (Hu & _ & Hh). cbv zeta in *. rewrite Hu, Hh.
    unfold in_pages, entry_for. repeat case_decide; try (unfold PGSIZE in *; lia); [|done].
    do 3 f_equal. unfold PGSIZE in *. lia.
Qed.

(** The pages from [a] to [a + n * PGSIZE], one after the other. *)
Lemma mappages_loop_view (n : nat) s l pgdir a pa perm :
  vm_ok s pgdir l → 0 ≤ a → a + n * PGSIZE < NADDR → a mod PGSIZE = 0 → pa mod PGSIZE = 0 →
  0 ≤ pa → pa + n * PGSIZE < NADDR → 0 ≤ perm < PGSIZE →
  (∀ va, in_pages a (S n) va → mapping (k_mem s) pgdir va = None) →
  ∃ r t l', mappages_loop (S n) pgdir a (a + n * PGSIZE) pa perm s = Ret r t ∧ vm_ok t pgdir l' ∧
    grows (k_mem s) pgdir l (k_mem t) l' ∧ mem_only s t ∧
    ((r = 0 ∧ ∀ va, 0 ≤ va < NADDR → mapping (k_mem t) pgdir va =
        if decide (in_pages a (S n) va) then Some (entry_for a pa perm va) else mapping (k_mem s) pgdir va) ∨
     (r = -1 ∧ l' = [] ∧ ∀ va, 0 ≤ va < NADDR → ¬ in_pages a (S n) va → mapping (k_mem t) pgdir va = mapping (k_mem s) pgdir va)).
Proof.
  revert s l a pa. induction n as [|n IH]; intros s l a pa Hvm Ha Hend Hal Hpal Hpa Hpend Hperm Hno.
  all: assert (Ha' : 0 ≤ a < NADDR) by (unfold PGSIZE in *; lia); assert (Hpa' : 0 ≤ pa < NADDR) by (unfold PGSIZE in *; lia).
  all: assert (Hna : mapping (k_mem s) pgdir a = None) by (apply Hno; unfold in_pages, PGSIZE; lia).
  all: cbn [mappages_loop].
  all: destruct (map_one s l pgdir a pa perm Hvm Ha' Hal Hpal Hpa' Hperm Hna)
    as [(-> & t & E & Hvt & Hlt & Hmt)|(pte & t & l1 & E & Hpz & Hh & Hvu & Hs1 & _ & Hlu & Hmu)].
  1, 3: exists (-1), t, []; split_and!; [by step E|done|rewrite Hmt; apply grows_refl|done|]; right; split_and!; [done|done|]; intros; by rewrite Hmt.
  - cbv zeta in *. set (u := t <| k_mem ::= _ |>) in *. exists 0, u, l1. split_and!; [|done|done|done|].
    + step E. rewrite (proj2 (Z.eqb_neq pte 0) Hpz). unfold load32. mstep. rewrite Hh. unfold store32. mstep. fold u.
      by rewrite Z.mul_0_l, Z.add_0_r, Z.eqb_refl.
    + left. split; [done|]. exact Hmu.
  - cbv zeta in *. set (u := t <| k_mem ::= _ |>) in *.
    destruct (IH u l1 (a + PGSIZE) (pa + PGSIZE)) as (r & t2 & l2 & E2 & Hv2 & Hs2 & Hl2 & Hr); try done;
      try (unfold PGSIZE in *; lia).
    { intros va Hva. rewrite Hmu by (unfold in_pages, PGSIZE, NADDR in *; lia).
      rewrite decide_False by (unfold in_pages, PGSIZE in *; lia). apply Hno. unfold in_pages, PGSIZE in *. lia. }
    exists r, t2, l2. split_and!; [|done|by eapply grows_trans|by etransitivity|].
    + step E. rewrite (proj2 (Z.eqb_neq pte 0) Hpz). unfold load32. mstep. rewrite Hh. unfold store32. mstep. fold u.
      rewrite (proj2 (Z.eqb_neq a _)) by (unfold PGSIZE; lia).
      replace (a + S n * PGSIZE) with (a + PGSIZE + n * PGSIZE) by lia.
      by rewrite !u32_small by (unfold PGSIZE, NADDR in *; lia).
    + destruct Hr as [[-> Hr]|(-> & -> & Hr)]; [left|right]; split_and!; try done.
      * intros va Hva. rewrite Hr, Hmu by done. unfold in_pages, entry_for in *.
        repeat case_decide; try done; try (unfold PGSIZE in *; lia). do 3 f_equal. lia.
      * intros va Hva Hout. rewrite Hr, Hmu by (try done; unfold in_pages, PGSIZE in *; lia).
        rewrite decide_False; [done|]. unfold in_pages, PGSIZE in *. lia.
Qed.

(** [mappages] on pages that are not mapped yet. *)
Lemma mappages_view (n : nat) s l pgdir va pa perm :
  vm_ok s pgdir l → 0 ≤ va → va + (n + 1) * PGSIZE ≤ NADDR → va mod PGSIZE = 0 → pa mod PGSIZE = 0 →
  0 ≤ pa → pa + (n + 1) * PGSIZE ≤ NADDR → 0 ≤ perm < PGSIZE →
  (∀ a, in_pages va (S n) a → mapping (k_mem s) pgdir a = None) →
  ∃ r t l', mappages pgdir va ((n + 1) * PGSIZE) pa perm s = Ret r t ∧ vm_ok t pgdir l' ∧
    grows (k_mem s) pgdir l (k_mem t) l' ∧ mem_only s t ∧
    ((r = 0 ∧ ∀ a, 0 ≤ a < NADDR → mapping (k_mem t) pgdir a =
        if decide (in_pages va (S n) a) then Some (entry_for va pa perm a) else mapping (k_mem s) pgdir a) ∨
     (r = -1 ∧ l' = [] ∧ ∀ a, 0 ≤ a < NADDR → ¬ in_pages va (S n) a → mapping (k_mem t) pgdir a = mapping (k_mem s) pgdir a)).
Proof.
  intros Hvm Hva Hend Hal Hpal Hpa Hpend Hperm Hno.
  destruct (mappages_loop_view n s l pgdir va pa perm) as (r & t & l' & E & Hrest); try done;
    try (unfold PGSIZE in *; lia).
  exists r, t, l'. split; [|done].
  unfold mappages, PGROUNDDOWN. change (u32 (Z.lnot (PGSIZE - 1))) with 0xFFFFF000.
  assert (Hlast : Z.land (u32 (va + (n + 1) * PGSIZE - 1)) 0xFFFFF000 = va + n * PGSIZE).
  { rewrite land_page_mask by apply u32_range. unfold u32, PGSIZE, NADDR in *. lia. }
  assert (Hfirst : Z.land va 0xFFFFF000 = va).
  { rewrite land_page_mask by (unfold PGSIZE, NADDR in *; lia). unfold PGSIZE in *. lia. }
  rewrite Hlast, Hfirst. rewrite <-E. f_equal. unfold u32, PGSIZE, NADDR in *. lia.
Qed.
End walk.

(** ** Properties *)

Section props.
Context `{Hk : kenv}.
Implicit Types (s t : kstate) (l : list Z).

(** C13: [mappages] on [n + 1] pages that are not mapped yet makes the hardware
    translate exactly their addresses to the page frames from [pa] on, with the
    permissions given, and changes the translation of no other address,
    whether or not it has to allocate page tables; it returns -1 only when the
    free list is exhausted, and then too no other address is affected. *)
Theorem mappages_correct (n : nat) s l pgdir va pa perm :
  vm_ok s pgdir l → 0 ≤ va → va + (n + 1) * PGSIZE ≤ NADDR → va mod PGSIZE = 0 → pa mod PGSIZE = 0 →
  0 ≤ pa → pa + (n + 1) * PGSIZE ≤ NADDR → 0 ≤ perm < PGSIZE →
  (∀ a, in_pages va (S n) a → translate (k_mem s) pgdir a = None) →
  returns (mappages pgdir va ((n + 1) * PGSIZE) pa perm) s (λ r t, ∃ l', vm_ok t pgdir l' ∧ l' `suffix_of` l ∧
    mem_only s t ∧
    (∀ a, 0 ≤ a < NADDR → ¬ in_pages va (S n) a → translate (k_mem t) pgdir a = translate (k_mem s) pgdir a) ∧
    (r = 0 ∧ (∀ a, in_pages va (S n) a →
        translate (k_mem t) pgdir a = Some (p2v (pa + (a / PGSIZE * PGSIZE - va)) + a mod PGSIZE) ∧
        ∃ e, mapping (k_mem t) pgdir a = Some e ∧ Z.land e 0xFFF = Z.lor perm PTE_P) ∨
     r = -1 ∧ l' = [])).
Proof.
  intros Hvm Hva Hend Hal Hpal Hpa Hpend Hperm Hno.
  assert (Hno' : ∀ a, in_pages va (S n) a → mapping (k_mem s) pgdir a = None).
  { intros a Ha. specialize (Hno a Ha). rewrite translate_mapping in Hno. by destruct (mapping _ _ _). }
  destruct (mappages_view n s l pgdir va pa perm) as (r & t & l' & E0 & Hvt & Hs & Hl & Hr); try done.
  eapply returns_eq; [exact E0|]. exists l'. split_and!; try done; [apply Hs| |].
  - intros a Ha Hout. rewrite !translate_mapping. f_equal.
    destruct Hr as [[_ Hr]|(_ & _ & Hr)]; [|by apply Hr]. rewrite Hr by done. by rewrite decide_False.
  - destruct Hr as [[-> Hr]|(-> & -> & _)]; [left|by right]. split; [done|]. intros a Ha.
    assert (Hra : 0 ≤ a < NADDR) by (unfold in_pages, PGSIZE in *; lia).
    assert (Hm := Hr a Hra). rewrite decide_True in Hm by done.
    set (fr := pa + (a / PGSIZE * PGSIZE - va)) in *.
    assert (Hfr : fr mod PGSIZE = 0 ∧ 0 ≤ fr < NADDR) by (unfold fr, in_pages, PGSIZE in *; lia). destruct Hfr as [Hf1 Hf2].
    destruct (pte_entry fr perm Hf1 Hf2 Hperm) as (_ & Hpa' & _). cbv zeta in Hpa'.
    split.
    + rewrite translate_mapping, Hm. cbn. unfold entry_for. fold fr. by rewrite Hpa'.
    + exists (entry_for va pa perm a). split; [done|]. unfold entry_for. fold fr. rewrite <-Z.lor_assoc.
      destruct (perm_bits perm Hperm) as [Hpb _]. destruct (low_bits_apart fr _ Hf1 Hpb) as [-> ->]. done.
Qed.
End props.
(** ** Witnesses *)

(** An empty page directory and one free page for the table. *)
Lemma one_page_empty i : pde (k_mem one_page) page2 i = 0.
Proof. done. Qed.

Lemma one_page_vm : vm_ok (Hk := kenv_example) one_page page2 [page1].
Proof.
  assert (Hz : ∀ i, 0 ≤ i < 1024 → ¬ present (k_mem one_page) page2 i).
  { intros i Hi. unfold present. by rewrite one_page_empty. }
  split.
  - apply one_page_sync.
  - apply one_page_free_ok.
  - split; [apply valid_page2| |].
    + intros i Hi Hp. by destruct (Hz i Hi).
    + intros i j Hi Hj Hp. by destruct (Hz i Hi).
  - intros v ->%list_elem_of_singleton. split; [done|]. intros i Hi Hp. by destruct (Hz i Hi).
Qed.

Lemma mappages_correct_witness :
  returns (mappages (H := kenv_example) page2 0x1000 0x2000 0x5000 (Z.lor PTE_W PTE_U)) one_page (λ r t,
    r = 0 → translate (k_mem t) page2 0x2234 = Some (p2v 0x6000 + 0x234)).
Proof.
  eapply returns_mono; [apply (mappages_correct (Hk := kenv_example) 1 one_page [page1] page2 0x1000 0x5000 (Z.lor PTE_W PTE_U)); try done|].
  - apply one_page_vm.
  - intros r t (l' & _ & _ & _ & _ & [[-> Hr]|[-> _]]); [|done]. intros _. apply (Hr 0x2234). vm_compute. done.
Defined.
