(* ===== verification/AddrSpace.v ===== *)
(** User address spaces: what [deallocuvm], [allocuvm], [setupkvm], [freevm]
    and [copyuvm] of vm.c do to the pages a process has, and to the pages of
    everybody else. *)
From stdpp Require Import base numbers gmap strings option list.
From S2P Require Import Prelude State Spinlock Str Cprintf Kalloc Proc Mlf Sched Bio Blocks Log LogSpec Tx Crash Fs Vm PageTable.

(** ** The pages of an address space *)

(** Where the linker puts the kernel: data on a page of its own, and the free
    memory above the image. *)
Class kernel_image `{kenv} := {
  ki_end : KERNBASE < end_addr;
  ki_data : data_addr mod PGSIZE = 0 ∧ KERNLINK < data_addr < KERNBASE + PHYSTOP;
}.

#[export] Instance image_example : @kernel_image kenv_example.
Proof. split; by vm_compute. Qed.

Definition frame (e : Z) : Z := p2v (PTE_ADDR e).

Section space.
Context `{Hk : kenv}.
Implicit Types (m : gmap Z Z) (l : list Z) (s t : kstate).

(** The pages mapped for the user. *)
Definition user_page m (pgdir v : Z) : Prop :=
  ∃ va e, 0 ≤ va < KERNBASE ∧ mapping m pgdir va = Some e ∧ frame e = v.

(** The pages that belong to the directory or are free. *)
Definition pool m (pgdir : Z) l (v : Z) : Prop :=
  v ∈ l ∨ dir_page m pgdir v ∨ user_page m pgdir v.

Record space_ok s (pgdir : Z) l : Prop := {
  so_vm : vm_ok s pgdir l;
  so_frame : ∀ va e, 0 ≤ va < KERNBASE → mapping (k_mem s) pgdir va = Some e →
    valid_page (frame e) ∧ (frame e ∉ l) ∧ ¬ dir_page (k_mem s) pgdir (frame e);
  so_inj : ∀ va va' e e', 0 ≤ va < KERNBASE → 0 ≤ va' < KERNBASE →
    mapping (k_mem s) pgdir va = Some e → mapping (k_mem s) pgdir va' = Some e' →
    frame e = frame e' → va / PGSIZE = va' / PGSIZE;
}.

(** The page of an address decides its entry. *)
Lemma mapping_page m pgdir va va' :
  0 ≤ va < NADDR → 0 ≤ va' < NADDR → va' / PGSIZE = va / PGSIZE → mapping m pgdir va' = mapping m pgdir va.
Proof. intros H H' E. apply same_page in E as [E1 E2]; [|done|done]. unfold mapping. by rewrite E1, E2. Qed.

(** A directory is what its pages say. *)
Section ext.
Context m m' (pgdir : Z).
Hypothesis Hok : pgdir_ok m pgdir.
Hypothesis Hkept : ∀ v a, dir_page m pgdir v → v ≤ a < v + PGSIZE → ldb m' a = ldb m a.

Lemma ext_word v i : dir_page m pgdir v → 0 ≤ i < 1024 → ld32 m' (v + 4 * i) = ld32 m (v + 4 * i).
Proof using All. intros Hv Hi. unfold ld32. rewrite !(Hkept v) by (done || unfold PGSIZE; lia). done. Qed.

Lemma ext_pde i : 0 ≤ i < 1024 → pde m' pgdir i = pde m pgdir i.
Proof using All. intros Hi. apply ext_word; [by left|done]. Qed.

Lemma ext_present i : 0 ≤ i < 1024 → present m' pgdir i ↔ present m pgdir i.
Proof using All. intros Hi. unfold present. by rewrite ext_pde. Qed.

Lemma ext_table i : 0 ≤ i < 1024 → table m' pgdir i = table m pgdir i.
Proof using All. intros Hi. unfold table. by rewrite ext_pde. Qed.

Lemma ext_dir_page v : dir_page m' pgdir v ↔ dir_page m pgdir v.
Proof using All.
  unfold dir_page. split; (intros [->|(i & Hi & Hp & E)]; [by left|right; exists i]);
    rewrite ?ext_present, ?ext_table in * by done; done.
Qed.

Lemma ext_ok : pgdir_ok m' pgdir.
Proof using All.
  split; [apply Hok|..].
  - intros i Hi. rewrite ext_present, ext_table by done. by apply Hok.
  - intros i j Hi Hj. rewrite !ext_present, !ext_table by done. by apply Hok.
Qed.

Lemma ext_mapping va : 0 ≤ va < NADDR → mapping m' pgdir va = mapping m pgdir va.
Proof using All.
  intros Hva. destruct (pdx_div va Hva) as [_ Hd], (ptx_div va) as [_ Ht]; [lia|].
  unfold mapping. rewrite ext_pde, ext_table by done. cbv zeta.
  destruct (has (pde m pgdir (PDX va)) PTE_P) eqn:E; [|done].
  rewrite ext_word; [done| |done]. right. by exists (PDX va).
Qed.

Lemma ext_user_page v : user_page m' pgdir v ↔ user_page m pgdir v.
Proof using All.
  assert (∀ va, 0 ≤ va < KERNBASE → mapping m' pgdir va = mapping m pgdir va) as Hm
    by (intros va Hva; apply ext_mapping; unfold KERNBASE, NADDR in *; lia).
  split; intros (va & e & Hva & He & E); exists va, e; (split_and!; [lia|lia| |done]);
    [rewrite <- Hm; [done|lia]|rewrite Hm; [done|lia]].
Qed.
End ext.

Lemma dir_page_valid m pgdir v : pgdir_ok m pgdir → dir_page m pgdir v → valid_page v.
Proof. intros Hok [->|(i & Hi & Hp & <-)]; [apply Hok|]. by apply (pd_table _ _ Hok). Qed.

Lemma unused_not_dir m pgdir l v : unused m pgdir l → v ∈ l → ¬ dir_page m pgdir v.
Proof. intros Hu Hv. apply unused_dir. intros w ->%list_elem_of_singleton. by apply Hu. Qed.

Lemma not_dir_unused m pgdir l : (∀ v, v ∈ l → ¬ dir_page m pgdir v) → unused m pgdir l.
Proof. intros Hd v Hv. apply (unused_dir m pgdir v); [by apply Hd|set_solver]. Qed.

(** Writing elsewhere leaves the directory and the free list as they are. *)
Lemma vm_ok_kept s t pgdir l :
  vm_ok s pgdir l → mem_only s t → free_ok t l →
  (∀ v a, dir_page (k_mem s) pgdir v → v ≤ a < v + PGSIZE → ldb (k_mem t) a = ldb (k_mem s) a) → vm_ok t pgdir l.
Proof.
  intros [Hsy Hfr Hok Hun] Hm Hf Hkept. split; [by eapply mem_only_sync|done|by eapply ext_ok|].
  apply not_dir_unused. intros v Hv. rewrite (ext_dir_page (k_mem s)) by done. by eapply unused_not_dir.
Qed.

(** More tables, the same mappings. *)
Lemma space_grow s t pgdir l l' :
  space_ok s pgdir l → vm_ok t pgdir l' → grows (k_mem s) pgdir l (k_mem t) l' →
  (∀ va, 0 ≤ va < KERNBASE → mapping (k_mem t) pgdir va = mapping (k_mem s) pgdir va) →
  space_ok t pgdir l' ∧ ∀ v, pool (k_mem t) pgdir l' v ↔ pool (k_mem s) pgdir l v.
Proof.
  intros [Hvm Hfr Hinj] Ht Hg Hm. split; [split; [done|..]|].
  - intros va e Hva He. rewrite Hm in He by done. destruct (Hfr va e Hva He) as (Hv & Hl & Hd).
    pose proof (gr_dir _ _ _ _ _ Hg (frame e)). split; [done|]. tauto.
  - intros va va' e e' Hva Hva'. rewrite !Hm by done. by apply Hinj.
  - intros v. unfold pool. pose proof (gr_dir _ _ _ _ _ Hg v).
    assert (user_page (k_mem t) pgdir v ↔ user_page (k_mem s) pgdir v); [|tauto].
    unfold user_page. split; intros (va & e & Hva & He & E); exists va, e; [rewrite Hm in He by done|rewrite Hm by done]; done.
Qed.

(** One more page. *)
Lemma space_put s t pgdir l l' a e0 :
  space_ok s pgdir l → vm_ok t pgdir l' → grows (k_mem s) pgdir l (k_mem t) l' →
  0 ≤ a < KERNBASE → a mod PGSIZE = 0 → mapping (k_mem s) pgdir a = None →
  valid_page (frame e0) → ¬ pool (k_mem s) pgdir l (frame e0) →
  (∀ va, 0 ≤ va < KERNBASE → mapping (k_mem t) pgdir va =
     if decide (in_pages a 1 va) then Some e0 else mapping (k_mem s) pgdir va) →
  space_ok t pgdir l' ∧ ∀ v, pool (k_mem t) pgdir l' v ↔ v = frame e0 ∨ pool (k_mem s) pgdir l v.
Proof.
  intros [Hvm Hfr Hinj] Ht Hg Ha Hal Hno Hv0 Hn0 Hm.
  assert (∀ va e, 0 ≤ va < KERNBASE → mapping (k_mem s) pgdir va = Some e → frame e ≠ frame e0) as Hne.
  { intros va e Hva He E. apply Hn0. right. right. by exists va, e. }
  split; [split; [done|..]|].
  - intros va e Hva. rewrite Hm by done. case_decide as Hin; [intros [= <-]|intros He].
    + pose proof (gr_dir _ _ _ _ _ Hg (frame e0)). split; [done|]. unfold pool in Hn0. tauto.
    + destruct (Hfr va e Hva He) as (Hv & Hl & Hd). pose proof (gr_dir _ _ _ _ _ Hg (frame e)). split; [done|]. tauto.
  - intros va va' e e' Hva Hva'. rewrite !Hm by done. unfold in_pages.
    repeat case_decide; [unfold PGSIZE in *; lia|intros [= <-] He' E|intros He [= <-] E|by apply Hinj].
    + by destruct (Hne va' e' Hva' He').
    + by destruct (Hne va e Hva He).
  - intros v. unfold pool. pose proof (gr_dir _ _ _ _ _ Hg v).
    assert (user_page (k_mem t) pgdir v ↔ v = frame e0 ∨ user_page (k_mem s) pgdir v); [|tauto]. unfold user_page. split.
    + intros (va & e & Hva & He & <-). rewrite Hm in He by done. case_decide; simplify_eq; [by left|right; by exists va, e].
    + intros [->|(va & e & Hva & He & E)].
      * exists a, e0. rewrite Hm by done. rewrite decide_True by (unfold in_pages, PGSIZE; lia). done.
      * exists va, e. rewrite Hm by done. rewrite decide_False; [done|]. intros Hin.
        rewrite (mapping_page _ _ a va) in He by (unfold in_pages, PGSIZE, NADDR, KERNBASE in *; lia). congruence.
Qed.

(** ** Removing pages *)

Lemma walk_find s pgdir va :
  walkpgdir pgdir va false s =
    Ret (if has (pde (k_mem s) pgdir (PDX va)) PTE_P then table (k_mem s) pgdir (PDX va) + 4 * PTX va else 0) s.
Proof. unfold walkpgdir, load32. mstep. unfold table, pde. by destruct (has _ PTE_P). Qed.

Lemma mapping_entry m pgdir va e :
  mapping m pgdir va = Some e →
  present m pgdir (PDX va) ∧ ld32 m (table m pgdir (PDX va) + 4 * PTX va) = e ∧ has e PTE_P = true.
Proof.
  unfold mapping, present. destruct (has (pde m pgdir (PDX va)) PTE_P); [|done]. cbv zeta.
  destruct (has (ld32 _ _) PTE_P) eqn:E; [|done]. by intros [= <-].
Qed.

Lemma mapping_none m pgdir va :
  mapping m pgdir va = None → present m pgdir (PDX va) →
  has (ld32 m (table m pgdir (PDX va) + 4 * PTX va)) PTE_P = false.
Proof. unfold mapping, present. intros Hm Hp. rewrite Hp in Hm. revert Hm. cbv zeta. by destruct (has (ld32 _ _) PTE_P). Qed.

Lemma user_addr va : 0 ≤ va < KERNBASE → 0 ≤ va < NADDR.
Proof. unfold KERNBASE, NADDR. lia. Qed.

(** A page given back to the free list that was not part of the directory. *)
Lemma free_page s pgdir l v :
  vm_ok s pgdir l → valid_page v → v ∉ l → ¬ dir_page (k_mem s) pgdir v →
  returns (kfree v) s (λ _ t, vm_ok t pgdir (v :: l) ∧ mem_only s t ∧
    (∀ w a, valid_page w → w ≠ v → w ≤ a < w + PGSIZE → ldb (k_mem t) a = ldb (k_mem s) a) ∧
    (∀ w a, dir_page (k_mem s) pgdir w → w ≤ a < w + PGSIZE → ldb (k_mem t) a = ldb (k_mem s) a)).
Proof.
  intros [Hsy Hfr Hok Hun] Hv Hl Hd. eapply returns_mono; [by apply (kfree_returns s v l)|].
  intros _ t (Hf & Hm & _ & Hb).
  assert (∀ w a, valid_page w → w ≠ v → w ≤ a < w + PGSIZE → ldb (k_mem t) a = ldb (k_mem s) a) as Hkept.
  { intros w a Hw Hne Ha. apply Hb. destruct (valid_page_apart w v Hw Hv Hne); lia. }
  assert (∀ w a, dir_page (k_mem s) pgdir w → w ≤ a < w + PGSIZE → ldb (k_mem t) a = ldb (k_mem s) a) as Hdk.
  { intros w a Hw Ha. apply (Hkept w); [by eapply dir_page_valid| |done]. by intros ->. }
  split_and!; try done. split; [by eapply mem_only_sync|done|by eapply ext_ok|].
  apply not_dir_unused. intros w Hw. rewrite (ext_dir_page (k_mem s)) by done.
  apply elem_of_cons in Hw as [->|Hw]; [done|]. by eapply unused_not_dir.
Qed.

(** One page less. *)
Lemma unmap_one s pgdir l a e :
  space_ok s pgdir l → 0 ≤ a < KERNBASE → a mod PGSIZE = 0 → mapping (k_mem s) pgdir a = Some e →
  returns (do* kfree (frame e) in store32 (table (k_mem s) pgdir (PDX a) + 4 * PTX a) 0) s (λ _ t,
    space_ok t pgdir (frame e :: l) ∧ mem_only s t ∧
    (∀ va, 0 ≤ va < NADDR → mapping (k_mem t) pgdir va =
       if decide (in_pages a 1 va) then None else mapping (k_mem s) pgdir va) ∧
    (∀ i, 0 ≤ i < 1024 → pde (k_mem t) pgdir i = pde (k_mem s) pgdir i) ∧
    (∀ v, dir_page (k_mem t) pgdir v ↔ dir_page (k_mem s) pgdir v) ∧
    (∀ v b, valid_page v → v ≠ frame e → ¬ dir_page (k_mem s) pgdir v → v ≤ b < v + PGSIZE → ldb (k_mem t) b = ldb (k_mem s) b)).
Proof.
  intros Hs Ha Hal He. pose proof (user_addr _ Ha) as Ha'. destruct (so_frame _ _ _ Hs a e Ha He) as (Hv & Hl & Hd).
  destruct (pdx_div a Ha') as [_ Hdx].
  apply returns_bind. eapply returns_mono; [apply (free_page s pgdir l); [apply Hs|done..]|].
  intros _ s1 (Hv1 & Hm1 & Hk1 & Hdk).
  pose proof (vo_dir _ _ _ (so_vm _ _ _ Hs)) as Hok.
  assert (present (k_mem s1) pgdir (PDX a)) as Hp1.
  { apply (ext_present (k_mem s)); [done..|]. by apply mapping_entry in He as [? _]. }
  rewrite <- (ext_table (k_mem s) (k_mem s1)) by done.
  set (t := s1 <| k_mem ::= λ m, st32 m (table (k_mem s1) pgdir (PDX a) + 4 * PTX a) 0 |>).
  eapply returns_eq; [reflexivity|]. fold t.
  assert (∀ va, 0 ≤ va < NADDR → mapping (k_mem t) pgdir va =
    if decide (in_pages a 1 va) then None else mapping (k_mem s) pgdir va) as Hmap.
  { intros va Hva. change (k_mem t) with (st32 (k_mem s1) (table (k_mem s1) pgdir (PDX a) + 4 * PTX a) 0).
    rewrite store_mapping by (done || apply Hv1). rewrite (ext_mapping (k_mem s)) by done.
    unfold in_pages. repeat case_decide; try done; exfalso; unfold PGSIZE in *; lia. }
  assert (∀ i, 0 ≤ i < 1024 → pde (k_mem t) pgdir i = pde (k_mem s) pgdir i) as Hpde.
  { intros i Hi. rewrite <- (ext_pde (k_mem s) (k_mem s1)) by done.
    apply (store_pde (k_mem s1) pgdir a 0); [apply Hv1|done|done|done]. }
  assert (∀ v, dir_page (k_mem t) pgdir v ↔ dir_page (k_mem s) pgdir v) as Hdir.
  { intros v. unfold dir_page, present, table. split; (intros [->|(i & Hi & Hp & E)]; [by left|right; exists i]);
      rewrite Hpde in * by done; done. }
  split_and!; [|by apply mem_only_set|done|done|done|].
  - split; [by apply store_vm|..].
    + intros va e' Hva. rewrite Hmap by (by apply user_addr). case_decide as Hin; [done|]. intros He'.
      destruct (so_frame _ _ _ Hs va e' Hva He') as (? & ? & ?). rewrite Hdir, not_elem_of_cons. split_and!; try done.
      intros E. pose proof (so_inj _ _ _ Hs va a e' e Hva Ha He' He E). apply Hin. unfold in_pages, PGSIZE in *. lia.
    + intros va va' x x' Hva Hva'. rewrite !Hmap by (by apply user_addr). do 2 (case_decide; [done|]). by apply (so_inj _ _ _ Hs).
  - intros v b Hvv Hne Hnd Hb. rewrite <- (Hk1 v b) by done.
    apply (gr_kept (k_mem s1) pgdir [] (k_mem t) []) with (v := v); [|done|set_solver| |done].
    + apply store_grows; [apply Hv1|done|done].
    + by rewrite (ext_dir_page (k_mem s)) by done.
Qed.

(** The addresses of the pages that start between [a] and [b]. *)
Definition in_range (a b va : Z) : Prop := a ≤ va ∧ va / PGSIZE * PGSIZE < b.
#[global] Instance in_range_dec a b va : Decision (in_range a b va).
Proof. unfold in_range. apply _. Defined.

Lemma in_range_user a b va : 0 ≤ a → b ≤ KERNBASE → in_range a b va → 0 ≤ va < KERNBASE.
Proof. unfold in_range, KERNBASE, PGSIZE. lia. Qed.

(** The pages of a range are unmapped and free; nothing else has changed. *)
Record shrunk s (pgdir : Z) l (a b : Z) t l' : Prop := {
  sh_space : space_ok t pgdir l';
  sh_only : mem_only s t;
  sh_map : ∀ va, 0 ≤ va < NADDR →
    mapping (k_mem t) pgdir va = if decide (in_range a b va) then None else mapping (k_mem s) pgdir va;
  sh_pde : ∀ i, 0 ≤ i < 1024 → pde (k_mem t) pgdir i = pde (k_mem s) pgdir i;
  sh_free : ∀ v, v ∈ l' ↔ v ∈ l ∨ ∃ va e, in_range a b va ∧ mapping (k_mem s) pgdir va = Some e ∧ frame e = v;
  sh_kept : ∀ v x, valid_page v → ¬ dir_page (k_mem s) pgdir v →
    (∀ va e, in_range a b va → mapping (k_mem s) pgdir va = Some e → frame e ≠ v) →
    v ≤ x < v + PGSIZE → ldb (k_mem t) x = ldb (k_mem s) x;
}.

(** No page is mapped above an address without a table. *)
Definition no_holes m (pgdir a b : Z) : Prop :=
  ∀ va va', a ≤ va ≤ va' → in_range a b va' → ¬ present m pgdir (PDX va) → mapping m pgdir va' = None.

Lemma shrunk_empty s pgdir l a b : space_ok s pgdir l → a mod PGSIZE = 0 → b ≤ a → shrunk s pgdir l a b s l.
Proof.
  intros Hs Hal Hab. assert (∀ va, ¬ in_range a b va) as Hno by (unfold in_range, PGSIZE in *; lia).
  split; [done|done|intros va _; by rewrite decide_False|done| |done].
  intros v. split; [by left|]. intros [?|(va & e & Hr & _)]; [done|]. by destruct (Hno va).
Qed.

Lemma shrunk_skip s pgdir l a a' b t l' :
  a ≤ a' → a mod PGSIZE = 0 → a' mod PGSIZE = 0 →
  (∀ va, in_range a b va → va < a' → mapping (k_mem s) pgdir va = None) →
  shrunk s pgdir l a' b t l' → shrunk s pgdir l a b t l'.
Proof.
  intros Haa Hal Hal' Hno [H1 H2 H3 H4 H5 H6].
  assert (∀ va, in_range a' b va → in_range a b va) as Hin by (unfold in_range; lia).
  assert (∀ va, in_range a b va → ¬ in_range a' b va → mapping (k_mem s) pgdir va = None) as Hnone.
  { intros va Hr Hnr. apply Hno; [done|]. unfold in_range in *. lia. }
  split; try done.
  - intros va Hva. rewrite H3 by done. destruct (decide (in_range a' b va)); [by rewrite decide_True by auto|].
    case_decide; [|done]. by apply Hnone.
  - intros v. rewrite H5. split; intros [?|(va & e & Hr & He & E)]; try (by left); right; exists va, e; [by auto|].
    split; [|done]. apply dec_stable. intros Hnr. rewrite Hnone in He by done. done.
  - intros v x Hv Hd Hne. apply H6; [done|done|]. intros va e Hr. by apply Hne, Hin.
Qed.

Lemma shrunk_unmap s s1 pgdir l a b t l' e :
  space_ok s pgdir l → 0 ≤ a < KERNBASE → a mod PGSIZE = 0 → a < b → b ≤ KERNBASE → mapping (k_mem s) pgdir a = Some e →
  mem_only s s1 →
  (∀ va, 0 ≤ va < NADDR → mapping (k_mem s1) pgdir va =
     if decide (in_pages a 1 va) then None else mapping (k_mem s) pgdir va) →
  (∀ i, 0 ≤ i < 1024 → pde (k_mem s1) pgdir i = pde (k_mem s) pgdir i) →
  (∀ v, dir_page (k_mem s1) pgdir v ↔ dir_page (k_mem s) pgdir v) →
  (∀ v b, valid_page v → v ≠ frame e → ¬ dir_page (k_mem s) pgdir v → v ≤ b < v + PGSIZE → ldb (k_mem s1) b = ldb (k_mem s) b) →
  shrunk s1 pgdir (frame e :: l) (a + PGSIZE) b t l' → shrunk s pgdir l a b t l'.
Proof.
  intros Hs Ha Hal Hab Hbk He Hmo Hmap Hpde Hdir Hkb [H1 H2 H3 H4 H5 H6].
  assert (∀ va, in_range a b va ↔ in_pages a 1 va ∨ in_range (a + PGSIZE) b va) as Hr
    by (unfold in_range, in_pages, PGSIZE in *; lia).
  assert (∀ va, in_range (a + PGSIZE) b va → 0 ≤ va < NADDR ∧ ¬ in_pages a 1 va) as Hr2
    by (unfold in_range, in_pages, PGSIZE, NADDR, KERNBASE in *; lia).
  split.
  - done.
  - by etransitivity.
  - intros va Hva. rewrite H3, Hmap by done. specialize (Hr va). repeat case_decide; try done; tauto.
  - intros i Hi. by rewrite H4, Hpde.
  - intros v. rewrite H5, elem_of_cons. split.
    + intros [[->|?]|(va & x & Hva & Hx & E)]; [right|by left|right].
      * exists a, e. split_and!; try done. unfold in_range, PGSIZE in *. lia.
      * destruct (Hr2 va Hva) as [Hn Hni]. rewrite Hmap, decide_False in Hx by done. exists va, x. split; [|done]. apply Hr. by right.
    + intros [?|(va & x & Hva & Hx & E)]; [by left; right|]. apply Hr in Hva as [Hva|Hva].
      * left. left. rewrite (mapping_page _ _ a va) in Hx by (unfold in_pages, PGSIZE, NADDR, KERNBASE in *; lia). congruence.
      * destruct (Hr2 va Hva) as [Hn Hni]. right. exists va, x. by rewrite Hmap, decide_False by done.
  - intros v x Hv Hd Hne Hx.
    assert (v ≠ frame e) as Hve by (intros ->; apply (Hne a e); [apply Hr; left; unfold in_pages, PGSIZE; lia|done|done]).
    rewrite (H6 v x); [by apply (Hkb v)|done|by rewrite Hdir| |done].
    intros va y Hva Hy. destruct (Hr2 va Hva) as [Hn Hni]. rewrite Hmap, decide_False in Hy by done.
    apply (Hne va); [|done]. apply Hr. by right.
Qed.

Lemma no_holes_later m m' pgdir a a' b :
  0 ≤ a → a ≤ a' → b ≤ KERNBASE → (∀ i, 0 ≤ i < 1024 → pde m' pgdir i = pde m pgdir i) →
  (∀ va, in_range a' b va → mapping m' pgdir va = mapping m pgdir va) →
  no_holes m pgdir a b → no_holes m' pgdir a' b.
Proof.
  intros Ha Haa Hb Hpde Hmap Hno va va' Hle Hr Hp. rewrite Hmap by done. apply (Hno va va'); [lia|unfold in_range in *; lia|].
  unfold present in *. rewrite Hpde in Hp; [done|]. apply pdx_div. apply in_range_user in Hr; [|lia|done].
  unfold NADDR, KERNBASE in *. lia.
Qed.

Context `{!kernel_image}.

Lemma frame_nonzero e : valid_page (frame e) → PTE_ADDR e ≠ 0.
Proof.
  intros (_ & He & _) E. unfold frame in He. rewrite E in He. pose proof ki_end. unfold p2v in He.
  change (u32 (0 + KERNBASE)) with KERNBASE in He. lia.
Qed.

Lemma dealloc_loop_view (n : nat) : ∀ s pgdir l a b,
  space_ok s pgdir l → 0 ≤ a → a mod PGSIZE = 0 → b ≤ KERNBASE → b ≤ a + n * PGSIZE → no_holes (k_mem s) pgdir a b →
  returns (deallocuvm_loop n pgdir b a) s (λ _ t, ∃ l', shrunk s pgdir l a b t l').
Proof.
  induction n as [|n IH]; intros s pgdir l a b Hs Ha Hal Hb Hn Hno; cbn [deallocuvm_loop].
  all: destruct (Z.ltb_spec a b) as [Hab|Hab]; [|apply returns_ret; exists l; by apply shrunk_empty].
  { lia. }
  assert (0 ≤ a < KERNBASE) as Hu by lia. pose proof (user_addr _ Hu) as Hu'. destruct (pdx_div a Hu') as [_ Hdx].
  destruct (ptx_div a) as [_ Htx]; [lia|].
  apply returns_bind. eapply returns_eq; [apply walk_find|].
  destruct (has (pde (k_mem s) pgdir (PDX a)) PTE_P) eqn:Hp.
  2:{ rewrite Z.eqb_refl. rewrite u32_small by (unfold NPTENTRIES, PGSIZE, KERNBASE in *; lia).
      eapply returns_mono; [apply (IH s pgdir l); try done; unfold NPTENTRIES, PGSIZE in *; try lia|].
      - eapply no_holes_later; [exact Ha| |done|done|done|exact Hno]. unfold NPTENTRIES, PGSIZE. lia.
      - intros _ t (l' & Ht). exists l'. eapply shrunk_skip; [| | | |exact Ht]; unfold NPTENTRIES, PGSIZE in *; try lia.
        intros va Hr _. apply (Hno a va); [unfold in_range in *; lia|done|]. unfold present. by rewrite Hp. }
  pose proof (vo_dir _ _ _ (so_vm _ _ _ Hs)) as Hok. destruct (pd_table _ _ Hok _ Hdx Hp) as [Hvt _].
  rewrite (proj2 (Z.eqb_neq _ 0)) by (by apply table_nonzero; [|lia]).
  apply returns_bind. eapply returns_eq; [reflexivity|].
  rewrite u32_small by (unfold PGSIZE, KERNBASE in *; lia).
  destruct (mapping (k_mem s) pgdir a) as [e|] eqn:He.
  - destruct (mapping_entry _ _ _ _ He) as (_ & Ee & Hh). rewrite Ee, Hh.
    destruct (so_frame _ _ _ Hs a e Hu He) as (Hvf & _). rewrite (proj2 (Z.eqb_neq _ 0)) by (by apply frame_nonzero).
    change (p2v (PTE_ADDR e)) with (frame e).
    apply returns_bind. eapply returns_mono; [by apply unmap_one|].
    intros _ s1 (Hs1 & Hm1 & Hmap & Hpde & Hdir & Hkb).
    eapply returns_mono; [apply (IH s1 pgdir (frame e :: l)); try done; unfold PGSIZE in *; try lia|].
    + eapply no_holes_later; [exact Ha| |done|done| |exact Hno]; [lia|].
      intros va Hr. pose proof (in_range_user (a + 4096) b va ltac:(lia) Hb Hr) as Hva. rewrite Hmap by (by apply user_addr).
      rewrite decide_False; [done|]. unfold in_range, in_pages, PGSIZE in *. lia.
    + intros _ t (l' & Ht). exists l'. by eapply (shrunk_unmap s s1).
  - rewrite (mapping_none _ _ _ He Hp). apply returns_bind, returns_ret.
    eapply returns_mono; [apply (IH s pgdir l); try done; unfold PGSIZE in *; try lia|].
    + eapply no_holes_later; [exact Ha| |done|done|done|exact Hno]. lia.
    + intros _ t (l' & Ht). exists l'. eapply shrunk_skip; [| | | |exact Ht]; unfold PGSIZE in *; try lia.
      intros va Hr Hlt. rewrite (mapping_page _ _ a va); [done|done| |]; unfold in_range, PGSIZE, KERNBASE, NADDR in *; lia.
Qed.

Lemma dealloc_view s pgdir l oldsz newsz :
  space_ok s pgdir l → 0 ≤ newsz < oldsz → oldsz ≤ KERNBASE → no_holes (k_mem s) pgdir (PGROUNDUP newsz) oldsz →
  returns (deallocuvm pgdir oldsz newsz) s (λ r t, r = newsz ∧ ∃ l', shrunk s pgdir l (PGROUNDUP newsz) oldsz t l').
Proof.
  intros Hs Hn Ho Hno. unfold deallocuvm. rewrite (proj2 (Z.leb_gt oldsz newsz)) by lia.
  assert (PGROUNDUP newsz = (newsz + PGSIZE - 1) / PGSIZE * PGSIZE) as Hup
    by (apply PGROUNDUP_eq; unfold KERNBASE, PGSIZE in *; lia).
  apply returns_bind. eapply returns_mono; [apply (dealloc_loop_view (S (Z.to_nat (oldsz / PGSIZE))) s pgdir l)|]; try done.
  1-3: rewrite Hup; unfold PGSIZE in *; lia.
  intros u t Ht. by apply returns_ret.
Qed.

(** ** Giving a directory back *)

Lemma free_tables_view m0 pgdir ix : ∀ s l,
  pgdir_ok m0 pgdir → NoDup ix → (∀ i : nat, i ∈ ix → (i < 1024)%nat) → kmem_sync s → free_ok s l →
  (∀ a, pgdir ≤ a < pgdir + PGSIZE → ldb (k_mem s) a = ldb m0 a) →
  (∀ i : nat, i ∈ ix → present m0 pgdir i → table m0 pgdir i ∉ l) →
  returns (for_each ix (λ i : nat,
    let* e := load32 (pgdir + 4 * i) in if has e PTE_P then kfree (p2v (PTE_ADDR e)) else ret tt)) s (λ _ t,
    ∃ l', free_ok t l' ∧ mem_only s t ∧
      (∀ v, v ∈ l' ↔ v ∈ l ∨ ∃ i : nat, i ∈ ix ∧ present m0 pgdir i ∧ table m0 pgdir i = v) ∧
      ∀ v a, valid_page v → (∀ i : nat, i ∈ ix → present m0 pgdir i → table m0 pgdir i ≠ v) →
        v ≤ a < v + PGSIZE → ldb (k_mem t) a = ldb (k_mem s) a).
Proof.
  induction ix as [|i ix IH]; intros s l Hok Hnd Hlt Hsy Hf Hd Hnl; cbn [for_each].
  { apply returns_ret. exists l. split_and!; try done. intros v. split; [by left|]. intros [?|(i & ?%not_elem_of_nil & _)]; done. }
  apply NoDup_cons in Hnd as [Hni Hnd].
  assert (ld32 (k_mem s) (pgdir + 4 * i) = pde m0 pgdir i) as Ee.
  { unfold pde, ld32. assert (i < 1024)%nat by (apply Hlt; left). rewrite !Hd by (unfold PGSIZE; lia). done. }
  apply returns_bind, returns_bind. eapply returns_eq; [reflexivity|]. rewrite Ee.
  change (p2v (PTE_ADDR (pde m0 pgdir i))) with (table m0 pgdir i).
  destruct (has (pde m0 pgdir i) PTE_P) eqn:Hp.
  - assert (0 ≤ i < 1024) as Hi by (assert (i < 1024)%nat by (apply Hlt; left); lia).
    destruct (pd_table _ _ Hok _ Hi Hp) as [Hv Hne]. assert (table m0 pgdir i ∉ l) as Hl by (apply Hnl; [left|done]).
    eapply returns_mono; [by apply (kfree_returns s (table m0 pgdir i) l)|]. intros _ s1 (Hf1 & Hm1 & _ & Hb).
    assert (∀ v a, valid_page v → v ≠ table m0 pgdir i → v ≤ a < v + PGSIZE → ldb (k_mem s1) a = ldb (k_mem s) a) as Hk1.
    { intros v a Hvv Hvn Ha. apply Hb. destruct (valid_page_apart v _ Hvv Hv Hvn); lia. }
    eapply returns_mono; [apply (IH s1 (table m0 pgdir i :: l)); try done|].
    + intros j Hj. apply Hlt. by right.
    + by eapply mem_only_sync.
    + intros a Ha. rewrite (Hk1 pgdir) by (done || apply Hok). by apply Hd.
    + intros j Hj Hpj. rewrite not_elem_of_cons. split; [|apply Hnl; [by right|done]].
      intros E. assert (j < 1024)%nat by (apply Hlt; by right).
      assert (Z.of_nat j = i) by (apply (pd_apart _ _ Hok); (done || lia)). by assert (j = i) as -> by lia.
    + intros _ t (l' & Hf' & Hm' & Hl' & Hb'). exists l'. split_and!; [done|by etransitivity| |].
      * intros v. rewrite Hl', elem_of_cons. setoid_rewrite elem_of_cons. split.
        -- intros [[->|?]|(j & ? & ?)]; [right; exists i; auto|by left|right; exists j; auto].
        -- intros [?|(j & [->|?] & Hpj & E)]; [left; by right|left; by left|right; by exists j].
      * intros v a Hvv Hnt Ha. rewrite (Hb' v); [|done| |done].
        -- apply (Hk1 v); [done| |done]. intros ->. apply (Hnt i); [left|done|done].
        -- intros j Hj. apply Hnt. by right.
  - apply returns_ret. eapply returns_mono; [apply (IH s l); try done|].
    + intros j Hj. apply Hlt. by right.
    + intros j Hj. apply Hnl. by right.
    + intros _ t (l' & Hf' & Hm' & Hl' & Hb'). exists l'. split_and!; [done|done| |].
      * intros v. rewrite Hl'. setoid_rewrite elem_of_cons. split.
        { intros [?|(j & ? & ?)]; [by left|right; exists j; auto]. }
        intros [?|(j & [->|?] & Hpj & ?)]; [by left| |right; exists j; auto]. unfold present in Hpj. congruence.
      * intros v a Hvv Hnt Ha. apply (Hb' v); [done| |done]. intros j Hj. apply Hnt. by right.
Qed.

(** [freevm] gives every page of the address space back, and nothing else. *)
Lemma freevm_view s pgdir l :
  space_ok s pgdir l → no_holes (k_mem s) pgdir 0 KERNBASE →
  returns (freevm pgdir) s (λ _ t, ∃ l', free_ok t l' ∧ mem_only s t ∧
    (∀ v, v ∈ l' ↔ pool (k_mem s) pgdir l v) ∧
    ∀ v a, valid_page v → ¬ pool (k_mem s) pgdir l v → v ≤ a < v + PGSIZE → ldb (k_mem t) a = ldb (k_mem s) a).
Proof.
  intros Hs Hno. pose proof (vo_dir _ _ _ (so_vm _ _ _ Hs)) as Hok. pose proof (pd_page _ _ Hok) as Hpg.
  unfold freevm. rewrite (proj2 (Z.eqb_neq pgdir 0)) by (by apply valid_page_nonzero).
  assert (∀ va e, in_range 0 KERNBASE va → mapping (k_mem s) pgdir va = Some e → 0 ≤ va < KERNBASE) as Hru
    by (intros va e Hr _; by eapply in_range_user).
  assert (∀ va, 0 ≤ va < KERNBASE → in_range 0 KERNBASE va) as Hur by (unfold in_range, KERNBASE, PGSIZE; lia).
  apply returns_bind. eapply returns_mono; [apply (dealloc_view s pgdir l); try done|].
  intros r s1 (_ & l1 & Hsh). change (PGROUNDUP 0) with 0 in Hsh.
  assert (∀ v, v ∈ l1 ↔ v ∈ l ∨ user_page (k_mem s) pgdir v) as Hl1.
  { intros v. rewrite (sh_free _ _ _ _ _ _ _ Hsh). unfold user_page. split; (intros [?|(va & e & Hr & He & E)]; [by left|right; exists va, e; eauto]). }
  assert (∀ i, 0 ≤ i < 1024 → present (k_mem s1) pgdir i ↔ present (k_mem s) pgdir i) as Hp1.
  { intros i Hi. unfold present. by rewrite (sh_pde _ _ _ _ _ _ _ Hsh). }
  assert (∀ i, 0 ≤ i < 1024 → table (k_mem s1) pgdir i = table (k_mem s) pgdir i) as Ht1.
  { intros i Hi. unfold table. by rewrite (sh_pde _ _ _ _ _ _ _ Hsh). }
  pose proof (sh_space _ _ _ _ _ _ _ Hsh) as Hs1. pose proof (so_vm _ _ _ Hs1) as Hv1.
  apply returns_bind. eapply returns_mono; [apply (free_tables_view (k_mem s1) pgdir (seq 0 1024) s1 l1)|].
  - apply Hv1.
  - apply NoDup_seq.
  - intros i [_ Hi]%elem_of_seq. done.
  - apply Hv1.
  - apply Hv1.
  - done.
  - intros i [_ Hi]%elem_of_seq Hp Hin. eapply (unused_not_dir _ _ l1); [apply Hv1|exact Hin|]. right. exists i. split; [lia|done].
  - intros _ s2 (l2 & Hf2 & Hm2 & Hl2 & Hb2).
    assert (∀ v, v ∈ l2 ↔ v ∈ l1 ∨ dir_page (k_mem s) pgdir v ∧ v ≠ pgdir) as Hl2'.
    { intros v. rewrite Hl2. split; (intros [?|Hx]; [by left|right]).
      - destruct Hx as (i & [_ Hi]%elem_of_seq & Hp & <-). rewrite Hp1, Ht1 in * by lia. split; [|by apply (pd_table _ _ Hok); [lia|]].
        right. exists i. split; [lia|done].
      - destruct Hx as [[->|(i & Hi & Hp & <-)] ?]; [done|]. exists (Z.to_nat i). rewrite Z2Nat.id by lia.
        rewrite Hp1, Ht1 by done. split; [apply elem_of_seq; lia|done]. }
    assert (pgdir ∉ l2) as Hnl.
    { rewrite Hl2', Hl1. intros [[Hin|(va & e & Hva & He & E)]|[_ ?]]; [|destruct (so_frame _ _ _ Hs va e Hva He) as (_ & _ & Hd)|done].
      - eapply (unused_not_dir _ _ l); [apply Hs|exact Hin|by left].
      - apply Hd. rewrite E. by left. }
    eapply returns_mono; [apply (kfree_returns s2 pgdir l2); try done|].
    { eapply mem_only_sync; [exact Hm2|]. apply Hv1. }
    intros _ t (Hf & Hm & _ & Hb). exists (pgdir :: l2). split_and!; [done| | |].
    + etransitivity; [|exact Hm]. etransitivity; [|exact Hm2]. apply Hsh.
    + intros v. rewrite elem_of_cons, Hl2', Hl1. unfold pool. split; [intuition; subst; right; left; by left|].
      intros [?|[?|?]]; auto. destruct (decide (v = pgdir)); auto.
    + intros v a Hv Hnp Ha. unfold pool in Hnp.
      assert (v ≠ pgdir) as Hne by (intros ->; apply Hnp; right; left; by left).
      rewrite Hb by (destruct (valid_page_apart v pgdir Hv Hpg Hne); lia).
      rewrite (Hb2 v); [|done| |done].
      * apply (sh_kept _ _ _ _ _ _ _ Hsh v); [done|tauto| |done]. intros va e Hr He E. apply Hnp. right. right. exists va, e. eauto.
      * intros i [_ Hi]%elem_of_seq Hp E. rewrite Hp1, Ht1 in * by lia. apply Hnp. right. left. right. exists i. split; [lia|done].
Qed.

(** ** The kernel's part of a directory *)

(** What a list of regions maps an address to. *)
Fixpoint region_entry (regs : list (Z * Z * Z * Z)) (va : Z) : option Z :=
  match regs with
  | [] => None
  | (virt, ps, pe, perm) :: regs =>
      if decide (virt ≤ va < virt + u32 (pe - ps)) then Some (entry_for virt ps perm va) else region_entry regs va
  end.

(** Regions of whole pages above the user's, no two of which overlap. *)
Fixpoint regions_ok (regs : list (Z * Z * Z * Z)) : Prop :=
  match regs with
  | [] => True
  | (virt, ps, pe, perm) :: regs =>
      KERNBASE ≤ virt ∧ virt mod PGSIZE = 0 ∧ 0 ≤ ps ∧ ps mod PGSIZE = 0 ∧ 0 ≤ perm < PGSIZE ∧
      0 < u32 (pe - ps) ∧ u32 (pe - ps) mod PGSIZE = 0 ∧
      virt + u32 (pe - ps) ≤ NADDR ∧ ps + u32 (pe - ps) ≤ NADDR ∧
      (∀ va, virt ≤ va < virt + u32 (pe - ps) → region_entry regs va = None) ∧ regions_ok regs
  end.

Lemma map_kernel_view pgdir regs : ∀ s l,
  space_ok s pgdir l → regions_ok regs →
  (∀ va, is_Some (region_entry regs va) → mapping (k_mem s) pgdir va = None) →
  ∃ r t l', map_kernel pgdir regs s = Ret r t ∧ space_ok t pgdir l' ∧ mem_only s t ∧
    grows (k_mem s) pgdir l (k_mem t) l' ∧
    (∀ va, 0 ≤ va < KERNBASE → mapping (k_mem t) pgdir va = mapping (k_mem s) pgdir va) ∧
    (r = pgdir ∧ (∀ va, 0 ≤ va < NADDR → mapping (k_mem t) pgdir va =
        match region_entry regs va with Some e => Some e | None => mapping (k_mem s) pgdir va end) ∨
     r = 0 ∧ l' = []).
Proof.
  induction regs as [|[[[virt ps] pe] perm] regs IH]; intros s l Hs Hok Hno; cbn [map_kernel region_entry regions_ok] in *.
  { exists pgdir, s, l. split_and!; try done; try apply grows_refl. by left. }
  destruct Hok as (Hv & Hva & Hp & Hpa & Hperm & Hsz & Hsza & Hve & Hpe & Hdis & Hok).
  set (sz := u32 (pe - ps)) in *. set (n := Z.to_nat (sz / PGSIZE - 1)).
  assert (sz = (n + 1) * PGSIZE) as Esz by (unfold n, PGSIZE in *; lia).
  assert (∀ va, in_pages virt (S n) va ↔ virt ≤ va < virt + sz) as Hin by (unfold in_pages, PGSIZE in *; lia).
  destruct (mappages_view n s l pgdir virt ps perm) as (r1 & s1 & l1 & E1 & Hv1 & Hg1 & Hm1 & Hr1); try done.
  { apply Hs. } { unfold KERNBASE in *. lia. } { lia. } { lia. }
  { intros a Ha. apply Hno. rewrite decide_True by (by apply Hin). by eexists. }
  assert (∀ va, 0 ≤ va < KERNBASE → mapping (k_mem s1) pgdir va = mapping (k_mem s) pgdir va) as Hu1.
  { intros va Hu. assert (¬ in_pages virt (S n) va) as Hni by (rewrite Hin; lia). pose proof (user_addr _ Hu).
    destruct Hr1 as [[_ Hr]|(_ & _ & Hr)]; rewrite Hr by done; [by rewrite decide_False|done]. }
  destruct (space_grow s s1 pgdir l l1 Hs Hv1 Hg1 Hu1) as [Hs1 _]. rewrite <- Esz in E1.
  destruct Hr1 as [[-> Hr]|(-> & -> & _)].
  2:{ exists 0, s1, []. split_and!; try done; [by step E1|by right]. }
  destruct (IH s1 l1 Hs1 Hok) as (r & t & l' & E & Ht & Hm & Hg & Hu & Hres).
  { intros va Hva'. assert (¬ virt ≤ va < virt + sz) as Hni.
    { intros Hb. rewrite Hdis in Hva' by done. by destruct Hva'. }
    destruct (decide (0 ≤ va < NADDR)) as [Hr'|Hr'].
    - rewrite Hr by done. rewrite decide_False by (by rewrite Hin). apply Hno. by rewrite decide_False by done.
    - exfalso. apply Hr'. clear -Hva' Hok. induction regs as [|[[[v0 p0] e0] q0] regs IH]; cbn in *; [by destruct Hva'|].
      destruct Hok as (H1 & _ & _ & _ & _ & _ & _ & H2 & _ & _ & H3). case_decide; [unfold KERNBASE, NADDR in *; lia|auto]. }
  exists r, t, l'. split_and!; [by step E1|done|by etransitivity|by eapply grows_trans| |].
  { intros va Hva'. by rewrite Hu, Hu1. }
  destruct Hres as [[-> Hmt]|[-> ->]]; [left|by right]. split; [done|]. intros va Hva'. rewrite Hmt, Hr by done.
  destruct (region_entry regs va) as [e|] eqn:Ee.
  - rewrite decide_False; [done|]. intros Hb. by rewrite Hdis in Ee by done.
  - rewrite (decide_ext _ (virt ≤ va < virt + sz)) by apply Hin. by case_decide.
Qed.

(** The regions of the kernel. *)
Lemma kmap_ok : regions_ok kmap.
Proof.
  destruct ki_data as [Hd Hr]. unfold kmap. cbn [regions_ok region_entry].
  unfold v2p, KERNLINK, KERNBASE, EXTMEM, PHYSTOP, DEVSPACE, PTE_W, NADDR, PGSIZE in *.
  rewrite !(u32_small (data_addr - 2147483648)) by lia.
  change (u32 (2147483648 + 1048576 - 2147483648)) with 1048576.
  change (u32 (0 - 4261412864)) with 33554432. change (u32 (1048576 - 0)) with 1048576.
  rewrite !u32_small by lia.
  repeat split; try lia; intros va Hva; repeat case_decide; (done || lia).
Qed.

(** A page of zeros is a directory that maps nothing. *)
Lemma empty_dir s v l :
  kmem_sync s → free_ok s l → valid_page v → v ∉ l →
  let t := s <| k_mem ::= λ m, memset m v 0 PGSIZE |> in
  space_ok t v l ∧ (∀ va, 0 ≤ va < NADDR → mapping (k_mem t) v va = None) ∧
  (∀ w, pool (k_mem t) v l w ↔ w ∈ l ∨ w = v) ∧
  ∀ w a, valid_page w → w ≠ v → w ≤ a < w + PGSIZE → ldb (k_mem t) a = ldb (k_mem s) a.
Proof.
  intros Hsy Hf Hv Hl t.
  assert (0 ≤ v) as Hv0 by (destruct Hv as (_ & _ & ?); unfold KERNBASE in *; lia).
  assert (∀ w a, valid_page w → w ≠ v → w ≤ a < w + PGSIZE → ldb (k_mem t) a = ldb (k_mem s) a) as Hkept.
  { intros w a Hw Hne Ha. unfold t. cbn. rewrite ldb_memset by done.
    rewrite decide_False; [done|]. destruct (valid_page_apart w v Hw Hv Hne); lia. }
  assert (∀ i, 0 ≤ i < 1024 → ¬ present (k_mem t) v i) as Hnp.
  { intros i Hi. unfold present, pde, t. cbn.
    rewrite (proj1 (ld32_memset0 (k_mem s) v (v + 4 * i) Hv ltac:(lia))) by (unfold PGSIZE; lia). done. }
  assert (∀ va, 0 ≤ va < NADDR → mapping (k_mem t) v va = None) as Hno.
  { intros va Hva. unfold mapping. destruct (pdx_div va Hva) as [_ Hd].
    rewrite (not_true_is_false _ (Hnp _ Hd)). done. }
  assert (∀ w, dir_page (k_mem t) v w ↔ w = v) as Hdir.
  { intros w. split; [|by left]. intros [->|(i & Hi & Hp & _)]; [done|]. by destruct (Hnp i). }
  split_and!; try done.
  - split; [split|..].
    + done.
    + eapply free_ok_mem; [exact Hf|done|]. intros w Hw. destruct Hf as (_ & _ & Hf). rewrite Forall_forall in Hf.
      unfold ld32. rewrite !(Hkept w) by (first [by apply Hf|by intros ->|unfold PGSIZE; lia]). done.
    + split; [done| |]; intros i; [intros Hi Hp|intros j Hi Hj Hp]; by destruct (Hnp i).
    + apply not_dir_unused. intros w Hw. rewrite Hdir. by intros ->.
    + intros va e Hva. by rewrite Hno by (by apply user_addr).
    + intros va va' e e' Hva Hva'. by rewrite Hno by (by apply user_addr).
  - intros w. unfold pool. rewrite Hdir. split; [|tauto]. intros [?|[?|(va & e & Hva & He & _)]]; auto.
    by rewrite Hno in He by (by apply user_addr).
Qed.

Lemma setupkvm_view s l :
  kmem_sync s → free_ok s l →
  ∃ r t l', setupkvm s = Ret r t ∧ mem_only s t ∧ l' `suffix_of` l ∧ free_ok t l' ∧
    (∀ w a, valid_page w → w ∉ l → w ≤ a < w + PGSIZE → ldb (k_mem t) a = ldb (k_mem s) a) ∧
    (r = 0 ∧ l' = [] ∨
     r ≠ 0 ∧ space_ok t r l' ∧ (∀ w, pool (k_mem t) r l' w ↔ w ∈ l) ∧
     (∀ va, 0 ≤ va < NADDR → mapping (k_mem t) r va = region_entry kmap va) ∧
     ∀ va, 0 ≤ va < KERNBASE → mapping (k_mem t) r va = None).
Proof.
  intros Hsy Hf. destruct (kalloc_returns s l Hsy Hf) as (v & s1 & E1 & -> & Hz & Hf1 & Hk1 & Hm1).
  unfold setupkvm. rewrite (bind_ret _ _ _ _ _ E1).
  destruct l as [|v l]; cbn [head from_option id tail default] in *.
  { exists 0, s1, []. split_and!; try done; [by intros; rewrite Hk1|by left]. }
  assert (valid_page v) as Hv by (destruct Hf as (_ & _ & ?%Forall_inv); done).
  assert (v ∉ l) as Hl by (destruct Hf as (_ & [? _]%NoDup_cons & _); done).
  rewrite (proj2 (Z.eqb_neq v 0)) by (by apply valid_page_nonzero).
  destruct (empty_dir s1 v l ltac:(by eapply mem_only_sync) Hf1 Hv Hl) as (Hs2 & Hno & Hpool & Hkept).
  unfold mem_set. mstep. change (DEVSPACE <? p2v PHYSTOP) with false. cbv iota.
  set (s2 := s1 <| k_mem ::= _ |>) in *.
  destruct (map_kernel_view v kmap s2 l Hs2 kmap_ok) as (r & t & l' & E & Ht & Hm & Hg & Hu & Hr).
  { intros va Hva. destruct (decide (0 ≤ va < NADDR)) as [|Hout]; [by apply Hno|].
    exfalso. apply Hout. generalize kmap_ok. revert Hva. generalize kmap. clear. intros regs.
    induction regs as [|[[[v0 p0] e0] q0] regs IH]; cbn; [by intros []|].
    intros Hva (H1 & _ & _ & _ & _ & _ & _ & H2 & _ & _ & H3). case_decide; [unfold KERNBASE, NADDR in *; lia|auto]. }
  exists r, t, l'. split_and!; [done| | |apply Ht| |].
  - etransitivity; [exact Hm1|]. etransitivity; [|exact Hm]. by apply mem_only_set.
  - apply suffix_cons_r. apply Hg.
  - intros w a Hw Hwl Ha. rewrite not_elem_of_cons in Hwl. destruct Hwl as [Hwv Hwl].
    assert (¬ dir_page (k_mem s2) v w) as Hnd.
    { intros Hd. assert (pool (k_mem s2) v l w) as [?|?]%Hpool by (right; by left); done. }
    rewrite (gr_kept _ _ _ _ _ Hg w), (Hkept w) by done. by rewrite Hk1.
  - destruct Hr as [[-> Hmt]|[-> ->]]; [right|by left]. split_and!; [by apply valid_page_nonzero|done| | |].
    + destruct (space_grow s2 t v l l' Hs2) as [_ Hp]; try done; [apply Ht|]. intros w. rewrite Hp, Hpool, elem_of_cons. tauto.
    + intros va Hva. rewrite Hmt, Hno by done. by destruct (region_entry kmap va).
    + intros va Hva. rewrite Hu by done. apply Hno. by apply user_addr.
Qed.

(** ** Copying an address space *)

(** Mapping one page. *)
Lemma map_page s l pgdir a pa perm :
  vm_ok s pgdir l → 0 ≤ a < KERNBASE → a mod PGSIZE = 0 → pa mod PGSIZE = 0 → 0 ≤ pa < NADDR → 0 ≤ perm < PGSIZE →
  mapping (k_mem s) pgdir a = None →
  (∃ t l', mappages pgdir a PGSIZE pa perm s = Ret 0 t ∧ vm_ok t pgdir l' ∧ grows (k_mem s) pgdir l (k_mem t) l' ∧
     (length l ≤ S (length l'))%nat ∧ mem_only s t ∧ ∀ va, 0 ≤ va < NADDR → mapping (k_mem t) pgdir va =
       if decide (in_pages a 1 va) then Some (Z.lor (Z.lor pa perm) PTE_P) else mapping (k_mem s) pgdir va) ∨
  (l = [] ∧ ∃ t, mappages pgdir a PGSIZE pa perm s = Ret (-1) t ∧ vm_ok t pgdir [] ∧ mem_only s t ∧ k_mem t = k_mem s).
Proof.
  intros Hvm Ha Hal Hpal Hpa Hperm Hno. pose proof (user_addr _ Ha) as Ha'.
  assert (mappages pgdir a PGSIZE pa perm s = mappages_loop 1 pgdir a a pa perm s) as ->.
  { unfold mappages. rewrite !PGROUNDDOWN_eq by (unfold u32, PGSIZE, NADDR in *; lia).
    rewrite !(u32_small (a + PGSIZE - 1)) by (unfold PGSIZE, NADDR, KERNBASE in *; lia).
    replace ((a + PGSIZE - 1) / PGSIZE * PGSIZE) with a by (unfold PGSIZE in *; lia).
    replace (a / PGSIZE * PGSIZE) with a by (unfold PGSIZE in *; lia). by rewrite Z.sub_diag. }
  cbn [mappages_loop].
  destruct (map_one s l pgdir a pa perm Hvm Ha' Hal Hpal Hpa Hperm Hno)
    as [(-> & t & E & Hvt & Hlt & Hmt)|(pte & t & l1 & E & Hpz & Hh & Hvu & Hs1 & Hlen & Hlu & Hmu)].
  { right. split; [done|]. exists t. split_and!; try done. by step E. }
  left. cbv zeta in *. set (u := t <| k_mem ::= _ |>) in *. exists u, l1. split_and!; try done.
  - step E. rewrite (proj2 (Z.eqb_neq pte 0) Hpz). unfold load32. mstep. rewrite Hh. unfold store32. mstep. fold u.
    by rewrite Z.eqb_refl.
  - intros va Hva. rewrite Hmu by done. case_decide as Hin; [|done]. unfold entry_for. do 3 f_equal.
    unfold in_pages, PGSIZE in *. lia.
Qed.

(** Taking a page off the free list, and writing to pages of others. *)
Lemma space_take s t pgdir v l :
  space_ok s pgdir (v :: l) → mem_only s t → k_mem t = k_mem s → free_ok t l → space_ok t pgdir l.
Proof.
  intros [[Hsy Hf Hok Hun] Hfr Hinj] Hm Em Hft. split; [split|..]; rewrite ?Em.
  - by eapply mem_only_sync.
  - done.
  - done.
  - apply not_dir_unused. intros w Hw. eapply unused_not_dir; [exact Hun|by right].
  - intros va e Hva He. destruct (Hfr va e Hva He) as (? & Hl & ?). rewrite not_elem_of_cons in Hl. tauto.
  - done.
Qed.

Lemma space_kept s t pgdir l :
  space_ok s pgdir l → mem_only s t → free_ok t l →
  (∀ v a, dir_page (k_mem s) pgdir v → v ≤ a < v + PGSIZE → ldb (k_mem t) a = ldb (k_mem s) a) →
  space_ok t pgdir l ∧ (∀ va, 0 ≤ va < NADDR → mapping (k_mem t) pgdir va = mapping (k_mem s) pgdir va) ∧
  ∀ v, pool (k_mem t) pgdir l v ↔ pool (k_mem s) pgdir l v.
Proof.
  intros Hs Hm Hf Hk0. pose proof (vo_dir _ _ _ (so_vm _ _ _ Hs)) as Hok.
  assert (∀ va, 0 ≤ va < NADDR → mapping (k_mem t) pgdir va = mapping (k_mem s) pgdir va) as Hmap by (by apply ext_mapping).
  assert (vm_ok t pgdir l) as Hv by (eapply vm_ok_kept; [apply Hs|done..]).
  assert (∀ v, dir_page (k_mem t) pgdir v ↔ dir_page (k_mem s) pgdir v) as Hd by (by apply ext_dir_page).
  split; [split|split]; [done| | |done|].
  - intros va e Hva. rewrite Hmap, Hd by (by apply user_addr). by apply Hs.
  - intros va va' e e' Hva Hva'. rewrite !Hmap by (by apply user_addr). by apply Hs.
  - intros v. unfold pool. rewrite Hd. apply or_iff_compat_l, or_iff_compat_l. unfold user_page.
    split; intros (va & e & Hva & He & E); exists va, e; [rewrite Hmap in He by (by apply user_addr)|rewrite Hmap by (by apply user_addr)]; done.
Qed.

(** Other memory and other free pages, none of them of the directory. *)
Lemma space_ext s t pgdir l l' :
  space_ok s pgdir l → kmem_sync t → free_ok t l' →
  (∀ v, v ∈ l' → v ∈ l ∨ ¬ dir_page (k_mem s) pgdir v ∧ ¬ user_page (k_mem s) pgdir v) →
  (∀ v a, dir_page (k_mem s) pgdir v → v ≤ a < v + PGSIZE → ldb (k_mem t) a = ldb (k_mem s) a) → space_ok t pgdir l'.
Proof.
  intros Hs Hsy Hf Hsub Hk0. pose proof (so_vm _ _ _ Hs) as [_ _ Hok Hun].
  assert (∀ va, 0 ≤ va < NADDR → mapping (k_mem t) pgdir va = mapping (k_mem s) pgdir va) as Hmap by (by apply ext_mapping).
  assert (∀ v, dir_page (k_mem t) pgdir v ↔ dir_page (k_mem s) pgdir v) as Hd by (by apply ext_dir_page).
  split; [split|..]; [done|done|by eapply ext_ok|..].
  - apply not_dir_unused. intros v Hv. rewrite Hd. destruct (Hsub v Hv) as [Hl|[Hn _]]; [|done]. by eapply unused_not_dir.
  - intros va e Hva. rewrite Hmap, Hd by (by apply user_addr). intros He.
    destruct (so_frame _ _ _ Hs va e Hva He) as (? & Hn & ?). split_and!; try done. intros Hin.
    destruct (Hsub _ Hin) as [Hl|[_ Hu]]; [done|]. apply Hu. by exists va, e.
  - intros va va' e e' Hva Hva'. rewrite !Hmap by (by apply user_addr). by apply Hs.
Qed.

(** Fewer free pages. *)
Lemma space_sub s t pgdir l l' :
  space_ok s pgdir l → mem_only s t → free_ok t l' → l' ⊆ l →
  (∀ v a, dir_page (k_mem s) pgdir v → v ≤ a < v + PGSIZE → ldb (k_mem t) a = ldb (k_mem s) a) → space_ok t pgdir l'.
Proof.
  intros Hs Hm Hf Hsub Hk0. eapply space_ext; try done; [|by eauto].
  eapply mem_only_sync; [done|]. apply Hs.
Qed.

(** A page taken from the free list and filled by [g], which writes nowhere
    else. *)
Lemma fill_page s pgdir v l g :
  space_ok s pgdir (v :: l) → (∀ a, ¬ (v ≤ a < v + PGSIZE) → ldb (g (k_mem s)) a = ldb (k_mem s) a) →
  ∃ s1, kalloc s = Ret v s1 ∧ let t := s1 <| k_mem ::= g |> in k_mem t = g (k_mem s) ∧
    valid_page v ∧ space_ok t pgdir l ∧ mem_only s t ∧
    (∀ va, 0 ≤ va < NADDR → mapping (k_mem t) pgdir va = mapping (k_mem s) pgdir va) ∧
    ¬ pool (k_mem t) pgdir l v ∧
    (∀ w, w = v ∨ pool (k_mem t) pgdir l w ↔ pool (k_mem s) pgdir (v :: l) w) ∧
    (∀ w, dir_page (k_mem t) pgdir w ↔ dir_page (k_mem s) pgdir w) ∧
    ∀ w a, valid_page w → w ≠ v → w ≤ a < w + PGSIZE → ldb (k_mem t) a = ldb (k_mem s) a.
Proof.
  intros Hs Hg. pose proof (so_vm _ _ _ Hs) as [Hsy Hf Hok Hun].
  destruct (kalloc_returns s (v :: l) Hsy Hf) as (v' & s1 & E1 & -> & _ & Hf1 & Hk1 & Hm1).
  cbn [head from_option id tail default] in *.
  assert (valid_page v ∧ (v ∉ l)) as [Hv Hvl] by (destruct Hf as (_ & [? _]%NoDup_cons & ?%Forall_inv); done).
  pose proof (space_take s s1 pgdir v l Hs Hm1 Hk1 Hf1) as Hs1.
  assert (¬ dir_page (k_mem s) pgdir v) as Hvd by (eapply unused_not_dir; [exact Hun|left]).
  exists s1. split; [done|]. set (t := s1 <| k_mem ::= g |>). cbv zeta. assert (k_mem t = g (k_mem s)) as Em by (unfold t; cbn; by rewrite Hk1).
  assert (∀ w a, valid_page w → w ≠ v → w ≤ a < w + PGSIZE → ldb (k_mem t) a = ldb (k_mem s) a) as Hkept.
  { intros w a Hw Hne Ha. rewrite Em. apply Hg. destruct (valid_page_apart w v Hw Hv Hne); lia. }
  assert (∀ w a, dir_page (k_mem s) pgdir w → w ≤ a < w + PGSIZE → ldb (k_mem t) a = ldb (k_mem s) a) as Hdk.
  { intros w a Hw Ha. apply (Hkept w); [by eapply dir_page_valid|by intros ->|done]. }
  destruct (space_kept s1 t pgdir l Hs1) as (Ht & Hmap & Hpool).
  { by apply mem_only_set. }
  { eapply free_ok_mem; [exact Hf1|done|]. intros w Hw. destruct Hf1 as (_ & _ & Hf1). rewrite Forall_forall in Hf1.
    unfold ld32. rewrite Hk1, !(Hkept w) by (first [by apply Hf1|by intros ->|unfold PGSIZE; lia]). done. }
  { by rewrite Hk1. }
  rewrite Hk1 in *. split_and!; try done; try (by apply ext_dir_page).
  - by apply mem_only_set.
  - rewrite Hpool. intros [?|[?|(va & e & Hva & He & E)]]; [done|done|].
    destruct (so_frame _ _ _ Hs va e Hva He) as (_ & Hn & _). apply Hn. rewrite E. left.
  - intros w. rewrite Hpool. unfold pool. rewrite elem_of_cons. tauto.
Qed.

(** The entry for a user's page. *)
Definition user_entry (v : Z) : Z := Z.lor (Z.lor (v2p v) (Z.lor PTE_W PTE_U)) PTE_P.

Lemma user_entry_ok v : valid_page v →
  frame (user_entry v) = v ∧ Z.land (user_entry v) 0xFFF = Z.lor (Z.lor PTE_W PTE_U) PTE_P.
Proof.
  intros Hv. destruct (v2p_page v Hv) as (_ & Hvp & Hvr & Hvv).
  destruct (pte_entry (v2p v) (Z.lor PTE_W PTE_U) Hvp Hvr ltac:(done)) as (_ & Hpa & _). cbv zeta in Hpa.
  split; [unfold frame, user_entry; by rewrite Hpa|]. unfold user_entry. rewrite <- (Z.lor_assoc (v2p v)).
  by destruct (low_bits_apart (v2p v) (Z.lor (Z.lor PTE_W PTE_U) PTE_P) Hvp ltac:(done)) as [-> ->].
Qed.

(** Such a page mapped at [a]. *)
Lemma add_page s pgdir l a v :
  space_ok s pgdir l → 0 ≤ a < KERNBASE → a mod PGSIZE = 0 → mapping (k_mem s) pgdir a = None →
  valid_page v → ¬ pool (k_mem s) pgdir l v →
  (∃ t l', mappages pgdir a PGSIZE (v2p v) (Z.lor PTE_W PTE_U) s = Ret 0 t ∧ space_ok t pgdir l' ∧
     grows (k_mem s) pgdir l (k_mem t) l' ∧ (length l ≤ S (length l'))%nat ∧ mem_only s t ∧
     (∀ w, pool (k_mem t) pgdir l' w ↔ w = v ∨ pool (k_mem s) pgdir l w) ∧
     ∀ va, 0 ≤ va < NADDR → mapping (k_mem t) pgdir va =
       if decide (in_pages a 1 va) then Some (user_entry v) else mapping (k_mem s) pgdir va) ∨
  (l = [] ∧ ∃ t, mappages pgdir a PGSIZE (v2p v) (Z.lor PTE_W PTE_U) s = Ret (-1) t ∧ space_ok t pgdir [] ∧
     mem_only s t ∧ k_mem t = k_mem s).
Proof.
  intros Hs Ha Hal Hno Hv Hnp. destruct (v2p_page v Hv) as (_ & Hvp & Hvr & Hvv). destruct (user_entry_ok v Hv) as [Hfr _].
  destruct (map_page s l pgdir a (v2p v) (Z.lor PTE_W PTE_U)) as [(t & l2 & Em & Hvt & Hg & Hlen & Hmt & Hmapt)|(-> & t & Em & Hvt & Hmt & Hkt)];
    try done; [apply Hs|left|right].
  - exists t, l2. destruct (space_put s t pgdir l l2 a (user_entry v) Hs Hvt Hg Ha Hal Hno) as [Hst Hpt]; [by rewrite Hfr|by rewrite Hfr| |].
    { intros va Hva. apply Hmapt. by apply user_addr. }
    rewrite Hfr in Hpt. by split_and!.
  - split; [done|]. exists t. split_and!; try done.
    by destruct (space_kept s t pgdir [] Hs Hmt (vo_free _ _ _ Hvt) ltac:(by rewrite Hkt)) as (Hst & _).
Qed.

(** The pages below [i] have been copied from the directory [p] of [s]. *)
Definition copied s (p : Z) t (d i : Z) : Prop :=
  (∀ va, 0 ≤ va < i → ∃ e e', mapping (k_mem s) p va = Some e ∧ mapping (k_mem t) d va = Some e' ∧
     Z.land e' 0xFFF = Z.lor (Z.lor PTE_W PTE_U) PTE_P ∧
     ∀ off, 0 ≤ off < PGSIZE → ldb (k_mem t) (frame e' + off) = u8 (ldb (k_mem s) (frame e + off))) ∧
  ∀ va, i ≤ va < KERNBASE → mapping (k_mem t) d va = None.

Lemma copied_no_holes s p s1 t d i :
  copied s p s1 d i → (∀ va, 0 ≤ va < NADDR → mapping (k_mem t) d va = mapping (k_mem s1) d va) →
  no_holes (k_mem t) d 0 KERNBASE.
Proof.
  intros [Hc Hn] Hm va va' Hle Hr Hp. pose proof (in_range_user 0 KERNBASE va' ltac:(lia) ltac:(lia) Hr).
  rewrite Hm by (by apply user_addr). apply Hn. split; [|lia].
  destruct (decide (va < i)); [|lia]. destruct (Hc va ltac:(lia)) as (e & e' & _ & He & _).
  rewrite <- Hm in He by (unfold NADDR, KERNBASE in *; lia). apply mapping_entry in He as [? _]. done.
Qed.

(** One more page of the copy. *)
Lemma copied_step s p s1 s2 t d l1 l2 v i e :
  space_ok s1 d (v :: l1) → copied s p s1 d i → 0 ≤ i < KERNBASE → i mod PGSIZE = 0 → mapping (k_mem s) p i = Some e →
  valid_page v → space_ok s2 d l1 → grows (k_mem s2) d l1 (k_mem t) l2 → ¬ pool (k_mem s2) d l1 v →
  (∀ va, 0 ≤ va < NADDR → mapping (k_mem s2) d va = mapping (k_mem s1) d va) →
  (∀ off, 0 ≤ off < PGSIZE → ldb (k_mem s2) (v + off) = u8 (ldb (k_mem s) (frame e + off))) →
  (∀ w a, valid_page w → w ≠ v → w ≤ a < w + PGSIZE → ldb (k_mem s2) a = ldb (k_mem s1) a) →
  (∀ va, 0 ≤ va < NADDR → mapping (k_mem t) d va =
     if decide (in_pages i 1 va) then Some (user_entry v) else mapping (k_mem s2) d va) →
  copied s p t d (i + PGSIZE).
Proof.
  intros Hs1 [Hc Hn] Hi Hal He Hv Hs2 Hg Hnp Hm2 Hcp Hk2 Hmt. destruct (user_entry_ok v Hv) as [Hfr Hlow].
  assert (∀ va, 0 ≤ va < NADDR → in_pages i 1 va → mapping (k_mem s) p va = Some e) as Hpage.
  { intros va Hva Hin. rewrite <- He. apply mapping_page; unfold in_pages, PGSIZE, KERNBASE, NADDR in *; lia. }
  split.
  - intros va Hva. assert (0 ≤ va < NADDR) as Hva' by (unfold PGSIZE, KERNBASE, NADDR in *; lia).
    destruct (decide (in_pages i 1 va)) as [Hin|Hout].
    + exists e, (user_entry v). split_and!; [by apply Hpage|by rewrite Hmt, decide_True|done|].
      intros off Ho. rewrite Hfr, <- Hcp by done. unfold pool in Hnp.
      apply (gr_kept _ _ _ _ _ Hg v); [done|tauto|tauto|lia].
    + assert (va < i) as Hlt by (unfold in_pages, PGSIZE in *; lia).
      destruct (Hc va ltac:(lia)) as (x & x' & Hx & Hx' & Hfl & Hbytes). exists x, x'.
      assert (0 ≤ va < KERNBASE) as Hu by lia.
      destruct (so_frame _ _ _ Hs1 va x' Hu Hx') as (Hvf & Hnf & _). rewrite not_elem_of_cons in Hnf. destruct Hnf as [Hnv _].
      rewrite <- Hm2 in Hx' by done. destruct (so_frame _ _ _ Hs2 va x' Hu Hx') as (_ & Hnf2 & Hnd2).
      split_and!; [done|by rewrite Hmt, decide_False|done|]. intros off Ho. rewrite <- Hbytes by done.
      rewrite (gr_kept _ _ _ _ _ Hg (frame x')) by (try done; lia). apply (Hk2 (frame x')); [done|done|lia].
  - intros va Hva. assert (0 ≤ va < NADDR) as Hva' by (unfold PGSIZE, KERNBASE, NADDR in *; lia).
    rewrite Hmt, decide_False, Hm2 by (done || (unfold in_pages, PGSIZE in *; lia)). apply Hn. unfold PGSIZE in *. lia.
Qed.

(** The state of the loop of [copyuvm] at page [i]. *)
Record copying s l (p : Z) s1 l1 (d i : Z) : Prop := {
  cg_only : mem_only s s1;
  cg_space : space_ok s1 d l1;
  cg_pool : ∀ w, pool (k_mem s1) d l1 w ↔ w ∈ l;
  cg_kept : ∀ w a, valid_page w → w ∉ l → w ≤ a < w + PGSIZE → ldb (k_mem s1) a = ldb (k_mem s) a;
  cg_copied : copied s p s1 d i;
  cg_kernel : ∀ va, KERNBASE ≤ va < NADDR → mapping (k_mem s1) d va = region_entry kmap va;
}.

(** Giving up: the pages of the copy are free again. *)
Lemma copy_bad s l s1 l1 d :
  mem_only s s1 → space_ok s1 d l1 → no_holes (k_mem s1) d 0 KERNBASE →
  (∀ w, pool (k_mem s1) d l1 w → w ∈ l) →
  (∀ w a, valid_page w → w ∉ l → w ≤ a < w + PGSIZE → ldb (k_mem s1) a = ldb (k_mem s) a) →
  returns (do* freevm d in ret 0) s1 (λ r t, r = 0 ∧ ∃ l', free_ok t l' ∧ mem_only s t ∧ l' ⊆ l ∧
    ∀ w a, valid_page w → w ∉ l → w ≤ a < w + PGSIZE → ldb (k_mem t) a = ldb (k_mem s) a).
Proof.
  intros Hm Hs1 Hno Hpool Hkept. apply returns_bind. eapply returns_mono; [by apply freevm_view|].
  intros _ t (l' & Hf & Hm' & Hl' & Hk'). apply returns_ret. split; [done|]. exists l'.
  split_and!; [done|by etransitivity|intros w; rewrite Hl'; apply Hpool|].
  intros w a Hw Hwl Ha. rewrite (Hk' w); [by apply (Hkept w)|done| |done]. intros ?%Hpool. done.
Qed.

(** The parent's entry for a page, found in the state of the loop. *)
Lemma copy_source s l p s1 l1 d i e :
  space_ok s p l → copying s l p s1 l1 d i → 0 ≤ i < KERNBASE → mapping (k_mem s) p i = Some e →
  ∃ pte, walkpgdir p i false s1 = Ret pte s1 ∧ pte ≠ 0 ∧ ld32 (k_mem s1) pte = e ∧ has e PTE_P = true ∧
    valid_page (frame e) ∧ ∀ off, 0 ≤ off < PGSIZE → ldb (k_mem s1) (frame e + off) = ldb (k_mem s) (frame e + off).
Proof.
  intros Hs Hc Hu He. pose proof (user_addr _ Hu) as Hu'. pose proof (vo_dir _ _ _ (so_vm _ _ _ Hs)) as Hok.
  assert (∀ v a, dir_page (k_mem s) p v → v ≤ a < v + PGSIZE → ldb (k_mem s1) a = ldb (k_mem s) a) as Hpk.
  { intros v a Hv Ha. apply (cg_kept _ _ _ _ _ _ _ Hc v); [by eapply dir_page_valid| |done].
    intros Hin. eapply (unused_not_dir _ _ l); [apply Hs|exact Hin|done]. }
  destruct (so_frame _ _ _ Hs i e Hu He) as (Hvf & Hfl & Hfd).
  assert (mapping (k_mem s1) p i = Some e) as He1 by (by rewrite (ext_mapping (k_mem s))).
  destruct (mapping_entry _ _ _ _ He1) as (Hp & Ee & Hh). destruct (pdx_div i Hu') as [_ Hdx]. destruct (ptx_div i) as [_ Htx]; [lia|].
  exists (table (k_mem s1) p (PDX i) + 4 * PTX i). split_and!; try done.
  - rewrite walk_find. unfold present in Hp. by rewrite Hp.
  - apply table_nonzero; [|lia]. by apply (pd_table _ _ (ext_ok _ _ _ Hok Hpk)).
  - intros off Ho. apply (cg_kept _ _ _ _ _ _ _ Hc (frame e)); [done|done|lia].
Qed.

(** The loop without a page for the copy. *)
Lemma copy_no_page s l p s1 d i :
  copying s l p s1 [] d i →
  ∃ s2, kalloc s1 = Ret 0 s2 ∧ returns (do* freevm d in ret 0) s2 (λ r t, r = 0 ∧ ∃ l', free_ok t l' ∧ mem_only s t ∧ l' ⊆ l ∧
    ∀ w a, valid_page w → w ∉ l → w ≤ a < w + PGSIZE → ldb (k_mem t) a = ldb (k_mem s) a).
Proof.
  intros Hc. pose proof (so_vm _ _ _ (cg_space _ _ _ _ _ _ _ Hc)) as [Hsy Hf _ _].
  destruct (kalloc_returns s1 [] Hsy Hf) as (v' & s2 & E2 & -> & _ & Hf2 & Hk2 & Hm2). cbn in *.
  exists s2. split; [done|].
  destruct (space_kept s1 s2 d [] (cg_space _ _ _ _ _ _ _ Hc) Hm2 Hf2 ltac:(by rewrite Hk2)) as (Hs2 & _ & Hp2).
  apply (copy_bad s l s2 [] d).
  - etransitivity; [apply Hc|done].
  - done.
  - eapply copied_no_holes; [apply Hc|]. by rewrite Hk2.
  - intros w Hw. by apply (cg_pool _ _ _ _ _ _ _ Hc), Hp2.
  - rewrite Hk2. apply Hc.
Qed.

(** A page for the copy, and its place in the directory or the way out. *)
Lemma copy_one s l p s1 v l1 d i e :
  space_ok s p l → copying s l p s1 (v :: l1) d i → 0 ≤ i < KERNBASE → i mod PGSIZE = 0 → mapping (k_mem s) p i = Some e →
  ∃ s2 s3 r t, kalloc s1 = Ret v s2 ∧ mem_move v (frame e) PGSIZE s2 = Ret tt s3 ∧ v ≠ 0 ∧
    mappages d i PGSIZE (v2p v) (Z.lor PTE_W PTE_U) s3 = Ret r t ∧
    ((r = 0 ∧ ∃ l2, copying s l p t l2 d (i + PGSIZE)) ∨
     (r = -1 ∧ returns (do* freevm d in ret 0) t (λ r u, r = 0 ∧ ∃ l', free_ok u l' ∧ mem_only s u ∧ l' ⊆ l ∧
        ∀ w a, valid_page w → w ∉ l → w ≤ a < w + PGSIZE → ldb (k_mem u) a = ldb (k_mem s) a))).
Proof.
  intros Hs Hc Hu Hal He. pose proof (user_addr _ Hu) as Hu'. pose proof (cg_copied _ _ _ _ _ _ _ Hc) as Hcc.
  destruct (copy_source s l p s1 _ d i e Hs Hc Hu He) as (_ & _ & _ & _ & _ & Hvf & Hsrc).
  destruct (fill_page s1 d v l1 (λ m, memmove m v (frame e) PGSIZE) (cg_space _ _ _ _ _ _ _ Hc))
    as (s2 & E2 & Em3 & Hv & Hs3 & Hm3 & Hmap3 & Hnp & Hpool3 & _ & Hk3).
  { intros a Ha. by rewrite memmove_correct, decide_False. }
  set (s3 := s2 <| k_mem ::= _ |>) in *.
  assert (v ∈ l) as Hvl by (apply (cg_pool _ _ _ _ _ _ _ Hc); left; left).
  assert (∀ w a, valid_page w → w ∉ l → w ≤ a < w + PGSIZE → ldb (k_mem s3) a = ldb (k_mem s) a) as Hkept3.
  { intros w a Hw Hwl Ha. rewrite (Hk3 w) by (done || by intros ->). by apply (cg_kept _ _ _ _ _ _ _ Hc w). }
  assert (∀ w, pool (k_mem s3) d l1 w → w ∈ l) as Hsub.
  { intros w Hw. apply (cg_pool _ _ _ _ _ _ _ Hc), Hpool3. by right. }
  assert (mem_only s s3) as Hms3 by (etransitivity; [apply Hc|done]).
  destruct (add_page s3 d l1 i v Hs3 Hu Hal) as [(t & l2 & Em & Hst & Hg & _ & Hmt & Hpt & Hmapt)|(-> & t & Em & Hst & Hmt & Hkt)];
    [rewrite Hmap3 by done; apply Hcc; lia|done|done| |].
  all: exists s2, s3; eexists; exists t; split_and!; [done|done|by apply valid_page_nonzero|exact Em|].
  - left. split; [done|]. exists l2. split; [by etransitivity|done| | | |].
    + intros w. rewrite Hpt, Hpool3. apply Hc.
    + intros w a Hw Hwl Ha. rewrite (gr_kept _ _ _ _ _ Hg w); [by apply (Hkept3 w)|done| | |done].
      * intros Hin. apply Hwl, Hsub. by left.
      * intros Hd. apply Hwl, Hsub. right. by left.
    + apply (copied_step s p s1 s3 t d l1 l2 v i e (cg_space _ _ _ _ _ _ _ Hc) Hcc Hu Hal He Hv Hs3 Hg Hnp Hmap3);
        [|exact Hk3|exact Hmapt]. intros off Ho. rewrite Em3, memmove_correct, decide_True by (done || lia). rewrite <- Hsrc by done. do 2 f_equal. lia.
    + intros va Hva. rewrite Hmapt, decide_False, Hmap3 by (unfold in_pages, PGSIZE, KERNBASE, NADDR in *; lia). by apply Hc.
  - right. split; [done|]. apply (copy_bad s l t [] d); [by etransitivity|done| | |by rewrite Hkt].
    + eapply copied_no_holes; [exact Hcc|]. by rewrite Hkt.
    + rewrite Hkt. done.
Qed.

Lemma copy_loop_view (n : nat) s l p sz :
  space_ok s p l → sz ≤ KERNBASE → (∀ va, 0 ≤ va < sz → is_Some (mapping (k_mem s) p va)) → ∀ s1 l1 d i,
  copying s l p s1 l1 d i → 0 ≤ i → i mod PGSIZE = 0 → sz ≤ i + n * PGSIZE →
  returns (copyuvm_loop n d p sz i) s1 (λ r t, ∃ l', free_ok t l' ∧ mem_only s t ∧
    (∀ w a, valid_page w → w ∉ l → w ≤ a < w + PGSIZE → ldb (k_mem t) a = ldb (k_mem s) a) ∧ l' ⊆ l ∧
    (r = 0 ∨ r = d ∧ ∃ j, (j = i ∨ j < sz + PGSIZE) ∧ sz ≤ j ∧ copying s l p t l' d j)).
Proof.
  intros Hs Hsz Hmapped. induction n as [|n IH]; intros s1 l1 d i Hc Hi Hal Hn; cbn [copyuvm_loop].
  all: destruct (Z.ltb_spec i sz) as [His|His].
  2, 4: apply returns_ret; exists l1; split_and!; [apply Hc|apply Hc|apply Hc|
    intros w Hw; apply (cg_pool _ _ _ _ _ _ _ Hc); by left|right; split; [done|]; exists i; by auto].
  { lia. }
  assert (0 ≤ i < KERNBASE) as Hu by lia. destruct (Hmapped i ltac:(lia)) as [e He].
  destruct (copy_source s l p s1 l1 d i e Hs Hc Hu He) as (pte & Ew & Hpte & Ee & Hh & _).
  apply returns_bind. eapply returns_eq; [exact Ew|]. rewrite (proj2 (Z.eqb_neq pte 0)) by done.
  apply returns_bind. eapply returns_eq; [reflexivity|]. rewrite Ee, Hh. cbn [negb].
  change (p2v (PTE_ADDR e)) with (frame e).
  assert (∀ r t, (r = 0 ∧ ∃ l', free_ok t l' ∧ mem_only s t ∧ l' ⊆ l ∧
    ∀ w a, valid_page w → w ∉ l → w ≤ a < w + PGSIZE → ldb (k_mem t) a = ldb (k_mem s) a) →
    ∃ l', free_ok t l' ∧ mem_only s t ∧
    (∀ w a, valid_page w → w ∉ l → w ≤ a < w + PGSIZE → ldb (k_mem t) a = ldb (k_mem s) a) ∧ l' ⊆ l ∧
    (r = 0 ∨ r = d ∧ ∃ j, (j = i ∨ j < sz + PGSIZE) ∧ sz ≤ j ∧ copying s l p t l' d j)) as Hbad.
  { intros r t (-> & l' & ? & ? & ? & ?). exists l'. split_and!; try done. by left. }
  destruct l1 as [|v l1].
  - destruct (copy_no_page s l p s1 d i Hc) as (s2 & E2 & Hret). apply returns_bind. eapply returns_eq; [exact E2|].
    rewrite Z.eqb_refl. eapply returns_mono; [exact Hret|]. exact Hbad.
  - destruct (copy_one s l p s1 v l1 d i e Hs Hc Hu Hal He) as (s2 & s3 & r & t & E2 & E3 & Hvz & Em & Hr).
    apply returns_bind. eapply returns_eq; [exact E2|]. rewrite (proj2 (Z.eqb_neq v 0)) by done.
    apply returns_bind. eapply returns_eq; [exact E3|]. apply returns_bind. eapply returns_eq; [exact Em|].
    destruct Hr as [(-> & l2 & Hc2)|[-> Hret]]; cbn [Z.ltb Z.compare].
    + rewrite u32_small by (unfold PGSIZE, KERNBASE in *; lia).
      eapply returns_mono; [apply (IH t l2 d (i + PGSIZE) Hc2); unfold PGSIZE in *; lia|].
      intros r u (l' & ? & ? & ? & ? & Hr). exists l'. split_and!; try done.
      destruct Hr as [?|(? & j & ? & ?)]; [by left|right]. split; [done|]. exists j. split; [right; unfold PGSIZE in *; lia|done].
    + eapply returns_mono; [exact Hret|]. exact Hbad.
Qed.

Lemma copyuvm_view s l p sz :
  space_ok s p l → 0 ≤ sz ≤ KERNBASE → (∀ va, 0 ≤ va < sz → is_Some (mapping (k_mem s) p va)) →
  returns (copyuvm p sz) s (λ d t, ∃ l', free_ok t l' ∧ mem_only s t ∧
    (∀ w a, valid_page w → w ∉ l → w ≤ a < w + PGSIZE → ldb (k_mem t) a = ldb (k_mem s) a) ∧ l' ⊆ l ∧
    (d = 0 ∨ d ≠ 0 ∧ ∃ j, sz ≤ j < sz + PGSIZE ∧ copying s l p t l' d j)).
Proof.
  intros Hs Hsz Hmapped. pose proof (so_vm _ _ _ Hs) as [Hsy Hf _ _].
  destruct (setupkvm_view s l Hsy Hf) as (r & s1 & l1 & E & Hm & Hsuf & Hf1 & Hk1 & Hr).
  unfold copyuvm. apply returns_bind. eapply returns_eq; [exact E|].
  destruct Hr as [[-> ->]|(Hnz & Hs1 & Hpool & Hmap & Hno)].
  { rewrite Z.eqb_refl. apply returns_ret. exists []. split_and!; try done; [set_solver|by left]. }
  rewrite (proj2 (Z.eqb_neq r 0)) by done.
  eapply returns_mono; [apply (copy_loop_view _ s l p sz Hs ltac:(lia) Hmapped s1 l1 r 0)|]; [|done|done|unfold PGSIZE; lia|].
  - split; try done.
    + split; [lia|]. intros va Hva. by apply Hno.
    + intros va Hva. apply Hmap. unfold KERNBASE, NADDR in *. lia.
  - intros d t (l' & ? & ? & ? & ? & [->|(-> & j & Hj & ? & ?)]); exists l'; split_and!; try done; [by left|right].
    split; [done|]. exists j. split; [|done]. unfold PGSIZE in *. lia.
Qed.

(** The bytes of a copy. *)
Lemma copying_bytes s l p t l' d j va :
  space_ok s p l → copying s l p t l' d j → 0 ≤ va < j → va < KERNBASE →
  ∃ a a', translate (k_mem s) p va = Some a ∧ translate (k_mem t) d va = Some a' ∧
    a ≠ a' ∧ ldb (k_mem t) a' = u8 (ldb (k_mem s) a) ∧
    ∃ e, mapping (k_mem t) d va = Some e ∧ Z.land e 0xFFF = Z.lor (Z.lor PTE_W PTE_U) PTE_P.
Proof.
  intros Hs [_ Hsd Hpool _ [Hc _] _] Hva Hub. destruct (Hc va ltac:(lia)) as (e & e' & He & He' & Hlow & Hb).
  assert (0 ≤ va < KERNBASE) as Hu by lia. rewrite !translate_mapping, He, He'. cbn. eexists _, _. split_and!; [done|done| | |by exists e'].
  - destruct (so_frame _ _ _ Hs va e Hu He) as (Hv & Hl & _), (so_frame _ _ _ Hsd va e' Hu He') as (Hv' & _).
    fold (frame e) (frame e'). intros E. apply Hl. rewrite <- Hpool. right. right. exists va, e'.
    split; [done|]. split; [done|lia].
  - fold (frame e) (frame e'). apply Hb. unfold PGSIZE. lia.
Qed.

(** The kernel finds physical memory at the addresses it is linked for. *)
Lemma kernel_translate m pgdir va :
  KERNBASE ≤ va < KERNBASE + PHYSTOP → mapping m pgdir va = region_entry kmap va → translate m pgdir va = Some va.
Proof.
  intros Hva Hm. rewrite translate_mapping, Hm. destruct ki_data as [Hd Hr].
  assert (∀ virt perm, (virt = KERNBASE ∨ virt = KERNLINK ∨ virt = data_addr) → 0 ≤ perm < PGSIZE → virt ≤ va →
    p2v (PTE_ADDR (entry_for virt (v2p virt) perm va)) + va mod PGSIZE = va) as He.
  { intros virt perm Hv Hp Hle. unfold entry_for.
    assert (v2p virt = virt - KERNBASE) as -> by (unfold v2p; apply u32_small; unfold KERNLINK, EXTMEM, PHYSTOP, KERNBASE in *; lia).
    destruct (pte_entry (virt - KERNBASE + (va / PGSIZE * PGSIZE - virt)) perm) as (_ & -> & _); try done;
      try (unfold KERNLINK, EXTMEM, PHYSTOP, KERNBASE, PGSIZE, NADDR in *; lia).
    unfold p2v. rewrite u32_small; unfold KERNLINK, EXTMEM, PHYSTOP, KERNBASE, PGSIZE in *; lia. }
  unfold kmap. cbn [region_entry].
  change (u32 (EXTMEM - 0)) with EXTMEM. change 0 with (v2p KERNBASE) at 1.
  case_decide as H1; [cbn; f_equal; apply He; auto; [done|lia]|].
  case_decide as H2; [cbn; f_equal; apply He; auto; [done|lia]|].
  case_decide as H3; [cbn; f_equal; apply He; auto; [done|lia]|]. exfalso.
  unfold v2p, KERNLINK, EXTMEM, PHYSTOP, KERNBASE, PGSIZE in *.
  rewrite (u32_small (data_addr - 2147483648)) in * by lia. rewrite !u32_small in * by (rewrite ?u32_small by lia; lia). lia.
Qed.

(** ** Growing *)

(** The pages from [a0] to [a] are new and zero; nothing else has changed. *)
Record grown s l (pgdir a0 : Z) t l' (a : Z) : Prop := {
  gn_only : mem_only s t;
  gn_space : space_ok t pgdir l';
  gn_pool : ∀ w, pool (k_mem t) pgdir l' w ↔ pool (k_mem s) pgdir l w;
  gn_map : ∀ va, 0 ≤ va < NADDR → ¬ (a0 ≤ va < a) → mapping (k_mem t) pgdir va = mapping (k_mem s) pgdir va;
  gn_new : ∀ va, a0 ≤ va < a → ∃ e, mapping (k_mem t) pgdir va = Some e ∧
    Z.land e 0xFFF = Z.lor (Z.lor PTE_W PTE_U) PTE_P ∧ (frame e ∈ l) ∧
    ∀ off, 0 ≤ off < PGSIZE → ldb (k_mem t) (frame e + off) = 0;
  gn_dir : ∀ w, dir_page (k_mem t) pgdir w → w ∈ l ∨ dir_page (k_mem s) pgdir w;
  gn_kept : ∀ v x, valid_page v → v ∉ l → ¬ dir_page (k_mem s) pgdir v → v ≤ x < v + PGSIZE →
    ldb (k_mem t) x = ldb (k_mem s) x;
}.

Lemma grown_refl s l pgdir a0 : space_ok s pgdir l → grown s l pgdir a0 s l a0.
Proof. intros Hs. split; try done; [intros va Hva; lia|by right]. Qed.

Lemma grow_one s l pgdir a0 s1 v l1 a :
  grown s l pgdir a0 s1 (v :: l1) a → l1 ≠ [] → 0 ≤ a0 ≤ a → a0 mod PGSIZE = 0 → a mod PGSIZE = 0 → a < KERNBASE →
  (v :: l1) `suffix_of` l → mapping (k_mem s) pgdir a = None →
  ∃ s2 s3 t l2, kalloc s1 = Ret v s2 ∧ v ≠ 0 ∧ mem_set v 0 PGSIZE s2 = Ret tt s3 ∧
    mappages pgdir a PGSIZE (v2p v) (Z.lor PTE_W PTE_U) s3 = Ret 0 t ∧
    grown s l pgdir a0 t l2 (a + PGSIZE) ∧ l2 `suffix_of` l ∧ (length l1 ≤ S (length l2))%nat.
Proof.
  intros Hc Hne Ha0 Hal0 Hal Ha Hsuf Hno.
  assert (0 ≤ a < KERNBASE) as Hu by lia. pose proof (user_addr _ Hu) as Hu'.
  destruct (fill_page s1 pgdir v l1 (λ m, memset m v 0 PGSIZE) (gn_space _ _ _ _ _ _ _ Hc))
    as (s2 & E2 & Em3 & Hv & Hs3 & Hm3 & Hmap3 & Hnp & Hpool3 & Hdir3 & Hk3).
  { intros x Hx. by rewrite ldb_memset, decide_False. }
  set (s3 := s2 <| k_mem ::= _ |>) in *.
  assert (v ∈ l) as Hvl by (eapply elem_of_suffix; [|exact Hsuf]; left).
  assert (l1 `suffix_of` l) as Hsuf1 by (etransitivity; [by apply suffix_cons_r|exact Hsuf]).
  assert (∀ w, w ∈ l1 → w ∈ l) as Hin1 by (intros w Hw; by eapply elem_of_suffix).
  destruct (user_entry_ok v Hv) as [Hfr Hlow].
  destruct (add_page s3 pgdir l1 a v Hs3 Hu Hal) as [(t & l2 & Em & Hst & Hg & Hlen & Hmt & Hpt & Hmapt)|(-> & _)];
    [rewrite Hmap3, (gn_map _ _ _ _ _ _ _ Hc) by (done || lia); done|done|done| |done].
  exists s2, s3, t, l2. split; [exact E2|]. split; [by apply valid_page_nonzero|]. split; [reflexivity|]. split; [exact Em|].
  split; [|split; [etransitivity; [apply Hg|done]|exact Hlen]]. split.
  - etransitivity; [apply Hc|]. by etransitivity.
  - done.
  - intros w. rewrite Hpt, Hpool3. apply Hc.
  - intros va Hva Hout. rewrite Hmapt, decide_False, Hmap3 by (done || (unfold in_pages, PGSIZE in *; lia)).
    apply Hc; [done|]. unfold PGSIZE in *. lia.
  - intros va Hva. assert (0 ≤ va < NADDR) as Hva' by (unfold PGSIZE, KERNBASE, NADDR in *; lia).
    destruct (decide (in_pages a 1 va)) as [Hin|Hout].
    + exists (user_entry v). rewrite Hmapt, decide_True, Hfr by done. split_and!; try done. intros off Ho.
      unfold pool in Hnp. rewrite (gr_kept _ _ _ _ _ Hg v) by (first [done|tauto|lia]). rewrite Em3, ldb_memset, decide_True by (done || lia). done.
    + assert (a0 ≤ va < a) as Hlt by (unfold in_pages, PGSIZE in *; lia).
      destruct (gn_new _ _ _ _ _ _ _ Hc va Hlt) as (e & He & Hl & Hin & Hz). exists e.
      assert (0 ≤ va < KERNBASE) as Hus by lia.
      destruct (so_frame _ _ _ (gn_space _ _ _ _ _ _ _ Hc) va e Hus He) as (Hvf & Hnf & _).
      rewrite not_elem_of_cons in Hnf. destruct Hnf as [Hnv Hnl].
      assert (mapping (k_mem s3) pgdir va = Some e) as He3 by (by rewrite Hmap3).
      destruct (so_frame _ _ _ Hs3 va e Hus He3) as (_ & _ & Hnd).
      split_and!; [by rewrite Hmapt, decide_False|done|done|]. intros off Ho. rewrite <- (Hz off Ho).
      rewrite (gr_kept _ _ _ _ _ Hg (frame e)) by (try done; lia). apply (Hk3 (frame e)); [done|done|lia].
  - intros w Hw. destruct (proj1 (gr_dir _ _ _ _ _ Hg w) (or_intror Hw)) as [?|Hd]; [left; auto|].
    apply (gn_dir _ _ _ _ _ _ _ Hc), Hdir3, Hd.
  - intros w x Hw Hwl Hwd Hx. rewrite (gr_kept _ _ _ _ _ Hg w); [|done|auto| |done].
    + rewrite (Hk3 w) by (done || by intros ->). by apply (gn_kept _ _ _ _ _ _ _ Hc w).
    + rewrite Hdir3. intros [?|?]%(gn_dir _ _ _ _ _ _ _ Hc); done.
Qed.

Lemma alloc_loop_view (n : nat) s l pgdir oldsz newsz a0 :
  space_ok s pgdir l → 0 ≤ a0 → a0 mod PGSIZE = 0 → newsz < KERNBASE →
  (∀ va, in_range a0 newsz va → mapping (k_mem s) pgdir va = None) → ∀ s1 l1 a,
  grown s l pgdir a0 s1 l1 a → a0 ≤ a → a mod PGSIZE = 0 → newsz ≤ a + n * PGSIZE → l1 `suffix_of` l →
  2 * ((newsz - a + PGSIZE - 1) / PGSIZE) ≤ length l1 →
  returns (allocuvm_loop n pgdir oldsz newsz a) s1 (λ r t, r = newsz ∧ ∃ l' b, b mod PGSIZE = 0 ∧ newsz ≤ b ∧
    (b = a ∨ b < newsz + PGSIZE) ∧ grown s l pgdir a0 t l' b).
Proof.
  intros Hs Ha0 Hal0 Hn Hno. induction n as [|n IH]; intros s1 l1 a Hg Ha Hal Hb Hsuf Hlen; cbn [allocuvm_loop].
  all: destruct (Z.ltb_spec a newsz) as [Hlt|Hge].
  2, 4: apply returns_ret; split; [done|]; exists l1, a; by auto.
  { lia. }
  assert (2 ≤ length l1) as Hl2 by (unfold PGSIZE in *; lia).
  destruct l1 as [|v [|w l1]]; cbn [length] in Hl2; [lia|lia|].
  destruct (grow_one s l pgdir a0 s1 v (w :: l1) a Hg) as (s2 & s3 & t & l2 & E2 & Hv & E3 & Em & Hg2 & Hsuf2 & Hlen2);
    try done; [lia|apply Hno; unfold in_range, PGSIZE in *; lia|].
  apply returns_bind. eapply returns_eq; [exact E2|]. rewrite (proj2 (Z.eqb_neq v 0)) by done.
  apply returns_bind. eapply returns_eq; [exact E3|]. apply returns_bind. eapply returns_eq; [exact Em|].
  eapply returns_mono; [apply (IH t l2 (a + PGSIZE) Hg2)|]; try done; try (unfold PGSIZE in *; cbn [length] in *; lia).
  intros r u (-> & l' & b & ? & ? & ? & ?). split; [done|]. exists l', b. split_and!; try done. right. unfold PGSIZE in *. lia.
Qed.
End space.

(** ** Properties *)

Section props.
Context `{Hk : kenv} `{!kernel_image}.
Implicit Types (l : list Z) (s t : kstate).



End props.

(** [allocuvm] does not look at the result of [mappages]: with one free page
    and no table for the address, the page is taken, the call succeeds, and
    nothing is mapped. *)
Theorem allocuvm_ignores_failure :
  ∃ t, allocuvm (H := kenv_example) page2 0 PGSIZE one_page = Ret PGSIZE t ∧
    translate (k_mem t) page2 0 = None ∧ freelist (k_kmem one_page) = page1 ∧ freelist (k_kmem t) = 0.
Proof.
  assert (match allocuvm (H := kenv_example) page2 0 PGSIZE one_page with
          | Ret r t => (r =? PGSIZE) && bool_decide (translate (k_mem t) page2 0 = None) && (freelist (k_kmem t) =? 0)
          | _ => false
          end = true) as Hrun by (vm_compute; reflexivity).
  revert Hrun. destruct (allocuvm _ _ _ _) as [r t| | | |]; try done.
  rewrite !andb_true_iff, !Z.eqb_eq, bool_decide_eq_true. intros [[-> Ht] Hf]. by exists t.
Qed.

(** ** Witnesses *)

Module space_demo.
#[local] Existing Instance kenv_example.
Definition page3 : Z := 0x80115000.

Lemma one_page_space : space_ok one_page page2 [page1].
Proof.
  assert (∀ va, mapping (k_mem one_page) page2 va = None) as Hno by (intros va; unfold mapping; by rewrite one_page_empty).
  split; [apply one_page_vm|..]; intros va; intros; by rewrite Hno in *.
Qed.

Lemma page3_fresh : valid_page page3 ∧ ¬ pool (k_mem one_page) page2 [page1] page3.
Proof.
  split; [by vm_compute|]. intros [[E|?%not_elem_of_nil]%elem_of_cons|[[?|(i & Hi & Hp & _)]|(va & e & _ & He & _)]]; try done.
Qed.

(** A process of one page. *)
Lemma one_page_process : ∃ s l, space_ok s page2 l ∧ ∀ va, 0 ≤ va < PGSIZE → is_Some (mapping (k_mem s) page2 va).
Proof.
  destruct page3_fresh as [Hv Hn].
  destruct (add_page one_page page2 [page1] 0 page3 one_page_space) as [(t & l & _ & Ht & _ & _ & _ & _ & Hm)|(? & _)]; try done.
  exists t, l. split; [done|]. intros va Hva. rewrite Hm by (unfold PGSIZE, NADDR in *; lia).
  rewrite decide_True by (unfold in_pages; lia). by eexists.
Qed.



(** Two free pages and an empty directory. *)
Definition two_pages : kstate := one_page <| k_mem := st32 ∅ page1 page3 |>.

Lemma two_pages_space : space_ok two_pages page2 [page1; page3].
Proof.
  assert (∀ i, 0 ≤ i < 1024 → pde (k_mem two_pages) page2 i = 0) as Hz.
  { intros i Hi. unfold pde. change (k_mem two_pages) with (st32 ∅ page1 page3).
    rewrite ld32_st32_ne by (unfold page1, page2; lia). done. }
  assert (∀ i, 0 ≤ i < 1024 → ¬ present (k_mem two_pages) page2 i) as Hp by (intros i Hi; unfold present; by rewrite Hz).
  assert (∀ va, 0 ≤ va < KERNBASE → mapping (k_mem two_pages) page2 va = None) as Hno.
  { intros va Hva. unfold mapping. by rewrite Hz by (apply pdx_div; by apply user_addr). }
  split; [split|..].
  - apply one_page_sync.
  - split; [by vm_compute|]. split; [apply (bool_decide_unpack _); by vm_compute|].
    constructor; [apply valid_page1|]. constructor; [apply page3_fresh|constructor].
  - split; [apply valid_page2| |]; intros i; intros; by destruct (Hp i).
  - apply not_dir_unused. intros v Hv [->|(i & Hi & Hpi & _)]; [|by destruct (Hp i)].
    revert Hv. apply (bool_decide_unpack _). by vm_compute.
  - intros va e Hva. by rewrite Hno.
  - intros va va' e e' Hva. by rewrite Hno.
Qed.

End space_demo.
