(* ===== verification/Ports.v ===== *)
(** Devices: the instructions of x86.h that reach them, and the disk.

    What a device does is not code of the repository: a machine is any type of
    device states with the instructions as operations ([ports]), and the drive is
    described by laws ([ata]) that follow the documented task-file protocol of
    ATA disks (programmed input and output, 28-bit sector numbers).  [drive] is a
    disk that satisfies them. *)
From stdpp Require Import base numbers gmap strings option list.
From S2P Require Import Prelude State Spinlock Str.

(** ** Instructions *)

(** [inb], [inl], [outb], [outl], and loads and stores of device registers
    mapped in memory. *)
Class ports (D : Type) := {
  in8 : Z → D → Z * D;
  in32 : Z → D → Z * D;
  out8 : Z → Z → D → D;
  out32 : Z → Z → D → D;
  io_load : Z → D → Z * D;
  io_store : Z → Z → D → D;
}.

(** What such code works on: memory, the devices, and the variables of the
    driver. *)
Record mach (D G : Type) := mkMach { m_mem : gmap Z Z; m_dev : D; m_glob : G }.
Arguments mkMach {D G} _ _ _.
Arguments m_mem {D G} _.
Arguments m_dev {D G} _.
Arguments m_glob {D G} _.

Section instructions.
Context {D G : Type} `{ports D}.

Definition with_mem (f : gmap Z Z → gmap Z Z) (s : mach D G) : mach D G := mkMach (f (m_mem s)) (m_dev s) (m_glob s).
Definition with_dev (f : D → D) (s : mach D G) : mach D G := mkMach (m_mem s) (f (m_dev s)) (m_glob s).
Definition with_glob (f : G → G) (s : mach D G) : mach D G := mkMach (m_mem s) (m_dev s) (f (m_glob s)).

Definition device {A} (f : D → A * D) : M (mach D G) A :=
  λ s, let r := f (m_dev s) in Ret r.1 (mkMach (m_mem s) r.2 (m_glob s)).

Definition inb (port : Z) : M (mach D G) Z := device (in8 port).
Definition outb (port data : Z) : M (mach D G) unit := modify (with_dev (out8 port (u8 data))).

(** [rep insl]: [cnt] words from a port to memory; [rep outsl]: the words of an
    array to a port. *)
Fixpoint insl (port addr : Z) (cnt : nat) : M (mach D G) unit :=
  match cnt with
  | O => ret tt
  | S cnt =>
      let* w := device (in32 port) in
      do* modify (with_mem (λ m, st32 m addr w)) in
      insl port (addr + 4) cnt
  end.
Fixpoint outsl (port : Z) (ws : list Z) : M (mach D G) unit :=
  match ws with
  | [] => ret tt
  | w :: ws => do* modify (with_dev (out32 port w)) in outsl port ws
  end.

(** [rep insl] into an array that is not in [m_mem]. *)
Fixpoint insl_data (port : Z) (cnt : nat) : M (mach D G) (list Z) :=
  match cnt with
  | O => ret []
  | S cnt =>
      let* w := device (in32 port) in
      let* ws := insl_data port cnt in
      ret (w :: ws)
  end.
End instructions.

(** ** The drive *)

(** The disks of the two drives of a channel, a sector [None] being
    unreadable; the registers of the task file; the words waiting for the host;
    the words received of a sector to be written; the number of times the status
    still shows the drive busy; the error bit. *)
Record ata_t := mkAta {
  at_disks : list (list (option (list Z)));
  at_count : Z;
  at_lba0 : Z;
  at_lba1 : Z;
  at_lba2 : Z;
  at_head : Z;
  at_in : list Z;
  at_out : option (list Z);
  at_busy : nat;
  at_err : bool;
}.
#[export] Instance eta_ata : Settable ata_t :=
  λ t, mkAta (at_disks t) (at_count t) (at_lba0 t) (at_lba1 t) (at_lba2 t) (at_head t) (at_in t)
         (at_out t) (at_busy t) (at_err t).

Definition at_drive (t : ata_t) : Z := Z.land (Z.shiftr (at_head t) 4) 1.
Definition at_lba (t : ata_t) : Z :=
  at_lba0 t + 2 ^ 8 * at_lba1 t + 2 ^ 16 * at_lba2 t + 2 ^ 24 * Z.land (at_head t) 0xf.
Definition at_sector (t : ata_t) : option (option (list Z)) :=
  at_disks t !! Z.to_nat (at_drive t) ≫= λ d, d !! Z.to_nat (at_lba t).

(** Little-endian words and bytes. *)
Fixpoint words (bs : list Z) : list Z :=
  match bs with
  | a :: b :: c :: d :: bs => a + 2 ^ 8 * b + 2 ^ 16 * c + 2 ^ 24 * d :: words bs
  | _ => []
  end.
Definition word_bytes (w : Z) : list Z := [u8 w; u8 (Z.shiftr w 8); u8 (Z.shiftr w 16); u8 (Z.shiftr w 24)].

(** A byte written to a register of the task file. *)
Definition at_set (p v : Z) (t : ata_t) : ata_t :=
  if p =? 0x1f2 then t <| at_count := v |>
  else if p =? 0x1f3 then t <| at_lba0 := v |>
  else if p =? 0x1f4 then t <| at_lba1 := v |>
  else if p =? 0x1f5 then t <| at_lba2 := v |>
  else if p =? 0x1f6 then t <| at_head := v |>
  else t.

(** The commands: one sector is read into the drive's buffer, or the drive is
    ready for the words of one.  Both need the selected drive in LBA mode. *)
Definition at_read (busy : nat) (t : ata_t) : ata_t :=
  match at_sector t with
  | Some (Some bs) => t <| at_in := words bs |> <| at_out := None |> <| at_busy := busy |> <| at_err := false |>
  | _ => t <| at_in := [] |> <| at_out := None |> <| at_busy := busy |> <| at_err := true |>
  end.
Definition at_write (t : ata_t) : ata_t := t <| at_in := [] |> <| at_out := Some [] |> <| at_err := false |>.

(** A word received; the last of a sector starts the write. *)
Definition at_take (busy : nat) (w : Z) (t : ata_t) : ata_t :=
  match at_out t with
  | None => t
  | Some ws =>
      if (length ws =? 127)%nat
      then t <| at_disks ::= alter (<[Z.to_nat (at_lba t) := Some (concat (word_bytes <$> (ws ++ [w])))]>)
                               (Z.to_nat (at_drive t)) |>
             <| at_out := None |> <| at_busy := busy |>
      else t <| at_out := Some (ws ++ [w]) |>
  end.

(** BSY and DRDY are the bits 0xC0 of the status, DF and ERR the bits 0x21. *)
Definition status_ok (t : ata_t) (st : Z) : Prop :=
  match at_busy t with
  | O => Z.land st 0xC0 = 0x40 ∧ (Z.land st 0x21 = 0 ↔ at_err t = false)
  | S _ => Z.land st 0xC0 ≠ 0x40
  end.

(** The protocol.  [bound] is the longest time, in reads of the status, that a
    command keeps the drive busy.  The drive takes the words of a write as soon
    as it has the command. *)
Class ata (D : Type) `{ports D} (bound : nat) := {
  at_view : D → ata_t;
  ata_status d : status_ok (at_view d) (in8 0x1f7 d).1 ∧
    at_view (in8 0x1f7 d).2 = (at_view d) <| at_busy ::= pred |>;
  ata_set d p v : 0x1f2 ≤ p ≤ 0x1f6 → at_busy (at_view d) = 0%nat → 0 ≤ v < 256 →
    at_view (out8 p v d) = at_set p v (at_view d);
  ata_control d v : at_view (out8 0x3f6 v d) = at_view d;
  ata_read d : at_busy (at_view d) = 0%nat → Z.testbit (at_head (at_view d)) 6 = true → at_count (at_view d) = 1 →
    ∃ n, (n ≤ bound)%nat ∧ at_view (out8 0x1f7 0x20 d) = at_read n (at_view d);
  ata_write d : at_busy (at_view d) = 0%nat → Z.testbit (at_head (at_view d)) 6 = true → at_count (at_view d) = 1 →
    at_view (out8 0x1f7 0x30 d) = at_write (at_view d);
  ata_in d w ws : at_busy (at_view d) = 0%nat → at_in (at_view d) = w :: ws →
    (in32 0x1f0 d).1 = w ∧ at_view (in32 0x1f0 d).2 = (at_view d) <| at_in := ws |>;
  ata_out d w : at_busy (at_view d) = 0%nat → 0 ≤ w < 2 ^ 32 →
    ∃ n, (n ≤ bound)%nat ∧ at_view (out32 0x1f0 w d) = at_take n w (at_view d);
}.

(** A disk that follows the protocol, busy for one read of the status. *)
Definition drive_in8 (p : Z) (t : ata_t) : Z * ata_t :=
  if p =? 0x1f7 then
    (match at_busy t with O => if at_err t then 0x41 else 0x40 | S _ => 0x80 end, t <| at_busy ::= pred |>)
  else (0, t).
Definition drive_out8 (p v : Z) (t : ata_t) : ata_t :=
  if p =? 0x1f7 then (if v =? 0x20 then at_read 1 t else if v =? 0x30 then at_write t else t)
  else at_set p v t.
Definition drive_in32 (p : Z) (t : ata_t) : Z * ata_t :=
  match at_in t with w :: ws => (w, t <| at_in := ws |>) | [] => (0, t) end.
Definition drive : ports ata_t := {|
  in8 := drive_in8; in32 := drive_in32; out8 := drive_out8; out32 := λ _ w t, at_take 1 w t;
  io_load := λ _ t, (0, t); io_store := λ _ _ t, t;
|}.
Program Definition drive_ata : @ata ata_t drive 1 := {| at_view := id |}.
Next Obligation. intros t. cbn. unfold status_ok. destruct (at_busy t) eqn:E; [destruct (at_err t) eqn:Ee|]; rewrite ?E; done. Qed.
Next Obligation. intros t p v Hp Hb Hv. cbn. unfold drive_out8. by rewrite (proj2 (Z.eqb_neq p 0x1f7)) by lia. Qed.
Next Obligation. done. Qed.
Next Obligation. intros t Hb Hh Hc. exists 1%nat. split; [lia|done]. Qed.
Next Obligation. done. Qed.
Next Obligation. intros t w ws Hb E. cbn in *. unfold drive_in32. by rewrite E. Qed.
Next Obligation. intros t w Hb Hw. exists 1%nat. split; [lia|done]. Qed.

(** ** Bytes in memory *)

Fixpoint st_bytes (m : gmap Z Z) (a : Z) (bs : list Z) : gmap Z Z :=
  match bs with
  | [] => m
  | b :: bs => st_bytes (stb m a b) (a + 1) bs
  end.

Definition is_byte (b : Z) : Prop := 0 ≤ b < 256.
#[export] Instance is_byte_dec b : Decision (is_byte b).
Proof. unfold is_byte. apply _. Defined.

Lemma ldb_st_bytes bs m a x :
  Forall is_byte bs →
  ldb (st_bytes m a bs) x = if decide (a ≤ x < a + length bs) then bs !!! Z.to_nat (x - a) else ldb m x.
Proof.
  revert m a. induction bs as [|b bs IH]; intros m a Hb; cbn [st_bytes length].
  - by rewrite decide_False by lia.
  - apply Forall_cons in Hb as [Hb Hbs]. rewrite IH, ldb_stb by done. repeat case_decide; try lia.
    + by replace (Z.to_nat (x - a)) with (S (Z.to_nat (x - (a + 1)))) by lia.
    + subst x. rewrite Z.sub_diag. cbn. unfold u8. apply Z.mod_small. apply Hb.
Qed.

Lemma st_bytes_app m a bs cs : st_bytes m a (bs ++ cs) = st_bytes (st_bytes m a bs) (a + length bs) cs.
Proof.
  revert m a. induction bs as [|b bs IH]; intros m a; cbn [st_bytes length app].
  - by rewrite Z.add_0_r.
  - rewrite IH. f_equal. lia.
Qed.

(** Storing a word stores its bytes. *)
Lemma st32_bytes m x a b c d :
  is_byte a → is_byte b → is_byte c → is_byte d →
  st32 m x (a + 2 ^ 8 * b + 2 ^ 16 * c + 2 ^ 24 * d) = st_bytes m x [a; b; c; d].
Proof.
  unfold is_byte. intros. unfold st32. cbn [st_bytes]. unfold stb, u8. rewrite !Z.shiftr_div_pow2 by lia.
  replace (x + 1 + 1) with (x + 2) by lia. replace (x + 2 + 1) with (x + 3) by lia.
  set (w := a + _ + _ + _).
  assert (w mod 2 ^ 8 = a mod 2 ^ 8 ∧ (w / 2 ^ 8) mod 2 ^ 8 = b mod 2 ^ 8 ∧ (w / 2 ^ 16) mod 2 ^ 8 = c mod 2 ^ 8 ∧
    (w / 2 ^ 24) mod 2 ^ 8 = d mod 2 ^ 8) as (-> & -> & -> & ->) by (unfold w; lia).
  done.
Qed.

(** The register that selects drive and mode, with the top bits of the sector. *)
Lemma head_byte dv x :
  0 ≤ dv ≤ 1 → 0 ≤ x < 16 →
  let h := Z.lor (Z.lor 0xe0 (Z.shiftl dv 4)) x in
  u8 h = h ∧ Z.testbit h 6 = true ∧ Z.land (Z.shiftr h 4) 1 = dv ∧ Z.land h 0xf = x.
Proof.
  intros Hd Hx. assert (dv = 0 ∨ dv = 1) as Hdv by lia.
  assert (x = 0 ∨ x = 1 ∨ x = 2 ∨ x = 3 ∨ x = 4 ∨ x = 5 ∨ x = 6 ∨ x = 7 ∨ x = 8 ∨ x = 9 ∨ x = 10 ∨
    x = 11 ∨ x = 12 ∨ x = 13 ∨ x = 14 ∨ x = 15) as Hin by lia. clear Hx Hd.
  destruct_or! Hdv; destruct_or! Hin; subst; done.
Qed.

(** The bytes of a sector number, put together again. *)
Lemma lba_bytes o : 0 ≤ o < 2 ^ 28 →
  u8 o + 2 ^ 8 * u8 (Z.shiftr o 8) + 2 ^ 16 * u8 (Z.shiftr o 16) + 2 ^ 24 * Z.shiftr o 24 = o ∧ 0 ≤ Z.shiftr o 24 < 16.
Proof. intros Ho. unfold u8. rewrite !Z.shiftr_div_pow2 by lia. lia. Qed.

Lemma u8_range x : 0 ≤ u8 x < 256.
Proof. unfold u8. lia. Qed.

(** ** Waiting for the drive, and its data *)

Section transfer.
Context {D G : Type} `{ata D bound}.

(** [while(((r = inb(0x1f7)) & (IDE_BSY|IDE_DRDY)) != IDE_DRDY);], the last [r]. *)
Fixpoint poll (n : nat) : M (mach D G) Z :=
  match n with
  | O => λ _, NoFuel
  | S n =>
      let* r := inb 0x1f7 in
      if negb (Z.land r 0xC0 =? 0x40) then poll n else ret r
  end.

Abbreviation view s := (at_view (m_dev s)).

Lemma poll_ready n (s : mach D G) :
  (at_busy (view s) < n)%nat →
  returns (poll n) s (λ r t, m_mem t = m_mem s ∧ view t = (view s) <| at_busy := O |> ∧ status_ok (view t) r).
Proof using Type.
  remember (at_busy (view s)) as k eqn:Ek. revert n s Ek. induction k as [|k IH]; intros [|n] s Ek Hn; try lia;
    cbn [poll]; apply returns_bind; unfold inb, device; eapply returns_eq; try reflexivity;
    destruct (ata_status (m_dev s)) as [Hst Hv]; unfold status_ok in Hst; rewrite <- Ek in Hst.
  - destruct Hst as [E0 He]. rewrite E0. cbn. apply returns_ret. split; [done|].
    assert ((view s) <| at_busy ::= pred |> = (view s) <| at_busy := O |>) as E by (unfold set; cbn; by rewrite <- Ek).
    cbn. rewrite Hv, E. by split.
  - rewrite (proj2 (Z.eqb_neq _ _) Hst). cbn [negb].
    eapply returns_mono; [apply IH; [|lia]|].
    + cbn. by rewrite Hv; cbn; rewrite <- Ek.
    + cbn. intros r t (Hm & Hvt & Hs). rewrite Hvt, Hv in *. done.
Qed.

(** The buffer of the drive goes to memory. *)
Lemma insl_bytes n bs (s : mach D G) addr :
  at_busy (view s) = O → at_in (view s) = words bs → length bs = (4 * n)%nat → Forall is_byte bs →
  returns (insl 0x1f0 addr n) s (λ _ t,
    m_mem t = st_bytes (m_mem s) addr bs ∧ view t = (view s) <| at_in := [] |>).
Proof using Type.
  revert bs s addr. induction n as [|n IH]; intros bs s addr Hb Hin Hl Hby.
  - destruct bs; [|done]. apply returns_ret. split; [done|]. cbn in Hin.
    destruct (view s); cbn in *; by subst.
  - destruct bs as [|a [|b [|c [|d bs]]]]; cbn [length] in Hl; try lia.
    rewrite !Forall_cons in Hby. destruct Hby as (Ha & Hb' & Hc & Hd & Hby). cbn [words] in Hin. cbn [insl].
    destruct (ata_in _ _ _ Hb Hin) as [Ew Ev].
    apply returns_bind. unfold device. eapply returns_eq; [reflexivity|]. rewrite Ew.
    apply returns_bind, returns_modify. unfold with_mem. cbn. rewrite st32_bytes by done.
    eapply returns_mono; [apply (IH bs); cbn; [by rewrite Ev|by rewrite Ev|lia|done]|].
    cbn. intros _ t [Hm Hv]. rewrite Hm, Hv, Ev. split; [|done].
    cbn. f_equal. lia.
Qed.

Lemma insl_data_words ws (s : mach D G) :
  at_busy (view s) = O → at_in (view s) = ws →
  returns (insl_data 0x1f0 (length ws)) s (λ r t,
    r = ws ∧ m_mem t = m_mem s ∧ view t = (view s) <| at_in := [] |>).
Proof using Type.
  revert s. induction ws as [|w ws IH]; intros s Hb Hin.
  - apply returns_ret. split_and!; [done|done|]. destruct (view s); cbn in *; by subst.
  - cbn [insl_data length]. destruct (ata_in _ _ _ Hb Hin) as [Ew Ev].
    apply returns_bind. unfold device. eapply returns_eq; [reflexivity|]. rewrite Ew.
    apply returns_bind. eapply returns_mono; [apply IH; cbn; by rewrite Ev|].
    cbn. intros r t (-> & Hm & Hv). apply returns_ret. rewrite Hm, Hv, Ev. done.
Qed.

(** An array goes to the drive; the last word starts the write. *)
Lemma outsl_words ws us (s : mach D G) :
  at_busy (view s) = O → at_out (view s) = Some us → (length us + length ws = 128)%nat → ws ≠ [] →
  Forall (λ w, 0 ≤ w < 2 ^ 32) ws →
  returns (outsl 0x1f0 ws) s (λ _ t, m_mem t = m_mem s ∧ ∃ b, (b ≤ bound)%nat ∧
    view t = (view s) <| at_disks ::= alter (<[Z.to_nat (at_lba (view s)) :=
        Some (concat (word_bytes <$> us ++ ws))]>) (Z.to_nat (at_drive (view s))) |>
      <| at_out := None |> <| at_busy := b |>).
Proof using Type.
  revert us s. induction ws as [|w ws IH]; intros us s Hb Hout Hl Hne Hw; [done|]. cbn [outsl].
  apply Forall_cons in Hw as [Hw Hws]. destruct (ata_out (m_dev s) w) as (b & Hbb & Ev); [done|done|].
  unfold at_take in Ev. rewrite Hout in Ev. apply returns_bind, returns_modify. destruct ws as [|w' ws].
  - apply returns_ret. split; [done|]. exists b. split; [done|]. cbn in Hl |- *. rewrite Ev.
    rewrite (proj2 (Nat.eqb_eq _ _)) by lia. done.
  - cbn [length] in Hl. rewrite (proj2 (Nat.eqb_neq _ _)) in Ev by lia.
    eapply returns_mono; [apply (IH (us ++ [w])); cbn; rewrite ?Ev; try done; rewrite length_app; cbn; lia|].
    cbn. intros _ t (Hm & b' & Hb' & Hv). split; [done|]. exists b'. split; [done|]. rewrite Hv, Ev. by rewrite <- app_assoc.
Qed.

(** The registers of the task file set for sector [o] of drive [dv]. *)
Definition addressed (dv o : Z) (t : ata_t) : ata_t :=
  t <| at_count := 1 |> <| at_lba0 := u8 o |> <| at_lba1 := u8 (Z.shiftr o 8) |>
    <| at_lba2 := u8 (Z.shiftr o 16) |> <| at_head := Z.lor (Z.lor 0xe0 (Z.shiftl dv 4)) (Z.shiftr o 24) |>.

Lemma outb_set p v (s : mach D G) Q :
  0x1f2 ≤ p ≤ 0x1f6 → at_busy (view s) = O →
  (∀ t, m_mem t = m_mem s → view t = at_set p (u8 v) (view s) → Q tt t) →
  returns (outb p v) s Q.
Proof using Type.
  intros Hp Hb HQ. apply returns_modify, HQ; [done|]. cbn. apply ata_set; [done|done|apply u8_range].
Qed.

(** The five writes to the task file; [b0] to [b2] and [h] are the values the
    code computes. *)
Lemma address_drive dv o (s : mach D G) b0 b1 b2 h (k : M (mach D G) unit) Q :
  0 ≤ dv ≤ 1 → 0 ≤ o < 2 ^ 28 → at_busy (view s) = O →
  u8 b0 = u8 o → u8 b1 = u8 (Z.shiftr o 8) → u8 b2 = u8 (Z.shiftr o 16) →
  h = Z.lor (Z.lor 0xe0 (Z.shiftl dv 4)) (Z.shiftr o 24) →
  (∀ t, m_mem t = m_mem s → view t = addressed dv o (view s) → returns k t Q) →
  returns (do* outb 0x1f2 1 in do* outb 0x1f3 b0 in do* outb 0x1f4 b1 in do* outb 0x1f5 b2 in
    do* outb 0x1f6 h in k) s Q.
Proof using Type.
  intros Hdv Ho Hb E0 E1 E2 -> Hk. destruct (lba_bytes o Ho) as [_ Hx].
  destruct (head_byte dv (Z.shiftr o 24) Hdv Hx) as (Eh & _).
  apply returns_bind, outb_set; [lia|done|]. intros t1 M1 V1.
  apply returns_bind, outb_set; [lia|by rewrite V1|]. intros t2 M2 V2.
  apply returns_bind, outb_set; [lia|by rewrite V2, V1|]. intros t3 M3 V3.
  apply returns_bind, outb_set; [lia|by rewrite V3, V2, V1|]. intros t4 M4 V4.
  apply returns_bind, outb_set; [lia|by rewrite V4, V3, V2, V1|]. intros t5 M5 V5.
  apply Hk; [congruence|]. rewrite V5, V4, V3, V2, V1, E0, E1, E2, Eh. done.
Qed.

Lemma addressed_fields dv o t :
  0 ≤ dv ≤ 1 → 0 ≤ o < 2 ^ 28 →
  at_drive (addressed dv o t) = dv ∧ at_lba (addressed dv o t) = o ∧
  Z.testbit (at_head (addressed dv o t)) 6 = true ∧ at_count (addressed dv o t) = 1.
Proof using Type.
  intros Hdv Ho. destruct (lba_bytes o Ho) as [El Hx].
  destruct (head_byte dv (Z.shiftr o 24) Hdv Hx) as (_ & Et & Ed & Ex). cbv zeta in *.
  unfold at_drive, at_lba. cbn -[Z.lor Z.land Z.shiftr Z.shiftl Z.pow Z.mul Z.add]. rewrite Ed, Ex. done.
Qed.
End transfer.
