(* ===== verification/Mp.v ===== *)
(** Finding the processors (mp.c, mp.h): the search for the tables of the
    MultiProcessor specification in memory, and what [mpinit] takes from them.
    Messages on the console are left out. *)
From stdpp Require Import base numbers gmap strings option list.
From S2P Require Import Prelude State Spinlock Str Ports Cprintf Kalloc Proc Mlf Sched Bio Blocks Log LogSpec Tx Crash Fs Pipe File Vm.

(** ** Variables *)

(** [ismp], [ncpu], [ioapicid], [lapic], [bcpu] as an index, and [cpus[i].id]. *)
Record mpvars := mkMpvars {
  g_ismp : bool;
  g_ncpu : Z;
  g_ioapicid : Z;
  g_lapic : Z;
  g_bcpu : Z;
  g_ids : list Z;
}.
#[export] Instance eta_mpvars : Settable mpvars :=
  λ g, mkMpvars (g_ismp g) (g_ncpu g) (g_ioapicid g) (g_lapic g) (g_bcpu g) (g_ids g).

(** The variables as the program starts. *)
Definition mpvars_zero : mpvars := mkMpvars false 0 0 0 0 (replicate NCPU 0).

Definition mpbcpu (g : mpvars) : Z := g_bcpu g.

(** ** The search *)

Definition MPPROC : Z := 0.
Definition MPBUS : Z := 1.
Definition MPIOAPIC : Z := 2.
Definition MPIOINTR : Z := 3.
Definition MPLINTR : Z := 4.
Definition MPBOOT : Z := 2.

Fixpoint sum_loop (m : gmap Z Z) (addr : Z) (n : nat) : Z :=
  match n with
  | O => 0
  | S n => ldb m addr + sum_loop m (addr + 1) n
  end.
Definition sum (m : gmap Z Z) (addr len : Z) : Z := u8 (sum_loop m addr (Z.to_nat len)).

(** [memcmp(p, sig, 4) == 0]. *)
Definition signed_with (m : gmap Z Z) (p : Z) (sig : string) : bool :=
  bool_decide (memcmp (mem_bytes m p 4) (bytes sig) 4 = Some 0).

Definition is_mp (m : gmap Z Z) (p : Z) : bool := signed_with m p "_MP_" && (sum m p 16 =? 0).

(** [for(p = addr; p < e; p += sizeof(struct mp))]; [n] bounds the number of
    turns. *)
Fixpoint mpsearch1_loop (n : nat) (m : gmap Z Z) (p e : Z) : Z :=
  match n with
  | O => 0
  | S n => if p <? e then (if is_mp m p then p else mpsearch1_loop n m (u32 (p + 16)) e) else 0
  end.
Definition mpsearch1 (m : gmap Z Z) (a len : Z) : Z :=
  let addr := p2v a in
  mpsearch1_loop (Z.to_nat ((len + 15) / 16)) m addr (u32 (addr + len)).

Definition mpsearch (m : gmap Z Z) : Z :=
  let bda := p2v 0x400 in
  let p := Z.shiftl (Z.lor (Z.shiftl (ldb m (bda + 0x0F)) 8) (ldb m (bda + 0x0E))) 4 in
  let mp :=
    if negb (p =? 0) then mpsearch1 m p 1024
    else mpsearch1 m (u32 (Z.lor (Z.shiftl (ldb m (bda + 0x14)) 8) (ldb m (bda + 0x13)) * 1024 - 1024)) 1024 in
  if negb (mp =? 0) then mp else mpsearch1 m 0xF0000 0x10000.

Definition conf_length (m : gmap Z Z) (conf : Z) : Z := ldb m (conf + 4) + 2 ^ 8 * ldb m (conf + 5).

(** [mpconfig]: the floating pointer and the table. *)
Definition mpconfig (m : gmap Z Z) : option (Z * Z) :=
  let mp := mpsearch m in
  if (mp =? 0) || (ld32 m (mp + 4) =? 0) then None else
  let conf := p2v (ld32 m (mp + 4)) in
  if negb (signed_with m conf "PCMP") then None else
  if negb (ldb m (conf + 6) =? 1) && negb (ldb m (conf + 6) =? 4) then None else
  if negb (sum m conf (conf_length m conf) =? 0) then None else
  Some (mp, conf).

(** ** [mpinit] *)

Section mpinit.
Context {D : Type} `{ports D}.
Abbreviation MPM := (M (mach D mpvars)).

Definition upd_g (f : mpvars → mpvars) : MPM unit := modify (with_glob f).

(** [case MPPROC]: [cpus[ncpu]] past the array is undefined. *)
Definition mp_proc (p : Z) : MPM unit :=
  let* s := gets id in
  let apicid := ldb (m_mem s) (p + 1) in
  let flags := ldb (m_mem s) (p + 3) in
  do* (if negb (g_ncpu (m_glob s) =? apicid) then upd_g (set g_ismp (λ _, false)) else ret tt) in
  do* (if negb (Z.land flags MPBOOT =? 0) then upd_g (λ g, g <| g_bcpu := g_ncpu g |>) else ret tt) in
  let* s := gets id in
  let n := g_ncpu (m_glob s) in
  let* _ := deref "cpus[ncpu]" (g_ids (m_glob s) !! Z.to_nat n) in
  do* upd_g (set g_ids (<[Z.to_nat n := u8 n]>)) in
  upd_g (set g_ncpu (λ n, n + 1)).

(** The loop over the entries of the table; the default case of the switch
    does not advance [p]. *)
Fixpoint mp_loop (n : nat) (p e : Z) : MPM unit :=
  match n with
  | O => λ _, NoFuel
  | S n =>
      if p <? e then
        let* s := gets id in
        let ty := ldb (m_mem s) p in
        if ty =? MPPROC then do* mp_proc p in mp_loop n (u32 (p + 20)) e
        else if ty =? MPIOAPIC then
          do* upd_g (set g_ioapicid (λ _, ldb (m_mem s) (p + 1))) in mp_loop n (u32 (p + 8)) e
        else if (ty =? MPBUS) || (ty =? MPIOINTR) || (ty =? MPLINTR) then mp_loop n (u32 (p + 8)) e
        else do* upd_g (set g_ismp (λ _, false)) in mp_loop n p e
      else ret tt
  end.

Definition mpinit (fuel : nat) : MPM unit :=
  do* upd_g (set g_bcpu (λ _, 0)) in
  let* s := gets id in
  match mpconfig (m_mem s) with
  | None => ret tt
  | Some (mp, conf) =>
      do* upd_g (set g_ismp (λ _, true)) in
      do* upd_g (set g_lapic (λ _, ld32 (m_mem s) (conf + 36))) in
      do* mp_loop fuel (u32 (conf + 44)) (u32 (conf + conf_length (m_mem s) conf)) in
      let* s := gets id in
      if negb (g_ismp (m_glob s)) then
        upd_g (λ g, g <| g_ncpu := 1 |> <| g_lapic := 0 |> <| g_ioapicid := 0 |>)
      else if negb (ldb (m_mem s) (mp + 12) =? 0) then
        do* outb 0x22 0x70 in
        let* v := inb 0x23 in
        outb 0x23 (Z.lor v 1)
      else ret tt
  end.
End mpinit.

(** ** What the table says *)

Inductive mpentry := EProc (apicid flags : Z) | EIoapic (apicno : Z) | EOther.
Definition esize (x : mpentry) : Z := match x with EProc _ _ => 20 | _ => 8 end.
Definition entry_at (m : gmap Z Z) (p : Z) (x : mpentry) : Prop :=
  match x with
  | EProc a f => ldb m p = MPPROC ∧ ldb m (p + 1) = a ∧ ldb m (p + 3) = f
  | EIoapic a => ldb m p = MPIOAPIC ∧ ldb m (p + 1) = a
  | EOther => ldb m p = MPBUS ∨ ldb m p = MPIOINTR ∨ ldb m p = MPLINTR
  end.

(** The entries [es] from [p] to [q]. *)
Fixpoint table_at (m : gmap Z Z) (p : Z) (es : list mpentry) (q : Z) : Prop :=
  match es with
  | [] => p = q
  | x :: es => entry_at m p x ∧ table_at m (p + esize x) es q
  end.

Lemma table_le m es p q : table_at m p es q → p ≤ q.
Proof.
  revert p. induction es as [|x es IH]; cbn; intros p; [lia|]. intros [_ Hr%IH]. destruct x; cbn in Hr; lia.
Qed.

Definition proc_of (x : mpentry) : option (Z * Z) := match x with EProc a f => Some (a, f) | _ => None end.
Definition ioapic_of (x : mpentry) : option Z := match x with EIoapic a => Some a | _ => None end.
Abbreviation procs es := (omap proc_of es).

(** The number of the last processor that is marked as the boot processor. *)
Definition boot_index (ps : list (Z * Z)) : Z :=
  match list_find (λ p, Z.land p.2 MPBOOT ≠ 0) (reverse ps) with
  | Some (i, _) => length ps - 1 - Z.of_nat i
  | None => 0
  end.

(** The variables after the entries [es]; the numbers of the processors must
    be 0, 1, 2, ... in this order. *)
Definition vars_of (lapic : Z) (es : list mpentry) : mpvars :=
  let ps := procs es in
  mkMpvars (bool_decide (ps.*1 = seqZ 0 (length ps))) (length ps) (default 0 (last (omap ioapic_of es))) lapic
    (boot_index ps) (seqZ 0 (length ps) ++ replicate (NCPU - length ps) 0).

Lemma seqZ_snoc n : 0 ≤ n → seqZ 0 (n + 1) = seqZ 0 n ++ [n].
Proof. intros. by rewrite seqZ_app by lia. Qed.

Lemma boot_index_snoc ps a f :
  boot_index (ps ++ [(a, f)]) = if negb (Z.land f MPBOOT =? 0) then Z.of_nat (length ps) else boot_index ps.
Proof.
  unfold boot_index. rewrite reverse_app, length_app. cbn [reverse app list_find length]. change (reverse [(a, f)]) with [(a, f)]. cbn.
  destruct (Z.eqb_spec (Z.land f MPBOOT) 0) as [E|E]; cbn [negb].
  - rewrite decide_False by (cbn; tauto). destruct (list_find _ (reverse ps)) as [[i y]|] eqn:El; cbn; [lia|done].
  - rewrite decide_True by done. lia.
Qed.

Lemma in_order_snoc (ps : list (Z * Z)) a f n :
  n = Z.of_nat (length ps) →
  bool_decide ((ps ++ [(a, f)]).*1 = seqZ 0 (n + 1)) = bool_decide (ps.*1 = seqZ 0 n) && (n =? a).
Proof.
  intros ->. rewrite fmap_app, seqZ_snoc by lia. cbn. destruct (Z.eqb_spec (length ps) a) as [->|Hne].
  - rewrite andb_true_r. apply bool_decide_ext. split; [by intros [? _]%app_inj_tail|congruence].
  - rewrite andb_false_r. apply bool_decide_eq_false. intros [_ [=]]%app_inj_tail; congruence.
Qed.

Lemma vars_of_other lapic es x : proc_of x = None → ioapic_of x = None → vars_of lapic (es ++ [x]) = vars_of lapic es.
Proof. intros E1 E2. unfold vars_of. rewrite !omap_app. cbn. by rewrite E1, E2, !app_nil_r. Qed.

Lemma vars_of_ioapic lapic es a : vars_of lapic (es ++ [EIoapic a]) = (vars_of lapic es) <| g_ioapicid := a |>.
Proof. unfold vars_of. rewrite !omap_app. cbn. by rewrite !app_nil_r, last_snoc. Qed.

Lemma vars_of_proc lapic es a f :
  (length (procs es) < NCPU)%nat →
  let n := Z.of_nat (length (procs es)) in
  vars_of lapic (es ++ [EProc a f]) =
    (vars_of lapic es) <| g_ismp ::= λ b, b && (n =? a) |>
      <| g_bcpu ::= λ b, if negb (Z.land f MPBOOT =? 0) then n else b |>
      <| g_ids ::= <[length (procs es) := u8 n]> |> <| g_ncpu := n + 1 |>.
Proof.
  intros Hn n. unfold vars_of. rewrite !omap_app. cbn [omap list_omap proc_of ioapic_of]. rewrite app_nil_r, length_app.
  cbn [length]. rewrite Nat2Z.inj_add. change (Z.of_nat 1) with 1.
  rewrite (in_order_snoc _ _ _ n), boot_index_snoc by done. unfold set. cbn. f_equal.
  rewrite insert_app_r_alt by (by rewrite length_seqZ; lia). rewrite length_seqZ, seqZ_snoc by lia.
  rewrite <- app_assoc. f_equal. replace (length (procs es) - Z.to_nat (length (procs es)))%nat with 0%nat by lia.
  replace (NCPU - length (procs es))%nat with (S (NCPU - (length (procs es) + 1))) by lia. cbn. f_equal.
  unfold u8, n. unfold NCPU in Hn. lia.
Qed.

Section proofs.
Context {D : Type} `{ports D}.
Implicit Types s t : mach D mpvars.

(** The state with other variables. *)
Abbreviation setg g s := (mkMach (m_mem s) (m_dev s) g).

Lemma mp_proc_vars s p lapic es a f :
  m_glob s = vars_of lapic es → entry_at (m_mem s) p (EProc a f) → (length (procs es) < NCPU)%nat →
  mp_proc p s = Ret tt (setg (vars_of lapic (es ++ [EProc a f])) s).
Proof.
  intros Hg (_ & Ha & Hf) Hn. rewrite vars_of_proc by done. set (v := vars_of lapic es) in *.
  set (n := Z.of_nat (length (procs es))). cbv zeta.
  assert (g_ids v !! length (procs es) = Some 0) as Hid.
  { unfold v, vars_of. cbn. rewrite lookup_app_r by (rewrite length_seqZ; lia). rewrite length_seqZ. apply lookup_replicate. unfold NCPU in Hn. lia. }
  assert (g_ncpu v = n) as En by done. clearbody v. destruct s as [m d g]. cbn in *. subst g.
  unfold mp_proc, bind, gets, upd_g, modify, with_glob, deref, ret, id. cbn. rewrite Ha, Hf, En.
  destruct (Z.eqb_spec n a) as [Ea|Ea], (Z.land f MPBOOT =? 0); cbn; rewrite ?En; unfold n; rewrite Nat2Z.id, Hid; cbn; f_equal;
    destruct v; unfold set; cbn in *; subst; rewrite ?andb_true_r, ?andb_false_r; done.
Qed.

(** The entries of the table from [p] on. *)
Lemma mp_loop_vars n s p q e lapic done rest :
  m_glob s = vars_of lapic done → table_at (m_mem s) p rest q → 0 ≤ p → q ≤ e < 2 ^ 32 →
  (length (procs (done ++ rest)) ≤ NCPU)%nat →
  mp_loop (length rest + n) p e s = mp_loop n q e (setg (vars_of lapic (done ++ rest)) s).
Proof.
  revert s p done. induction rest as [|x rest IH]; intros s p done Hg Ht Hp He Hn; cbn [length Nat.add].
  - cbn in Ht. subst q. rewrite app_nil_r, <- Hg. by destruct s.
  - cbn in Ht. destruct Ht as [Hx Ht]. cbn [mp_loop].
    pose proof (table_le _ _ _ _ Ht) as Hpq.
    assert (0 < esize x) as Hsz by (by destruct x).
    rewrite (proj2 (Z.ltb_lt _ _)) by lia. rewrite (bind_ret _ _ s (id s) s) by done. unfold id.
    replace (done ++ x :: rest) with ((done ++ [x]) ++ rest) in * by (by rewrite <- app_assoc).
    assert (∀ g, g = vars_of lapic (done ++ [x]) →
      mp_loop (length rest + n) (p + esize x) e (setg g s) = mp_loop n q e (setg (vars_of lapic ((done ++ [x]) ++ rest)) s)) as Hrest.
    { intros g ->. by rewrite (IH _ _ (done ++ [x])) by (done || lia). }
    destruct x as [a f|a|]; cbn [esize] in *.
    + pose proof Hx as (E & _). rewrite E. change (MPPROC =? MPPROC) with true. rewrite u32_small by lia. rewrite (bind_ret _ _ s tt (setg (vars_of lapic (done ++ [EProc a f])) s)); [by apply Hrest|].
      apply mp_proc_vars; [done|done|]. rewrite !omap_app, !length_app in Hn. cbn [omap list_omap proc_of length] in Hn. lia.
    + destruct Hx as (E & Ea). rewrite E. change (MPIOAPIC =? MPPROC) with false. change (MPIOAPIC =? MPIOAPIC) with true. rewrite (u32_small (p + 8)) by lia. cbv iota. erewrite bind_ret; [|reflexivity].
      apply Hrest. by rewrite vars_of_ioapic, Ea, Hg.
    + assert (mp_loop (length rest + n) (p + 8) e s = mp_loop n q e (setg (vars_of lapic ((done ++ [EOther]) ++ rest)) s)) as Hr.
      { replace s with (setg (m_glob s) s) at 1 by (by destruct s). apply Hrest. by rewrite vars_of_other, Hg. }
      rewrite (u32_small (p + 8)) by lia. destruct Hx as [E|[E|E]]; rewrite E; exact Hr.
Qed.

(** Fewer turns than entries are not enough. *)
Lemma mp_loop_short n s p q e lapic done rest :
  m_glob s = vars_of lapic done → table_at (m_mem s) p rest q → 0 ≤ p → q < e < 2 ^ 32 →
  (length (procs (done ++ rest)) ≤ NCPU)%nat → (n ≤ length rest)%nat →
  mp_loop n p e s = NoFuel.
Proof.
  intros Hg Ht Hp He Hn Hl. rewrite <- (take_drop n rest) in Ht, Hn. rewrite app_assoc in Hn.
  assert (∃ r, table_at (m_mem s) p (take n rest) r ∧ r ≤ q) as (r & Hr & Hrq).
  { clear -Ht. revert p Ht. induction (take n rest) as [|y l IH]; cbn; intros p Ht.
    - exists p. split; [done|]. by apply table_le in Ht.
    - destruct Ht as [Hy (r & Hr & Hq)%IH]. by exists r. }
  replace n with (length (take n rest) + 0)%nat at 1 by (rewrite length_take; lia).
  by rewrite (mp_loop_vars 0 s p r e lapic done (take n rest)); [..|lia|rewrite omap_app, length_app in Hn; lia].
Qed.

(** An entry of another type stops the progress of the loop. *)
Lemma mp_loop_unknown n s p e : p < e → 4 < ldb (m_mem s) p → mp_loop n p e s = NoFuel.
Proof.
  intros Hp Hx. revert s Hx. induction n as [|n IH]; intros s Hx; [done|]. cbn [mp_loop].
  rewrite (proj2 (Z.ltb_lt _ _)) by lia. rewrite (bind_ret _ _ s (id s) s) by done. unfold id.
  unfold MPPROC, MPIOAPIC, MPBUS, MPIOINTR, MPLINTR.
  rewrite !(proj2 (Z.eqb_neq (ldb (m_mem s) p) _)) by lia. cbn [orb].
  erewrite bind_ret; [|reflexivity]. by apply IH.
Qed.
End proofs.

(** C25: if the table has only known entries and at most [NCPU] processors,
    [mpinit] ends with one CPU per processor entry, numbered from 0, the boot
    processor and the interrupt controllers of the table, provided the local
    interrupt controllers are numbered the same way; otherwise it falls back to
    one CPU without interrupt controllers.  Only the IMCR ports are written, and
    only if the floating pointer asks for it. *)
Theorem mpinit_correct {D} `{ports D} (s : mach D mpvars) fuel mp conf es :
  mpconfig (m_mem s) = Some (mp, conf) → m_glob s = mpvars_zero →
  0 ≤ conf → conf + conf_length (m_mem s) conf < 2 ^ 32 →
  table_at (m_mem s) (conf + 44) es (conf + conf_length (m_mem s) conf) →
  (length (procs es) ≤ NCPU)%nat → (length es < fuel)%nat →
  returns (mpinit fuel) s (λ _ t, m_mem t = m_mem s ∧
    m_glob t = (let v := vars_of (ld32 (m_mem s) (conf + 36)) es in
                if g_ismp v then v else v <| g_ncpu := 1 |> <| g_lapic := 0 |> <| g_ioapicid := 0 |>) ∧
    m_dev t = if g_ismp (vars_of 0 es) && negb (ldb (m_mem s) (mp + 12) =? 0)
              then let r := in8 0x23 (out8 0x22 0x70 (m_dev s)) in out8 0x23 (u8 (Z.lor r.1 1)) r.2
              else m_dev s).
Proof.
  intros Hc Hg H0 Hl Ht Hn Hf. unfold mpinit. apply returns_bind, returns_modify, returns_bind, returns_gets.
  change (m_mem (id _)) with (m_mem s). rewrite Hc.
  apply returns_bind, returns_modify, returns_bind, returns_modify, returns_bind.
  pose proof (table_le _ _ _ _ Ht) as Hle.
  rewrite !u32_small by lia. set (t := with_glob _ _). set (q := conf + conf_length (m_mem s) conf) in *.
  assert (m_glob t = vars_of (ld32 (m_mem s) (conf + 36)) []) as Hgt by (unfold t; cbn; by rewrite Hg).
  replace fuel with (length es + S (fuel - length es - 1))%nat by lia.
  eapply returns_eq.
  { rewrite (mp_loop_vars _ t (conf + 44) q q (ld32 (m_mem s) (conf + 36)) []) by (done || lia).
    cbn [mp_loop]. rewrite Z.ltb_irrefl. reflexivity. }
  apply returns_bind, returns_gets. cbn [app].
  change (m_glob (id _)) with (vars_of (ld32 (m_mem s) (conf + 36)) es). change (m_mem (id _)) with (m_mem s).
  change (g_ismp (vars_of 0 es)) with (g_ismp (vars_of (ld32 (m_mem s) (conf + 36)) es)).
  set (v := vars_of (ld32 (m_mem s) (conf + 36)) es). clearbody v. cbv zeta. destruct (g_ismp v) eqn:Ei; cbn [negb andb].
  - destruct (Z.eqb_spec (ldb (m_mem s) (mp + 12)) 0); cbn [negb]; [by apply returns_ret|].
    apply returns_bind, returns_modify, returns_bind. eapply returns_eq; [reflexivity|]. by apply returns_modify.
  - by apply returns_modify.
Qed.

(** an entry of a type the code does not know makes [mpinit] loop for ever:
    no bound on the number of turns is enough. *)
Theorem mpinit_unknown_hangs {D} `{ports D} (s : mach D mpvars) mp conf es p :
  mpconfig (m_mem s) = Some (mp, conf) → m_glob s = mpvars_zero →
  0 ≤ conf → conf + conf_length (m_mem s) conf < 2 ^ 32 →
  table_at (m_mem s) (conf + 44) es p → p < conf + conf_length (m_mem s) conf → 4 < ldb (m_mem s) p →
  (length (procs es) ≤ NCPU)%nat →
  ∀ fuel, mpinit fuel s = NoFuel.
Proof.
  intros Hc Hg H0 Hl Ht Hp Hx Hn fuel. unfold mpinit. rewrite (bind_ret _ _ s tt (with_glob (set g_bcpu (λ _, 0)) s)) by done.
  erewrite bind_ret; [|reflexivity]. change (m_mem (id _)) with (m_mem s). rewrite Hc.
  do 2 (erewrite bind_ret; [|reflexivity]). pose proof (table_le _ _ _ _ Ht) as Hle. rewrite !u32_small by lia.
  set (t := with_glob _ _). set (e := conf + conf_length (m_mem s) conf) in *.
  assert (m_glob t = vars_of (ld32 (m_mem s) (conf + 36)) []) as Hgt by (unfold t; cbn; by rewrite Hg).
  assert (mp_loop fuel (conf + 44) e t = NoFuel) as E; [|unfold bind; by rewrite E].
  destruct (decide (fuel ≤ length es)%nat) as [Hf|Hf].
  - apply (mp_loop_short _ _ _ p e (ld32 (m_mem s) (conf + 36)) [] es); done || lia.
  - replace fuel with (length es + (fuel - length es))%nat by lia.
    rewrite (mp_loop_vars _ t (conf + 44) p e (ld32 (m_mem s) (conf + 36)) []) by (done || lia). by apply mp_loop_unknown.
Qed.

(** ** The search *)

(** [mpsearch1] finds the first structure at a multiple of 16 bytes from the
    start of the area. *)
Lemma mpsearch1_first m a len :
  0 ≤ len → p2v a + len + 16 ≤ 2 ^ 32 →
  let r := mpsearch1 m a len in
  (r = 0 ∧ ∀ i, 0 ≤ i → 16 * i < len → is_mp m (p2v a + 16 * i) = false) ∨
  (∃ i, 0 ≤ i ∧ 16 * i < len ∧ r = p2v a + 16 * i ∧ is_mp m r = true ∧
    ∀ j, 0 ≤ j < i → is_mp m (p2v a + 16 * j) = false).
Proof.
  intros Hl Hw r. assert (0 ≤ p2v a) as Ha by (unfold p2v, u32; lia). unfold r, mpsearch1. rewrite u32_small by lia.
  assert (∀ (n : nat) k, 0 ≤ k → len ≤ 16 * (k + n) → (∀ j, 0 ≤ j < k → is_mp m (p2v a + 16 * j) = false) →
    let r := mpsearch1_loop n m (p2v a + 16 * k) (p2v a + len) in
    (r = 0 ∧ ∀ i, 0 ≤ i → 16 * i < len → is_mp m (p2v a + 16 * i) = false) ∨
    (∃ i, 0 ≤ i ∧ 16 * i < len ∧ r = p2v a + 16 * i ∧ is_mp m r = true ∧
      ∀ j, 0 ≤ j < i → is_mp m (p2v a + 16 * j) = false)) as Hloop.
  { clear r. induction n as [|n IH]; intros k Hk Hn Hno; cbn [mpsearch1_loop].
    - left. split; [done|]. intros i Hi Hil. apply Hno. lia.
    - destruct (Z.ltb_spec (p2v a + 16 * k) (p2v a + len)) as [Hlt|Hge].
      + destruct (is_mp m (p2v a + 16 * k)) eqn:E; [right; exists k; split_and!; done || lia|].
        rewrite u32_small by lia. replace (p2v a + 16 * k + 16) with (p2v a + 16 * (k + 1)) by lia. apply IH; [lia|lia|].
        intros j Hj. destruct (decide (j = k)) as [->|]; [done|apply Hno; lia].
      + left. split; [done|]. intros i Hi Hil. apply Hno. lia. }
  specialize (Hloop (Z.to_nat ((len + 15) / 16)) 0 ltac:(lia) ltac:(lia)).
  rewrite Z.mul_0_r, Z.add_0_r in Hloop. apply Hloop. lia.
Qed.

(** ** Witnesses *)

Module mp_demo.
#[local] Existing Instance drive.

(** The checksum byte [i] of [l]. *)
Definition seal (i : nat) (l : list Z) : list Z := <[i := u8 (- foldr Z.add 0 l)]> l.
Definition pointer (conf : Z) : list Z := seal 10 (bytes "_MP_" ++ word_bytes conf ++ [1; 4; 0; 0; 0; 0; 0; 0]).
Definition conf_of (body : list Z) : list Z :=
  seal 7 (bytes "PCMP" ++ take 2 (word_bytes (44 + length body)) ++ [4; 0] ++ replicate 28 0 ++
          word_bytes 0xfee00000 ++ replicate 4 0 ++ body).
Definition processor (id flags : Z) : list Z := [0; id; 0; flags] ++ replicate 16 0.

(** The floating pointer at 0xF0000, the table at 0xF0100: two processors, the
    second one booting, an I/O controller and a bus. *)
Definition table : list Z := processor 0 1 ++ processor 1 3 ++ [2; 5; 0; 1; 0; 0; 0; 0] ++ [1; 0; 0; 0; 0; 0; 0; 0].
Definition mem_of (body : list Z) : gmap Z Z :=
  st_bytes (st_bytes ∅ (p2v 0xF0000) (pointer 0xF0100)) (p2v 0xF0100) (conf_of body).
Definition start (body : list Z) : mach ata_t mpvars := mkMach (mem_of body) (mkAta [] 0 0 0 0 0 [] None 0 false) mpvars_zero.

Lemma mpinit_correct_witness :
  mpconfig (mem_of table) = Some (p2v 0xF0000, p2v 0xF0100) ∧
  returns (mpinit 5) (start table) (λ _ t,
    m_glob t = mkMpvars true 2 5 0xfee00000 1 [0; 1; 0; 0; 0; 0; 0; 0]).
Proof.
  split; [vm_compute; reflexivity|]. eapply returns_mono.
  - apply (mpinit_correct (start table) 5 (p2v 0xF0000) (p2v 0xF0100) [EProc 0 1; EProc 1 3; EIoapic 5; EOther]).
    + vm_compute. reflexivity.
    + reflexivity.
    + vm_compute. discriminate.
    + vm_compute. reflexivity.
    + cbn [table_at entry_at]. split_and!; try (vm_compute; reflexivity). left. vm_compute. reflexivity.
    + apply (bool_decide_unpack _). vm_compute. exact I.
    + apply (bool_decide_unpack _). vm_compute. exact I.
  - intros _ t (_ & -> & _). vm_compute. reflexivity.
Defined.

(** After a processor, an entry of type 5. *)
Lemma mpinit_unknown_hangs_witness :
  mpconfig (mem_of (processor 0 3 ++ [5])) = Some (p2v 0xF0000, p2v 0xF0100) ∧
  ∀ fuel, mpinit fuel (start (processor 0 3 ++ [5])) = NoFuel.
Proof.
  split; [vm_compute; reflexivity|].
  apply (mpinit_unknown_hangs (start (processor 0 3 ++ [5])) (p2v 0xF0000) (p2v 0xF0100) [EProc 0 3] (p2v 0xF0100 + 64)).
  - vm_compute. reflexivity.
  - reflexivity.
  - vm_compute. discriminate.
  - vm_compute. reflexivity.
  - cbn [table_at entry_at]. split_and!; vm_compute; reflexivity.
  - vm_compute. reflexivity.
  - vm_compute. reflexivity.
  - apply (bool_decide_unpack _). vm_compute. exact I.
Defined.

(** A structure in the first half of the BIOS area is not found, although the
    comment of [mpsearch] names the area from 0xE0000 on. *)
Example mpsearch_skips_bios :
  let m := st_bytes ∅ (p2v 0xE0000) (pointer 0xF0100) in is_mp m (p2v 0xE0000) = true ∧ mpsearch m = 0.
Proof. split; vm_compute; reflexivity. Qed.
End mp_demo.
