(* ===== verification/Screen.v ===== *)
(** Characters on the screen and the serial port (console.c's [cgaputc] and
    [consputc], uart.c's [uartputc] and [uartgetc]): the text memory and the cursor of the
    display adapter, and the terminal they implement. *)
From stdpp Require Import base numbers gmap strings option list.
From S2P Require Import Prelude State Spinlock Str Ports.

(** ** The code *)

Definition BACKSPACE : Z := 0x100.
Definition CRTPORT : Z := 0x3d4.
Definition COM1 : Z := 0x3f8.
Definition crt : Z := p2v 0xb8000.

(** [uart], is there a serial port, and [panicked]. *)
Record consvars := mkConsvars { cv_uart : bool; cv_panicked : bool }.

(** [crt[i] = v], [i] counting half-words. *)
Definition st16 (m : gmap Z Z) (a v : Z) : gmap Z Z := stb (stb m a v) (a + 1) (Z.shiftr v 8).
Definition crt_set (i v : Z) (m : gmap Z Z) : gmap Z Z := st16 m (crt + 2 * i) v.

(** The character at the cursor, and scrolling: memory and position. *)
Definition cga_char (c pos : Z) (m : gmap Z Z) : gmap Z Z * Z :=
  if c =? 10 then (m, pos + (80 - pos mod 80))
  else if c =? BACKSPACE then (m, if 0 <? pos then pos - 1 else pos)
  else (crt_set pos (Z.lor (Z.land c 0xff) 0x0700) m, pos + 1).
Definition cga_scroll (pos : Z) (m : gmap Z Z) : gmap Z Z * Z :=
  if 24 <=? pos / 80 then
    let m := memmove m crt (crt + 2 * 80) (2 * 23 * 80) in
    let pos := pos - 80 in
    (memset m (crt + 2 * pos) 0 (u32 (2 * (24 * 80 - pos))), pos)
  else (m, pos).

(** The serial port, once it is known to exist. *)
Section uart.
Context {D G : Type} `{ports D}.

(** [for(i = 0; i < 128 && !(inb(COM1+5) & 0x20); i++) microdelay(10)];
    [microdelay] has an empty body. *)
Fixpoint uart_wait (n : nat) : M (mach D G) unit :=
  match n with
  | O => ret tt
  | S n => let* st := inb (COM1 + 5) in if Z.land st 0x20 =? 0 then uart_wait n else ret tt
  end.
Definition uart_send (c : Z) : M (mach D G) unit :=
  do* uart_wait 128 in
  outb (COM1 + 0) c.
End uart.

Section code.
Context {D : Type} `{ports D}.
Abbreviation CM := (M (mach D consvars)).

(** The cursor position, from and to the registers of the adapter. *)
Definition cga_getpos : CM Z :=
  do* outb CRTPORT 14 in
  let* hi := inb (CRTPORT + 1) in
  do* outb CRTPORT 15 in
  let* lo := inb (CRTPORT + 1) in
  ret (Z.lor (Z.shiftl hi 8) lo).
Definition cga_setpos (pos : Z) : CM unit :=
  do* outb CRTPORT 14 in
  do* outb (CRTPORT + 1) (Z.shiftr pos 8) in
  do* outb CRTPORT 15 in
  outb (CRTPORT + 1) pos.

Definition cgaputc (c : Z) : CM unit :=
  let* pos := cga_getpos in
  let* s := gets id in
  let r := cga_char c pos (m_mem s) in
  let r := cga_scroll r.2 r.1 in
  do* modify (with_mem (λ _, r.1)) in
  do* cga_setpos r.2 in
  modify (with_mem (crt_set r.2 (Z.lor 32 0x0700))).

Definition uartputc (c : Z) : CM unit :=
  let* s := gets id in
  if negb (cv_uart (m_glob s)) then ret tt else uart_send c.

(** The received byte, or -1. *)
Definition uartgetc : CM Z :=
  let* s := gets id in
  if negb (cv_uart (m_glob s)) then ret (-1) else
  let* st := inb (COM1 + 5) in
  if Z.land st 0x01 =? 0 then ret (-1) else
  inb (COM1 + 0).

(** [consputc]; a CPU that comes here after a panic stops. *)
Definition consputc_io (c : Z) : CM unit :=
  let* s := gets id in
  if cv_panicked (m_glob s) then (λ _, NoFuel) else
  do* (if c =? BACKSPACE then
         do* uartputc 8 in do* uartputc 32 in uartputc 8
       else uartputc c) in
  cgaputc c.
End code.

(** ** The display adapter *)

(** The registers 14 and 15 of the 6845 hold the cursor; no other port matters
    to them. *)
Class crtc (D : Type) `{ports D} := {
  cursor : D → Z;
  crt_index : D → Z;
  cursor_range d : 0 ≤ cursor d < 2 ^ 16;
  crt_select d v : 0 ≤ v < 256 → cursor (out8 CRTPORT v d) = cursor d ∧ crt_index (out8 CRTPORT v d) = v;
  crt_read d : cursor (in8 (CRTPORT + 1) d).2 = cursor d ∧
    (crt_index d = 14 → (in8 (CRTPORT + 1) d).1 = cursor d / 256) ∧
    (crt_index d = 15 → (in8 (CRTPORT + 1) d).1 = cursor d mod 256);
  crt_write d v : 0 ≤ v < 256 →
    (crt_index d = 14 → cursor (out8 (CRTPORT + 1) v d) = 256 * v + cursor d mod 256) ∧
    (crt_index d = 15 → cursor (out8 (CRTPORT + 1) v d) = cursor d / 256 * 256 + v);
  crt_in p d : COM1 ≤ p < COM1 + 8 → cursor (in8 p d).2 = cursor d;
  crt_out p v d : COM1 ≤ p < COM1 + 8 → cursor (out8 p v d) = cursor d;
}.

(** ** The terminal *)

(** 24 lines of 80 cells, and the position of the next character. *)
Record term := mkTerm { tm_cells : list Z; tm_pos : Z }.

Definition blank : Z := 0x0720.
Definition attr (c : Z) : Z := 0x0700 + c mod 256.

Definition term_char (c : Z) (t : term) : term :=
  if c =? 10 then mkTerm (tm_cells t) (80 * (tm_pos t / 80 + 1))
  else if c =? BACKSPACE then mkTerm (tm_cells t) (Z.max 0 (tm_pos t - 1))
  else mkTerm (<[Z.to_nat (tm_pos t) := attr c]> (tm_cells t)) (tm_pos t + 1).

(** Past the last line, the first line goes. *)
Definition term_scroll (t : term) : term :=
  if tm_pos t =? 1920 then mkTerm (drop 80 (tm_cells t) ++ replicate 80 0) 1840 else t.

(** The cell at the cursor is blank. *)
Definition term_put (t : term) (c : Z) : term :=
  let t := term_scroll (term_char c t) in
  mkTerm (<[Z.to_nat (tm_pos t) := blank]> (tm_cells t)) (tm_pos t).

(** The cells in memory. *)
Definition cell (m : gmap Z Z) (i : Z) : Z := u8 (ldb m (crt + 2 * i)) + 2 ^ 8 * u8 (ldb m (crt + 2 * i + 1)).
Definition cells (m : gmap Z Z) : list Z := (λ i : nat, cell m i) <$> seq 0 1920.
Definition on_screen (a : Z) : Prop := crt ≤ a < crt + 2 * 1920.

(** ** Lemmas *)

Lemma lor_high_low hi lo k : 0 ≤ k → 0 ≤ lo < 2 ^ k → Z.lor (Z.shiftl hi k) lo = hi * 2 ^ k + lo.
Proof.
  intros Hk Hlo. rewrite <- Z.add_nocarry_lor; [by rewrite Z.shiftl_mul_pow2|].
  apply Z.bits_inj'. intros n Hn. rewrite Z.land_spec, Z.shiftl_spec, Z.bits_0 by done.
  destruct (decide (n < k)); [by rewrite (Z.testbit_neg_r _ (n - k)) by lia|].
  rewrite <- (Z.mod_small lo (2 ^ k)), Z.mod_pow2_bits_high by lia. apply andb_false_r.
Qed.

Lemma attr_value c : Z.lor (Z.land c 0xff) 0x0700 = attr c.
Proof.
  unfold attr. change 0xff with (Z.ones 8). rewrite Z.land_ones, Z.lor_comm by lia.
  change 0x0700 with (Z.shiftl 7 8). rewrite lor_high_low by lia. done.
Qed.

Lemma cell_set m i v j :
  cell (crt_set i v m) j = if decide (i = j) then v mod 2 ^ 16 else cell m j.
Proof.
  unfold cell, crt_set, st16. rewrite !ldb_stb, !Z.shiftr_div_pow2 by lia. unfold u8.
  repeat case_decide; try lia.
Qed.

Lemma cells_lookup m (i : nat) : (i < 1920)%nat → cells m !! i = Some (cell m i).
Proof. intros. unfold cells. by rewrite list_lookup_fmap, lookup_seq_lt. Qed.

Lemma cells_length m : length (cells m) = 1920%nat.
Proof. unfold cells. by rewrite length_fmap, length_seq. Qed.

(** Lists of 1920 cells, by position. *)
Lemma cells_ext m l : length l = 1920%nat → (∀ i : nat, (i < 1920)%nat → l !! i = Some (cell m i)) → cells m = l.
Proof.
  intros Hl Hi. apply list_eq. intros i. destruct (decide (i < 1920)%nat) as [Hlt|Hge].
  - by rewrite cells_lookup, Hi.
  - rewrite !lookup_ge_None_2; [done| |]; rewrite ?cells_length, ?Hl; lia.
Qed.

Lemma cells_set m i v : 0 ≤ i < 1920 → 0 ≤ v < 2 ^ 16 → cells (crt_set i v m) = <[Z.to_nat i := v]> (cells m).
Proof.
  intros Hi Hv. apply cells_ext; [by rewrite length_insert, cells_length|]. intros j Hj. rewrite cell_set.
  case_decide; subst.
  - rewrite Nat2Z.id, list_lookup_insert_eq by (rewrite cells_length; lia). by rewrite Z.mod_small.
  - rewrite list_lookup_insert_ne by lia. by apply cells_lookup.
Qed.

Lemma ldb_crt_set i v m a : 0 ≤ i < 1920 → ¬ on_screen a → ldb (crt_set i v m) a = ldb m a.
Proof. intros Hi Ha. unfold crt_set, st16, on_screen in *. by rewrite !ldb_stb_ne by lia. Qed.

Lemma cga_char_term c pos m :
  0 ≤ pos < 1920 →
  let r := cga_char c pos m in
  mkTerm (cells r.1) r.2 = term_char c (mkTerm (cells m) pos) ∧ 0 ≤ r.2 ≤ 1920 ∧
  ∀ a, ¬ on_screen a → ldb r.1 a = ldb m a.
Proof.
  intros Hp. unfold cga_char, term_char. cbn [tm_cells tm_pos]. destruct (c =? 10); cbn [fst snd]; [|destruct (c =? BACKSPACE); cbn [fst snd]].
  - split_and!; [f_equal; lia|lia|lia|done].
  - split_and!; [|destruct (Z.ltb_spec 0 pos); lia..|done]. destruct (Z.ltb_spec 0 pos); f_equal; lia.
  - rewrite attr_value. assert (0 ≤ attr c < 2 ^ 16) by (unfold attr; lia). rewrite cells_set by done.
    split_and!; [done|lia|lia|]. intros a Ha. by apply ldb_crt_set.
Qed.

Lemma cga_scroll_term pos m :
  0 ≤ pos ≤ 1920 →
  let r := cga_scroll pos m in
  mkTerm (cells r.1) r.2 = term_scroll (mkTerm (cells m) pos) ∧ 0 ≤ r.2 < 1920 ∧
  ∀ a, ¬ on_screen a → ldb r.1 a = ldb m a.
Proof.
  intros Hp. unfold cga_scroll, term_scroll. cbn [tm_cells tm_pos].
  destruct (Z.leb_spec 24 (pos / 80)) as [Hs|Hs]; [|rewrite (proj2 (Z.eqb_neq pos 1920)) by lia; cbn [fst snd]; split_and!; done || lia].
  assert (pos = 1920) as -> by lia. cbn [fst snd]. rewrite Z.eqb_refl. change (u32 _) with 160. split_and!; [|lia|lia|].
  - f_equal. apply cells_ext; [by rewrite length_app, length_drop, cells_length, length_replicate|]. intros i Hi. unfold cell.
    rewrite !ldb_memset, !memmove_correct by lia. destruct (decide (i < 1840)%nat) as [Hlt|Hge].
    + do 2 (rewrite decide_False, decide_True by lia). rewrite !u8_u8. rewrite lookup_app_l by (rewrite length_drop, cells_length; lia).
      rewrite lookup_drop, cells_lookup by lia. unfold cell.
      replace (crt + 2 * 80 + (crt + 2 * i - crt)) with (crt + 2 * (80 + i)%nat) by lia.
      replace (crt + 2 * 80 + (crt + 2 * i + 1 - crt)) with (crt + 2 * (80 + i)%nat + 1) by lia. done.
    + do 2 (rewrite decide_True by lia). rewrite lookup_app_r by (rewrite length_drop, cells_length; lia).
      rewrite length_drop, cells_length. rewrite lookup_replicate_2 by lia. done.
  - intros a Ha. unfold on_screen in Ha. rewrite ldb_memset, memmove_correct, !decide_False by lia. done.
Qed.

#[local] Opaque cells.

Section proofs.
Context {D : Type} `{crtc D}.
Implicit Types s t : mach D consvars.

(** The terminal a machine shows. *)
Definition shown s : term := mkTerm (cells (m_mem s)) (cursor (m_dev s)).
Definition term_ok (x : term) : Prop := 0 ≤ tm_pos x < 1920.

(** Reading the cursor. *)
Lemma cga_cursor s :
  returns cga_getpos s
    (λ pos t, pos = cursor (m_dev s) ∧ cursor (m_dev t) = cursor (m_dev s) ∧ m_mem t = m_mem s ∧ m_glob t = m_glob s).
Proof.
  apply returns_bind, returns_modify, returns_bind. eapply returns_eq; [reflexivity|].
  apply returns_bind, returns_modify, returns_bind. eapply returns_eq; [reflexivity|]. cbn.
  change (u8 14) with 14. change (u8 15) with 15.
  destruct (crt_select (m_dev s) 14) as [C1 I1]; [lia|]. set (d1 := out8 CRTPORT 14 (m_dev s)) in *.
  destruct (crt_read d1) as (C2 & R2 & _). rewrite R2 by done. set (d2 := (in8 (CRTPORT + 1) d1).2) in *.
  destruct (crt_select d2 15) as [C3 I3]; [lia|]. set (d3 := out8 CRTPORT 15 d2) in *.
  destruct (crt_read d3) as (C4 & _ & R4). rewrite R4 by done.
  apply returns_ret. cbn. pose proof (cursor_range (m_dev s)). rewrite lor_high_low by lia.
  split_and!; [|by rewrite C4, C3, C2, C1|done|done]. rewrite C3, C2, C1. lia.
Qed.

(** Writing it. *)
Lemma cga_move s pos :
  0 ≤ pos < 2 ^ 16 →
  returns (cga_setpos pos) s
    (λ _ t, cursor (m_dev t) = pos ∧ m_mem t = m_mem s ∧ m_glob t = m_glob s).
Proof.
  intros Hp. apply returns_bind, returns_modify, returns_bind, returns_modify, returns_bind, returns_modify, returns_modify. cbn.
  change (u8 14) with 14. change (u8 15) with 15. split_and!; [|done|done].
  destruct (crt_select (m_dev s) 14) as [C1 I1]; [lia|]. set (d1 := out8 CRTPORT 14 (m_dev s)) in *.
  destruct (crt_write d1 (u8 (Z.shiftr pos 8))) as [W _]; [apply u8_range|]. specialize (W I1). set (d2 := out8 (CRTPORT + 1) _ d1) in *.
  destruct (crt_select d2 15) as [C3 I3]; [lia|]. set (d3 := out8 CRTPORT 15 d2) in *.
  destruct (crt_write d3 (u8 pos)) as [_ W2]; [apply u8_range|]. rewrite W2, C3, W by done.
  unfold u8. rewrite Z.shiftr_div_pow2 by lia. lia.
Qed.

(** What a step of the code keeps beside the screen. *)
Definition beside s t : Prop := m_glob t = m_glob s ∧ ∀ a, ¬ on_screen a → ldb (m_mem t) a = ldb (m_mem s) a.

Lemma cgaputc_term c s :
  term_ok (shown s) →
  returns (cgaputc c) s (λ _ t, shown t = term_put (shown s) c ∧ term_ok (shown t) ∧ beside s t).
Proof.
  intros Hs. unfold cgaputc. apply returns_bind. eapply returns_mono; [apply cga_cursor|].
  cbv beta. intros pos t (-> & Ct & Mt & Gt). apply returns_bind, returns_gets. unfold id. rewrite Mt.
  destruct (cga_char_term c (cursor (m_dev s)) (m_mem s) Hs) as (E1 & P1 & F1). set (r1 := cga_char _ _ _) in *. cbv zeta in *.
  destruct (cga_scroll_term r1.2 r1.1 P1) as (E2 & P2 & F2). set (r2 := cga_scroll _ _) in *. clearbody r1 r2.
  apply returns_bind, returns_modify, returns_bind. eapply returns_mono; [apply cga_move; lia|].
  cbv beta. intros _ u (Cu & Mu & Gu). apply returns_modify. unfold shown, with_mem, beside, term_ok, term_put. cbn [m_mem m_dev m_glob tm_pos tm_cells].
  change (Z.lor 32 0x0700) with blank. rewrite Cu, Mu, Gu. cbn [m_mem m_glob with_mem]. rewrite cells_set by (unfold blank; lia).
  rewrite <- E1, <- E2. cbn [tm_pos tm_cells]. split_and!; [done|lia|lia|done|].
  intros a Ha. rewrite ldb_crt_set, F2, F1 by done. done.
Qed.

Lemma uart_wait_keeps n s :
  returns (uart_wait n) s (λ _ t, cursor (m_dev t) = cursor (m_dev s) ∧ m_mem t = m_mem s ∧ m_glob t = m_glob s).
Proof.
  revert s. induction n as [|n IH]; intros s; cbn [uart_wait]; [by apply returns_ret|].
  apply returns_bind. eapply returns_eq; [reflexivity|]. pose proof (crt_in (COM1 + 5) (m_dev s) ltac:(lia)) as Hc.
  destruct (_ =? 0); [|by apply returns_ret]. eapply returns_mono; [apply IH|]. cbn. intros _ t (C & M & G). by rewrite C, Hc.
Qed.

Lemma uartputc_keeps c s :
  returns (uartputc c) s (λ _ t, cursor (m_dev t) = cursor (m_dev s) ∧ m_mem t = m_mem s ∧ m_glob t = m_glob s).
Proof.
  unfold uartputc, uart_send. apply returns_bind, returns_gets. destruct (cv_uart _); cbn [negb]; [|by apply returns_ret].
  apply returns_bind. eapply returns_mono; [apply uart_wait_keeps|]. cbv beta. intros _ t (C & M & G).
  apply returns_modify. cbn. rewrite crt_out by lia. done.
Qed.

Lemma consputc_term c s :
  cv_panicked (m_glob s) = false → term_ok (shown s) →
  returns (consputc_io c) s (λ _ t, shown t = term_put (shown s) c ∧ term_ok (shown t) ∧ beside s t).
Proof.
  intros Hp Hs. unfold consputc_io. apply returns_bind, returns_gets. unfold id. rewrite Hp. apply returns_bind.
  assert (returns (if c =? BACKSPACE then do* uartputc 8 in do* uartputc 32 in uartputc 8 else uartputc c) s
    (λ _ t, cursor (m_dev t) = cursor (m_dev s) ∧ m_mem t = m_mem s ∧ m_glob t = m_glob s)) as Hu.
  { destruct (c =? BACKSPACE); [|apply uartputc_keeps].
    apply returns_bind. eapply returns_mono; [apply uartputc_keeps|]. cbv beta. intros _ t1 (C1 & M1 & G1).
    apply returns_bind. eapply returns_mono; [apply uartputc_keeps|]. cbv beta. intros _ t2 (C2 & M2 & G2).
    eapply returns_mono; [apply uartputc_keeps|]. cbv beta. intros _ t3 (C3 & M3 & G3). split_and!; congruence. }
  eapply returns_mono; [exact Hu|]. cbv beta. intros _ t (C & M & G).
  assert (shown t = shown s) as Et by (unfold shown; by rewrite C, M).
  eapply returns_mono; [apply cgaputc_term; by rewrite Et|]. cbv beta. intros _ u (Eu & Hu' & Gu & Fu).
  split_and!; [by rewrite Eu, Et|done|]. split; [by rewrite Gu, G|]. intros a Ha. by rewrite Fu, M.
Qed.
End proofs.

(** C24: a console whose cursor is on the first 24 lines is a terminal: sending it
    characters, with or without a serial port, leaves the cells and the cursor
    that the terminal shows after these characters (lines wrap and scroll, the
    cell at the cursor is blank, a backspace stops at the top), with the cursor on
    the first 24 lines again and no memory changed but these lines. *)
Theorem console_terminal {D} `{crtc D} (s : mach D consvars) cs :
  cv_panicked (m_glob s) = false → term_ok (shown s) →
  returns (for_each cs consputc_io) s (λ _ t,
    shown t = foldl term_put (shown s) cs ∧ term_ok (shown t) ∧
    m_glob t = m_glob s ∧ ∀ a, ¬ on_screen a → ldb (m_mem t) a = ldb (m_mem s) a).
Proof.
  revert s. induction cs as [|c cs IH]; intros s Hp Hs; cbn [for_each foldl]; [by apply returns_ret|].
  apply returns_bind. eapply returns_mono; [by apply consputc_term|]. cbv beta. intros _ t (Et & Ht & Gt & Ft).
  eapply returns_mono; [apply IH; [by rewrite Gt|done]|]. cbv beta. intros _ u (Eu & Hu & Gu & Fu).
  split_and!; [by rewrite Eu, Et|done|by rewrite Gu, Gt|]. intros a Ha. by rewrite Fu, Ft.
Qed.

(** ** Witness *)

Module screen_demo.
(** An adapter: the cursor and the selected register. *)
Record cga := mkCga { cg_cursor : Z; cg_index : Z }.
Definition cga_cur (d : cga) : Z := cg_cursor d mod 2 ^ 16.
Definition cga_in8 (p : Z) (d : cga) : Z * cga :=
  (if p =? CRTPORT + 1 then (if cg_index d =? 14 then cga_cur d / 256 else if cg_index d =? 15 then cga_cur d mod 256 else 0)
   else 0, d).
Definition cga_out8 (p v : Z) (d : cga) : cga :=
  if p =? CRTPORT then mkCga (cg_cursor d) v
  else if p =? CRTPORT + 1 then
    (if cg_index d =? 14 then mkCga (256 * v + cga_cur d mod 256) 14
     else if cg_index d =? 15 then mkCga (cga_cur d / 256 * 256 + v) 15 else d)
  else d.
#[local] Instance cga_ports : ports cga := {|
  in8 := cga_in8; in32 := λ _ d, (0, d); out8 := cga_out8; out32 := λ _ _ d, d;
  io_load := λ _ d, (0, d); io_store := λ _ _ d, d |}.
#[local] Program Instance cga_crtc : crtc cga := {| cursor := cga_cur; crt_index := cg_index |}.
Next Obligation. intros d. unfold cga_cur. lia. Qed.
Next Obligation. done. Qed.
Next Obligation. intros d. cbn. by split_and!; [| intros -> ..]. Qed.
Next Obligation.
  intros d v Hv. change (cursor ?x) with (cga_cur x). unfold out8, cga_ports, cga_out8.
  change (CRTPORT + 1 =? CRTPORT) with false. rewrite Z.eqb_refl. cbv iota.
  split; intros ->; rewrite Z.eqb_refl; unfold cga_cur; cbn [cg_cursor]; [lia|].
  change (15 =? 14) with false. cbv iota. cbn [cg_cursor]. lia.
Qed.
Next Obligation. done. Qed.
Next Obligation.
  intros p v d Hp. cbn. unfold cga_out8, CRTPORT, COM1 in *. by rewrite !(proj2 (Z.eqb_neq p _)) by lia.
Qed.

(** A cursor at the end of the last line, and no serial port. *)
Definition start : mach cga consvars := mkMach ∅ (mkCga 1919 0) (mkConsvars false false).

Lemma console_terminal_witness :
  cv_panicked (m_glob start) = false ∧ term_ok (shown start) ∧
  returns (for_each [104; 105; BACKSPACE] consputc_io) start (λ _ t,
    tm_pos (shown t) = 1840 ∧ tm_cells (shown t) !! 1839%nat = Some (attr 104) ∧ tm_cells (shown t) !! 1840%nat = Some blank).
Proof.
  assert (term_ok (shown start)) as Hs by (unfold term_ok; vm_compute; split; [discriminate|reflexivity]).
  split; [reflexivity|]. split; [exact Hs|]. eapply returns_mono.
  - apply (console_terminal start [104; 105; BACKSPACE]); [reflexivity|exact Hs].
  - intros _ t (-> & _). split_and!; vm_compute; reflexivity.
Defined.
End screen_demo.
