(* ===== verification/Seg.v ===== *)
(** Segment and gate descriptors (mmu.h), the tables built from them ([seginit]
    and the task segment of [switchuvm] in vm.c, [tvinit] in trap.c) and the
    operands of [lgdt] and [lidt] (x86.h), with what the processor reads in them. *)
From stdpp Require Import base numbers gmap strings option list.
From S2P Require Import Prelude State Spinlock.

(** ** Bit fields *)

(** A C structure of bit fields: widths and values, from the low bits up. *)
Fixpoint pack (fs : list (Z * Z)) : Z :=
  match fs with
  | [] => 0
  | (w, v) :: fs => v + 2 ^ w * pack fs
  end.
Fixpoint unpack (ws : list Z) (x : Z) : list Z :=
  match ws with
  | [] => []
  | w :: ws => x mod 2 ^ w :: unpack ws (x / 2 ^ w)
  end.

(** An assignment to a field of [w] bits keeps the low bits. *)
Definition bf (w x : Z) : Z := x mod 2 ^ w.

Definition field_ok (f : Z * Z) : Prop := 0 ≤ f.1 ∧ 0 ≤ f.2 < 2 ^ f.1.

Lemma unpack_pack fs : Forall field_ok fs → unpack (fs.*1) (pack fs) = fs.*2.
Proof.
  induction 1 as [|[w v] fs [Hw Hv] _ IH]; [done|]. cbn [fst snd fmap list_fmap unpack pack] in *.
  assert (0 < 2 ^ w) by lia. rewrite (Z.add_comm v), (Z.mul_comm (2 ^ w)).
  rewrite Z.add_comm, Z.mod_add, Z.div_add, Z.mod_small, Z.div_small by lia. by rewrite Z.add_0_l, IH.
Qed.

(** ** Segments *)

Record segdesc := mkSegdesc {
  lim_15_0 : Z; base_15_0 : Z; base_23_16 : Z; sd_type : Z; sd_s : Z; sd_dpl : Z; sd_p : Z;
  lim_19_16 : Z; sd_avl : Z; sd_rsv1 : Z; sd_db : Z; sd_g : Z; base_31_24 : Z;
}.
#[export] Instance eta_segdesc : Settable segdesc :=
  λ d, mkSegdesc (lim_15_0 d) (base_15_0 d) (base_23_16 d) (sd_type d) (sd_s d) (sd_dpl d) (sd_p d)
         (lim_19_16 d) (sd_avl d) (sd_rsv1 d) (sd_db d) (sd_g d) (base_31_24 d).

Definition seg_widths : list Z := [16; 16; 8; 4; 1; 2; 1; 4; 1; 1; 1; 1; 8].
Definition seg_values (d : segdesc) : list Z :=
  [lim_15_0 d; base_15_0 d; base_23_16 d; sd_type d; sd_s d; sd_dpl d; sd_p d; lim_19_16 d; sd_avl d;
   sd_rsv1 d; sd_db d; sd_g d; base_31_24 d].
Definition seg_word (d : segdesc) : Z := pack (zip seg_widths (seg_values d)).

(** [SEG] and [SEG16]; each initialiser is stored in its field. *)
Definition SEG (type base lim dpl : Z) : segdesc :=
  mkSegdesc (bf 16 (Z.land (Z.shiftr lim 12) 0xffff)) (bf 16 (Z.land base 0xffff)) (bf 8 (Z.land (Z.shiftr base 16) 0xff))
    (bf 4 type) 1 (bf 2 dpl) 1 (bf 4 (Z.shiftr lim 28)) 0 0 1 1 (bf 8 (Z.shiftr base 24)).
Definition SEG16 (type base lim dpl : Z) : segdesc :=
  mkSegdesc (bf 16 (Z.land lim 0xffff)) (bf 16 (Z.land base 0xffff)) (bf 8 (Z.land (Z.shiftr base 16) 0xff))
    (bf 4 type) 1 (bf 2 dpl) 1 (bf 4 (Z.shiftr lim 16)) 0 0 1 0 (bf 8 (Z.shiftr base 24)).

(** What the processor reads in a descriptor: base, last offset (in pages if the
    granularity bit is set), type, application segment, privilege, present. *)
Record segview := mkSegview { sv_base : Z; sv_limit : Z; sv_type : Z; sv_app : bool; sv_dpl : Z; sv_present : bool }.
Definition seg_decode (x : Z) : option segview :=
  match unpack seg_widths x with
  | [l0; b0; b1; ty; s; dpl; p; l1; _; _; _; g; b2] =>
      let lim := l0 + 2 ^ 16 * l1 in
      Some (mkSegview (b0 + 2 ^ 16 * b1 + 2 ^ 24 * b2) (if g =? 1 then lim * 4096 + 4095 else lim) ty (s =? 1) dpl (p =? 1))
  | _ => None
  end.

(** ** Gates *)

Record gatedesc := mkGatedesc {
  off_15_0 : Z; gd_cs : Z; gd_args : Z; gd_rsv1 : Z; gd_type : Z; gd_s : Z; gd_dpl : Z; gd_p : Z; off_31_16 : Z;
}.
Definition gate_widths : list Z := [16; 16; 5; 3; 4; 1; 2; 1; 16].
Definition gate_values (d : gatedesc) : list Z :=
  [off_15_0 d; gd_cs d; gd_args d; gd_rsv1 d; gd_type d; gd_s d; gd_dpl d; gd_p d; off_31_16 d].
Definition gate_word (d : gatedesc) : Z := pack (zip gate_widths (gate_values d)).

Definition STS_IG32 : Z := 0xE.
Definition STS_TG32 : Z := 0xF.
Definition STS_T32A : Z := 0x9.

Definition SETGATE (istrap : bool) (sel off d : Z) : gatedesc :=
  mkGatedesc (bf 16 (Z.land off 0xffff)) (bf 16 sel) 0 0 (bf 4 (if istrap then STS_TG32 else STS_IG32)) 0 (bf 2 d) 1
    (bf 16 (Z.shiftr off 16)).

(** The handler's segment and address; does the gate leave interrupts enabled;
    the privilege needed to enter it with an [int] instruction. *)
Record gateview := mkGateview { gv_sel : Z; gv_off : Z; gv_trap : bool; gv_dpl : Z }.
Definition gate_decode (x : Z) : option gateview :=
  match unpack gate_widths x with
  | [o0; sel; _; _; ty; s; dpl; p; o1] =>
      if (p =? 1) && (s =? 0) && ((ty =? STS_IG32) || (ty =? STS_TG32))
      then Some (mkGateview sel (o0 + 2 ^ 16 * o1) (ty =? STS_TG32) dpl) else None
  | _ => None
  end.

(** ** The tables *)

Definition SEG_KCODE : nat := 1.
Definition SEG_KDATA : nat := 2.
Definition SEG_KCPU : nat := 3.
Definition SEG_UCODE : nat := 4.
Definition SEG_UDATA : nat := 5.
Definition SEG_TSS : nat := 6.
Definition NSEGS : nat := 7.
Definition STA_X : Z := 8.
Definition STA_W : Z := 2.
Definition STA_R : Z := 2.
Definition DPL_USER : Z := 3.
Definition T_SYSCALL : nat := 64.

(** [seginit]: [c->gdt], for a CPU whose variable [cpu] is at [cpuaddr]. *)
Definition seginit_gdt (cpuaddr : Z) (gdt : list segdesc) : list segdesc :=
  <[SEG_KCPU := SEG STA_W cpuaddr 8 0]>
  (<[SEG_UDATA := SEG STA_W 0 0xffffffff DPL_USER]>
  (<[SEG_UCODE := SEG (Z.lor STA_X STA_R) 0 0xffffffff DPL_USER]>
  (<[SEG_KDATA := SEG STA_W 0 0xffffffff 0]>
  (<[SEG_KCODE := SEG (Z.lor STA_X STA_R) 0 0xffffffff 0]> gdt)))).

(** [switchuvm]: the task state segment at [ts], 104 bytes. *)
Definition TS_SIZE : Z := 104.
Definition switchuvm_gdt (ts : Z) (gdt : list segdesc) : list segdesc :=
  <[SEG_TSS := (SEG16 STS_T32A ts (TS_SIZE - 1) 0) <| sd_s := 0 |>]> gdt.

(** [tvinit]: [idt], from the addresses of the entry points in vectors.S. *)
Definition tvinit_idt (vectors : list Z) : list gatedesc :=
  let sel := Z.shiftl (Z.of_nat SEG_KCODE) 3 in
  let idt := (λ v, SETGATE false sel v 0) <$> vectors in
  match vectors !! T_SYSCALL with
  | Some v => <[T_SYSCALL := SETGATE true sel v DPL_USER]> idt
  | None => idt
  end.

(** The operand of [lgdt] and [lidt]: [pd[0]], [pd[1]], [pd[2]]. *)
Definition pseudo_desc (p size : Z) : list Z := [bf 16 (size - 1); bf 16 p; bf 16 (Z.shiftr p 16)].

(** ** Theorems *)

Lemma bf_ok w x : 0 ≤ w → field_ok (w, bf w x).
Proof. intros. unfold field_ok, bf. cbn. lia. Qed.

Ltac fields := repeat (constructor; [first [by apply bf_ok|unfold field_ok; cbn; lia]|]); constructor.

Lemma seg_fields_ok type base lim dpl :
  Forall field_ok (zip seg_widths (seg_values (SEG type base lim dpl))) ∧
  Forall field_ok (zip seg_widths (seg_values (SEG16 type base lim dpl))) ∧
  Forall field_ok (zip seg_widths (seg_values ((SEG16 type base lim dpl) <| sd_s := 0 |>))).
Proof. split_and!; cbn -[bf]; fields. Qed.

(** The pieces of a number, put together again. *)
Lemma base_pieces b : 0 ≤ b < 2 ^ 32 →
  bf 16 (Z.land b 0xffff) + 2 ^ 16 * bf 8 (Z.land (Z.shiftr b 16) 0xff) + 2 ^ 24 * bf 8 (Z.shiftr b 24) = b.
Proof.
  intros Hb. unfold bf. change 0xffff with (Z.ones 16). change 0xff with (Z.ones 8).
  rewrite !Z.land_ones, !Z.shiftr_div_pow2 by lia. lia.
Qed.
Lemma limit_pieces l k : 0 ≤ k → 0 ≤ l → l / 2 ^ k < 2 ^ 20 →
  bf 16 (Z.land (Z.shiftr l k) 0xffff) + 2 ^ 16 * bf 4 (Z.shiftr l (k + 16)) = l / 2 ^ k.
Proof.
  intros Hk Hl Hb. unfold bf. change 0xffff with (Z.ones 16).
  rewrite Z.land_ones, !Z.shiftr_div_pow2, Z.pow_add_r, <- Z.div_div by lia.
  set (x := l / 2 ^ k) in *. assert (0 ≤ x) by (apply Z.div_pos; lia). lia.
Qed.

Lemma seg_decode_word d :
  Forall field_ok (zip seg_widths (seg_values d)) →
  seg_decode (seg_word d) =
    Some (mkSegview (base_15_0 d + 2 ^ 16 * base_23_16 d + 2 ^ 24 * base_31_24 d)
      (let lim := lim_15_0 d + 2 ^ 16 * lim_19_16 d in if sd_g d =? 1 then lim * 4096 + 4095 else lim)
      (sd_type d) (sd_s d =? 1) (sd_dpl d) (sd_p d =? 1)).
Proof.
  intros Hd. unfold seg_decode, seg_word.
  change seg_widths with ((zip seg_widths (seg_values d)).*1) at 1. by rewrite unpack_pack.
Qed.

Lemma gate_decode_word d :
  Forall field_ok (zip gate_widths (gate_values d)) →
  gate_decode (gate_word d) =
    (if (gd_p d =? 1) && (gd_s d =? 0) && ((gd_type d =? STS_IG32) || (gd_type d =? STS_TG32))
     then Some (mkGateview (gd_cs d) (off_15_0 d + 2 ^ 16 * off_31_16 d) (gd_type d =? STS_TG32) (gd_dpl d)) else None).
Proof.
  intros Hd. unfold gate_decode, gate_word.
  change gate_widths with ((zip gate_widths (gate_values d)).*1) at 1. by rewrite unpack_pack.
Qed.

(** [SEG]: the limit is rounded up to the end of its page. *)
Lemma SEG_decode type base lim dpl :
  0 ≤ type < 16 → 0 ≤ base < 2 ^ 32 → 0 ≤ lim < 2 ^ 32 → 0 ≤ dpl < 4 →
  seg_decode (seg_word (SEG type base lim dpl)) = Some (mkSegview base (lim / 4096 * 4096 + 4095) type true dpl true).
Proof.
  intros Ht Hb Hl Hd. rewrite seg_decode_word by apply seg_fields_ok. cbn [SEG lim_15_0 base_15_0 base_23_16 sd_type sd_s sd_dpl sd_p lim_19_16 sd_g base_31_24].
  rewrite base_pieces by done. cbv zeta. cbn [Z.eqb Pos.eqb].
  pose proof (limit_pieces lim 12) as E. change (12 + 16) with 28 in E. rewrite E by lia. unfold bf. rewrite !Z.mod_small by lia. done.
Qed.

(** [SEG16]: the limit in bytes. *)
Lemma SEG16_decode type base lim dpl :
  0 ≤ type < 16 → 0 ≤ base < 2 ^ 32 → 0 ≤ lim < 2 ^ 20 → 0 ≤ dpl < 4 →
  seg_decode (seg_word ((SEG16 type base lim dpl) <| sd_s := 0 |>)) = Some (mkSegview base lim type false dpl true).
Proof.
  intros Ht Hb Hl Hd. rewrite seg_decode_word by apply seg_fields_ok.
  cbn -[bf Z.land Z.shiftr Z.mul Z.add Z.pow]. rewrite base_pieces by done.
  pose proof (limit_pieces lim 0) as E. rewrite Z.shiftr_0_r, Z.div_1_r in E. change (0 + 16) with 16 in E. rewrite E by lia.
  unfold bf. rewrite !Z.mod_small by lia. done.
Qed.

Lemma SETGATE_decode istrap sel off d :
  0 ≤ sel < 2 ^ 16 → 0 ≤ off < 2 ^ 32 → 0 ≤ d < 4 →
  gate_decode (gate_word (SETGATE istrap sel off d)) = Some (mkGateview sel off istrap d).
Proof.
  intros Hs Ho Hd. rewrite gate_decode_word by (cbn -[bf]; fields). cbn -[bf Z.land Z.shiftr Z.mul Z.add Z.pow].
  replace (bf 16 (Z.land off 0xffff) + 2 ^ 16 * bf 16 (Z.shiftr off 16)) with off.
  - unfold bf. rewrite (Z.mod_small sel), (Z.mod_small d) by done. by destruct istrap.
  - unfold bf. change 0xffff with (Z.ones 16). rewrite Z.land_ones, Z.shiftr_div_pow2 by lia. lia.
Qed.

(** The operand of [lgdt] and [lidt] has the address and the last offset of the table. *)
Lemma pseudo_desc_decode p size :
  0 ≤ p < 2 ^ 32 → 0 < size ≤ 2 ^ 16 →
  ∃ l b0 b1, pseudo_desc p size = [l; b0; b1] ∧ l = size - 1 ∧ b0 + 2 ^ 16 * b1 = p.
Proof.
  intros Hp Hs. do 3 eexists. split; [reflexivity|]. unfold bf. rewrite Z.shiftr_div_pow2 by lia. lia.
Qed.

(** the descriptors built at start-up mean what the kernel relies on.  In
    the table of a CPU the kernel's and the user's code and data segments cover
    all 32-bit addresses from 0, at privilege 0 and 3; the segment of the CPU's own
    variables starts at [cpuaddr] (and is one page long); the task segment covers
    the task state. *)
Theorem gdt_correct cpuaddr ts gdt :
  length gdt = NSEGS → 0 ≤ cpuaddr < 2 ^ 32 → 0 ≤ ts < 2 ^ 32 →
  let at_ i := switchuvm_gdt ts (seginit_gdt cpuaddr gdt) !! i ≫= λ d, seg_decode (seg_word d) in
  at_ SEG_KCODE = Some (mkSegview 0 0xffffffff (STA_X + STA_R) true 0 true) ∧
  at_ SEG_KDATA = Some (mkSegview 0 0xffffffff STA_W true 0 true) ∧
  at_ SEG_UCODE = Some (mkSegview 0 0xffffffff (STA_X + STA_R) true 3 true) ∧
  at_ SEG_UDATA = Some (mkSegview 0 0xffffffff STA_W true 3 true) ∧
  at_ SEG_KCPU = Some (mkSegview cpuaddr 4095 STA_W true 0 true) ∧
  at_ SEG_TSS = Some (mkSegview ts (TS_SIZE - 1) STS_T32A false 0 true).
Proof.
  intros Hl Hc Ht. destruct gdt as [|d0 [|d1 [|d2 [|d3 [|d4 [|d5 [|d6 [|]]]]]]]]; try done.
  cbn -[seg_decode seg_word SEG SEG16 set Z.lor]. split_and!.
  1-5: by rewrite SEG_decode by (done || unfold DPL_USER; cbn; lia).
  by rewrite SEG16_decode by (done || cbn; lia).
Qed.

(** C26: every vector has a gate to its entry point in the kernel's code
    segment; the gate of the system call, and no other, can be entered from user
    mode with an [int] instruction, and it alone leaves interrupts enabled. *)
Theorem idt_correct vectors i v :
  length vectors = 256%nat → vectors !! i = Some v → 0 ≤ v < 2 ^ 32 →
  tvinit_idt vectors !! i ≫= (λ d, gate_decode (gate_word d)) =
    Some (mkGateview 8 v (bool_decide (i = T_SYSCALL)) (if decide (i = T_SYSCALL) then DPL_USER else 0)).
Proof.
  intros Hl Hi Hv. unfold tvinit_idt. destruct (lookup_lt_is_Some_2 vectors T_SYSCALL) as [w Hw]; [unfold T_SYSCALL; lia|].
  rewrite Hw. destruct (decide (i = T_SYSCALL)) as [->|Hne].
  - assert (w = v) as -> by congruence. rewrite list_lookup_insert_eq by (rewrite length_fmap; by eapply lookup_lt_Some).
    cbn -[gate_decode gate_word SETGATE]. rewrite SETGATE_decode by (done || unfold DPL_USER; cbn; lia). done.
  - rewrite list_lookup_insert_ne, list_lookup_fmap, Hi by done. cbn -[gate_decode gate_word SETGATE bool_decide].
    rewrite SETGATE_decode by (done || cbn; lia). by rewrite bool_decide_eq_false_2.
Qed.

(** ** Witnesses *)

Module seg_demo.
(** The addresses of the CPU structure of the kernel image in the repository. *)
Lemma gdt_correct_witness :
  let gdt := replicate NSEGS (mkSegdesc 0 0 0 0 0 0 0 0 0 0 0 0 0) in
  switchuvm_gdt 0x80113e88 (seginit_gdt 0x80113f34 gdt) !! SEG_KCPU ≫= (λ d, seg_decode (seg_word d)) =
    Some (mkSegview 0x80113f34 4095 STA_W true 0 true).
Proof. intros gdt. apply (gdt_correct 0x80113f34 0x80113e88 gdt); [reflexivity|split; [discriminate|reflexivity]..]. Defined.

Lemma idt_correct_witness :
  tvinit_idt ((λ i : nat, 0x80106500 + 9 * Z.of_nat i) <$> seq 0 256) !! 64%nat ≫= (λ d, gate_decode (gate_word d)) =
    Some (mkGateview 8 (0x80106500 + 576) true 3).
Proof.
  rewrite (idt_correct _ 64 (0x80106500 + 576)); [reflexivity|reflexivity|reflexivity|split; [discriminate|reflexivity]].
Defined.
End seg_demo.
