(* ===== verification/ProcLife.v ===== *)
(** The life of a process (the rest of proc.c): the first process, growing,
    forking, exiting and waiting, and the process listing, with
    [getcallerpcs] of spinlock.c. *)
From stdpp Require Import base numbers gmap strings option list.
From S2P Require Import Prelude State Spinlock Str Cprintf Kalloc Proc Mlf Sched Bio Blocks Log LogSpec Tx Crash Fs Pipe File Vm.

(** A string constant with its NUL. *)
Definition cstring (s : string) : list Z := bytes s ++ [0].

(** [SEG_UCODE << 3 | DPL_USER] and [SEG_UDATA << 3 | DPL_USER] of mmu.h. *)
Definition DPL_USER : Z := 3.
Definition UCODE_SEL : Z := Z.lor (Z.shiftl 4 3) DPL_USER.
Definition UDATA_SEL : Z := Z.lor (Z.shiftl 5 3) DPL_USER.

(** The first [n] entries of the chain of saved frame pointers at [ebp]. *)
Fixpoint callerpcs (m : gmap Z Z) (n : nat) (ebp : Z) : list Z :=
  match n with
  | O => []
  | S n' =>
      if (ebp =? 0) || (ebp <? KERNBASE) || (ebp =? 0xffffffff) then replicate n 0
      else ld32 m (ebp + 4) :: callerpcs m n' (ld32 m ebp)
  end.
Definition getcallerpcs (m : gmap Z Z) (v : Z) : list Z := callerpcs m 10 (u32 (v - 8)).

Section life.
Context `{kenv} `{disk} `{devsw}.

Definition state_name (st : procstate) : string :=
  match st with
  | UNUSED => "unused" | EMBRYO => "embryo" | SLEEPING => "sleep "
  | RUNNABLE => "runble" | RUNNING => "run   " | ZOMBIE => "zombie"
  end.

Fixpoint print_pcs (l : list Z) : KM unit :=
  match l with
  | [] => ret tt
  | pc :: l => if pc =? 0 then ret tt else do* cprintf " %p" [PInt pc] in print_pcs l
  end.

Definition procdump : KM unit :=
  for_each (seq 0 NPROC) (λ i,
    let* p := get_proc i in
    if bool_decide (p_state p = UNUSED) then ret tt else
    do* cprintf "%d %s %s" [PInt (p_pid p); PStr (Some (cstring (state_name (p_state p)))); PStr (Some (p_name p))] in
    do* (if bool_decide (p_state p = SLEEPING) then
           let* k := gets id in
           print_pcs (getcallerpcs (k_mem k) (u32 (cx_ebp (p_ctx p) + 8)))
         else ret tt) in
    cprintf "
" []).

(** [initcode] is the first user program, which the build links in. *)
Definition userinit (initcode : list Z) : KM unit :=
  do* for_each (seq 0 (Z.to_nat MLF_LEVELS)) (λ l, upd_queue (Z.of_nat l) (set q_size (λ _, 0))) in
  let* op := allocproc in
  do* upd_ptable (set pt_initproc (λ _, op)) in
  let* p := deref "p->pgdir" op in
  let* pgdir := setupkvm in
  do* upd_proc p (set p_pgdir (λ _, pgdir)) in
  if pgdir =? 0 then panic "userinit: out of memory?" else
  do* inituvm pgdir initcode (length initcode) in
  do* upd_proc p (set p_sz (λ _, PGSIZE)) in
  do* upd_proc p (set p_tframe (λ _,
        tf_zero <| tf_cs := UCODE_SEL |> <| tf_ds := UDATA_SEL |> <| tf_es := UDATA_SEL |>
                <| tf_ss := UDATA_SEL |> <| tf_eflags := FL_IF |> <| tf_esp := PGSIZE |> <| tf_eip := 0 |>)) in
  let* pr := get_proc p in
  let* nm := deref "safestrcpy" (safestrcpy (p_name pr) (cstring "initcode") 16) in
  do* upd_proc p (set p_name (λ _, nm)) in
  let* cwd := namei (bytes "/") in
  do* upd_proc p (set p_cwd (λ _, cwd)) in
  do* acquire LkPtable in
  do* cprintf "----> name proc userinit: %s 
" [PStr (Some nm)] in
  do* make_runnable p 0 in
  release LkPtable.

Definition growproc (n : Z) : KM Z :=
  let* p := curproc in
  let* pr := get_proc p in
  let sz := p_sz pr in
  let* sz' := (if 0 <? n then allocuvm (p_pgdir pr) sz (u32 (sz + n))
               else if n <? 0 then deallocuvm (p_pgdir pr) sz (u32 (sz + n))
               else ret sz) in
  if negb (n =? 0) && (sz' =? 0) then ret (-1) else
  do* upd_proc p (set p_sz (λ _, sz')) in
  do* switchuvm p in
  ret 0.

(** [np->ofile[i] = filedup(proc->ofile[i])] for each open file. *)
Definition fork_files (np : nat) (ofile : list (option nat)) : KM unit :=
  for_each (seq 0 NOFILE) (λ i,
    match ofile !! i with
    | Some (Some f) =>
        let* f := filedup f in
        upd_proc np (set p_ofile (<[i := Some f]>))
    | _ => ret tt
    end).

Definition fork : KM Z :=
  let* onp := allocproc in
  match onp with
  | None => ret (-1)
  | Some np =>
      let* p := curproc in
      let* pr := get_proc p in
      let* pgdir := copyuvm (p_pgdir pr) (p_sz pr) in
      do* upd_proc np (set p_pgdir (λ _, pgdir)) in
      if pgdir =? 0 then
        let* npr := get_proc np in
        do* kfree (p_kstack npr) in
        do* upd_proc np (set p_kstack (λ _, 0)) in
        do* upd_proc np (set p_state (λ _, UNUSED)) in
        ret (-1)
      else
      do* upd_proc np (set p_sz (λ _, p_sz pr)) in
      do* upd_proc np (set p_parent (λ _, Some p)) in
      do* upd_proc np (set p_tframe (λ _, (p_tframe pr) <| tf_eax := 0 |>)) in
      do* fork_files np (p_ofile pr) in
      let* cwd := deref "proc->cwd" (p_cwd pr) in
      let* cwd := idup cwd in
      do* upd_proc np (set p_cwd (λ _, Some cwd)) in
      let* npr := get_proc np in
      let pid := p_pid npr in
      let* nm := deref "safestrcpy" (safestrcpy (p_name npr) (p_name pr) 16) in
      do* upd_proc np (set p_name (λ _, nm)) in
      do* cprintf "----> name proc fork: %s 
" [PStr (Some nm)] in
      do* acquire LkPtable in
      do* make_runnable np 0 in
      do* release LkPtable in
      ret pid
  end.

(** [wakeup1(q)] for a process pointer; no one sleeps on the null pointer. *)
Definition wakeup1_proc (q : option nat) : KM unit :=
  match q with Some q => wakeup1 (ChProc q) | None => ret tt end.

(** [exit] up to the switch to the scheduler, from which it does not return. *)
Definition exit_files (p : nat) : KM unit :=
  for_each (seq 0 NOFILE) (λ fd,
    let* pr := get_proc p in
    match p_ofile pr !! fd with
    | Some (Some f) =>
        do* fileclose f in
        upd_proc p (set p_ofile (<[fd := None]>))
    | _ => ret tt
    end).

Definition exit_orphans (p : nat) : KM unit :=
  for_each (seq 0 NPROC) (λ i,
    let* q := get_proc i in
    if bool_decide (p_parent q = Some p) then
      let* k := gets id in
      let init := pt_initproc (k_ptable k) in
      do* upd_proc i (set p_parent (λ _, init)) in
      if bool_decide (p_state q = ZOMBIE) then wakeup1_proc init else ret tt
    else ret tt).

Definition exit : KM unit :=
  let* p := curproc in
  let* k := gets id in
  if bool_decide (pt_initproc (k_ptable k) = Some p) then panic "init exiting" else
  do* exit_files p in
  let* pr := get_proc p in
  let* cwd := deref "proc->cwd" (p_cwd pr) in
  do* iput cwd in
  do* upd_proc p (set p_cwd (λ _, None)) in
  do* acquire LkPtable in
  let* pr := get_proc p in
  do* wakeup1_proc (p_parent pr) in
  do* exit_orphans p in
  do* upd_proc p (set p_state (λ _, ZOMBIE)) in
  do* sched in
  panic "zombie exit".

(** The first zombie child, and whether there is a child at all. *)
Definition zombie_child (p : nat) (l : list proc) : option nat :=
  fst <$> list_find (λ q, bool_decide (p_parent q = Some p) && bool_decide (p_state q = ZOMBIE) = true) l.
Definition havekids (p : nat) (l : list proc) : bool :=
  existsb (λ q, bool_decide (p_parent q = Some p)) l.

(** The entry of a child reaped by [wait]. *)
Definition reap (q : proc) : proc :=
  q <| p_state := UNUSED |> <| p_pid := 0 |> <| p_parent := None |>
    <| p_name ::= <[0%nat := 0]> |> <| p_killed := 0 |>.

Fixpoint wait_loop (n : nat) (p : nat) : KM Z :=
  match n with
  | O => λ _, NoFuel
  | S n =>
      let* k := gets id in
      match zombie_child p (pt_proc (k_ptable k)) with
      | Some q =>
          let* qr := get_proc q in
          do* kfree (p_kstack qr) in
          do* upd_proc q (set p_kstack (λ _, 0)) in
          do* freevm (p_pgdir qr) in
          do* upd_proc q reap in
          do* release LkPtable in
          ret (p_pid qr)
      | None =>
          let* pr := get_proc p in
          if negb (havekids p (pt_proc (k_ptable k))) || negb (p_killed pr =? 0) then
            do* release LkPtable in ret (-1)
          else
          do* sleep (ChProc p) (Some LkPtable) in
          wait_loop n p
      end
  end.

Definition wait : KM Z :=
  do* acquire LkPtable in
  let* p := curproc in
  wait_loop fuel p.

Definition forkret : KM unit :=
  do* release LkPtable in
  let* k := gets id in
  if k_first k then
    do* modify (λ k, k <| k_first := false |>) in
    initlog
  else ret tt.
End life.
