(* ===== verification/Life.v ===== *)
(** Exiting and waiting (proc.c): what [exit] leaves for the parent, what
    [wait] does with it, and that no exit is missed. *)
From stdpp Require Import base numbers gmap strings option list.
From S2P Require Import Prelude State Spinlock Str Cprintf Kalloc Proc Mlf Sched Bio Blocks Log LogSpec Tx Crash Fs Pipe File Vm PageTable AddrSpace ProcLife.

(** ** Orphans *)

Section life.
Context `{kenv}.
Implicit Types (s t : kstate) (pt : ptable_t) (qs : queues) (p : nat).

Lemma pt_steps_init pt pt' : rtc pt_step pt pt' → pt_initproc pt' = pt_initproc pt.
Proof. induction 1 as [|pt1 pt2 pt3 Hst _ IH]; [done|]. rewrite IH. by destruct Hst. Qed.

(** Whether one of the entries [dn] is a zombie child of [p]. *)
Definition zombie_orphan p (ps : list proc) (dn : list nat) : bool :=
  existsb (λ j, match ps !! j with
                | Some x => bool_decide (p_parent x = Some p) && bool_decide (p_state x = ZOMBIE)
                | None => false
                end) dn.

(** What [exit] of [p] does to an entry: [init] adopts it if [p] is its parent,
    and wakes up if [wk]. *)
Definition adopted p (init : nat) (wk here : bool) (x x' : proc) : Prop :=
  x' = (if wk && sleeps_on (ChProc init) x then x <| p_current_level := up x |> <| p_state := RUNNABLE |> else x)
         <| p_parent := if here && bool_decide (p_parent x = Some p) then Some init else p_parent x |>
         <| p_next := p_next x' |>.

Lemma adopted_woken p init wk here x x' x'' :
  adopted p init wk here x x' → woken (ChProc init) x' x'' → adopted p init true here x x''.
Proof.
  unfold adopted, woken. intros Hx' Hx''. rewrite Hx''. unfold sleeps_on in *. rewrite Hx'.
  destruct wk; cbn; destruct (bool_decide (p_state x = SLEEPING)) eqn:E1, (bool_decide (p_chan x = Some (ChProc init))) eqn:E2; cbn;
    rewrite ?E1, ?E2; cbn; done.
Qed.

Lemma adopted_here p init wk x x' :
  adopted p init wk false x x' → p_parent x = Some p → adopted p init wk true x (x' <| p_parent := Some init |>).
Proof.
  unfold adopted. intros Hx Hp. rewrite Hx. cbn. rewrite bool_decide_true by done. by destruct (wk && _).
Qed.

Lemma adopted_not p init wk x x' :
  adopted p init wk false x x' → p_parent x ≠ Some p → adopted p init wk true x x'.
Proof. unfold adopted. cbn. intros Hx Hp. by rewrite bool_decide_false by done. Qed.

Lemma adopted_zombie p init wk here x x' : adopted p init wk here x x' → p_state x' = ZOMBIE ↔ p_state x = ZOMBIE.
Proof.
  intros ->. unfold sleeps_on. destruct wk; cbn; [|done]. case_bool_decide as E; cbn; [|done].
  case_bool_decide; cbn; [|done]. rewrite E. done.
Qed.

Lemma exit_orphans_view p init s qs :
  mlf_rel (k_ptable s) qs → pt_initproc (k_ptable s) = Some init →
  ∃ pt', exit_orphans p s = Ret tt (s <| k_ptable := pt' |>) ∧ (∃ qs', mlf_rel pt' qs') ∧
    rtc pt_step (k_ptable s) pt' ∧ pt_nextpid pt' = pt_nextpid (k_ptable s) ∧
    ∀ j x, pt_proc (k_ptable s) !! j = Some x → ∃ x', pt_proc pt' !! j = Some x' ∧
      adopted p init (zombie_orphan p (pt_proc (k_ptable s)) (seq 0 NPROC)) true x x'.
Proof.
  intros Hrel Hinit. set (ps := pt_proc (k_ptable s)).
  set (I (dn : list nat) t := ∃ pt', t = s <| k_ptable := pt' |> ∧ (∃ qs', mlf_rel pt' qs') ∧
    rtc pt_step (k_ptable s) pt' ∧ pt_nextpid pt' = pt_nextpid (k_ptable s) ∧
    ∀ j x, ps !! j = Some x → ∃ x', pt_proc pt' !! j = Some x' ∧
      adopted p init (zombie_orphan p ps dn) (bool_decide (j ∈ dn)) x x').
  unfold exit_orphans.
  destruct (returns_for_each (seq 0 NPROC) (λ i,
    let* q := get_proc i in
    if bool_decide (p_parent q = Some p) then
      let* k := gets id in
      let init := pt_initproc (k_ptable k) in
      do* upd_proc i (set p_parent (λ _, init)) in
      if bool_decide (p_state q = ZOMBIE) then wakeup1_proc init else ret tt
    else ret tt) I s) as ([] & t & Ht & HI).
  - exists (k_ptable s). split_and!; [by destruct s|eauto|reflexivity|done|].
    intros j x Hx. exists x. split; [done|]. unfold adopted. rewrite bool_decide_false by set_solver. cbn. by destruct x.
  - intros dn i rest t Hseq (pt' & -> & (qs' & Hrel') & Hst' & Hn' & Hps).
    assert (pt_initproc pt' = Some init) as Hi' by (by rewrite (pt_steps_init _ _ Hst')).
    assert (Hin : i ∈ seq 0 NPROC) by (rewrite Hseq; set_solver). apply elem_of_seq in Hin.
    assert (Hid : i ∉ dn).
    { assert (Hnd := NoDup_seq 0 NPROC). rewrite Hseq in Hnd.
      apply NoDup_app in Hnd as (_ & Hd & _). intros Hi. apply (Hd i Hi). set_solver. }
    destruct (lookup_lt_is_Some_2 ps i) as [x Hx].
    { unfold ps. rewrite (rel_procs _ _ Hrel). lia. }
    destruct (Hps i x Hx) as (x' & Hx' & Hxx). rewrite bool_decide_false in Hxx by done.
    assert (Hpar : p_parent x' = p_parent x) by (by rewrite Hxx).
    assert (Hoth : ∀ j y wk, j ≠ i → adopted p init wk (bool_decide (j ∈ dn)) y = adopted p init wk (bool_decide (j ∈ dn ++ [i])) y).
    { intros j y wk Hne. by rewrite (bool_decide_ext (j ∈ dn ++ [i]) (j ∈ dn)) by set_solver. }
    assert (Hz : zombie_orphan p ps (dn ++ [i]) = zombie_orphan p ps dn ||
      (bool_decide (p_parent x = Some p) && bool_decide (p_state x = ZOMBIE))).
    { unfold zombie_orphan. rewrite existsb_app. cbn. by rewrite Hx, orb_false_r. }
    apply returns_bind. eapply returns_eq; [by apply get_proc_eq|]. rewrite Hpar.
    case_bool_decide as Hp.
    2:{ apply returns_ret. exists pt'. split_and!; eauto. rewrite Hz. cbn. rewrite orb_false_r.
        intros j y Hy. destruct (Hps j y Hy) as (y' & Hy' & Hyy). exists y'. split; [done|].
        destruct (decide (j = i)) as [->|Hne]; [|by rewrite <- Hoth].
        simplify_eq. rewrite bool_decide_true by set_solver. by apply adopted_not. }
    cbn [andb] in Hz. apply returns_bind. eapply returns_eq; [reflexivity|]. cbv beta zeta.
    change (pt_initproc (k_ptable (id (s <| k_ptable := pt' |>)))) with (pt_initproc pt'). rewrite Hi'.
    apply returns_bind. eapply returns_eq; [by apply (upd_proc_eq _ _ x')|].
    set (pt1 := pt' <| pt_proc ::= alter (set p_parent (λ _, Some init)) i |>).
    assert (mlf_rel pt1 qs') as Hrel1 by (by apply neutral_rel).
    assert (rtc pt_step (k_ptable s) pt1) as Hst1 by (eapply rtc_r; [exact Hst'|by apply step_other]).
    assert (∀ j y, ps !! j = Some y → ∃ y', pt_proc pt1 !! j = Some y' ∧
      adopted p init (zombie_orphan p ps dn) (bool_decide (j ∈ dn ++ [i])) y y') as Hps1.
    { intros j y Hy. destruct (Hps j y Hy) as (y' & Hy' & Hyy). destruct (decide (j = i)) as [->|Hne].
      - simplify_eq. exists (x' <| p_parent := Some init |>). split; [unfold pt1; cbn; by rewrite list_lookup_alter_eq, Hx'|].
        rewrite bool_decide_true by set_solver. by apply adopted_here.
      - exists y'. split; [unfold pt1; cbn; by rewrite list_lookup_alter_ne by done|]. by rewrite <- Hoth. }
    change (s <| k_ptable := pt' |> <| k_ptable ::= _ |>) with (s <| k_ptable := pt1 |>).
    assert (bool_decide (p_state x' = ZOMBIE) = bool_decide (p_state x = ZOMBIE)) as ->
      by (apply bool_decide_ext; by eapply adopted_zombie).
    destruct (bool_decide (p_state x = ZOMBIE)) eqn:Ez; rewrite ?orb_true_r, ?orb_false_r in Hz.
    + cbn [wakeup1_proc]. destruct (wakeup1_steps (ChProc init) (s <| k_ptable := pt1 |>) qs') as (pt2 & Hw & Hst & Hq & Hnp & Hws); [exact Hrel1|].
      eapply returns_eq; [exact Hw|]. exists pt2. rewrite Hz. split_and!; [done|done| |rewrite Hnp; exact Hn'|].
      * by etransitivity.
      * intros j y Hy. destruct (Hps1 j y Hy) as (y' & Hy' & Hyy). destruct (Hws j y' Hy') as (y'' & Hy'' & Hww).
        exists y''. split; [done|]. by eapply adopted_woken.
    + apply returns_ret. exists pt1. rewrite Hz. split_and!; eauto.
  - destruct HI as (pt' & -> & Hq & Hi & Hn & Hps). exists pt'. split_and!; try done.
    intros j x Hx. destruct (Hps j x Hx) as (x' & Hx' & Ha). exists x'. split; [done|].
    rewrite bool_decide_true in Ha; [done|]. apply elem_of_seq.
    apply lookup_lt_Some in Hx. unfold ps in Hx. rewrite (rel_procs _ _ Hrel) in Hx. lia.
Qed.

(** ** exit *)

(** What neither a wakeup nor an adoption changes. *)
Definition same_self (x x' : proc) : Prop :=
  p_pid x' = p_pid x ∧ p_pgdir x' = p_pgdir x ∧ p_kstack x' = p_kstack x ∧ p_ofile x' = p_ofile x ∧
  p_cwd x' = p_cwd x ∧ (p_state x' = ZOMBIE ↔ p_state x = ZOMBIE) ∧ (p_state x = RUNNING → p_state x' = RUNNING) ∧
  ∀ chan, sleeps_on chan x = false → sleeps_on chan x' = false.

Lemma same_self_trans x y z : same_self x y → same_self y z → same_self x z.
Proof.
  intros (? & ? & ? & ? & ? & HZ & HR & HS) (? & ? & ? & ? & ? & HZ' & HR' & HS').
  split_and!; try congruence; [by rewrite HZ', HZ|by auto|by auto].
Qed.

Lemma sleeps_on_state chan x : sleeps_on chan x = true → p_state x = SLEEPING.
Proof. unfold sleeps_on. intros [E _]%andb_true_iff. by apply bool_decide_eq_true in E. Qed.

Lemma sleeps_on_awake chan x : p_state x ≠ SLEEPING → sleeps_on chan x = false.
Proof. intros E. unfold sleeps_on. by rewrite bool_decide_false. Qed.

Lemma woken_self chan x x' : woken chan x x' → same_self x x' ∧ p_parent x' = p_parent x ∧ sleeps_on chan x' = false.
Proof.
  unfold woken. destruct (sleeps_on chan x) eqn:E; intros ->; [|by split_and!].
  apply sleeps_on_state in E. unfold same_self. cbn. rewrite E.
  split_and!; try done; intros; by apply sleeps_on_awake.
Qed.

Lemma adopted_self p init wk x x' :
  adopted p init wk true x x' → same_self x x' ∧ (wk = true → sleeps_on (ChProc init) x' = false) ∧
    p_parent x' = (if bool_decide (p_parent x = Some p) then Some init else p_parent x).
Proof.
  unfold adopted. destruct (wk && sleeps_on (ChProc init) x) eqn:E; intros ->; cbn.
  - apply andb_true_iff in E as [_ E%sleeps_on_state]. unfold same_self. cbn. rewrite E.
    split_and!; try done; intros; by apply sleeps_on_awake.
  - split_and!; try done. intros ->. done.
Qed.

Lemma exit_rel pt qs p x :
  mlf_rel pt qs → pt_proc pt !! p = Some x → p_state x = RUNNING →
  mlf_rel (pt <| pt_proc ::= alter (set p_state (λ _, ZOMBIE)) p |>) qs.
Proof.
  intros Hrel Hx Hs. rewrite <-(set_nextpid_same pt) at 1.
  eapply off_queue_rel; try done; cbn; try congruence; try lia.
  - by intros [].
  - by eapply rel_pid.
  - intros _. left. split; congruence.
Qed.

(** What [exit] of [p], a child of [q], leaves in the table. *)
Record exited p q init (ps : list proc) pt' : Prop := {
  ex_self : ∀ x, ps !! p = Some x → ∃ x', pt_proc pt' !! p = Some x' ∧ p_state x' = ZOMBIE ∧
    p_pid x' = p_pid x ∧ p_pgdir x' = p_pgdir x ∧ p_kstack x' = p_kstack x ∧
    p_ofile x' = p_ofile x ∧ p_cwd x' = None;
  ex_parent : ∀ j x, ps !! j = Some x → ∃ x', pt_proc pt' !! j = Some x' ∧ p_pid x' = p_pid x ∧
    p_parent x' = (if bool_decide (p_parent x = Some p) then Some init else p_parent x) ∧
    (j ≠ p → p_state x' = ZOMBIE ↔ p_state x = ZOMBIE);
  ex_woken : ∀ j x', pt_proc pt' !! j = Some x' → sleeps_on (ChProc q) x' = false;
  ex_init : (∃ j x, ps !! j = Some x ∧ p_parent x = Some p ∧ p_state x = ZOMBIE) →
    ∀ j x', pt_proc pt' !! j = Some x' → sleeps_on (ChProc init) x' = false;
}.

(** The part of [exit] under [ptable.lock]. *)
Definition exit_rest p : KM unit :=
  let* pr := get_proc p in
  do* wakeup1_proc (p_parent pr) in
  do* exit_orphans p in
  do* upd_proc p (set p_state (λ _, ZOMBIE)) in
  do* sched in
  panic "zombie exit".

Lemma exit_locked s p pr q init qs :
  lock_held LkPtable s → cpu_runs p s → mlf_rel (k_ptable s) qs → pt_initproc (k_ptable s) = Some init →
  pt_proc (k_ptable s) !! p = Some pr → p_state pr = RUNNING → p_parent pr = Some q → p_cwd pr = None →
  ∃ s' i, exit_rest p s = Wait Swtch s' (λ t, obind (upd_cpu (set intena (λ _, i)) t) (λ _, panic "zombie exit")) ∧
    s' = s <| k_ptable := k_ptable s' |> ∧ rtc pt_step (k_ptable s) (k_ptable s') ∧ (∃ qs', mlf_rel (k_ptable s') qs') ∧
    exited p q init (pt_proc (k_ptable s)) (k_ptable s').
Proof.
  intros Hl Hr Hrel Hi Hpr Hs Hq Hcwd.
  destruct (wakeup1_steps (ChProc q) s qs Hrel) as (pt1 & E1 & Hst1 & (qs1 & Hrel1) & _ & Hw1).
  destruct (exit_orphans_view p init (s <| k_ptable := pt1 |>) qs1) as (pt2 & E2 & (qs2 & Hrel2) & Hst2 & _ & Hw2);
    [exact Hrel1|by rewrite <- Hi; apply pt_steps_init|].
  change (k_ptable (s <| k_ptable := pt1 |>)) with pt1 in Hw2, Hst2.
  set (zo := zombie_orphan p _ _) in Hw2.
  destruct (Hw1 p pr Hpr) as (pr1 & Hpr1 & Hy). destruct (Hw2 p pr1 Hpr1) as (pr2 & Hpr2 & Hz).
  destruct (woken_self _ _ _ Hy) as (Hs1 & _ & _). destruct (adopted_self _ _ _ _ _ Hz) as (Hs2 & _ & _).
  assert (p_state pr2 = RUNNING) as Hrun by (apply Hs2, Hs1, Hs).
  set (s' := s <| k_ptable := pt2 <| pt_proc ::= alter (set p_state (λ _, ZOMBIE)) p |> |>).
  destruct (sched_eq s' p (pr2 <| p_state := ZOMBIE |>)) as [i Hi'];
    [done|done|cbn; by rewrite list_lookup_alter_eq, Hpr2|done|].
  exists s', i. split_and!.
  - unfold exit_rest. step (get_proc_eq _ _ _ Hpr). rewrite Hq. cbn [wakeup1_proc]. step E1. step E2.
    step (upd_proc_eq _ _ pr2); [|exact Hpr2].
    erewrite bind_wait; [reflexivity|exact Hi'].
  - done.
  - eapply rtc_r; [by etransitivity|]. by eapply step_exit.
  - exists qs2. by eapply exit_rel.
  - assert (∀ j x, pt_proc (k_ptable s) !! j = Some x → ∃ x', pt_proc pt2 !! j = Some x' ∧ same_self x x' ∧
      p_parent x' = (if bool_decide (p_parent x = Some p) then Some init else p_parent x) ∧
      sleeps_on (ChProc q) x' = false ∧ (zo = true → sleeps_on (ChProc init) x' = false)) as Hall.
    { intros j x Hx. destruct (Hw1 j x Hx) as (y & Hyj & Hy'). destruct (Hw2 j y Hyj) as (x' & Hx' & Hz').
      destruct (woken_self _ _ _ Hy') as (HA & <- & Hsl). destruct (adopted_self _ _ _ _ _ Hz') as (HB & Hini & Hpar).
      exists x'. split_and!; try done; [by eapply same_self_trans|by apply HB]. }
    assert (∀ j x', pt_proc pt2 !! j = Some x' → ∃ x, pt_proc (k_ptable s) !! j = Some x) as Hback.
    { intros j x' Hx'. apply lookup_lt_is_Some. rewrite (rel_procs _ _ Hrel), <- (rel_procs _ _ Hrel2). by eapply lookup_lt_Some. }
    split; cbn.
    + intros x Hx. simplify_eq. exists (pr2 <| p_state := ZOMBIE |>). rewrite list_lookup_alter_eq, Hpr2.
      destruct (same_self_trans _ _ _ Hs1 Hs2) as (? & ? & ? & ? & ? & _). split_and!; try done. cbn. congruence.
    + intros j x Hx. destruct (Hall j x Hx) as (x' & Hx' & Hself & Hpar & _).
      destruct (decide (j = p)) as [->|Ej].
      * exists (x' <| p_state := ZOMBIE |>). rewrite list_lookup_alter_eq, Hx'. split_and!; [done|apply Hself|done|done].
      * exists x'. rewrite list_lookup_alter_ne by done. split_and!; [done|apply Hself|done|intros _; apply Hself].
    + intros j x' (y & Hy' & ->)%alter_lookup_inv. destruct (Hback _ _ Hy') as [x Hx].
      destruct (Hall j x Hx) as (? & ? & _ & _ & Hsl & _). simplify_eq. case_decide; [by apply sleeps_on_awake|done].
    + intros (j0 & z & Hz0 & Hzp & Hzz). assert (zo = true) as Hzo.
      { destruct (Hw1 j0 z Hz0) as (y & Hyj & Hy'). destruct (woken_self _ _ _ Hy') as (HA & Hpar & _).
        apply existsb_exists. exists j0. split.
        - apply in_seq. apply lookup_lt_Some in Hz0. rewrite (rel_procs _ _ Hrel) in Hz0. lia.
        - rewrite Hyj, !bool_decide_true; [done|by apply HA|congruence]. }
      intros j x' (y & Hy' & ->)%alter_lookup_inv. destruct (Hback _ _ Hy') as [x Hx].
      destruct (Hall j x Hx) as (? & ? & _ & _ & _ & Hsl). simplify_eq. case_decide; [by apply sleeps_on_awake|by apply Hsl].
Qed.

Lemma exited_cwd p q init (ps : list proc) pt' :
  exited p q init (alter (set p_cwd (λ _, None)) p ps) pt' → exited p q init ps pt'.
Proof.
  intros Hex.
  assert (∀ j x, ps !! j = Some x → ∃ y, alter (set p_cwd (λ _, None)) p ps !! j = Some y ∧ p_pid y = p_pid x ∧
    p_parent y = p_parent x ∧ p_state y = p_state x ∧ p_pgdir y = p_pgdir x ∧ p_kstack y = p_kstack x ∧ p_ofile y = p_ofile x) as Hf.
  { intros j x Hx. destruct (decide (j = p)) as [->|Hne].
    - exists (x <| p_cwd := None |>). by rewrite list_lookup_alter_eq, Hx.
    - exists x. by rewrite list_lookup_alter_ne. }
  split.
  - intros x Hx. destruct (Hf _ _ Hx) as (y & Hy & <- & _ & _ & <- & <- & <-). by eapply ex_self.
  - intros j x Hx. destruct (Hf _ _ Hx) as (y & Hy & <- & <- & <- & _). by eapply ex_parent.
  - by eapply ex_woken.
  - intros (j & x & Hx & Hp & Hz). eapply ex_init; [done|]. destruct (Hf _ _ Hx) as (y & Hy & _ & Hyp & Hyz & _).
    exists j, y. split_and!; congruence.
Qed.

Lemma exited_found p q init (ps : list proc) pt' x :
  exited p q init ps pt' → ps !! p = Some x → p_parent x = Some q → q ≠ p → is_Some (zombie_child q (pt_proc pt')).
Proof.
  intros Hex Hx Hq Hne. destruct (ex_self _ _ _ _ _ Hex x Hx) as (x' & Hx' & Hz & _).
  destruct (ex_parent _ _ _ _ _ Hex p x Hx) as (y & Hy & _ & Hpar & _). simplify_eq.
  apply fmap_is_Some. eapply list_find_elem_of; [by eapply list_elem_of_lookup_2|]. cbv beta.
  rewrite Hpar, Hq, Hz, (bool_decide_false (Some q = Some p)) by congruence. by rewrite !bool_decide_true.
Qed.

Context `{disk}.


(** ** wait *)

Context `{!kernel_image}.

(** Taking a lock other than the allocator's leaves address spaces alone. *)
Lemma space_ok_acq lk s pgdir l :
  space_ok s pgdir l → cpu_wf s → lk ≠ LkKmem → space_ok (acq lk s) pgdir l.
Proof.
  intros Hs Hc Hne. eapply (space_ext s); [done| |apply Hs|by left|done].
  intros E. destruct (vo_sync _ _ _ (so_vm _ _ _ Hs) E) as [_ Hf]. split; [by apply cpu_wf_acq|].
  unfold lock_free in *. cbn. by rewrite lookup_insert_ne.
Qed.

(** A child that [wait] can reap: its kernel stack and its address space are
    its own. *)
Record reapable s (qr : proc) (l : list Z) : Prop := {
  re_space : space_ok s (p_pgdir qr) l;
  re_holes : no_holes (k_mem s) (p_pgdir qr) 0 KERNBASE;
  re_kstack : valid_page (p_kstack qr);
  re_own : ¬ pool (k_mem s) (p_pgdir qr) l (p_kstack qr);
}.

Lemma reap_rel pt qs q qr :
  mlf_rel pt qs → pt_proc pt !! q = Some qr → p_state qr = ZOMBIE → 0 < pt_nextpid pt →
  mlf_rel (pt <| pt_proc ::= alter reap q |>) qs.
Proof.
  intros Hrel Hx Hs Hn. rewrite <-(set_nextpid_same pt) at 1.
  eapply off_queue_rel; try done; cbn; try congruence; try lia. by intros [].
Qed.

(** Freeing the kernel stack and the address space of a child. *)
Lemma free_child s qr l :
  reapable s qr l →
  returns (kfree (p_kstack qr)) s (λ _ s1, mem_only s s1 ∧ ∀ t, t = s1 <| k_ptable := k_ptable t |> →
    returns (freevm (p_pgdir qr)) t (λ _ t', mem_only t t' ∧ ∃ l', free_ok t' l' ∧
      ∀ v, v ∈ l' ↔ v = p_kstack qr ∨ pool (k_mem s) (p_pgdir qr) l v)).
Proof.
  intros [Hs Hno Hk Hown]. pose proof (so_vm _ _ _ Hs) as [Hsy Hf Hok _].
  eapply returns_mono; [apply (kfree_returns s _ l); try done; by intros Hin; apply Hown; left|].
  intros _ s1 (Hf1 & Hm1 & _ & Hk1). split; [done|]. intros t Ht.
  assert (k_mem t = k_mem s1) as Em by (by rewrite Ht).
  assert (∀ v a, dir_page (k_mem s) (p_pgdir qr) v → v ≤ a < v + PGSIZE → ldb (k_mem t) a = ldb (k_mem s) a) as Hkept.
  { intros v a Hv Ha. rewrite Em. apply Hk1.
    assert (v ≠ p_kstack qr) as Hne by (intros ->; apply Hown; right; by left).
    destruct (valid_page_apart v (p_kstack qr)); [by eapply dir_page_valid|done|done|lia|lia]. }
  eapply returns_mono; [apply (freevm_view t (p_pgdir qr) (p_kstack qr :: l))|].
  - eapply (space_ext s); [done| |by rewrite Ht| |done].
    + rewrite Ht. exact (mem_only_sync _ _ Hm1 Hsy).
    + intros v [->|Hv]%elem_of_cons; [right|by left]. split; intros ?; apply Hown; right; auto.
  - eapply no_holes_later; [| | | | |exact Hno]; [done|done|done| |].
    + intros i Hi. by apply ext_pde.
    + intros va Hr. apply ext_mapping; [done|done|]. apply in_range_user in Hr; [|done|done]. unfold NADDR, KERNBASE in *. lia.
  - intros _ t' (l' & Hf' & Hm' & Hl' & _). split; [done|]. exists l'. split; [done|]. intros v. rewrite Hl'. unfold pool.
    rewrite (ext_dir_page (k_mem s)), (ext_user_page (k_mem s)) by done. set_solver.
Qed.

Lemma zombie_child_Some p (ps : list proc) q :
  zombie_child p ps = Some q → ∃ qr, ps !! q = Some qr ∧ p_parent qr = Some p ∧ p_state qr = ZOMBIE.
Proof.
  unfold zombie_child. intros ([q' qr] & E & [= ->])%fmap_Some. apply list_find_Some in E as (Hq & Ht & _).
  exists qr. apply andb_true_iff in Ht as [Hpa%bool_decide_eq_true Hst%bool_decide_eq_true]. done.
Qed.

(** C17: [wait] with an exited child: it returns the child's pid, the entry becomes
    UNUSED, and the child's kernel stack, page directory, page tables and user
    pages are free again, next to the pages that were. *)
Theorem wait_reaps s c p q qr l qs :
  k_cpus s !! k_cpu s = Some c → cpu_proc c = Some p → ncli c = 0 → lock_free LkPtable s →
  zombie_child p (pt_proc (k_ptable s)) = Some q → pt_proc (k_ptable s) !! q = Some qr → reapable s qr l →
  mlf_rel (k_ptable s) qs → 0 < pt_nextpid (k_ptable s) →
  returns wait s (λ r t, r = p_pid qr ∧ k_locks t = k_locks s ∧
    k_ptable t = (k_ptable s) <| pt_proc ::= alter (λ x, reap (x <| p_kstack := 0 |>)) q |> ∧
    mlf_rel (k_ptable t) qs ∧
    ∃ l', free_ok t l' ∧ ∀ v, v ∈ l' ↔ v ∈ l ∨ v = p_kstack qr ∨
      dir_page (k_mem s) (p_pgdir qr) v ∨ user_page (k_mem s) (p_pgdir qr) v).
Proof.
  intros Hc Hp Hn Hl Hz Hq [Hsp Hno Hks Hown] Hrel Hpid.
  assert (cpu_wf s) as Hwf by (exists c; split; [done|split; lia]).
  set (s0 := acq LkPtable s).
  assert (k_cpus s0 !! k_cpu s0 = Some (cpu_push c)) as Hc0 by (by apply alter_lookup_eq).
  assert (reapable s0 qr l) as Hre by (split; [by apply space_ok_acq|done..]).
  destruct (zombie_child_Some _ _ _ Hz) as (qr' & Hq' & _ & Hzz). simplify_eq.
  unfold wait. apply returns_bind. eapply returns_eq; [by apply acquire_free|]. fold s0.
  apply returns_bind. eapply returns_eq; [by eapply curproc_eq|]. unfold fuel. cbn [wait_loop].
  apply returns_bind. eapply returns_eq; [reflexivity|]. cbv beta zeta.
  change (pt_proc (k_ptable (id s0))) with (pt_proc (k_ptable s)). rewrite Hz.
  apply returns_bind. eapply returns_eq; [by apply (get_proc_eq s0 q qr)|].
  apply returns_bind. eapply returns_mono; [by apply (free_child s0 qr l)|]. cbv beta. intros _ s1 [Hm1 Hfv].
  assert (k_ptable s1 = k_ptable s) as Hpt1 by (by rewrite (mo_eq _ _ Hm1)).
  apply returns_bind. eapply returns_eq; [apply (upd_proc_eq _ _ qr); by rewrite Hpt1|].
  apply returns_bind. set (s2 := s1 <| k_ptable ::= _ |>).
  eapply returns_mono; [apply (Hfv s2); done|]. intros _ s3 (Hm3 & l' & Hf3 & Hl').
  assert (k_ptable s3 = k_ptable s2) as Hpt3 by (by rewrite (mo_eq _ _ Hm3)).
  assert (pt_proc (k_ptable s3) !! q = Some (qr <| p_kstack := 0 |>)) as Hq3
    by (rewrite Hpt3; cbn; by rewrite Hpt1, list_lookup_alter_eq, Hq).
  apply returns_bind. eapply returns_eq; [by apply (upd_proc_eq _ _ (qr <| p_kstack := 0 |>))|].
  set (s4 := s3 <| k_ptable ::= _ |>).
  assert (cpus_eqv (k_cpu s0) (k_cpus s0) (k_cpus s4)) as Hcs.
  { change (k_cpus s4) with (k_cpus s3). etransitivity; [apply Hm1|]. apply (mem_only_cpu s0) in Hm1 as [<- _]. apply Hm3. }
  assert (k_cpu s4 = k_cpu s ∧ k_locks s4 = k_locks s0) as [Hcpu Hlk].
  { destruct (mem_only_cpu _ _ Hm1) as [E1 E1'], (mem_only_cpu _ _ Hm3) as [E3 E3']. split; cbn; [rewrite E3; exact E1|rewrite E3'; exact E1']. }
  assert (k_cpus s4 = k_cpus s0) as Ecs by (eapply cpus_eqv_nested; [exact Hcs|exact Hc0|cbn; lia]).
  apply returns_bind. eapply returns_eq; [by apply (release_acq LkPtable s)|]. apply returns_ret.
  split_and!; [done|done| | |].
  - cbn. rewrite Hpt3. cbn. rewrite Hpt1. cbn. by rewrite list_alter_alter_eq.
  - change (mlf_rel ((k_ptable s3) <| pt_proc ::= alter reap q |>) qs).
    eapply reap_rel; [|exact Hq3|done|].
    + rewrite Hpt3. change (mlf_rel ((k_ptable s1) <| pt_proc ::= alter (set p_kstack (λ _, 0)) q |>) qs).
      rewrite Hpt1. by apply neutral_rel.
    + rewrite Hpt3. change (0 < pt_nextpid (k_ptable s1)). by rewrite Hpt1.
  - exists l'. split; [done|]. intros v. rewrite Hl'. unfold pool. cbn. tauto.
Qed.

(** Sleeping under [ptable.lock] itself, which is not released. *)
Lemma sleep_ptable chan s p pr :
  lock_held LkPtable s → cpu_runs p s → pt_proc (k_ptable s) !! p = Some pr →
  ∃ s1 k, sleep chan (Some LkPtable) s = Wait Swtch s1 k ∧
    k_ptable s1 = (k_ptable s) <| pt_proc ::= alter (λ x, x <| p_chan := Some chan |> <| p_state := SLEEPING |>) p |> ∧
    lock_held LkPtable s1 ∧ cpu_runs p s1 ∧
    ∀ t x, cpu_runs p t → pt_proc (k_ptable t) !! p = Some x →
      ∃ t', k t = Ret tt t' ∧ cpu_runs p t' ∧ k_locks t' = k_locks t ∧
        k_ptable t' = (k_ptable t) <| pt_proc ::= alter (set p_chan (λ _, None)) p |>.
Proof.
  intros Hl Hr Hpr.
  set (s2 := s <| k_ptable := (k_ptable s)
      <| pt_proc ::= alter (λ x, x <| p_chan := Some chan |> <| p_state := SLEEPING |>) p |> |>).
  destruct (sched_eq s2 p (pr <| p_chan := Some chan |> <| p_state := SLEEPING |>))
    as [i Hsch]; [done|done|cbn; by rewrite list_lookup_alter_eq, Hpr|done|].
  exists s2. eexists. split; [|split_and!; try done].
  - unfold sleep, myproc. destruct Hr as (c & Hc & _ & _ & Hp).
    rewrite (bind_ret _ _ s (Some p) s) by (step (get_cpu_eq _ _ Hc); by rewrite Hp). cbv beta iota.
    rewrite bool_decide_false by tauto. mstep. step (curproc_eq _ _ _ Hc Hp). step (upd_proc_eq _ _ pr); [|done].
    step (upd_proc_eq _ _ (pr <| p_chan := Some chan |>)); [|cbn; by rewrite list_lookup_alter_eq, Hpr].
    erewrite bind_wait; [reflexivity|]. rewrite <-Hsch. f_equal. unfold s2. cbn. by rewrite list_alter_alter_eq.
  - intros t x Hrt Hx. destruct (sched_resume t p i Hrt) as (t1 & He1 & Hr2 & Hk2 & Hpt2 & Hcpu2).
    eexists. split.
    { cbv beta. rewrite He1. cbn [obind]. destruct Hr2 as (c2 & Hc2 & _ & _ & Hp2).
      step (curproc_eq _ _ _ Hc2 Hp2). step (upd_proc_eq _ _ x); [|by rewrite Hpt2]. reflexivity. }
    split_and!; [done|done|cbn; by rewrite Hpt2].
Qed.


End life.

(** ** Witnesses *)

Module life_demo.
#[local] Existing Instance kenv_example.

(** [init], in entry 0, sleeps in [wait]; its child in entry 1 runs, without
    open files, in the root directory. *)
Definition pt0 : ptable_t :=
  demo.pt5 <| pt_proc ::= alter (λ x, x <| p_chan := Some (ChProc 0) |> <| p_state := SLEEPING |>) 0%nat |>.
Definition child : proc → proc :=
  λ x, x <| p_parent := Some 0%nat |> <| p_cwd := Some 0%nat |> <| p_pgdir := page2 |> <| p_kstack := space_demo.page3 |>.
Definition pt1 : ptable_t := (pt_deq 1 pt0) <| pt_proc ::= alter child 1%nat |> <| pt_initproc := Some 0%nat |>.

Lemma rel_initproc pt qs o : mlf_rel pt qs → mlf_rel (pt <| pt_initproc := o |>) qs.
Proof. intros []. by split. Qed.

Lemma life_rel1 : mlf_rel pt1 zero_queues.
Proof.
  assert (mlf_rel pt0 demo.qs5) as Hrel0 by (by eapply sleep_rel; [apply demo.rel5| |]).
  assert (mlf_rel (pt_deq 1 pt0) zero_queues) as Hrel1 by (by apply (deq_rel pt0 demo.qs5 0 1 [])).
  assert (mlf_rel ((pt_deq 1 pt0) <| pt_proc ::= alter child 1%nat |>) zero_queues) as Hrel2 by (by apply neutral_rel).
  by apply rel_initproc.
Qed.

Definition cpu1 (p : nat) : cpu := mkCpu 0 0 FL_IF (Some p) 0 0 0 0.
Definition exiting : kstate :=
  boot_state <| k_ptable := pt1 |> <| k_cpus := [cpu1 1] |> <| k_icache ::= alter (set i_ref (λ _, 2)) 0%nat |>.
Definition pr1 : proc := default proc_zero (pt_proc pt1 !! 1%nat).


(** The other way round: the parent runs and the child has exited. *)
Definition pt2 : ptable_t := (pt_deq 1 demo.pt5) <| pt_proc ::= alter child 1%nat |>.
Definition pt3 : ptable_t := pt2 <| pt_proc ::= alter (set p_state (λ _, ZOMBIE)) 1%nat |>.
Definition qr3 : proc := default proc_zero (pt_proc pt3 !! 1%nat).

Lemma life_rel3 : mlf_rel pt3 zero_queues.
Proof.
  assert (mlf_rel (pt_deq 1 demo.pt5) zero_queues) as Hrel1
    by (apply (deq_rel demo.pt5 demo.qs5 0 1 []); [apply demo.rel5|reflexivity]).
  by eapply exit_rel; [by apply neutral_rel|..].
Qed.

Definition waiting pt : kstate := one_page <| k_ptable := pt |> <| k_cpus := [cpu1 0] |>.

Lemma waiting_reapable : reapable (waiting pt3) qr3 [page1].
Proof.
  destruct space_demo.page3_fresh as [Hv Hn]. split; [|intros va; intros; unfold mapping; by rewrite one_page_empty|exact Hv|exact Hn].
  eapply (space_ext one_page); [apply space_demo.one_page_space| |apply one_page_free_ok|by left|done].
  intros _. split; [|reflexivity]. eexists. split; [reflexivity|]. split; cbn; lia.
Qed.

Lemma wait_reaps_witness :
  returns wait (waiting pt3) (λ r t, r = 2 ∧ ∃ l', free_ok t l' ∧ page1 ∈ l' ∧ page2 ∈ l' ∧ space_demo.page3 ∈ l').
Proof.
  eapply returns_mono; [apply (wait_reaps (waiting pt3) (cpu1 0) 0 1 qr3 [page1] zero_queues);
    [reflexivity..|apply waiting_reapable|apply life_rel3|reflexivity]|].
  intros r t (-> & _ & _ & _ & l' & Hf & Hl). split; [reflexivity|]. exists l'.
  rewrite !Hl. split_and!; [exact Hf|left; by constructor|right; right; left; by left|right; by left].
Defined.

End life_demo.
