(* ===== verification/Fork.v ===== *)
(** fork (proc.c): the child is a copy of the parent. *)
From stdpp Require Import base numbers gmap strings option list.
From S2P Require Import Prelude State Spinlock Str Cprintf Kalloc Proc Mlf Sched Bio Blocks Log LogSpec Tx Crash Fs FsTx Balloc Inode Pipe File Vm PageTable AddrSpace ProcLife.

(** ** Open files *)

(** How many of the descriptors are the file [f]. *)
Definition opens (f : nat) (o : list (option nat)) : Z := length (filter (λ x, x = Some f) o).

Lemma opens_cons f a o : opens f (a :: o) = (if bool_decide (a = Some f) then 1 else 0) + opens f o.
Proof. unfold opens. rewrite filter_cons. case_decide; case_bool_decide; cbn [length]; lia || done. Qed.

Section fork.
Context `{kenv}.
Implicit Types (s t : kstate) (np p : nat) (o : list (option nat)).

Lemma get_file_eq s f x : k_ftable s !! f = Some x → get_file f s = Ret x s.
Proof. intros Hx. unfold get_file. mred. by rewrite Hx. Qed.

Lemma upd_file_eq s f x g : k_ftable s !! f = Some x → upd_file f g s = Ret tt (s <| k_ftable ::= <[f := g x]> |>).
Proof.
  intros Hx. unfold upd_file. step (get_file_eq _ _ _ Hx). unfold modify. cbn. by rewrite (alter_insert _ _ _ x).
Qed.

Lemma filedup_eq s f x :
  cpu_wf s → lock_free LkFtable s → k_ftable s !! f = Some x → 1 ≤ f_ref x →
  filedup f s = Ret f (s <| k_cpus := relcpus s |> <| k_ftable ::= <[f := x <| f_ref ::= λ r, s32 (r + 1) |>]> |>).
Proof.
  intros Hc Hl Hx Hr. unfold filedup. step (acquire_free _ _ Hc Hl). step (get_file_eq (acq LkFtable s) f x Hx).
  rewrite (proj2 (Z.ltb_ge _ _)) by lia. step (upd_file_eq (acq LkFtable s) f x (set f_ref (λ r, s32 (r + 1))) Hx).
  by step (release_acq LkFtable s).
Qed.

(** The descriptors from [k] on, the ones before having been copied. *)
Lemma fork_files_from np o n : ∀ k s y,
  (k + n = length o)%nat → pt_proc (k_ptable s) !! np = Some y → p_ofile y = take k o ++ replicate n None →
  cpu_wf s → lock_free LkFtable s →
  (∀ f, Some f ∈ drop k o → ∃ x, k_ftable s !! f = Some x ∧ 1 ≤ f_ref x ∧ f_ref x + n < 2 ^ 31) →
  ∃ t, for_each (seq k n) (λ i, match o !! i with
      | Some (Some f) => let* f := filedup f in upd_proc np (set p_ofile (<[i := Some f]>))
      | _ => ret tt
      end) s = Ret tt t ∧
    t = set_proc np (y <| p_ofile := o |>) (s <| k_cpus := k_cpus t |> <| k_ftable := k_ftable t |>) ∧
    cpus_eqv (k_cpu s) (k_cpus s) (k_cpus t) ∧
    ∀ f x, k_ftable s !! f = Some x → k_ftable t !! f = Some (x <| f_ref := f_ref x + opens f (drop k o) |>).
Proof.
  induction n as [|n IH]; intros k s y Hk Hy Ho Hc Hl Hf.
  - exists s. cbn [seq for_each]. split; [done|]. cbn in Ho. rewrite app_nil_r, take_ge in Ho by lia.
    split_and!; [|done|].
    + replace (y <| p_ofile := o |>) with y by (rewrite <- Ho; by destruct y).
      unfold set_proc. cbn. rewrite list_insert_id by done. destruct s as []; cbn. f_equal. by destruct k_ptable.
    + intros f x Hx. rewrite drop_ge by lia. cbn. rewrite Z.add_0_r. by destruct x.
  - destruct (lookup_lt_is_Some_2 o k) as [a Ha]; [lia|]. rewrite (drop_S o a k Ha) in *.
    cbn [seq for_each]. rewrite Ha.
    assert (∀ b, <[k := b]> (take k o ++ replicate (S n) None) = take k o ++ b :: replicate n None) as Hins.
    { intros b. rewrite insert_app_r_alt by (rewrite length_take; lia).
      rewrite length_take, Nat.min_l, Nat.sub_diag by lia. done. }
    assert (take (S k) o ++ replicate n None = take k o ++ a :: replicate n None) as Htk
      by (by rewrite (take_S_r o k a Ha), <- app_assoc).
    destruct a as [f|].
    + destruct (Hf f ltac:(set_solver)) as (x & Hx & Hr & Hb).
      rewrite Nat2Z.inj_succ in Hb. assert (s32 (f_ref x + 1) = f_ref x + 1) as Hs32 by (apply s32_small; lia).
      set (s1 := s <| k_cpus := relcpus s |> <| k_ftable ::= <[f := x <| f_ref ::= λ r, s32 (r + 1) |>]> |>).
      set (s2 := set_proc np (y <| p_ofile ::= <[k := Some f]> |>) s1).
      erewrite (bind_ret _ _ s tt s2).
      2:{ step (filedup_eq s f x Hc Hl Hx Hr). by apply (upd_proc_set np y). }
      destruct (IH (S k) s2 (y <| p_ofile ::= <[k := Some f]> |>)) as (t & E & Ht & Hcs & Hft).
      * lia.
      * cbn. apply list_lookup_insert_eq. by eapply lookup_lt_Some.
      * cbn. by rewrite Ho, Hins, Htk.
      * eapply (cpu_wf_ext (s <| k_cpus := relcpus s |>)); [done|done|]. by apply relcpus_wf.
      * done.
      * intros g Hg. destruct (Hf g ltac:(set_solver)) as (z & Hz & Hrz & Hbz). cbn.
        rewrite Nat2Z.inj_succ in Hbz. destruct (decide (g = f)) as [->|Hne].
        -- simplify_eq. eexists. rewrite list_lookup_insert_eq by (by eapply lookup_lt_Some). split; [done|]. cbn. lia.
        -- exists z. rewrite list_lookup_insert_ne by done. split; [done|lia].
      * exists t. split; [exact E|]. split_and!.
        -- rewrite Ht at 1. unfold set_proc. cbn. by rewrite list_insert_insert_eq.
        -- etransitivity; [apply cpus_eqv_relcpus|exact Hcs].
        -- intros g z Hz. rewrite opens_cons. destruct (decide (g = f)) as [->|Hne].
           ++ simplify_eq. erewrite Hft; [|cbn; by rewrite list_lookup_insert_eq by (by eapply lookup_lt_Some)].
              cbn. rewrite Hs32, bool_decide_true by done. do 2 f_equal. lia.
           ++ erewrite Hft; [|cbn; by rewrite list_lookup_insert_ne].
              rewrite bool_decide_false by congruence. done.
    + rewrite (bind_ret _ _ s tt s) by done. destruct (IH (S k) s y) as (t & E & Ht & Hcs & Hft); try done.
      * lia.
      * by rewrite Ho, Htk.
      * intros g Hg. destruct (Hf g ltac:(set_solver)) as (z & Hz & Hrz & Hbz). exists z. split_and!; [done|done|lia].
      * exists t. split_and!; [done|done|done|]. intros g z Hz. rewrite opens_cons, bool_decide_false by done. by apply Hft.
Qed.

(** The rest of [fork] once the address space is copied. *)
Definition fork_rest np p (pr : proc) : KM Z :=
  do* upd_proc np (set p_sz (λ _, p_sz pr)) in
  do* upd_proc np (set p_parent (λ _, Some p)) in
  do* upd_proc np (set p_tframe (λ _, (p_tframe pr) <| tf_eax := 0 |>)) in
  do* fork_files np (p_ofile pr) in
  let* cwd := deref "proc->cwd" (p_cwd pr) in
  let* cwd := idup cwd in
  do* upd_proc np (set p_cwd (λ _, Some cwd)) in
  let* npr := get_proc np in
  let pid := p_pid npr in
  let* nm := deref "safestrcpy" (safestrcpy (p_name npr) (p_name pr) 16) in
  do* upd_proc np (set p_name (λ _, nm)) in
  do* cprintf "----> name proc fork: %s 
" [PStr (Some nm)] in
  do* acquire LkPtable in
  do* make_runnable np 0 in
  do* release LkPtable in
  ret pid.

(** What a process must be for its files to be shared with a child. *)
Record sharable s (pr : proc) : Prop := {
  sh_nofile : length (p_ofile pr) = NOFILE;
  sh_files : ∀ f, Some f ∈ p_ofile pr → ∃ x, k_ftable s !! f = Some x ∧ 1 ≤ f_ref x ∧ f_ref x + NOFILE < 2 ^ 31;
  sh_cwd : ∃ ip x, p_cwd pr = Some ip ∧ k_icache s !! ip = Some x;
  sh_name : length (p_name pr) = 16%nat;
}.

(** A table entry nobody uses. *)
Definition vacant (x : proc) : Prop := p_ofile x = replicate NOFILE None ∧ length (p_name x) = 16%nat.

(** The child of [p] in an entry that was [y]. *)
Definition child_of p (pr y : proc) (nm : list Z) : proc :=
  y <| p_sz := p_sz pr |> <| p_parent := Some p |> <| p_tframe := (p_tframe pr) <| tf_eax := 0 |> |>
    <| p_ofile := p_ofile pr |> <| p_cwd := p_cwd pr |> <| p_name := nm |>.

(** The files and the directory of [pr] have one more user each. *)
Definition shared s (pr : proc) t : Prop :=
  (∀ f x, k_ftable s !! f = Some x → k_ftable t !! f = Some (x <| f_ref := f_ref x + opens f (p_ofile pr) |>)) ∧
  ∀ ip x, p_cwd pr = Some ip → k_icache s !! ip = Some x →
    k_icache t = <[ip := x <| i_ref ::= λ r, s32 (r + 1) |>]> (k_icache s).

Lemma format_fork name :
  ∃ out, format (bytes "----> name proc fork: %s 
") [PStr (Some name)] = Some out.
Proof. eexists. reflexivity. Qed.

Lemma fork_rest_view s np p pr y qs :
  cpu_wf s → lock_free LkPtable s → lock_free LkFtable s → lock_free LkIcache s → cons_ok s →
  mlf_rel (k_ptable s) qs → entry np y s → p_state y = EMBRYO → vacant y → sharable s pr →
  ∃ t nm, fork_rest np p pr s = Ret (p_pid y) t ∧ cstr nm = take 15 (cstr (p_name pr)) ∧
    k_mem t = k_mem s ∧ k_kmem t = k_kmem s ∧ k_locks t = k_locks s ∧ cpu_wf t ∧ shared s pr t ∧
    k_ptable t = pt_enq np 0 (k_ptable (set_proc np (child_of p pr y nm) s)) ∧
    mlf_rel (k_ptable t) (alter (λ l, l ++ [np]) 0%nat qs).
Proof.
  intros Hc Hlp Hlf Hli Hco Hrel Hy Hs [Hvo Hvn] [Hno Hfs (ip & ino & Hcwd & Hino) Hnm].
  unfold fork_rest. pstep Hy. pstep Hy. rewrite set_proc_set. pstep Hy. rewrite set_proc_set.
  set (y1 := set p_tframe _ _). set (s1 := set_proc np y1 s).
  assert (entry np y1 s1) as Hy1 by (by eapply entry_set).
  destruct (fork_files_from np (p_ofile pr) NOFILE 0 s1 y1) as (s2 & E2 & Hs2 & Hcs2 & Hft2); try done.
  step E2. rewrite Hcwd. unfold deref at 1. mstep.
  assert (k_locks s2 = k_locks s ∧ k_cpu s2 = k_cpu s ∧ k_icache s2 = k_icache s ∧ k_mem s2 = k_mem s ∧ k_kmem s2 = k_kmem s ∧
    k_panicked s2 = k_panicked s ∧ k_cons_locking s2 = k_cons_locking s) as (Elk & Ecpu & Eic & Em & Ek & Epa & Ecl)
    by (rewrite Hs2; by split_and!).
  assert (cpu_wf s2) as Hc2.
  { eapply (cpu_wf_ext (s <| k_cpus := k_cpus s2 |>)); [done|done|]. by apply cpu_wf_eqv. }
  assert (entry np (y1 <| p_ofile := p_ofile pr |>) s2) as Hy2.
  { rewrite Hs2. by apply (entry_set np y1). }
  step (idup_eq s2 ip ino Hc2); [|unfold lock_free; by rewrite Elk|by rewrite Eic].
  set (s3 := s2 <| k_cpus := _ |> <| k_icache ::= _ |>). pstep Hy2.
  set (y3 := set p_cwd _ _). step (get_proc_eq (set_proc np y3 s3) np y3); [|by apply (entry_set np _ y3 s3 Hy2)].
  change (p_name y3) with (p_name y). change (p_pid y3) with (p_pid y). cbv zeta.
  destruct (safestrcpy_correct (p_name y) (p_name pr) 16) as (nm & -> & _ & Hcs & _);
    [rewrite Hvn; lia|left; rewrite Hnm; lia|]. unfold deref. mstep.
  erewrite bind_ret; [|apply (upd_proc_set np y3), (entry_set np _ y3 s3 Hy2)]. cbv beta. rewrite set_proc_set.
  replace (set p_name (λ _, nm) y3) with (child_of p pr y nm) by (unfold child_of; rewrite Hcwd; done).
  set (s4 := set_proc np _ s3). destruct (format_fork nm) as [out Hout].
  assert (cpu_wf s4) as Hc4 by (eapply (cpu_wf_ext (s2 <| k_cpus := relcpus s2 |>)); [done|done|]; by apply relcpus_wf).
  assert (cons_ok s4) as Hco4.
  { destruct Hco as [Hp Hk]. split; cbn; [by rewrite Epa|]. intros E. unfold lock_free. cbn. rewrite Elk. apply Hk. by rewrite <- Ecl. }
  destruct (cprintf_eq _ _ out s4 Hc4 Hco4 Hout) as (cs5 & Hcs5 & E5). erewrite bind_ret by exact E5. cbv beta.
  set (s5 := s4 <| k_cpus := cs5 |> <| k_console ::= _ |>).
  assert (cpu_wf s5) as Hc5 by (eapply (cpu_wf_ext (s4 <| k_cpus := cs5 |>)); [done|done|]; by apply cpu_wf_eqv).
  assert (lock_free LkPtable s5) as Hl5 by (unfold lock_free; cbn; by rewrite Elk).
  assert (k_ptable s5 = k_ptable (set_proc np (child_of p pr y nm) s)) as Hpt5.
  { cbn. rewrite Hs2. unfold set_proc. cbn. by rewrite !list_insert_insert_eq. }
  assert (mlf_rel (k_ptable s5) qs) as Hrel5.
  { rewrite Hpt5. unfold set_proc. cbn. rewrite <- (alter_insert (λ x, child_of p pr x nm)) by done. by apply neutral_rel. }
  step (acquire_free LkPtable s5 Hc5 Hl5).
  destruct (make_runnable_rel (acq LkPtable s5) qs np (child_of p pr y nm) 0) as [E6 Hrel6]; try done.
  { change (entry np (child_of p pr y nm) s5). unfold entry. rewrite Hpt5. by eapply entry_set. }
  { cbn. by rewrite Hs. }
  { cbn. by rewrite Hs. }
  step E6. erewrite bind_ret; [|by apply (release_acq LkPtable s5)]. eexists _, nm. split; [reflexivity|].
  split_and!; try done.
  - eapply (cpu_wf_ext (s5 <| k_cpus := relcpus s5 |>)); [done|done|]. by apply relcpus_wf.
  - split; cbn.
    + intros f x Hx. by erewrite Hft2.
    + intros ip' x Hip Hx. simplify_eq. by rewrite Eic.
  - by rewrite <- Hpt5.
Qed.
(** ** The whole of fork *)

Context `{!kernel_image}.

(** Taking a page for a kernel stack and writing to it. *)
Lemma stack_space s t pgdir ks l v :
  space_ok s pgdir (ks :: l) → freelist (k_kmem t) = ld32 (k_mem s) ks → k_mem t = st32 (k_mem s) (ks + KSTACKSIZE - 80) v →
  kmem_sync t →
  space_ok t pgdir l ∧ (∀ w a, valid_page w → w ≠ ks → w ≤ a < w + PGSIZE → ldb (k_mem t) a = ldb (k_mem s) a) ∧
  ∀ va, 0 ≤ va < NADDR → mapping (k_mem t) pgdir va = mapping (k_mem s) pgdir va.
Proof.
  intros Hs Ef Em Hsy. pose proof (so_vm _ _ _ Hs) as [_ Hf Hok Hun].
  assert (valid_page ks) as Hks by (destruct Hf as (_ & _ & Hv); by inversion Hv).
  assert (∀ w a, valid_page w → w ≠ ks → w ≤ a < w + PGSIZE → ldb (k_mem t) a = ldb (k_mem s) a) as Hkept.
  { intros w a Hw Hne Ha. rewrite Em. apply ldb_st32_ne. destruct (valid_page_apart w ks); try done;
      unfold KSTACKSIZE, PGSIZE in *; lia. }
  assert (∀ w a, dir_page (k_mem s) pgdir w → w ≤ a < w + PGSIZE → ldb (k_mem t) a = ldb (k_mem s) a) as Hd.
  { intros w a Hw Ha. apply (Hkept w); [by eapply dir_page_valid| |done]. intros ->.
    by eapply (unused_not_dir _ _ (ks :: l)); [exact Hun|left|]. }
  split_and!; [|done|intros va Hva; by apply ext_mapping].
  eapply (space_ext s); [done|done| |intros w Hw; left; by right|done].
  eapply (free_ok_st32 s _ l ks); [done|done| | |exact Em]; unfold KSTACKSIZE, PGSIZE; lia.
Qed.

(** A byte of the copy, in terms of the memory before the stack was taken. *)
Lemma fork_bytes s sA t pgdir ks l l1 d j va :
  space_ok s pgdir (ks :: l) → space_ok sA pgdir l →
  (∀ w a, valid_page w → w ≠ ks → w ≤ a < w + PGSIZE → ldb (k_mem sA) a = ldb (k_mem s) a) →
  (∀ va, 0 ≤ va < NADDR → mapping (k_mem sA) pgdir va = mapping (k_mem s) pgdir va) →
  copying sA l pgdir t l1 d j → 0 ≤ va < j → va < KERNBASE →
  ∃ a a', translate (k_mem s) pgdir va = Some a ∧ translate (k_mem t) d va = Some a' ∧ a ≠ a' ∧
    ldb (k_mem t) a' = u8 (ldb (k_mem s) a).
Proof.
  intros Hs HsA HkA HmA Hcp Hva Hub.
  destruct (copying_bytes sA l pgdir t l1 d j va) as (a & a' & Ha & Ha' & Hna & Hb & _); try done.
  assert (0 ≤ va < KERNBASE) as Hu by lia. exists a, a'.
  rewrite translate_mapping, HmA in Ha by (by apply user_addr). rewrite translate_mapping. split_and!; try done. rewrite Hb. f_equal.
  destruct (mapping (k_mem s) pgdir va) as [e|] eqn:Ee; [|done]. injection Ha as <-.
  destruct (so_frame _ _ _ Hs va e Hu Ee) as (Hv & Hni & _). fold (frame e).
  apply (HkA (frame e)); [done|set_solver|unfold PGSIZE; lia].
Qed.

(** Where [fork] may start. *)
Record fork_ready s (c : cpu) p (pr : proc) (l : list Z) (qs : queues) : Prop := {
  fr_cpu : k_cpus s !! k_cpu s = Some c ∧ ncli c = 0 ∧ cpu_proc c = Some p;
  fr_locks : lock_free LkPtable s ∧ lock_free LkFtable s ∧ lock_free LkIcache s ∧ cons_ok s;
  fr_rel : mlf_rel (k_ptable s) qs;
  fr_proc : entry p pr s ∧ p_state pr = RUNNING;
  fr_pid : 0 ≤ pt_nextpid (k_ptable s) ∧ pt_nextpid (k_ptable s) + 1 < 2 ^ 31;
  fr_space : space_ok s (p_pgdir pr) l;
  fr_size : 0 ≤ p_sz pr ≤ KERNBASE;
  fr_mapped : ∀ va, 0 ≤ va < p_sz pr → is_Some (mapping (k_mem s) (p_pgdir pr) va);
  fr_share : sharable s pr;
  fr_vacant : ∀ j x, entry j x s → p_state x = UNUSED → vacant x;
}.

(** The child, in entry [np]. *)
Record forked s p (pr : proc) (l : list Z) (qs : queues) t np (x : proc) : Prop := {
  fk_free : ∃ y, entry np y s ∧ p_state y = UNUSED;
  fk_entry : entry np x t;
  fk_state : p_state x = RUNNABLE ∧ mlf_rel (k_ptable t) (alter (λ q, q ++ [np]) 0%nat qs);
  fk_pid : p_pid x = pt_nextpid (k_ptable s);
  fk_parent : p_parent x = Some p;
  fk_user : p_sz x = p_sz pr ∧ p_tframe x = (p_tframe pr) <| tf_eax := 0 |>;
  fk_files : p_ofile x = p_ofile pr ∧ p_cwd x = p_cwd pr ∧ shared s pr t;
  fk_name : cstr (p_name x) = take 15 (cstr (p_name pr));
  fk_others : ∀ j y, j ≠ np → entry j y s → ∃ y', entry j y' t ∧ y' = y <| p_next := p_next y' |>;
  fk_space : ∃ l', space_ok t (p_pgdir x) l' ∧ l' ⊆ l;
  fk_bytes : ∀ va, 0 ≤ va < p_sz pr → ∃ a a', translate (k_mem s) (p_pgdir pr) va = Some a ∧
    translate (k_mem t) (p_pgdir x) va = Some a' ∧ a ≠ a' ∧ ldb (k_mem t) a' = u8 (ldb (k_mem s) a);
}.

(** No child: every entry in use is as it was, and so are the queues. *)
Record fork_failed s (l : list Z) (qs : queues) t : Prop := {
  ff_free : ∃ l', free_ok t l' ∧ l' ⊆ l;
  ff_rel : mlf_rel (k_ptable t) qs;
  ff_used : ∀ j x, entry j x s → p_state x ≠ UNUSED → entry j x t;
  ff_unused : ∀ j x, entry j x s → p_state x = UNUSED → ∃ x', entry j x' t ∧ p_state x' = UNUSED;
}.

(** An UNUSED entry that takes the next pid. *)
Lemma claim_rel pt qs i x z :
  mlf_rel pt qs → pt_proc pt !! i = Some x → p_state x = UNUSED → 0 ≤ pt_nextpid pt →
  p_state z = UNUSED ∨ p_state z = EMBRYO → p_pid z = pt_nextpid pt →
  mlf_rel (pt <| pt_nextpid := pt_nextpid pt + 1 |> <| pt_proc ::= <[i := z]> |>) qs.
Proof.
  intros Hrel Hx Hs Hn Hz Hp.
  assert (set pt_proc <[i := z]> (pt <| pt_nextpid := pt_nextpid pt + 1 |>) =
    set pt_proc (alter (λ _, z) i) (pt <| pt_nextpid := pt_nextpid pt + 1 |>)) as ->
    by (cbn; by rewrite (alter_insert _ _ _ x)).
  eapply off_queue_rel; try done; rewrite ?Hp, ?Hs; try done; try lia; destruct Hz as [-> | ->]; try done; try (by intros []); by right.
Qed.

(** A table in which an UNUSED entry took a pid but is UNUSED still. *)
Lemma failed_entry s l qs t i x z (l' : list Z) :
  mlf_rel (k_ptable s) qs → entry i x s → p_state x = UNUSED → 0 ≤ pt_nextpid (k_ptable s) →
  p_state z = UNUSED → p_pid z = pt_nextpid (k_ptable s) → free_ok t l' → l' ⊆ l →
  k_ptable t = (k_ptable s) <| pt_nextpid := pt_nextpid (k_ptable s) + 1 |> <| pt_proc ::= <[i := z]> |> →
  fork_failed s l qs t.
Proof.
  intros Hrel Hx Hs Hn Hz Hp Hf Hl Ht. assert (Hlt := lookup_lt_Some _ _ _ Hx).
  split; [by exists l'|..].
  - rewrite Ht. eapply claim_rel; eauto.
  - intros j y Hy Hu. unfold entry. rewrite Ht. cbn. rewrite list_lookup_insert_ne; [done|]. intros ->. unfold entry in *. congruence.
  - intros j y Hy Hu. unfold entry. rewrite Ht. cbn. destruct (decide (i = j)) as [->|Hne].
    + exists z. by rewrite list_lookup_insert_eq.
    + exists y. by rewrite list_lookup_insert_ne.
Qed.

Lemma eqv_proc i (cs cs' : list cpu) c :
  cpus_eqv i cs cs' → cs !! i = Some c → ∃ c', cs' !! i = Some c' ∧ cpu_proc c' = cpu_proc c.
Proof. intros (v & -> & _) Hc. eexists. by rewrite list_lookup_alter_eq, Hc. Qed.

(** The two ends of [fork], from the state [t] in which [copyuvm] has returned
    and the claimed entry [i] holds [y]. *)
Section ends.
Context (s t : kstate) (p i : nat) (x y pr : proc) (l l1 : list Z) (ks : Z) (qs : queues).
Hypothesis Hrel : mlf_rel (k_ptable s) qs.
Hypothesis Hx : entry i x s.
Hypothesis Hu : p_state x = UNUSED.
Hypothesis Hpid : 0 ≤ pt_nextpid (k_ptable s).
Hypothesis Hy : y = new_proc (pt_nextpid (k_ptable s)) ks x.
Hypothesis Hpt : k_ptable t = (k_ptable s) <| pt_nextpid := pt_nextpid (k_ptable s) + 1 |> <| pt_proc ::= <[i := y]> |>.
Hypothesis Hsync : kmem_sync t.
Hypothesis Hfree : free_ok t l1.
Hypothesis Hsub : l1 ⊆ l.
Hypothesis Hks : valid_page ks ∧ ks ∉ l1.

Lemma end_entry : entry i y t.
Proof using Hx Hpt. unfold entry. rewrite Hpt. cbn. apply list_lookup_insert_eq. by eapply lookup_lt_Some. Qed.

Lemma fork_undo :
  returns (let* npr := get_proc i in
           do* kfree (p_kstack npr) in
           do* upd_proc i (set p_kstack (λ _, 0)) in
           do* upd_proc i (set p_state (λ _, UNUSED)) in
           ret (-1)) (set_proc i (y <| p_pgdir := 0 |>) t)
    (λ r u, r = -1 ∧ fork_failed s (ks :: l) qs u ∧
      ∀ w a, valid_page w → w ≠ ks → w ≤ a < w + PGSIZE → ldb (k_mem u) a = ldb (k_mem t) a).
Proof using All.
  pose proof end_entry as Hyt. destruct Hks as [Hv Hni].
  apply returns_bind. eapply returns_eq; [apply get_proc_eq; by apply (entry_set i y)|].
  replace (p_kstack (y <| p_pgdir := 0 |>)) with ks by (by rewrite Hy).
  apply returns_bind. eapply returns_mono; [by apply (kfree_returns _ ks l1)|]. intros _ u (Hf & Hm & _ & Hk).
  assert (k_ptable u = k_ptable (set_proc i (y <| p_pgdir := 0 |>) t)) as Ept by (by rewrite (mo_eq _ _ Hm)).
  assert (entry i (y <| p_pgdir := 0 |>) u) as Hyu by (unfold entry; rewrite Ept; by apply (entry_set i y)).
  apply returns_bind. eapply returns_eq; [eapply upd_proc_set; exact Hyu|].
  apply returns_bind. eapply returns_eq; [eapply upd_proc_set, entry_set; exact Hyu|]. rewrite set_proc_set.
  apply returns_ret. split; [done|]. split.
  - eapply (failed_entry s (ks :: l) qs _ i x _ (ks :: l1)); [done|done|done|done| | |exact Hf|set_solver|].
    3:{ unfold set_proc. cbn. rewrite Ept. unfold set_proc. cbn. rewrite Hpt. cbn. rewrite !list_insert_insert_eq. reflexivity. }
    + done.
    + cbn. by rewrite Hy.
  - intros w a Hw Hne Ha. cbn. apply Hk. destruct (valid_page_apart w ks); try done; lia.
Qed.

Lemma fork_publish d :
  cpu_wf t → lock_free LkPtable t → lock_free LkFtable t → lock_free LkIcache t → cons_ok t →
  vacant x → sharable t pr → k_ftable t = k_ftable s → k_icache t = k_icache s →
  space_ok t d l1 →
  (∀ va, 0 ≤ va < p_sz pr → ∃ a a', translate (k_mem s) (p_pgdir pr) va = Some a ∧
    translate (k_mem t) d va = Some a' ∧ a ≠ a' ∧ ldb (k_mem t) a' = u8 (ldb (k_mem s) a)) →
  returns (fork_rest i p pr) (set_proc i (y <| p_pgdir := d |>) t)
    (λ r u, k_mem u = k_mem t ∧ ∃ x', forked s p pr (ks :: l) qs u i x' ∧ r = p_pid x').
Proof using All.
  intros Hc Hlp Hlf Hli Hco Hva Hsh Eft Eic Hsp Hby. pose proof end_entry as Hyt.
  set (y1 := y <| p_pgdir := d |>). set (t1 := set_proc i y1 t).
  assert (entry i y1 t1) as Hy1 by (by eapply entry_set).
  assert (p_state y1 = EMBRYO ∧ vacant y1 ∧ p_pid y1 = pt_nextpid (k_ptable s)) as (Es & Hvy & Epid) by (unfold y1; by rewrite Hy).
  assert (k_ptable t1 = (k_ptable s) <| pt_nextpid := pt_nextpid (k_ptable s) + 1 |> <| pt_proc ::= <[i := y1]> |>) as Ept1.
  { unfold t1, set_proc. cbn. rewrite Hpt. cbn. by rewrite list_insert_insert_eq. }
  assert (mlf_rel (k_ptable t1) qs) as Hrel1.
  { rewrite Ept1. eapply claim_rel; eauto. }
  assert (sharable t1 pr) as Hsh1 by (split; apply Hsh).
  destruct (fork_rest_view t1 i p pr y1 qs) as (u & nm & E & Hnm & Em & Ek & El & Hcu & Hshu & Eptu & Hrelu); try done.
  eapply returns_eq; [exact E|]. split; [exact Em|].
  destruct (enq_lookup_fwd (k_ptable (set_proc i (child_of p pr y1 nm) t1)) i 0 i (child_of p pr y1 nm)) as (x' & Hx' & Exx).
  { by apply (entry_set i y1). }
  rewrite <- Eptu in Hx'. rewrite decide_True in Exx by done. exists x'. split; [split|]; try (rewrite Exx; done).
  - by exists x.
  - done.
  - rewrite Exx; cbn; split_and!; [done|done|]. destruct Hshu as [Hshf Hshi]. split.
    + intros f z Hz. apply Hshf. cbn. by rewrite Eft.
    + intros ip z Hip Hz. rewrite <- Eic. apply Hshi; [done|]. cbn. by rewrite Eic.
  - intros j z Hne Hz.
    destruct (enq_lookup_fwd (k_ptable (set_proc i (child_of p pr y1 nm) t1)) i 0 j z) as (z' & Hz' & Ez).
    { unfold set_proc. cbn. rewrite Hpt. cbn. by rewrite !list_lookup_insert_ne by done. }
    rewrite <- Eptu in Hz'. rewrite decide_False in Ez by done. exists z'. by split.
  - exists l1. split; [|set_solver]. rewrite Exx. cbn. eapply (space_ext t); [exact Hsp| | |by left|by rewrite Em].
    + intros Eu. rewrite Ek in Eu. destruct (Hsync Eu) as [_ Hlk]. split; [done|]. unfold lock_free. by rewrite El.
    + eapply (free_ok_mem t); [done|done|by rewrite Em].
  - rewrite Exx. cbn. rewrite Em. exact Hby.
Qed.
End ends.

(** [fork] once [allocproc] has claimed entry [np]. *)
Definition fork_with np : KM Z :=
  let* p := curproc in
  let* pr := get_proc p in
  let* pgdir := copyuvm (p_pgdir pr) (p_sz pr) in
  do* upd_proc np (set p_pgdir (λ _, pgdir)) in
  if pgdir =? 0 then
    let* npr := get_proc np in
    do* kfree (p_kstack npr) in
    do* upd_proc np (set p_kstack (λ _, 0)) in
    do* upd_proc np (set p_state (λ _, UNUSED)) in
    ret (-1)
  else fork_rest np p pr.

(** What [fork] promises, from a state with the free pages [l]. *)
Definition fork_post s p (pr : proc) (l : list Z) (qs : queues) (r : Z) t : Prop :=
  (∀ w a, valid_page w → w ∉ l → w ≤ a < w + PGSIZE → ldb (k_mem t) a = ldb (k_mem s) a) ∧
  ((∃ np x, forked s p pr l qs t np x ∧ r = p_pid x) ∨ r = -1 ∧ fork_failed s l qs t).

(** The state in which [allocproc] returns. *)
Definition claimed s (cs : list cpu) (i : nat) (ks : Z) : kstate :=
  s <| k_cpus := cs |> <| k_kmem ::= set freelist (λ _, ld32 (k_mem s) ks) |>
    <| k_mem ::= λ m, st32 m (ks + KSTACKSIZE - 80) trapret_addr |>
    <| k_ptable := (k_ptable s) <| pt_nextpid := pt_nextpid (k_ptable s) + 1 |>
         <| pt_proc ::= alter (new_proc (pt_nextpid (k_ptable s)) ks) i |> |>.

(** From the result of [copyuvm] on. *)
Lemma fork_copied s c p pr ks l qs i x cs l1 d t :
  fork_ready s c p pr (ks :: l) qs → entry i x s → p_state x = UNUSED →
  space_ok (claimed s cs i ks) (p_pgdir pr) l → cpu_wf (claimed s cs i ks) → kmem_sync t →
  (∀ w a, valid_page w → w ≠ ks → w ≤ a < w + PGSIZE → ldb (k_mem (claimed s cs i ks)) a = ldb (k_mem s) a) →
  (∀ va, 0 ≤ va < NADDR → mapping (k_mem (claimed s cs i ks)) (p_pgdir pr) va = mapping (k_mem s) (p_pgdir pr) va) →
  free_ok t l1 → mem_only (claimed s cs i ks) t → l1 ⊆ l →
  (∀ w a, valid_page w → w ∉ l → w ≤ a < w + PGSIZE → ldb (k_mem t) a = ldb (k_mem (claimed s cs i ks)) a) →
  (d = 0 ∨ d ≠ 0 ∧ ∃ j, p_sz pr ≤ j < p_sz pr + PGSIZE ∧ copying (claimed s cs i ks) l (p_pgdir pr) t l1 d j) →
  returns (do* upd_proc i (set p_pgdir (λ _, d)) in
    if d =? 0 then
      let* npr := get_proc i in
      do* kfree (p_kstack npr) in
      do* upd_proc i (set p_kstack (λ _, 0)) in
      do* upd_proc i (set p_state (λ _, UNUSED)) in
      ret (-1)
    else fork_rest i p pr) t (fork_post s p pr (ks :: l) qs).
Proof.
  intros [_ (Hlp & Hlf & Hli & Hco) Hrel (Hpr & Hrun) (Hp0 & Hp1) Hsp Hsz Hmap Hsh Hva] Hx Hu HspA HwfA Hsyt HkA HmA Hft Hmo Hl1 Hkt Hd.
  set (y := new_proc (pt_nextpid (k_ptable s)) ks x). pose proof (vo_free _ _ _ (so_vm _ _ _ Hsp)) as Hf.
  assert ((ks ∉ l) ∧ valid_page ks) as [Hksl Hks] by (destruct Hf as (_ & [? _]%NoDup_cons & [? _]%Forall_cons); done).
  assert (∀ w a, valid_page w → w ∉ ks :: l → w ≤ a < w + PGSIZE → ldb (k_mem t) a = ldb (k_mem s) a) as Hkept
    by (intros w a Hw Hwl Ha; rewrite (Hkt w), (HkA w); set_solver).
  assert (k_ptable t = (k_ptable s) <| pt_nextpid := pt_nextpid (k_ptable s) + 1 |> <| pt_proc ::= <[i := y]> |>) as Ept
    by (rewrite (mo_eq _ _ Hmo); cbn; by rewrite (alter_insert _ _ _ x)).
  assert (entry i y t) as Hyt by (by apply (end_entry s t i x y)).
  assert (valid_page ks ∧ (ks ∉ l1)) as Hksv by (split; [done|set_solver]).
  apply returns_bind. eapply returns_eq; [by apply (upd_proc_set i y)|].
  destruct Hd as [->|(Hd & j & Hj & Hcp)].
  - rewrite Z.eqb_refl. eapply returns_mono; [by apply (fork_undo s t p i x y pr l l1 ks qs)|].
    cbv beta. intros r u (-> & Hfail & Hku). split; [|by right]. intros w a Hw Hwl Ha. rewrite (Hku w); [by apply (Hkept w)|done|set_solver|done].
  - rewrite (proj2 (Z.eqb_neq d 0)) by done.
    assert (k_cpu t = k_cpu s ∧ k_locks t = k_locks s ∧ k_ftable t = k_ftable s ∧ k_icache t = k_icache s)
      as (Ecpu & Elk & Eft & Eic) by (rewrite (mo_eq _ _ Hmo); done).
    eapply returns_mono; [apply (fork_publish s t p i x y pr l l1 ks qs); try done|]; try (unfold lock_free; by rewrite Elk).
    + eapply (cpu_wf_ext ((claimed s cs i ks) <| k_cpus := k_cpus t |>)); [done|done|]. apply cpu_wf_eqv; [done|apply Hmo].
    + unfold cons_ok, lock_free. by rewrite (mo_eq _ _ Hmo).
    + by eapply Hva.
    + destruct Hsh. split; rewrite ?Eft, ?Eic; done.
    + apply Hcp.
    + intros va Hv. by apply (fork_bytes s (claimed s cs i ks) t (p_pgdir pr) ks l l1 d j); [..|lia|lia].
    + cbv beta. intros r u (Em & x' & Hfk & ->). split; [intros w a; rewrite Em; apply Hkept|]. left. by exists i, x'.
Qed.

Lemma fork_claimed s c p pr ks l qs i x cs :
  fork_ready s c p pr (ks :: l) qs → entry i x s → p_state x = UNUSED → cpus_eqv (k_cpu s) (k_cpus s) cs →
  returns (fork_with i) (claimed s cs i ks) (fork_post s p pr (ks :: l) qs).
Proof.
  intros Hfr Hx Hu Hcs. pose proof Hfr as [(Hc & Hn & Hp) _ _ (Hpr & Hrun) _ Hsp Hsz Hmap _ _].
  assert (cpu_wf s) as Hwf by (exists c; split; [done|split; lia]). pose proof (vo_sync _ _ _ (so_vm _ _ _ Hsp)) as Hsy.
  set (sA := claimed s cs i ks).
  assert (i ≠ p) as Hne by (intros ->; unfold entry in *; congruence).
  assert (entry p pr sA) as HprA by (unfold entry; cbn; by rewrite list_lookup_alter_ne).
  assert (cpu_wf sA) as HwfA by (eapply (cpu_wf_ext (s <| k_cpus := cs |>)); [done|done|]; by apply cpu_wf_eqv).
  assert (kmem_sync sA) as HsyA by (by eapply kmem_sync_ext).
  destruct (stack_space s sA (p_pgdir pr) ks l trapret_addr) as (HspA & HkA & HmA); try done.
  destruct (eqv_proc _ _ _ _ Hcs Hc) as (cA & HcA & HpA). unfold fork_with.
  apply returns_bind. eapply returns_eq; [apply (curproc_eq sA cA p HcA); by rewrite HpA|].
  apply returns_bind. eapply returns_eq; [by apply (get_proc_eq sA p pr)|].
  apply returns_bind. eapply returns_mono; [apply (copyuvm_view sA l); try done|].
  { intros va Hv. rewrite HmA; [by apply Hmap|]. unfold KERNBASE, NADDR in *. lia. }
  cbv beta. intros d t (l1 & Hft & Hmo & Hkt & Hl1 & Hd).
  apply (fork_copied s c p pr ks l qs i x cs l1 d t); try done. by eapply mem_only_sync.
Qed.

End fork.

(** ** Witness *)

Module fork_demo.
#[local] Existing Instance kenv_example.

(** Process 0 runs, with one open file, twice. *)
Definition parent : proc → proc :=
  λ x, x <| p_pgdir := page2 |> <| p_cwd := Some 0%nat |> <| p_ofile := Some 0%nat :: Some 0%nat :: replicate 14 None |>.
Definition pt : ptable_t := demo.pt3 <| pt_proc ::= alter parent 0%nat |>.
Definition pr : proc := default proc_zero (pt_proc pt !! 0%nat).
Definition c0 : cpu := mkCpu 0 0 FL_IF (Some 0%nat) 0 0 0 0.
Definition start : kstate :=
  one_page <| k_ptable := pt |> <| k_cpus := [c0] |> <| k_ftable ::= alter (set f_ref (λ _, 2)) 0%nat |>.

Lemma ready : fork_ready start c0 0 pr [page1] zero_queues.
Proof.
  split.
  - by split_and!.
  - by split_and!.
  - apply neutral_rel; [apply demo.rel3|done].
  - by split.
  - by split.
  - eapply (space_ext one_page); [apply space_demo.one_page_space| |apply one_page_free_ok|by left|done].
    intros _. split; [|reflexivity]. eexists. split; [reflexivity|]. split; cbn; lia.
  - by vm_compute.
  - intros va Hva. change (p_sz pr) with 0 in Hva. lia.
  - split; [done| |by eexists _, _|done]. intros f Hf. assert (f = 0%nat) as ->.
    { change (Some f ∈ Some 0%nat :: Some 0%nat :: replicate 14 None) in Hf.
      apply elem_of_cons in Hf as [[= ->]|Hf]; [done|]. apply elem_of_cons in Hf as [[= ->]|Hf]; [done|].
      by apply elem_of_replicate in Hf as [? _]. }
    eexists. split; [reflexivity|]. by split.
  - assert (forallb (λ x, bool_decide (p_ofile x = replicate NOFILE None) && bool_decide (length (p_name x) = 16%nat)
      || negb (bool_decide (p_state x = UNUSED))) (pt_proc pt) = true) as Hb by (vm_compute; reflexivity).
    intros j x Hx Hu. rewrite forallb_forall in Hb.
    specialize (Hb x ltac:(by eapply list_elem_of_In, list_elem_of_lookup_2)).
    rewrite Hu, (bool_decide_true (UNUSED = UNUSED)), orb_false_r in Hb by done.
    apply andb_true_iff in Hb as [E1%bool_decide_eq_true E2%bool_decide_eq_true]. by split.
Qed.

End fork_demo.
