(* ===== verification/Console.v ===== *)
(** The console as a device (console.c) and the keyboard (kbd.c, kbd.h): line
    editing in the circular input buffer, and the read and write routines
    entered in [devsw]. *)
From stdpp Require Import base numbers gmap strings option list.
From S2P Require Import Prelude State Spinlock Str Cprintf Kalloc Proc Mlf Sched Bio Blocks Log LogSpec Tx Crash Fs Pipe.

(** ** Console *)

Definition BACKSPACE : Z := 0x100.
(** [C(x)] of console.c and kbd.h. *)
Definition Ctl (x : string) : Z := default 0 (head (bytes x)) - 64.
Definition newline : Z := 10.

Definition upd_input (f : input_t → input_t) : KM unit := modify (λ k, k <| k_input ::= f |>).

(** [input.buf[i % INPUT_BUF]]. *)
Definition input_at (i : input_t) (j : Z) : Z := default 0 (in_buf i !! Z.to_nat (j mod INPUT_BUF)).

(** [input.buf[input.e++ % INPUT_BUF] = c]. *)
Definition input_put (c : Z) (i : input_t) : input_t :=
  i <| in_buf ::= <[Z.to_nat (in_e i mod INPUT_BUF) := c]> |> <| in_e := u32 (in_e i + 1) |>.

Section console.
Context `{kenv} `{disk}.

(** ^U: erase back to the start of the line. *)
Fixpoint kill_line (n : nat) : KM unit :=
  match n with
  | O => λ _, NoFuel
  | S n =>
      let* k := gets id in
      let i := k_input k in
      if negb (in_e i =? in_w i) && negb (input_at i (u32 (in_e i - 1)) =? newline) then
        do* upd_input (set in_e (λ e, u32 (e - 1))) in
        do* consputc BACKSPACE in
        kill_line n
      else ret tt
  end.

(** The body of [consoleintr]'s loop for character [c]; [procdump] is
    proc.c's. *)
Definition console_key (procdump : KM unit) (c : Z) : KM unit :=
  if c =? Ctl "P" then procdump
  else if c =? Ctl "U" then
    let* k := gets id in
    kill_line (S (Z.to_nat (u32 (in_e (k_input k) - in_w (k_input k)))))
  else if (c =? Ctl "H") || (c =? 0x7f) then
    let* k := gets id in
    if negb (in_e (k_input k) =? in_w (k_input k)) then
      do* upd_input (set in_e (λ e, u32 (e - 1))) in
      consputc BACKSPACE
    else ret tt
  else
    let* k := gets id in
    let i := k_input k in
    if negb (c =? 0) && (u32 (in_e i - in_r i) <? INPUT_BUF) then
      let c := if c =? 13 then newline else c in
      do* upd_input (input_put c) in
      do* consputc c in
      let* k := gets id in
      let i := k_input k in
      if (c =? newline) || (c =? Ctl "D") || (in_e i =? u32 (in_r i + INPUT_BUF)) then
        do* upd_input (λ i, i <| in_w := in_e i |>) in
        wakeup ChInput
      else ret tt
    else ret tt.

(** [n] bounds the number of characters [getc] delivers. *)
Fixpoint consoleintr_loop (n : nat) (procdump : KM unit) (getc : KM Z) : KM unit :=
  match n with
  | O => λ _, NoFuel
  | S n =>
      let* c := getc in
      if 0 <=? c then do* console_key procdump c in consoleintr_loop n procdump getc else ret tt
  end.

Definition consoleintr (n : nat) (procdump : KM unit) (getc : KM Z) : KM unit :=
  do* acquire LkInput in
  do* consoleintr_loop n procdump getc in
  release LkInput.

(** Wait until a line is there; false if the call is to return -1. *)
Fixpoint consoleread_wait (n : nat) : KM bool :=
  match n with
  | O => λ _, NoFuel
  | S n =>
      let* k := gets id in
      if in_r (k_input k) =? in_w (k_input k) then
        let* killed := curkilled in
        if killed then ret false else
        do* sleep ChInput (Some LkInput) in
        consoleread_wait n
      else ret true
  end.

(** The copy loop with room for [n] more bytes of [target]: the bytes
    stored, and false if the process was killed. *)
Fixpoint consoleread_loop (n target : nat) : KM (list Z * bool) :=
  match n with
  | O => ret ([], true)
  | S n' =>
      let* ok := consoleread_wait fuel in
      if ok then
        let* k := gets id in
        let c := input_at (k_input k) (in_r (k_input k)) in
        do* upd_input (set in_r (λ r, u32 (r + 1))) in
        if c =? Ctl "D" then
          do* (if (n <? target)%nat then upd_input (set in_r (λ r, u32 (r - 1))) else ret tt) in
          ret ([], true)
        else if c =? newline then ret ([c], true)
        else
          let* r := consoleread_loop n' target in
          ret (c :: r.1, r.2)
      else ret ([], false)
  end.

Definition consoleread (ip : nat) (n : Z) : KM (Z * list Z) :=
  do* iunlock (Some ip) in
  do* acquire LkInput in
  let* r := consoleread_loop (Z.to_nat n) (Z.to_nat n) in
  do* release LkInput in
  do* ilock (Some ip) in
  ret (if r.2 then Z.of_nat (length r.1) else -1, r.1).

Definition consolewrite (ip : nat) (buf : list Z) (n : Z) : KM Z :=
  do* iunlock (Some ip) in
  do* acquire LkCons in
  do* for_each (take (Z.to_nat n) buf) (λ c, consputc (Z.land c 0xff)) in
  do* release LkCons in
  do* ilock (Some ip) in
  ret n.

Definition CONSOLE : Z := 1.

(** [devsw] as [consoleinit] leaves it. *)
Definition console_devsw : devsw := {|
  dev_read major := if major =? CONSOLE then Some consoleread else None;
  dev_write major := if major =? CONSOLE then Some consolewrite else None;
|}.

(** The interrupt controllers are not modelled. *)
Definition consoleinit : KM unit :=
  do* initlock LkCons in
  do* initlock LkInput in
  modify (λ k, k <| k_cons_locking := true |>).
End console.

(** ** Keyboard *)

Definition SHIFT : Z := 1.
Definition CTL : Z := 2.
Definition ALT : Z := 4.
Definition CAPSLOCK : Z := 8.
Definition NUMLOCK : Z := 16.
Definition SCROLLLOCK : Z := 32.
Definition E0ESC : Z := 64.

(** A table of 256 bytes: the first entries in order, then single ones. *)
Definition table (l : list Z) (extra : list (nat * Z)) : list Z :=
  foldl (λ t p, <[p.1 := p.2]> t) (l ++ replicate (256 - length l) 0) extra.

Definition shiftcode : list Z :=
  table [] [(0x1D%nat, CTL); (0x2A%nat, SHIFT); (0x36%nat, SHIFT); (0x38%nat, ALT); (0x9D%nat, CTL); (0xB8%nat, ALT)].
Definition togglecode : list Z :=
  table [] [(0x3A%nat, CAPSLOCK); (0x45%nat, NUMLOCK); (0x46%nat, SCROLLLOCK)].

(** The keys the three maps share, after the main block. *)
Definition keypad (enter div : Z) : list (nat * Z) :=
  [ (0x9C%nat, enter); (0xB5%nat, div); (0xC8%nat, 0xE2); (0xD0%nat, 0xE3); (0xC9%nat, 0xE6); (0xD1%nat, 0xE7);
    (0xCB%nat, 0xE4); (0xCD%nat, 0xE5); (0x97%nat, 0xE0); (0xCF%nat, 0xE1); (0xD2%nat, 0xE8); (0xD3%nat, 0xE9) ].

Definition map_tail : list Z :=
  [0] ++ bytes " " ++ replicate 13 0 ++ bytes "789-456+1230." ++ replicate 4 0.

Definition normalmap : list Z :=
  table ([0; 27] ++ bytes "1234567890-=" ++ [8; 9] ++ bytes "qwertyuiop[]" ++ [10; 0] ++ bytes "asdfghjkl;'`" ++
         [0] ++ bytes "\zxcvbnm,./" ++ [0] ++ bytes "*" ++ map_tail) (keypad 10 (default 0 (head (bytes "/")))).
Definition shiftmap : list Z :=
  table ([0; 27] ++ bytes "!@#$%^&*()_+" ++ [8; 9] ++ bytes "QWERTYUIOP{}" ++ [10; 0] ++ bytes "ASDFGHJKL:" ++ [34] ++
         bytes "~" ++ [0] ++ bytes "|ZXCVBNM<>?" ++ [0] ++ bytes "*" ++ map_tail) (keypad 10 (default 0 (head (bytes "/")))).
Definition ctls (s : string) : list Z := (λ c, u8 (c - 64)) <$> bytes s.
Definition ctlmap : list Z :=
  table (replicate 16 0 ++ ctls "QWERTYUIOP" ++ [0; 0; 13; 0] ++ ctls "ASDFGHJKL" ++ [0; 0; 0; 0] ++ ctls "\ZXCVBNM" ++
         [0; 0] ++ ctls "/" ++ [0; 0]) (keypad 13 (u8 (default 0 (head (bytes "/")) - 64))).

Definition charcode (shift : Z) : list Z :=
  match Z.land shift (Z.lor CTL SHIFT) with 0 => normalmap | 1 => shiftmap | _ => ctlmap end.

Definition code (t : list Z) (data : Z) : Z := default 0 (t !! Z.to_nat data).

(** The new [shift] state and the value returned, for one scan code. *)
Definition kbd_decode (shift data : Z) : Z * Z :=
  if data =? 0xE0 then (Z.lor shift E0ESC, 0)
  else if has data 0x80 then
    let data := if has shift E0ESC then data else Z.land data 0x7F in
    (Z.ldiff shift (Z.lor (code shiftcode data) E0ESC), 0)
  else
    let '(shift, data) := if has shift E0ESC then (Z.ldiff shift E0ESC, Z.lor data 0x80) else (shift, data) in
    let shift := Z.lor shift (code shiftcode data) in
    let shift := Z.lxor shift (code togglecode data) in
    let c := code (charcode shift) data in
    let c := if has shift CAPSLOCK then
               if (97 <=? c) && (c <=? 122) then c - 32
               else if (65 <=? c) && (c <=? 90) then c + 32 else c
             else c in
    (shift, c).

Definition kbdgetc : KM Z :=
  let* k := gets id in
  match k_kbd k with
  | [] => ret (-1)
  | data :: l =>
      let '(shift, c) := kbd_decode (k_shift k) data in
      do* modify (λ k, k <| k_kbd := l |> <| k_shift := shift |>) in
      ret c
  end.

Definition kbdintr `{kenv} (procdump : KM unit) : KM unit :=
  let* k := gets id in
  consoleintr (S (length (k_kbd k))) procdump kbdgetc.
