(* ===== verification/Line.v ===== *)
(** The line discipline of the console: the input buffer of console.c seen as
    the text handed to readers and the line being edited. *)
From stdpp Require Import base numbers gmap strings option list.
From S2P Require Import Prelude State Spinlock Str Cprintf Kalloc Proc Mlf Sched Bio Blocks Log LogSpec Tx Crash Fs FsTx Balloc Inode Pipe Console.

(** ** The abstract line *)

(** [cm]: the characters readers may take; [ed]: the line being edited. *)
Record line (i : input_t) (cm ed : list Z) : Prop := {
  li_buf : length (in_buf i) = Z.to_nat INPUT_BUF;
  li_r : 0 ≤ in_r i < 2 ^ 32;
  li_w : in_w i = u32 (in_r i + length cm);
  li_e : in_e i = u32 (in_r i + length (cm ++ ed));
  li_room : length (cm ++ ed) ≤ INPUT_BUF;
  li_at : ∀ j : nat, (j < length (cm ++ ed))%nat → in_buf i !! Z.to_nat ((in_r i + j) mod INPUT_BUF) = (cm ++ ed) !! j;
}.

(** What a key does to the line. *)
Definition line_key (l : list Z * list Z) (c : Z) : list Z * list Z :=
  let '(cm, ed) := l in
  if c =? Ctl "P" then (cm, ed)
  else if c =? Ctl "U" then (cm, [])
  else if (c =? Ctl "H") || (c =? 0x7f) then (cm, take (length ed - 1) ed)
  else if (c =? 0) || (INPUT_BUF <=? length (cm ++ ed)) then (cm, ed)
  else
    let c := if c =? 13 then newline else c in
    if (c =? newline) || (c =? Ctl "D") || (length (cm ++ ed) + 1 =? INPUT_BUF)
    then (cm ++ ed ++ [c], []) else (cm, ed ++ [c]).

(** Reading at most [n] characters, [tgt] of them asked for: the characters
    delivered and those left, or [None] if the reader has to wait. *)
Fixpoint take_line (n tgt : nat) (cm : list Z) : option (list Z * list Z) :=
  match n, cm with
  | O, _ => Some ([], cm)
  | S _, [] => None
  | S n', c :: cm' =>
      if c =? Ctl "D" then Some ([], if (n <? tgt)%nat then cm else cm')
      else if c =? newline then Some ([c], cm')
      else '(l, rest) ← take_line n' tgt cm'; Some (c :: l, rest)
  end.

Section line.
Implicit Types (i : input_t) (cm ed : list Z).

Lemma line_empty i cm ed : line i cm ed → in_e i = in_w i ↔ ed = [].
Proof.
  intros [Hb Hr Hw He Hroom Hat]. rewrite Hw, He, length_app in *. unfold INPUT_BUF in *. split.
  - intros E. destruct ed; [done|]. cbn in *. unfold u32 in E. lia.
  - intros ->. f_equal. cbn. lia.
Qed.

Lemma line_used i cm ed : line i cm ed → u32 (in_e i - in_r i) = length (cm ++ ed).
Proof. intros [Hb Hr Hw He Hroom Hat]. rewrite He. unfold u32, INPUT_BUF in *. lia. Qed.

(** The position of the [j]-th character. *)
Lemma wrap_mod r j : u32 (r + j) mod INPUT_BUF = (r + j) mod INPUT_BUF.
Proof. unfold u32, INPUT_BUF. lia. Qed.

(** Rubbing out the last character of the edited line. *)
Lemma line_rubout i cm ed c : line i cm (ed ++ [c]) → line (i <| in_e := u32 (in_e i - 1) |>) cm ed.
Proof.
  intros [Hb Hr Hw He Hroom Hat]. rewrite !length_app in *. cbn [length] in *. split; cbn; try done.
  - rewrite He, length_app. unfold u32. rewrite Zminus_mod_idemp_l. f_equal. lia.
  - rewrite length_app. lia.
  - intros j Hj. rewrite length_app in Hj. rewrite Hat by lia.
    by rewrite app_assoc, lookup_app_l by (rewrite length_app; lia).
Qed.

Lemma line_last i cm ed c : line i cm (ed ++ [c]) → input_at i (u32 (in_e i - 1)) = c.
Proof.
  intros [Hb Hr Hw He Hroom Hat]. unfold input_at.
  assert (u32 (in_e i - 1) = u32 (in_r i + (length (cm ++ ed)))) as ->.
  { rewrite He, !length_app. cbn. unfold u32. rewrite Zminus_mod_idemp_l. f_equal. lia. }
  rewrite wrap_mod, (Hat (length (cm ++ ed))) by (rewrite !length_app; cbn; lia).
  rewrite app_assoc, lookup_app_r, Nat.sub_diag by lia. done.
Qed.

(** Typing one more character. *)
Lemma line_put i cm ed c :
  line i cm ed → length (cm ++ ed) < INPUT_BUF → line (input_put c i) cm (ed ++ [c]).
Proof.
  intros [Hb Hr Hw He Hroom Hat] Hlt. rewrite length_app in *. unfold input_put. split; cbn.
  - by rewrite length_insert.
  - done.
  - done.
  - rewrite He, !length_app. cbn. unfold u32. rewrite Zplus_mod_idemp_l. f_equal. lia.
  - rewrite !length_app. cbn. unfold INPUT_BUF in *. lia.
  - intros j Hj. rewrite !length_app in Hj. cbn in Hj. rewrite He, wrap_mod, app_assoc.
    destruct (decide (j = length (cm ++ ed))) as [->|Hne].
    + rewrite lookup_app_r, Nat.sub_diag by lia. rewrite length_app. apply list_lookup_insert_eq. rewrite Hb. unfold INPUT_BUF. lia.
    + rewrite length_app in Hne. rewrite lookup_app_l by (rewrite length_app; lia).
      rewrite list_lookup_insert_ne; [apply Hat; lia|]. unfold INPUT_BUF in *. lia.
Qed.

Lemma line_commit i cm ed : line i cm ed → line (i <| in_w := in_e i |>) (cm ++ ed) [].
Proof.
  intros [Hb Hr Hw He Hroom Hat]. split; cbn; rewrite ?app_nil_r; done.
Qed.
End line.

(** No newline is waiting in the line being edited. *)
Definition line_ok (i : input_t) (cm ed : list Z) : Prop := line i cm ed ∧ newline ∉ ed.

(** ** Keys *)

(** [s] is a state inside the critical section of [input.lock] entered in
    [s0]. *)
Record in_input (s0 s : kstate) : Prop := {
  ii_cpu : k_cpu s = k_cpu s0;
  ii_cpus : k_cpus s = k_cpus (acq LkInput s0);
  ii_locks : k_locks s = k_locks (acq LkInput s0);
  ii_quiet : k_panicked s = false;
  ii_rel : ∃ qs, mlf_rel (k_ptable s) qs;
}.

Section keys.
Context `{Hk : kenv}.
Implicit Types (s t : kstate) (cm ed : list Z).

Lemma in_input_set s0 s f : in_input s0 s → in_input s0 (s <| k_input ::= f |>).
Proof. by intros []. Qed.
Lemma in_input_print s0 s f : in_input s0 s → in_input s0 (s <| k_console ::= f |>).
Proof. by intros []. Qed.
Lemma in_input_kbd s0 s l v : in_input s0 s → in_input s0 (s <| k_kbd := l |> <| k_shift := v |>).
Proof. by intros []. Qed.

Lemma wakeup_in_input chan s0 s :
  cpu_wf s0 → lock_free LkPtable s0 → in_input s0 s →
  ∃ pt, wakeup chan s = Ret tt (s <| k_ptable := pt |>) ∧ in_input s0 (s <| k_ptable := pt |>) ∧ rtc pt_step (k_ptable s) pt.
Proof.
  intros Hc Hp [E1 E2 E3 E4 [qs Hq]].
  destruct (wakeup_eq chan s qs) as (cs & pt & Hcs & Hw & Hst & Hq' & _).
  { apply (cpu_wf_acq LkInput) in Hc. by eapply (cpu_wf_ext (acq LkInput s0)). }
  { unfold lock_free. rewrite E3. cbn. by rewrite lookup_insert_ne. }
  { done. }
  assert (cs = k_cpus s) as ->.
  { destruct Hc as (c & Hc & Hg). rewrite E1, E2 in Hcs. rewrite E2.
    eapply cpus_eqv_nested; [exact Hcs|by apply alter_lookup_eq|]. cbn. destruct Hg. lia. }
  exists pt. split_and!; [by rewrite Hw; destruct s|by split|done].
Qed.

(** From [s] to [t] the key handler changed the line, the screen and, by
    waking readers, the process table. *)
Definition keyed s0 s t cm ed : Prop :=
  in_input s0 t ∧ rtc pt_step (k_ptable s) (k_ptable t) ∧ k_kbd t = k_kbd s ∧ k_shift t = k_shift s ∧
  line_ok (k_input t) cm ed.

Lemma kill_line_view (n : nat) s0 s cm ed :
  in_input s0 s → line_ok (k_input s) cm ed → (length ed < n)%nat →
  ∃ t, kill_line n s = Ret tt t ∧ keyed s0 s t cm [].
Proof.
  revert s ed. induction n as [|n IH]; intros s ed Hi [Hl Hn] Hlt; [lia|].
  cbn [kill_line]. mstep. cbn [id]. cbv zeta.
  destruct (decide (ed = [])) as [->|Hne].
  - rewrite (proj2 (line_empty _ _ _ Hl) eq_refl), Z.eqb_refl. cbn [negb andb]. exists s. by split_and!.
  - destruct (exists_last Hne) as (ed' & c & ->). rewrite (line_last _ _ _ _ Hl).
    rewrite (proj2 (Z.eqb_neq (in_e (k_input s)) _)) by (intros E; by apply (line_empty _ _ _ Hl) in E).
    rewrite (proj2 (Z.eqb_neq c newline)) by set_solver. cbn [negb andb].
    unfold upd_input at 1. mstep. erewrite bind_ret; [|apply consputc_eq; apply Hi]. cbv beta.
    destruct (IH (s <| k_input ::= set in_e (λ e, u32 (e - 1)) |> <| k_console ::= λ o, o ++ [BACKSPACE] |>) ed')
      as (t & E & Ht).
    + apply in_input_print, in_input_set, Hi.
    + split; [by apply (line_rubout _ _ _ c)|set_solver].
    + rewrite length_app in Hlt. cbn in Hlt. lia.
    + exists t. split; [exact E|]. destruct Ht as (? & ? & ? & ? & ?). by split_and!.
Qed.

(** Typing a character, and handing the line over if it ends there. *)
Lemma type_key s0 s cm ed c c' :
  cpu_wf s0 → lock_free LkPtable s0 → in_input s0 s → line_ok (k_input s) cm ed → length (cm ++ ed) < INPUT_BUF →
  c' = (if c =? 13 then newline else c) →
  ∃ t, (do* upd_input (input_put c') in
        do* consputc c' in
        let* k := gets id in
        let i := k_input k in
        if (c' =? newline) || (c' =? Ctl "D") || (in_e i =? u32 (in_r i + INPUT_BUF)) then
          do* upd_input (λ i, i <| in_w := in_e i |>) in
          wakeup ChInput
        else ret tt) s = Ret tt t ∧
    if (c' =? newline) || (c' =? Ctl "D") || (length (cm ++ ed) + 1 =? INPUT_BUF)
    then keyed s0 s t (cm ++ ed ++ [c']) [] else keyed s0 s t cm (ed ++ [c']).
Proof.
  intros Hc Hp Hi [Hl Hn] Hlt _. assert (Hl' := line_put _ _ _ c' Hl Hlt).
  unfold upd_input. mstep. erewrite bind_ret; [|apply consputc_eq; apply Hi]. cbv beta. mstep. cbn [id]. cbv zeta.
  set (s1 := s <| k_input ::= input_put c' |> <| k_console ::= λ o, o ++ [c'] |>).
  assert (Hi1 : in_input s0 s1) by (apply in_input_print, in_input_set, Hi).
  change (k_input s1) with (input_put c' (k_input s)). set (i' := input_put c' (k_input s)) in *.
  assert (Hfull : (in_e i' =? u32 (in_r i' + INPUT_BUF)) = (length (cm ++ ed) + 1 =? INPUT_BUF)).
  { rewrite (li_e _ _ _ Hl'). destruct Hl' as [_ Hr _ _ Hroom _]. rewrite !length_app in *. cbn [length] in *.
    apply eq_true_iff_eq. rewrite !Z.eqb_eq. unfold u32, INPUT_BUF in *. lia. }
  rewrite Hfull. destruct ((c' =? newline) || (c' =? Ctl "D") || (length (cm ++ ed) + 1 =? INPUT_BUF)) eqn:E.
  - mstep. destruct (wakeup_in_input ChInput s0 (s1 <| k_input ::= λ i, i <| in_w := in_e i |> |>)) as (pt & Ew & Hi2 & Hst);
      [done|done|by apply in_input_set|].
    eexists. split; [exact Ew|]. split_and!; [done|exact Hst|done|done|].
    split; [|set_solver]. by apply (line_commit i' cm (ed ++ [c'])).
  - exists s1. split; [done|]. split_and!; try done. split; [done|].
    apply orb_false_iff in E as [[E%Z.eqb_neq _]%orb_false_iff _]. set_solver.
Qed.

Lemma console_key_view pd s0 s cm ed c :
  cpu_wf s0 → lock_free LkPtable s0 → in_input s0 s → line_ok (k_input s) cm ed → c ≠ Ctl "P" →
  ∃ t, console_key pd c s = Ret tt t ∧ keyed s0 s t (line_key (cm, ed) c).1 (line_key (cm, ed) c).2.
Proof.
  intros Hc Hp Hi Hl HP. assert (Hl' := Hl). destruct Hl' as [Hl1 Hn]. unfold console_key, line_key.
  rewrite (proj2 (Z.eqb_neq c _) HP). destruct (c =? Ctl "U").
  { mstep. cbn [id]. destruct (kill_line_view (S (Z.to_nat (u32 (in_e (k_input s) - in_w (k_input s))))) s0 s cm ed Hi Hl)
      as (t & E & Ht); [|by exists t].
    rewrite (li_e _ _ _ Hl1), (li_w _ _ _ Hl1). destruct Hl1 as [_ Hr _ _ Hroom _]. rewrite length_app in *.
    unfold u32, INPUT_BUF in *. lia. }
  destruct ((c =? Ctl "H") || (c =? 127)).
  { mstep. cbn [id]. destruct (decide (ed = [])) as [->|Hne].
    - rewrite (proj2 (line_empty _ _ _ Hl1) eq_refl), Z.eqb_refl. cbn [negb]. exists s. by split_and!.
    - rewrite (proj2 (Z.eqb_neq (in_e (k_input s)) _)) by (intros E; by apply (line_empty _ _ _ Hl1) in E). cbn [negb].
      destruct (exists_last Hne) as (ed' & c' & ->). unfold upd_input. mstep. rewrite consputc_eq by apply Hi.
      eexists. split; [done|]. rewrite length_app. cbn [length]. rewrite Nat.add_sub, take_app_length. cbn [fst snd].
      split_and!; try done; [by apply in_input_print, in_input_set|].
      split; [by apply (line_rubout _ _ _ c')|set_solver]. }
  mstep. cbn [id]. cbv zeta. rewrite (line_used _ _ _ Hl1).
  destruct (Z.eqb_spec c 0) as [->|Hc0]; cbn [negb andb orb]; [exists s; by split_and!|].
  destruct (Z.ltb_spec (length (cm ++ ed)) INPUT_BUF) as [Hlt|Hge].
  - rewrite (proj2 (Z.leb_gt INPUT_BUF _)) by lia.
    destruct (type_key s0 s cm ed c _ Hc Hp Hi Hl Hlt eq_refl) as (t & E & Ht). exists t. split; [exact E|].
    clear E. destruct (_ || (_ + 1 =? INPUT_BUF)); exact Ht.
  - rewrite (proj2 (Z.leb_le INPUT_BUF _)) by lia. exists s. by split_and!.
Qed.

(** ** The keyboard interrupt *)

(** The characters that scan codes stand for. *)
Fixpoint keys_of (shift : Z) (l : list Z) : list Z :=
  match l with
  | [] => []
  | d :: l => (kbd_decode shift d).2 :: keys_of (kbd_decode shift d).1 l
  end.

Lemma code_bounds (t : list Z) d : Forall (λ c, 0 ≤ c < 256) t → 0 ≤ code t d < 256.
Proof.
  intros Ht. unfold code. destruct (t !! Z.to_nat d) as [c|] eqn:E; [|done]. cbn.
  rewrite Forall_forall in Ht. apply Ht. by eapply list_elem_of_lookup_2.
Qed.

Lemma charcode_bounds shift : Forall (λ c, 0 ≤ c < 256) (charcode shift).
Proof.
  unfold charcode. repeat case_match; apply (bool_decide_unpack _); vm_compute; done.
Qed.

Lemma kbd_decode_bounds shift d : 0 ≤ (kbd_decode shift d).2 < 256.
Proof.
  unfold kbd_decode. destruct (d =? 0xE0); [done|]. destruct (has d 0x80); [done|].
  destruct (if has shift E0ESC then _ else _) as [shift' data]. cbv zeta. cbn [snd].
  set (sh := Z.lxor _ _). assert (Hb := code_bounds (charcode sh) data (charcode_bounds sh)).
  set (c := code (charcode sh) data) in *. destruct (has sh CAPSLOCK); [|done].
  destruct (Z.leb_spec 97 c), (Z.leb_spec c 122), (Z.leb_spec 65 c), (Z.leb_spec c 90); cbn [andb]; lia.
Qed.

Lemma kbdgetc_cons s d l :
  k_kbd s = d :: l →
  kbdgetc s = Ret (kbd_decode (k_shift s) d).2 (s <| k_kbd := l |> <| k_shift := (kbd_decode (k_shift s) d).1 |>).
Proof. intros E. unfold kbdgetc. mstep. cbn [id]. rewrite E. by destruct (kbd_decode (k_shift s) d). Qed.

Lemma kbdgetc_nil s : k_kbd s = [] → kbdgetc s = Ret (-1) s.
Proof. intros E. unfold kbdgetc. mstep. cbn [id]. by rewrite E. Qed.

Lemma kbd_loop_view pd s0 s cm ed :
  cpu_wf s0 → lock_free LkPtable s0 → in_input s0 s → line_ok (k_input s) cm ed →
  Ctl "P" ∉ keys_of (k_shift s) (k_kbd s) →
  let l := foldl line_key (cm, ed) (keys_of (k_shift s) (k_kbd s)) in
  ∃ t, consoleintr_loop (S (length (k_kbd s))) pd kbdgetc s = Ret tt t ∧ in_input s0 t ∧
    rtc pt_step (k_ptable s) (k_ptable t) ∧ k_kbd t = [] ∧ line_ok (k_input t) l.1 l.2.
Proof.
  intros Hc Hp. remember (k_kbd s) as kb eqn:Ek. revert s cm ed Ek. induction kb as [|d kb IH]; intros s cm ed Ek Hi Hl HP.
  - cbn [consoleintr_loop length keys_of foldl]. step (kbdgetc_nil s (eq_sym Ek)). exists s. by split_and!.
  - cbn [consoleintr_loop length keys_of foldl]. cbn [keys_of] in HP. step (kbdgetc_cons s d kb (eq_sym Ek)).
    assert (Hb := kbd_decode_bounds (k_shift s) d). rewrite (proj2 (Z.leb_le 0 _)) by lia.
    set (c := (kbd_decode (k_shift s) d).2) in *. set (sh := (kbd_decode (k_shift s) d).1) in *.
    set (s1 := s <| k_kbd := kb |> <| k_shift := sh |>).
    destruct (console_key_view pd s0 s1 cm ed c Hc Hp) as (t1 & E1 & Hi1 & Hst & Hkb & Hsh & Hl1);
      [by apply in_input_kbd|done|set_solver|].
    step E1. destruct (line_key (cm, ed) c) as [cm1 ed1].
    destruct (IH t1 cm1 ed1) as (t & E & Hi2 & Hst2 & Hkb2 & Hl2).
    + by rewrite Hkb.
    + done.
    + done.
    + rewrite Hsh. set_solver.
    + rewrite Hsh in Hl2. change (k_shift s1) with sh in Hl2.
      exists t. split_and!; [exact E|done|etransitivity; [exact Hst|done]|done|done].
Qed.

(** ** Reading *)

(** The oldest character is taken. *)
Lemma line_take i c cm ed :
  line i (c :: cm) ed → input_at i (in_r i) = c ∧ line (i <| in_r := u32 (in_r i + 1) |>) cm ed.
Proof.
  intros [Hb Hr Hw He Hroom Hat]. split.
  - unfold input_at. rewrite <-(Z.add_0_r (in_r i)). change 0 with (Z.of_nat 0). rewrite Hat by (cbn; lia). done.
  - cbn [length app] in *. split; cbn; try done.
    + apply u32_range.
    + rewrite Hw. unfold u32. rewrite Zplus_mod_idemp_l. f_equal. lia.
    + rewrite He. unfold u32. rewrite Zplus_mod_idemp_l. f_equal. lia.
    + lia.
    + intros j Hj. specialize (Hat (S j) ltac:(lia)). change ((c :: cm ++ ed) !! S j) with ((cm ++ ed) !! j) in Hat.
      rewrite <-Hat. do 2 f_equal.
      unfold u32, INPUT_BUF. lia.
Qed.

(** The character is put back. *)
Lemma line_untake i c cm ed : line i (c :: cm) ed → i <| in_r := u32 (u32 (in_r i + 1) - 1) |> = i.
Proof.
  intros [_ Hr _ _ _ _]. replace (u32 (u32 (in_r i + 1) - 1)) with (in_r i); [by destruct i|].
  unfold u32. lia.
Qed.

Lemma consoleread_loop_view (n tgt : nat) s cm ed l rest :
  line_ok (k_input s) cm ed → take_line n tgt cm = Some (l, rest) →
  ∃ i, consoleread_loop n tgt s = Ret (l, true) (s <| k_input := i |>) ∧ line_ok i rest ed.
Proof.
  revert s cm l rest. induction n as [|n IH]; intros s cm l rest [Hl Hn] Htl.
  { cbn in *. injection Htl as <- <-. exists (k_input s). split; [by destruct s|done]. }
  destruct cm as [|c cm]; [done|]. cbn [take_line] in Htl.
  assert (Hne : in_r (k_input s) ≠ in_w (k_input s)).
  { rewrite (li_w _ _ _ Hl). destruct Hl as [_ Hr _ _ Hroom _]. rewrite length_app in Hroom. cbn [length] in *.
    unfold u32, INPUT_BUF in *. lia. }
  destruct (line_take _ _ _ _ Hl) as [Hc Hl'].
  cbn [consoleread_loop]. unfold fuel. cbn [consoleread_wait].
  erewrite bind_ret; [|mstep; cbn [id]; rewrite (proj2 (Z.eqb_neq _ _) Hne); reflexivity]. cbv beta iota.
  mstep. cbn [id]. cbv zeta. rewrite Hc. unfold upd_input. mstep.
  destruct (c =? Ctl "D").
  - injection Htl as <- <-. exists (if (S n <? tgt)%nat then k_input s else (k_input s) <| in_r := u32 (in_r (k_input s) + 1) |>).
    destruct (S n <? tgt)%nat.
    + mstep. split; [|done]. unfold ret. f_equal. assert (Hu := line_untake _ _ _ _ Hl). destruct s. cbn in *. by rewrite Hu.
    + mstep. done.
  - destruct (c =? newline).
    + injection Htl as <- <-. eexists. split; [unfold ret; by destruct s|]. done.
    + destruct (take_line n tgt cm) as [[l' rest']|] eqn:Et; [|done]. cbn in Htl. injection Htl as <- <-.
      destruct (IH (s <| k_input ::= set in_r (λ r, u32 (r + 1)) |>) cm l' rest') as (i & E & Hi); [done|done|].
      exists i. split; [|done]. step E. done.
Qed.
End keys.

(** ** Properties *)

Section props.
Context `{Hk : kenv}.
Implicit Types (s t : kstate) (cm ed : list Z).

(** C34: The keyboard interrupt refines the line editor: the keys typed since the
    last interrupt act on the line one after the other (erase, kill the line,
    type, hand the line over at newline, control-D or a full buffer), readers
    are woken only through the steps of the process state machine, and
    characters already handed over are never changed. *)
Theorem kbdintr_refines pd s cm ed :
  cpu_wf s → lock_free LkInput s → lock_free LkPtable s → (∃ qs, mlf_rel (k_ptable s) qs) →
  k_panicked s = false → line_ok (k_input s) cm ed → Ctl "P" ∉ keys_of (k_shift s) (k_kbd s) →
  let l := foldl line_key (cm, ed) (keys_of (k_shift s) (k_kbd s)) in
  returns (kbdintr pd) s (λ _ t, k_kbd t = [] ∧ k_locks t = k_locks s ∧
    rtc pt_step (k_ptable s) (k_ptable t) ∧ line_ok (k_input t) l.1 l.2 ∧ ∃ new, l.1 = cm ++ new).
Proof.
  intros Hc Hl Hp Hq Hpan Hline HP l.
  destruct (kbd_loop_view pd s (acq LkInput s) cm ed Hc Hp) as (t & E & [E1 E2 E3 E4 E5] & Hst & Hkb & Hln); [by split|done|done|].
  eapply returns_eq.
  - unfold kbdintr. mstep. cbn [id]. unfold consoleintr. step (acquire_free _ _ Hc Hl). step E.
    by apply (release_acq LkInput s).
  - split_and!; try done.
    assert (∀ ks x, ∃ new, (foldl line_key x ks).1 = x.1 ++ new) as Hpre; [|apply (Hpre _ (cm, ed))].
    clear. induction ks as [|c ks IH]; intros x; [exists []; by rewrite app_nil_r|]. cbn [foldl].
    destruct (IH (line_key x c)) as [n1 ->]. assert (∃ n0, (line_key x c).1 = x.1 ++ n0) as [n0 ->].
    { destruct x as [cm ed]. unfold line_key. cbn [fst]. repeat case_match; cbn [fst];
        first [by exists []; rewrite app_nil_r|eexists; reflexivity]. }
    exists (n0 ++ n1). by rewrite app_assoc.
Qed.

Context `{Hd : disk}.

(** [consoleread] with enough text handed over returns the characters up to
    the end of the line, a control-D or the count asked for, whichever comes
    first, leaves the rest for later readers and the line being edited alone,
    and returns with the inode locked again as it was called. *)
Theorem consoleread_correct s ip x n cm ed l rest :
  cpu_wf s → lock_free LkIcache s → lock_free LkPtable s → lock_free LkInput s → (∃ qs, mlf_rel (k_ptable s) qs) →
  k_icache s !! ip = Some x → has (i_flags x) I_BUSY = true → has (i_flags x) I_VALID = true → 1 ≤ i_ref x →
  line_ok (k_input s) cm ed → take_line (Z.to_nat n) (Z.to_nat n) cm = Some (l, rest) →
  returns (consoleread ip n) s (λ r t, r = (Z.of_nat (length l), l) ∧ line_ok (k_input t) rest ed ∧
    k_icache t = k_icache s ∧ k_locks t = k_locks s ∧ rtc pt_step (k_ptable s) (k_ptable t)).
Proof.
  intros Hc Hl Hp Hin [qs Hq] Hx Hb Hv Hr Hline Htl. assert (Hlt := lookup_lt_Some _ _ _ Hx).
  destruct (iunlock_view s ip x qs Hc Hl Hp Hq Hx Hb Hr) as (pt & Hst & _ & E1).
  set (x1 := x <| i_flags ::= λ f, Z.ldiff f I_BUSY |>) in *.
  set (s1 := s <| k_cpus := relcpus s |> <| k_ptable := pt |> <| k_icache ::= <[ip := x1]> |>) in *.
  assert (Hc1 : cpu_wf s1) by (eapply (cpu_wf_ext (s <| k_cpus := relcpus s |>)); [done|done|by apply relcpus_wf]).
  destruct (consoleread_loop_view (Z.to_nat n) (Z.to_nat n) (acq LkInput s1) cm ed l rest) as (i & E2 & Hi); [done|done|].
  set (s2 := s1 <| k_cpus := relcpus s1 |> <| k_input := i |>).
  assert (Hc2 : cpu_wf s2) by (eapply (cpu_wf_ext (s1 <| k_cpus := relcpus s1 |>)); [done|done|by apply relcpus_wf]).
  assert (Hx2 : k_icache s2 !! ip = Some x1) by (by apply list_lookup_insert_eq).
  assert (E3 : release LkInput ((acq LkInput s1) <| k_input := i |>) = Ret tt s2).
  { rewrite (release_acq LkInput s1) by done. by destruct s. }
  eapply returns_eq.
  - unfold consoleread. step E1. step (acquire_free LkInput s1 Hc1 Hin). step E2. step E3.
    erewrite bind_ret; [|apply (ilock_view s2 ip x1); try done].
    + cbv beta. reflexivity.
    + apply busy_cleared.
    + cbn. by rewrite valid_unlocked.
  - split_and!; try done. cbn. rewrite list_insert_insert_eq. apply list_insert_id.
    rewrite Hx. f_equal. unfold x1. cbn. rewrite busy_again by done. by destruct x.
Qed.
End props.

(** ** Witnesses *)

Module line_demo.
(** Scan codes of the keys h, i, j, backspace and enter, pressed and released. *)
Definition scans : list Z := [0x23; 0xA3; 0x17; 0x97; 0x24; 0xA4; 0x0E; 0x8E; 0x1C; 0x9C].
Definition empty_input : input_t := mkInput (replicate 128 0) 0 0 0.
Definition con_ino : inode := mkInode 1 3 1 (Z.lor I_BUSY I_VALID) T_DEV 1 1 1 0 (replicate 13 0).
Definition start : kstate := boot_state <| k_input := empty_input |> <| k_kbd := scans |>.
(** A line handed over. *)
Definition typed : kstate :=
  boot_state <| k_input := mkInput ([104; 105; 10; 104] ++ replicate 124 0) 0 3 4 |> <| k_icache ::= <[0%nat := con_ino]> |>.

Lemma start_line : line_ok (k_input start) [] [].
Proof. split; [|set_solver]. split; try done. intros j Hj. cbn in Hj. lia. Qed.

Lemma typed_line : line_ok (k_input typed) [104; 105; 10] [104].
Proof.
  split; [|set_solver]. split; try done. intros j Hj. cbn in Hj. do 4 (destruct j as [|j]; [done|]). lia.
Qed.
End line_demo.

Lemma kbdintr_refines_witness :
  returns (kbdintr (H := kenv_example) (ret tt)) line_demo.start (λ _ t,
    line_ok (k_input t) [104; 105; 10] [] ∧ k_kbd t = []).
Proof.
  eapply returns_mono; [apply (kbdintr_refines (Hk := kenv_example) (ret tt) line_demo.start [] [])|]; try done.
  - apply boot_cpu_wf.
  - exists zero_queues. apply zero_rel.
  - apply line_demo.start_line.
  - assert (keys_of (k_shift line_demo.start) (k_kbd line_demo.start) = [104; 0; 105; 0; 106; 0; 8; 0; 10; 0]) as -> by (vm_compute; done).
    vm_compute (Ctl _). set_solver.
  - intros _ t (Hk & _ & _ & Hln & _). split; [exact Hln|exact Hk].
Defined.

Lemma consoleread_correct_witness :
  returns (consoleread (H := kenv_example) (H0 := memide) 0 100) line_demo.typed (λ r t,
    r = (3, [104; 105; 10]) ∧ line_ok (k_input t) [] [104] ∧ k_icache t = k_icache line_demo.typed).
Proof.
  eapply returns_mono; [apply (consoleread_correct (Hk := kenv_example) (Hd := memide) line_demo.typed 0 line_demo.con_ino 100
    [104; 105; 10] [104] [104; 105; 10] [])|]; try done.
  - apply boot_cpu_wf.
  - exists zero_queues. apply zero_rel.
  - apply line_demo.typed_line.
  - intros r t (H1 & H2 & H3 & _). by split_and!.
Defined.
