(* ===== verification/Exec.v ===== *)
(** Running a program (exec.c, elf.h): the ELF image is loaded into a fresh
    address space, which replaces the caller's only when nothing can fail any
    more. *)
From stdpp Require Import base numbers gmap strings option list.
From S2P Require Import Prelude State Spinlock Str Cprintf Kalloc Proc Mlf Sched Bio Blocks Log LogSpec Tx Crash Fs Pipe File Vm.

(** ** ELF headers *)

Definition ELF_MAGIC : Z := 0x464C457F.
Definition ELF_PROG_LOAD : Z := 1.

(** [struct elfhdr], the fields [exec] uses. *)
Record elfhdr := mkElfhdr { elf_magic : Z; elf_entry : Z; elf_phoff : Z; elf_phnum : Z }.
Definition elfhdr_size : Z := 52.
Definition get_elfhdr (d : list Z) : elfhdr := mkElfhdr (get32 d 0) (get32 d 24) (get32 d 28) (get16 d 44).

(** [struct proghdr], the fields [exec] uses. *)
Record proghdr := mkProghdr { ph_type : Z; ph_off : Z; ph_vaddr : Z; ph_filesz : Z; ph_memsz : Z }.
Definition proghdr_size : Z := 32.
Definition get_proghdr (d : list Z) : proghdr :=
  mkProghdr (get32 d 0) (get32 d 4) (get32 d 8) (get32 d 16) (get32 d 20).

(** A word as the four bytes [copyout] copies. *)
Definition le32 (v : Z) : list Z := [u8 v; u8 (Z.shiftr v 8); u8 (Z.shiftr v 16); u8 (Z.shiftr v 24)].

(** The part of a path after its last slash. *)
Fixpoint basename (last s : list Z) : list Z :=
  match s with
  | [] => last
  | c :: s => basename (if c =? slash then s else last) s
  end.

Section exec.
Context `{kenv} `{disk} `{devsw}.

(** The label [bad]. *)
Definition exec_bad (pgdir : Z) (ip : option nat) : KM Z :=
  do* (if pgdir =? 0 then ret tt else freevm pgdir) in
  do* (match ip with Some ip => iunlockput ip | None => ret tt end) in
  ret (-1).

(** The loop over the program headers: the size of the image, or [None] for
    a jump to [bad]. *)
Fixpoint exec_load (n : nat) (ip : nat) (pgdir off sz : Z) : KM (option Z) :=
  match n with
  | O => ret (Some sz)
  | S n =>
      let* r := readi ip (u32 off) proghdr_size in
      if negb (r.1 =? proghdr_size) then ret None else
      let ph := get_proghdr r.2 in
      if negb (ph_type ph =? ELF_PROG_LOAD) then exec_load n ip pgdir (off + proghdr_size) sz else
      if ph_memsz ph <? ph_filesz ph then ret None else
      let* sz := allocuvm pgdir sz (u32 (ph_vaddr ph + ph_memsz ph)) in
      if sz =? 0 then ret None else
      let* r := loaduvm pgdir (ph_vaddr ph) ip (ph_off ph) (ph_filesz ph) in
      if r <? 0 then ret None else
      exec_load n ip pgdir (off + proghdr_size) sz
  end.

(** The loop that pushes the argument strings: the stack pointer and the
    addresses of the strings, or [None] for a jump to [bad]. *)
Fixpoint exec_args (pgdir sp argc : Z) (argv : list (list Z)) : KM (option (Z * list Z)) :=
  match argv with
  | [] => ret (Some (sp, []))
  | a :: argv =>
      if MAXARG <=? argc then ret None else
      let sp := Z.ldiff (u32 (sp - (length a + 1))) 3 in
      let* r := copyout pgdir sp (a ++ [0]) in
      if r <? 0 then ret None else
      let* rest := exec_args pgdir sp (argc + 1) argv in
      ret ((λ p, (p.1, sp :: p.2)) <$> rest)
  end.

(** The words of [ustack]. *)
Definition ustack (argc sp : Z) (args : list Z) : list Z :=
  [0xffffffff; argc; u32 (sp - (argc + 1) * 4)] ++ args ++ [0].

(** The end of [exec], once the image is complete. *)
Definition exec_commit (path : list Z) (pgdir sz entry sp : Z) : KM Z :=
  let* p := curproc in
  let* pr := get_proc p in
  let* nm := deref "safestrcpy" (safestrcpy (p_name pr) (basename path path ++ [0]) 16) in
  do* upd_proc p (set p_name (λ _, nm)) in
  let oldpgdir := p_pgdir pr in
  do* upd_proc p (set p_pgdir (λ _, pgdir)) in
  do* upd_proc p (set p_sz (λ _, sz)) in
  do* upd_proc p (set p_tframe (λ tf, tf <| tf_eip := entry |> <| tf_esp := sp |>)) in
  do* switchuvm p in
  do* freevm oldpgdir in
  ret 0.

(** The user stack: two pages, the first of them made inaccessible. *)
Definition exec_stack (path : list Z) (argv : list (list Z)) (pgdir sz entry : Z) : KM Z :=
  let sz := PGROUNDUP sz in
  let* sz := allocuvm pgdir sz (u32 (sz + 2 * PGSIZE)) in
  if sz =? 0 then exec_bad pgdir None else
  do* clearpteu pgdir (u32 (sz - 2 * PGSIZE)) in
  let* r := exec_args pgdir sz 0 argv in
  match r with
  | None => exec_bad pgdir None
  | Some (sp, args) =>
      let argc := Z.of_nat (length argv) in
      let us := ustack argc sp args in
      let sp := u32 (sp - (3 + argc + 1) * 4) in
      let* r := copyout pgdir sp (concat (le32 <$> us)) in
      if r <? 0 then exec_bad pgdir None else
      exec_commit path pgdir sz entry sp
  end.

Definition exec (path : list Z) (argv : list (list Z)) : KM Z :=
  let* oip := namei path in
  match oip with
  | None => ret (-1)
  | Some ip =>
      do* ilock (Some ip) in
      let* r := readi ip 0 elfhdr_size in
      if u32 r.1 <? elfhdr_size then exec_bad 0 (Some ip) else
      let elf := get_elfhdr r.2 in
      if negb (elf_magic elf =? ELF_MAGIC) then exec_bad 0 (Some ip) else
      let* pgdir := setupkvm in
      if pgdir =? 0 then exec_bad 0 (Some ip) else
      let* osz := exec_load (Z.to_nat (elf_phnum elf)) ip pgdir (s32 (elf_phoff elf)) 0 in
      match osz with
      | None => exec_bad pgdir (Some ip)
      | Some sz =>
          do* iunlockput ip in
          exec_stack path argv pgdir sz (elf_entry elf)
      end
  end.
End exec.
