(* ===== verification/Boot.v ===== *)
(** The boot loader (bootmain.c): it reads the kernel, an ELF file that starts
    at sector 1 of the first disk, into memory and jumps to its entry point. *)
From stdpp Require Import base numbers gmap strings option list.
From S2P Require Import Prelude State Spinlock Str Ports Cprintf Kalloc Proc Mlf Sched Bio Blocks Log LogSpec Tx Crash Fs Pipe File Vm Exec.

(** ** The code *)

Definition SECTSIZE : Z := 512.
Definition ELF_SCRATCH : Z := 0x10000.

Section code.
Context {D : Type} `{ports D} (patience : nat).

Definition waitdisk : M (mach D ()) unit := let* _ := poll patience in ret tt.

Definition readsect (dst offset : Z) : M (mach D ()) unit :=
  do* waitdisk in
  do* outb 0x1F2 1 in
  do* outb 0x1F3 offset in
  do* outb 0x1F4 (Z.shiftr offset 8) in
  do* outb 0x1F5 (Z.shiftr offset 16) in
  do* outb 0x1F6 (Z.lor (Z.shiftr offset 24) 0xE0) in
  do* outb 0x1F7 0x20 in
  do* waitdisk in
  insl 0x1F0 dst 128.

(** [for(; pa < epa; pa += SECTSIZE, offset++) readsect(pa, offset)]. *)
Fixpoint readseg_loop (n : nat) (pa epa offset : Z) : M (mach D ()) unit :=
  match n with
  | O => λ _, NoFuel
  | S n =>
      if pa <? epa then
        do* readsect pa offset in
        readseg_loop n (u32 (pa + SECTSIZE)) epa (u32 (offset + 1))
      else ret tt
  end.

(** The bound is the number of sectors that are read, and the last test. *)
Definition readseg (pa count offset : Z) : M (mach D ()) unit :=
  let epa := u32 (pa + count) in
  let pa := u32 (pa - offset mod SECTSIZE) in
  let offset := offset / SECTSIZE + 1 in
  readseg_loop (S (Z.to_nat ((epa - pa + 511) / SECTSIZE))) pa epa offset.

(** The body of the loop over the program headers, which are read from the
    scratch page. *)
Definition load_ph (ph : Z) : M (mach D ()) unit :=
  let* s := gets id in
  let pa := ld32 (m_mem s) (ph + 12) in
  do* readseg pa (ld32 (m_mem s) (ph + 16)) (ld32 (m_mem s) (ph + 4)) in
  let* s := gets id in
  let filesz := ld32 (m_mem s) (ph + 16) in
  let memsz := ld32 (m_mem s) (ph + 20) in
  if filesz <? memsz
  then modify (with_mem (λ m, stosb m (u32 (pa + filesz)) 0 (Z.to_nat (memsz - filesz))))
  else ret tt.

(** [for(; ph < eph; ph++)]. *)
Fixpoint boot_load (n : nat) (ph eph : Z) : M (mach D ()) unit :=
  match n with
  | O => λ _, NoFuel
  | S n =>
      if ph <? eph then
        do* load_ph ph in
        boot_load n (u32 (ph + proghdr_size)) eph
      else ret tt
  end.

(** The address [bootmain] jumps to, or [None] if it returns. *)
Definition bootmain : M (mach D ()) (option Z) :=
  let elf := ELF_SCRATCH in
  do* readseg elf 4096 0 in
  let* s := gets id in
  if negb (ld32 (m_mem s) elf =? ELF_MAGIC) then ret None else
  let ph := u32 (elf + ld32 (m_mem s) (elf + 28)) in
  let phnum := ldb (m_mem s) (elf + 44) + 2 ^ 8 * ldb (m_mem s) (elf + 45) in
  do* boot_load (S (Z.to_nat phnum)) ph (u32 (ph + proghdr_size * phnum)) in
  let* s := gets id in
  ret (Some (ld32 (m_mem s) (elf + 24))).
End code.

(** ** The disk *)

(** [img]: the bytes of the sectors of drive 0 from sector 1 on, up to the last
    sector of the kernel. *)
Record kernel_disk (t : ata_t) (img : list Z) : Prop := {
  kd_sectors : ∃ dk, at_disks t !! 0%nat = Some dk ∧
    ∀ i : nat, (512 * i < length img)%nat → dk !! S i = Some (Some (take 512 (drop (512 * i) img)));
  kd_length : ∃ n : nat, length img = (512 * n)%nat ∧ n < 2 ^ 28 - 1;
  kd_bytes : Forall is_byte img;
}.

Lemma total_getb (l : list Z) i : (i < length l)%nat → l !!! i = getb l i.
Proof. intros [x E]%lookup_lt_is_Some. unfold getb. by rewrite (list_lookup_total_correct _ _ _ E), E. Qed.

Lemma getb_byte l i : Forall is_byte l → is_byte (getb l i).
Proof.
  intros Hl. unfold getb. destruct (l !! i) eqn:E; cbn; [by eapply Forall_lookup_1|unfold is_byte; lia].
Qed.

Lemma get32_byte_range l i : Forall is_byte l → 0 ≤ get32 l i < 2 ^ 32.
Proof.
  intros Hl. unfold get32. pose proof (getb_byte l i Hl). pose proof (getb_byte l (i + 1) Hl).
  pose proof (getb_byte l (i + 2) Hl). pose proof (getb_byte l (i + 3) Hl). unfold is_byte in *. lia.
Qed.

(** ** What is to be loaded *)

(** A program header, as the loader uses it. *)
Record bseg := mkBseg { sg_off : Z; sg_paddr : Z; sg_filesz : Z; sg_memsz : Z }.
Definition boot_seg (img : list Z) (i : nat) : bseg :=
  let a := (Z.to_nat (get32 img 28) + 32 * i)%nat in
  mkBseg (get32 img (a + 4)) (get32 img (a + 12)) (get32 img (a + 16)) (get32 img (a + 20)).
Definition boot_phnum (img : list Z) : nat := Z.to_nat (get16 img 44).

(** The number of sectors of [readseg], and where it puts them. *)
Definition nsect (count off : Z) : Z := (off mod 512 + count + 511) / 512.
Definition base (pa off : Z) : Z := pa - off mod 512.

Definition sg_end (g : bseg) : Z := sg_paddr g + Z.max (sg_filesz g) (sg_memsz g).

(** The addresses that loading the segment changes: whole sectors. *)
Definition span (g : bseg) (x : Z) : Prop :=
  let b := base (sg_paddr g) (sg_off g) in
  b ≤ x < Z.max (b + 512 * nsect (sg_filesz g) (sg_off g)) (sg_end g).
Definition scratch (x : Z) : Prop := ELF_SCRATCH ≤ x < ELF_SCRATCH + 4096.

(** The segment's bytes of the file, then zeros. *)
Definition loaded (img : list Z) (m : gmap Z Z) (g : bseg) : Prop :=
  ∀ k, 0 ≤ k < Z.max (sg_filesz g) (sg_memsz g) →
    ldb m (sg_paddr g + k) = if k <? sg_filesz g then getb img (Z.to_nat (sg_off g + k)) else 0.

(** What the loader relies on: the headers are in the first page of the file;
    a segment lies in the file and fits in the address space, and so do the
    sectors it is in, away from the scratch page; and the sectors of a later
    segment do not touch an earlier segment. *)
Record bootable (img : list Z) : Prop := {
  bo_phs : get32 img 28 + 32 * boot_phnum img ≤ 4096;
  bo_seg i : (i < boot_phnum img)%nat → let g := boot_seg img i in
    sg_off g + sg_filesz g ≤ length img ∧ sg_off g mod 512 ≤ sg_paddr g ∧ sg_end g + 512 ≤ 2 ^ 32 ∧
    ∀ x, span g x → ¬ scratch x;
  bo_apart i j : (i < j < boot_phnum img)%nat → ∀ x, span (boot_seg img j) x →
    ¬ (sg_paddr (boot_seg img i) ≤ x < sg_end (boot_seg img i));
}.

Section proofs.
Context {D : Type} `{ata D bound} (patience : nat) (Hpat : (bound < patience)%nat) (img : list Z).

Definition drive_ok (s : mach D ()) : Prop :=
  kernel_disk (at_view (m_dev s)) img ∧ (at_busy (at_view (m_dev s)) ≤ bound)%nat.


(** The bytes of sector [o] of the disk. *)
Definition sector_bytes (o : Z) : list Z := take 512 (drop (Z.to_nat (512 * (o - 1))) img).

Lemma sector_length o s :
  drive_ok s → 1 ≤ o → 512 * o ≤ length img → length (sector_bytes o) = 512%nat ∧ Forall is_byte (sector_bytes o).
Proof using Type.
  clear Hpat. intros [[_ _ Hb] _] Ho Hl. unfold sector_bytes. split; [rewrite length_take, length_drop; lia|by apply Forall_take, Forall_drop].
Qed.

Lemma waitdisk_ready s :
  drive_ok s → returns (waitdisk patience) s (λ _ t, m_mem t = m_mem s ∧
    at_view (m_dev t) = (at_view (m_dev s)) <| at_busy := O |>).
Proof using Hpat.
  intros [_ Hb]. unfold waitdisk. apply returns_bind. eapply returns_mono; [apply poll_ready; lia|].
  cbn. intros _ t (Hm & Hv & _). by apply returns_ret.
Qed.

(** [readsect] puts the bytes of one sector into memory. *)
Lemma readsect_bytes s dst o :
  drive_ok s → 1 ≤ o → 512 * o ≤ length img →
  returns (readsect patience dst o) s (λ _ t, drive_ok t ∧ m_mem t = st_bytes (m_mem s) dst (sector_bytes o)).
Proof using Hpat.
  intros Hs Ho Hl. destruct (sector_length o s Hs Ho Hl) as [Hlen Hbs].
  pose proof Hs as [[(dk & Hdk & Hsec) (n & En & Hn) Hby] _]. assert (0 ≤ o < 2 ^ 28) as Hor by lia.
  unfold readsect. apply returns_bind. eapply returns_mono; [by apply waitdisk_ready|]. cbv beta. intros _ t1 [M1 V1].
  apply (address_drive 0 o); [lia|done|by rewrite V1|done|done|done|by rewrite Z.lor_comm|]. intros t2 M2 V2.
  destruct (addressed_fields 0 o (at_view (m_dev t1))) as (Ed & El & Eh & Ec); [lia|done|]. rewrite <- V2 in *.
  apply returns_bind. destruct (ata_read (m_dev t2)) as (b & Hb & Vr); [by rewrite V2, V1|done|done|].
  assert (at_sector (at_view (m_dev t2)) = Some (Some (sector_bytes o))) as Es.
  { unfold at_sector. rewrite Ed, El, V2, V1. cbn. change (Z.to_nat 0) with 0%nat. rewrite Hdk. cbn.
    replace (Z.to_nat o) with (S (Z.to_nat (o - 1))) by lia. rewrite Hsec by lia. unfold sector_bytes. do 4 f_equal. lia. }
  unfold at_read in Vr. rewrite Es, V2, V1 in Vr.
  unfold outb. change (u8 0x20) with 0x20. apply returns_modify. apply returns_bind. eapply returns_mono; [apply waitdisk_ready|].
  { split; cbn; [|by rewrite Vr]. rewrite Vr. split; [by exists dk|by exists n|done]. }
  cbv beta. intros _ t3 [M3 V3]. cbn in M3, V3. rewrite Vr in V3.
  eapply returns_mono; [apply (insl_bytes _ (sector_bytes o)); [by rewrite V3|by rewrite V3|lia|done]|].
  cbv beta. intros _ t4 [M4 V4]. split; [|by rewrite M4, M3, M2, M1].
  rewrite V3 in V4. split; rewrite V4; [|cbn; lia]. split; [by exists dk|by exists n|done].
Qed.

(** The loop of [readseg] over [k] sectors. *)
Lemma readseg_loop_bytes (k n : nat) s pa epa o :
  drive_ok s → 1 ≤ o → 512 * (o + k - 1) ≤ length img → (k < n)%nat →
  pa + 512 * k < 2 ^ 32 → 0 ≤ pa → epa ≤ pa + 512 * k < epa + 512 →
  returns (readseg_loop patience n pa epa o) s (λ _ t, drive_ok t ∧
    m_mem t = st_bytes (m_mem s) pa (take (512 * k) (drop (Z.to_nat (512 * (o - 1))) img))).
Proof using Hpat.
  revert n s pa o. induction k as [|k IH]; intros [|n] s pa o Hs Ho Hl Hn Hp Hp0 He; try lia; cbn [readseg_loop].
  - rewrite (proj2 (Z.ltb_ge _ _)) by lia. by apply returns_ret.
  - rewrite (proj2 (Z.ltb_lt _ _)) by lia. apply returns_bind.
    pose proof (proj1 Hs) as [_ (n' & En & Hn') _].
    eapply returns_mono; [apply readsect_bytes; [done|lia|lia]|]. cbv beta. intros _ t [Ht Mt].
    destruct (sector_length o s Hs) as [Hlen _]; [lia|lia|].
    unfold SECTSIZE. rewrite !u32_small by lia.
    eapply returns_mono; [apply IH; try done; lia|]. cbv beta. intros _ u [Hu Mu]. split; [done|].
    rewrite Mu, Mt. replace (pa + 512) with (pa + length (sector_bytes o)) by lia.
    rewrite <- st_bytes_app. f_equal. unfold sector_bytes.
    replace (512 * S k)%nat with (512 + 512 * k)%nat by lia. rewrite <- take_take_drop. f_equal. rewrite drop_drop. do 2 f_equal. lia.
Qed.

(** [readseg] puts the bytes of the file where they belong, and more bytes of
    the same sectors around them. *)
Lemma readseg_bytes s pa count off :
  drive_ok s → 0 ≤ off → 0 ≤ count → off + count ≤ length img → off mod 512 ≤ pa → pa + count + 512 ≤ 2 ^ 32 →
  returns (readseg patience pa count off) s (λ _ t, drive_ok t ∧ ∀ x,
    ldb (m_mem t) x = if decide (base pa off ≤ x < base pa off + 512 * nsect count off)
                      then getb img (Z.to_nat (off + (x - pa))) else ldb (m_mem s) x).
Proof using Hpat.
  intros Hs Ho Hc Hl Hp Hw. pose proof (proj1 Hs) as [_ (n & En & Hn) Hby].
  assert (0 ≤ off mod 512 < 512) as Hm by lia. unfold readseg, SECTSIZE. rewrite !u32_small by lia.
  eapply returns_mono; [apply (readseg_loop_bytes (Z.to_nat (nsect count off))); unfold nsect, base in *; try done; try lia|].
  cbv beta. intros _ t [Ht Mt]. split; [done|]. intros x. rewrite Mt, ldb_st_bytes by (by apply Forall_take, Forall_drop).
  unfold base. rewrite length_take, length_drop.
  replace (Z.of_nat (_ `min` _)) with (512 * nsect count off) by (unfold nsect in *; lia).
  case_decide as Hx; [|done]. rewrite total_getb by (rewrite length_take, length_drop; unfold nsect in *; lia).
  unfold getb. rewrite lookup_take, decide_True, lookup_drop by lia. do 2 f_equal. lia.
Qed.

(** The scratch page holds the first page of the file. *)
Definition page_ok (m : gmap Z Z) : Prop := ∀ k : nat, (k < 4096)%nat → ldb m (ELF_SCRATCH + k) = getb img k.

Lemma page_ld32 m (k : nat) : page_ok m → (k + 4 ≤ 4096)%nat → ld32 m (ELF_SCRATCH + k) = get32 img k.
Proof using Type.
  clear Hpat. intros Hm Hk. unfold ld32, get32. rewrite <- !Hm by lia.
  rewrite !Nat2Z.inj_add, !Z.add_assoc. done.
Qed.

(** The fields of the headers, read from the scratch page. *)
Lemma page_fields s i :
  drive_ok s → page_ok (m_mem s) → bootable img → (i < boot_phnum img)%nat →
  let ph := ELF_SCRATCH + (Z.to_nat (get32 img 28) + 32 * i)%nat in
  let g := boot_seg img i in
  ld32 (m_mem s) (ph + 12) = sg_paddr g ∧ ld32 (m_mem s) (ph + 16) = sg_filesz g ∧
  ld32 (m_mem s) (ph + 4) = sg_off g ∧ ld32 (m_mem s) (ph + 20) = sg_memsz g.
Proof using Type.
  clear Hpat. intros Hs Hp Hb Hi ph g. pose proof (bo_phs _ Hb) as Hphs. pose proof (kd_bytes _ _ (proj1 Hs)) as Hby.
  pose proof (get32_byte_range img 28 Hby) as H28. unfold g, boot_seg. cbv zeta. cbn [sg_off sg_paddr sg_filesz sg_memsz].
  set (a := (Z.to_nat (get32 img 28) + 32 * i)%nat) in *.
  assert (∀ j : nat, (j ≤ 28)%nat → ld32 (m_mem s) (ph + j) = get32 img (a + j)%nat) as Hld.
  { intros j Hj. subst ph. replace (ELF_SCRATCH + a + j) with (ELF_SCRATCH + (a + j)%nat) by lia.
    apply page_ld32; [done|]. unfold a. lia. }
  split_and!; [apply (Hld 12%nat)|apply (Hld 16%nat)|apply (Hld 4%nat)|apply (Hld 20%nat)]; lia.
Qed.

(** One turn of the loop over the headers. *)
Lemma load_ph_loaded s i :
  drive_ok s → page_ok (m_mem s) → bootable img → (i < boot_phnum img)%nat →
  returns (load_ph patience (ELF_SCRATCH + (Z.to_nat (get32 img 28) + 32 * i)%nat)) s (λ _ t,
    drive_ok t ∧ page_ok (m_mem t) ∧ loaded img (m_mem t) (boot_seg img i) ∧
    ∀ x, ¬ span (boot_seg img i) x → ldb (m_mem t) x = ldb (m_mem s) x).
Proof using Hpat.
  intros Hs Hp Hb Hi. pose proof (kd_bytes _ _ (proj1 Hs)) as Hby. pose proof (page_fields s i Hs Hp Hb Hi) as (E1 & E2 & E3 & _).
  pose proof (λ t Ht Hpt, page_fields t i Ht Hpt Hb Hi) as Hf. destruct (bo_seg _ Hb i Hi) as (Hfile & Hpa & Hend & Hout).
  assert (0 ≤ sg_off (boot_seg img i) ∧ 0 ≤ sg_filesz (boot_seg img i) ∧ 0 ≤ sg_memsz (boot_seg img i)) as (Ho0 & Hf0 & Hm0).
  { split_and!; apply get32_byte_range; done. }
  set (g := boot_seg img i) in *. set (ph := ELF_SCRATCH + _) in *. cbv zeta in *. clearbody g ph.
  unfold load_ph. apply returns_bind, returns_gets. cbn [id]. unfold id. rewrite E1, E2, E3.
  apply returns_bind. eapply returns_mono; [apply readseg_bytes; try done; unfold sg_end in *; lia|].
  cbv beta. intros _ t [Ht Mt].
  assert (page_ok (m_mem t)) as Hpt.
  { intros j Hj. rewrite Mt, decide_False; [by apply Hp|]. intros Hin. apply (Hout (ELF_SCRATCH + j)); [|unfold scratch; lia].
    unfold span. cbv zeta. lia. }
  apply returns_bind, returns_gets. destruct (Hf t Ht Hpt) as (_ & E5 & _ & E6). unfold id. rewrite E5, E6.
  rewrite (u32_small (sg_paddr g + _)) by (unfold sg_end in *; lia).
  apply (returns_eq _ _ tt (with_mem (λ m, stosb m (sg_paddr g + sg_filesz g) 0 (Z.to_nat (sg_memsz g - sg_filesz g))) t)).
  { destruct (Z.ltb_spec (sg_filesz g) (sg_memsz g)); [done|].
    replace (Z.to_nat (sg_memsz g - sg_filesz g)) with 0%nat by lia. by destruct t. }
  split; [done|]. cbn. split_and!.
  - intros j Hj. rewrite ldb_stosb, decide_False; [by apply Hpt|].
    intros Hin. apply (Hout (ELF_SCRATCH + j)); [|unfold scratch; lia]. unfold span, sg_end, base. cbv zeta. lia.
  - intros k Hk. rewrite ldb_stosb, Mt. destruct (Z.ltb_spec k (sg_filesz g)).
    + rewrite decide_False, decide_True by (unfold base, nsect; lia). f_equal. lia.
    + by rewrite decide_True by lia.
  - intros x Hx. rewrite ldb_stosb, Mt, !decide_False; [done| |]; unfold span, sg_end, base in *; cbv zeta in *; lia.
Qed.

Lemma loaded_kept m m' g :
  (∀ x, sg_paddr g ≤ x < sg_end g → ldb m' x = ldb m x) → loaded img m g → loaded img m' g.
Proof using Type. clear Hpat. intros Hk Hl k Hr. rewrite Hk by (unfold sg_end; lia). by apply Hl. Qed.

(** The headers from number [i] on. *)
Lemma boot_load_loaded k i n s :
  drive_ok s → page_ok (m_mem s) → bootable img → (i + k = boot_phnum img)%nat → (k < n)%nat →
  let ph j := ELF_SCRATCH + (Z.to_nat (get32 img 28) + 32 * j)%nat in
  returns (boot_load patience n (ph i) (ph (boot_phnum img))) s (λ _ t,
    drive_ok t ∧ page_ok (m_mem t) ∧ (∀ j, (i ≤ j < boot_phnum img)%nat → loaded img (m_mem t) (boot_seg img j)) ∧
    ∀ x, (∀ j, (i ≤ j < boot_phnum img)%nat → ¬ span (boot_seg img j) x) → ldb (m_mem t) x = ldb (m_mem s) x).
Proof using Hpat.
  intros Hs Hp Hb Hi Hn ph. pose proof (bo_phs _ Hb) as Hphs. pose proof (kd_bytes _ _ (proj1 Hs)) as Hby.
  pose proof (get32_byte_range img 28 Hby) as H28.
  revert i n s Hs Hp Hi Hn. induction k as [|k IH]; intros i [|n] s Hs Hp Hi Hn; try lia; cbn [boot_load].
  - rewrite (proj2 (Z.ltb_ge _ _)) by (unfold ph; lia). apply returns_ret. split_and!; [done|done|intros j Hj; lia|done].
  - rewrite (proj2 (Z.ltb_lt _ _)) by (unfold ph; lia). apply returns_bind.
    eapply returns_mono; [by apply load_ph_loaded; [..|lia]|]. cbv beta. intros _ t (Ht & Hpt & Hlt & Hkt).
    replace (u32 (ph i + proghdr_size)) with (ph (S i)) by (unfold ph, proghdr_size, ELF_SCRATCH; rewrite u32_small; lia).
    eapply returns_mono; [apply IH; try done; lia|]. cbv beta. intros _ u (Hu & Hpu & Hlu & Hku). split_and!; [done|done| |].
    + intros j Hj. destruct (decide (j = i)) as [->|]; [|apply Hlu; lia].
      eapply loaded_kept; [|exact Hlt]. intros x Hx. apply Hku. intros j' Hj' Hsp. by apply (bo_apart _ Hb i j' ltac:(lia) x).
    + intros x Hx. rewrite Hku, Hkt; [done|apply Hx; lia|]. intros j Hj. apply Hx. lia.
Qed.

(** The first page of the file in the scratch page. *)
Lemma first_page s :
  drive_ok s → (4096 ≤ length img)%nat →
  returns (readseg patience ELF_SCRATCH 4096 0) s (λ _ t, drive_ok t ∧ page_ok (m_mem t) ∧
    ∀ x, ¬ scratch x → ldb (m_mem t) x = ldb (m_mem s) x).
Proof using Hpat.
  intros Hs Hl. eapply returns_mono; [apply readseg_bytes; [done|lia|lia|lia|done|done]|]. cbv beta. intros _ t [Ht Mt].
  split; [done|]. split.
  - intros k Hk. rewrite Mt, decide_True by (change (base ELF_SCRATCH 0) with ELF_SCRATCH; change (nsect 4096 0) with 8; lia). f_equal. lia.
  - intros x Hx. rewrite Mt, decide_False; [done|]. change (base ELF_SCRATCH 0) with ELF_SCRATCH. change (nsect 4096 0) with 8. unfold scratch in Hx. lia.
Qed.
End proofs.

(** C22: from a disk that holds a kernel file [img] from sector 1 on, the boot
    loader stops without a jump if the file has not the ELF magic number, and
    otherwise jumps to the file's entry point when each segment of the file is at
    its physical address, followed by zeros up to its size in memory.  Memory
    outside the scratch page and the sectors of the segments is as it was. *)
Theorem bootmain_correct {D} `{ata D bound} patience img (s : mach D ()) :
  (bound < patience)%nat → drive_ok img s → (4096 ≤ length img)%nat →
  (get32 img 0 = ELF_MAGIC → bootable img) →
  returns (bootmain patience) s (λ r t,
    if get32 img 0 =? ELF_MAGIC then
      r = Some (get32 img 24) ∧
      (∀ i, (i < boot_phnum img)%nat → loaded img (m_mem t) (boot_seg img i)) ∧
      ∀ x, ¬ scratch x → (∀ i, (i < boot_phnum img)%nat → ¬ span (boot_seg img i) x) → ldb (m_mem t) x = ldb (m_mem s) x
    else r = None ∧ ∀ x, ¬ scratch x → ldb (m_mem t) x = ldb (m_mem s) x).
Proof.
  intros Hpat Hs Hl Hboot. pose proof (kd_bytes _ _ (proj1 Hs)) as Hby. unfold bootmain.
  apply returns_bind. eapply returns_mono; [by apply (first_page patience Hpat img)|]. cbv beta. intros _ t (Ht & Hp & Hk).
  assert (∀ (u : mach D ()) (k : nat), page_ok img (m_mem u) → (k + 4 ≤ 4096)%nat → ld32 (m_mem u) (ELF_SCRATCH + Z.of_nat k) = get32 img k) as Hld.
  { intros u k Hu Hk'. by apply page_ld32. }
  apply returns_bind, returns_gets. unfold id.
  pose proof (Hld t 0%nat Hp ltac:(lia)) as E0. rewrite Z.add_0_r in E0. rewrite E0.
  destruct (Z.eqb_spec (get32 img 0) ELF_MAGIC) as [Em|Em]; cbn [negb]; [|by apply returns_ret].
  specialize (Hboot Em). pose proof (bo_phs _ Hboot) as Hphs. pose proof (get32_byte_range img 28 Hby) as H28.
  pose proof (Hld t 28%nat Hp ltac:(lia)) as E28. change (Z.of_nat 28) with 28 in E28. rewrite E28.
  replace (ldb (m_mem t) (ELF_SCRATCH + 44) + _ * _) with (get16 img 44)
    by (unfold get16; cbn [Nat.add]; rewrite <- (Hp 44%nat), <- (Hp 45%nat) by lia; done).
  assert (0 ≤ get16 img 44) as H44.
  { unfold get16. pose proof (getb_byte img 44 Hby). pose proof (getb_byte img 45 Hby). unfold is_byte in *. cbn [Nat.add]. lia. }
  apply returns_bind. set (ph := λ j : nat, ELF_SCRATCH + (Z.to_nat (get32 img 28) + 32 * j)%nat).
  replace (u32 (ELF_SCRATCH + get32 img 28)) with (ph 0%nat) by (unfold ph, ELF_SCRATCH; rewrite u32_small; lia).
  replace (u32 (ph 0%nat + _)) with (ph (boot_phnum img))
    by (unfold ph, proghdr_size, ELF_SCRATCH, boot_phnum in *; rewrite u32_small; lia).
  eapply returns_mono; [apply (boot_load_loaded patience Hpat img (boot_phnum img) 0); try done; unfold boot_phnum; lia|].
  cbv beta. intros _ u (Hu & Hpu & Hlu & Hku). apply returns_bind, returns_gets, returns_ret. split_and!.
  - f_equal. apply (Hld u 24%nat Hpu). lia.
  - intros i Hi. apply Hlu. lia.
  - intros x Hx Hsp. rewrite Hku, Hk; [done|done|]. intros j Hj. apply Hsp. lia.
Qed.

(** ** Witness *)

Module boot_demo.
#[local] Existing Instance drive.
#[local] Existing Instance drive_ata.

(** Two segments: 300 bytes and then 300 zeros at 0x100000, 512 bytes at 0x101010. *)
Definition header (d : list Z) : list Z :=
  put32 (84 + 20) 512 (put32 (84 + 16) 512 (put32 (84 + 12) 0x101010 (put32 (84 + 4) 4608
  (put32 (52 + 20) 600 (put32 (52 + 16) 300 (put32 (52 + 12) 0x100000 (put32 (52 + 4) 4096
  (put32 44 2 (put32 28 52 (put32 24 0x10000c (put32 0 ELF_MAGIC d))))))))))).
Definition img : list Z := header (replicate 4096 0) ++ replicate 300 7 ++ replicate 212 9 ++ replicate 512 5.
Definition disk0 : list (option (list Z)) :=
  None :: ((λ i : nat, Some (take 512 (drop (512 * i) img))) <$> seq 0 10).
Definition start : mach ata_t () := mkMach ∅ (mkAta [disk0] 0 0 0 0 0 [] None 1 false) tt.

Lemma img_length : length img = (512 * 10)%nat.
Proof. vm_compute. reflexivity. Qed.

Lemma boot_start_ok : drive_ok img start.
Proof.
  split; [split|cbn; lia].
  - exists disk0. split; [done|]. intros i Hi. rewrite img_length in Hi. unfold disk0. rewrite lookup_cons_ne_0 by lia.
    cbn [pred]. rewrite list_lookup_fmap, lookup_seq_lt by lia. done.
  - exists 10%nat. split; [exact img_length|lia].
  - apply (bool_decide_unpack _). vm_compute. exact I.
Qed.

Lemma img_bootable : bootable img.
Proof.
  assert (boot_phnum img = 2%nat) as En by (vm_compute; reflexivity).
  assert (get32 img 28 = 52) as E28 by (vm_compute; reflexivity). pose proof img_length as El.
  assert (boot_seg img 0 = mkBseg 4096 0x100000 300 600) as E0 by (vm_compute; reflexivity).
  assert (boot_seg img 1 = mkBseg 4608 0x101010 512 512) as E1 by (vm_compute; reflexivity).
  split; rewrite ?En.
  - rewrite E28. lia.
  - intros i Hi. assert (i = 0 ∨ i = 1)%nat as [->| ->] by lia; rewrite ?E0, ?E1, El; cbv zeta;
      cbn [sg_off sg_filesz sg_paddr sg_memsz]; (split_and!; [done|done|done|]);
      unfold span, scratch, base, nsect, sg_end, ELF_SCRATCH; cbn [sg_off sg_filesz sg_paddr sg_memsz]; lia.
  - intros i j Hij x. assert (i = 0 ∧ j = 1)%nat as [-> ->] by lia. rewrite E0, E1.
    unfold span, base, nsect, sg_end; cbn [sg_off sg_filesz sg_paddr sg_memsz]; lia.
Qed.

Lemma bootmain_correct_witness :
  (1 < 2)%nat ∧ drive_ok img start ∧ (4096 ≤ length img)%nat ∧ bootable img ∧
  returns (bootmain 2) start (λ r t, r = Some 0x10000c ∧
    ∀ i, (i < 2)%nat → loaded img (m_mem t) (boot_seg img i)).
Proof.
  split; [lia|]. split; [exact boot_start_ok|]. split; [rewrite img_length; lia|]. split; [exact img_bootable|].
  eapply returns_mono.
  - apply (bootmain_correct (bound := 1) 2 img start); [lia|exact boot_start_ok|rewrite img_length; lia|intros _; exact img_bootable].
  - intros r t. replace (get32 img 0 =? ELF_MAGIC) with true by (vm_compute; reflexivity). intros (Hr & Hl & _).
    split; [rewrite Hr; vm_compute; reflexivity|]. intros i Hi. apply Hl. replace (boot_phnum img) with 2%nat by (vm_compute; reflexivity). lia.
Defined.
End boot_demo.
