(* ===== verification/Syscall.v ===== *)
(** System calls: fetching their arguments from user memory (syscall.c), the
    calls on processes (sysproc.c) and on files (sysfile.c), and the dispatch
    on the call number. *)
From stdpp Require Import base numbers gmap strings option list.
From S2P Require Import Prelude State Spinlock Str Cprintf Kalloc Proc Mlf Sched Bio Blocks Log LogSpec Tx Crash Fs Pipe File Vm ProcLife Exec.

(** Return -1 at once when an argument is not valid. *)
Definition arg {A} (c : KM (option A)) (k : A → KM Z) : KM Z :=
  let* o := c in match o with Some a => k a | None => ret (-1) end.

Section args.
Context `{kenv}.

Definition proc_sz : KM Z := let* p := curproc in let* pr := get_proc p in ret (p_sz pr).

(** The value stored at [ip], or [None] for the value -1. *)
Definition fetchint (addr : Z) : KM (option Z) :=
  let* sz := proc_sz in
  if (sz <=? addr) || (sz <? u32 (addr + 4)) then ret None else
  let* d := user_read 4 addr in
  ret (Some (s32 (get32 d 0))).

(** The bytes from [s] up to the first NUL, if there is one in [n] bytes. *)
Fixpoint fetchstr_loop (n : nat) (s : Z) : KM (option (list Z)) :=
  match n with
  | O => ret None
  | S n =>
      let* c := user_ldb s in
      if c =? 0 then ret (Some []) else
      let* r := fetchstr_loop n (s + 1) in
      ret (cons c <$> r)
  end.

(** The string at [addr] without its NUL, or [None] for the value -1. *)
Definition fetchstr (addr : Z) : KM (option (list Z)) :=
  let* sz := proc_sz in
  if sz <=? addr then ret None else fetchstr_loop (Z.to_nat (sz - addr)) addr.

Definition argint (n : Z) : KM (option Z) :=
  let* p := curproc in
  let* pr := get_proc p in
  fetchint (u32 (tf_esp (p_tframe pr) + 4 + 4 * n)).

Definition argptr (n size : Z) : KM (option Z) :=
  let* o := argint n in
  match o with
  | None => ret None
  | Some i =>
      let* sz := proc_sz in
      if (sz <=? u32 i) || (sz <? u32 (u32 i + size)) then ret None else ret (Some (u32 i))
  end.

Definition argstr (n : Z) : KM (option (list Z)) :=
  let* o := argint n in
  match o with
  | None => ret None
  | Some addr => fetchstr (u32 addr)
  end.
End args.

Section sysproc.
Context `{kenv} `{disk} `{devsw}.

Definition sys_fork : KM Z := fork.
Definition sys_exit : KM Z := do* exit in ret 0.
Definition sys_wait : KM Z := wait.
Definition sys_kill : KM Z := arg (argint 0) kill.
Definition sys_getpid : KM Z := let* p := curproc in let* pr := get_proc p in ret (p_pid pr).

Definition sys_sbrk : KM Z :=
  arg (argint 0) (λ n,
    let* addr := proc_sz in
    let* r := growproc n in
    if r <? 0 then ret (-1) else ret (s32 addr)).

Fixpoint sys_sleep_loop (fu : nat) (ticks0 n : Z) : KM Z :=
  match fu with
  | O => λ _, NoFuel
  | S fu =>
      let* k := gets id in
      if u32 (k_ticks k - ticks0) <? u32 n then
        let* killed := curkilled in
        if killed then do* release LkTicks in ret (-1) else
        do* cprintf "FORK  1  
" [] in
        do* sleep ChTicks (Some LkTicks) in
        sys_sleep_loop fu ticks0 n
      else do* release LkTicks in ret 0
  end.

Definition sys_sleep : KM Z :=
  do* cprintf "PEPE  
" [] in
  arg (argint 0) (λ n,
    do* acquire LkTicks in
    let* k := gets id in
    sys_sleep_loop fuel (k_ticks k) n).

Definition sys_uptime : KM Z :=
  do* acquire LkTicks in
  let* k := gets id in
  do* release LkTicks in
  ret (s32 (k_ticks k)).

Definition sys_procstat : KM Z := do* procdump in ret 0.

Definition sys_set_priority : KM Z :=
  arg (argint 0) (λ param,
    let* p := curproc in
    do* set_priority p param in
    ret 0).
End sysproc.

(** ** Properties *)

Section props.
Context `{Hk : kenv}.
Implicit Types (s : kstate) (pr : proc).

(** The running process, and where its [n]-th argument is. *)
Definition running s (p : nat) pr : Prop := curproc s = Ret p s ∧ pt_proc (k_ptable s) !! p = Some pr.
Definition arg_addr pr (n : Z) : Z := u32 (tf_esp (p_tframe pr) + 4 + 4 * n).

Lemma proc_sz_eq s p pr : running s p pr → proc_sz s = Ret (p_sz pr) s.
Proof. intros [Hc Hp]. unfold proc_sz. step Hc. by step (get_proc_eq _ _ _ Hp). Qed.

(** An argument is fetched only if all four bytes of it belong to the process. *)
Lemma argint_eq s p pr n d :
  running s p pr → 0 ≤ p_sz pr ≤ KERNBASE →
  (arg_addr pr n + 4 ≤ p_sz pr → user_read 4 (arg_addr pr n) s = Ret d s) →
  argint n s = Ret (if decide (arg_addr pr n + 4 ≤ p_sz pr) then Some (s32 (get32 d 0)) else None) s.
Proof.
  intros Hr Hsz Hd. assert (Hr' := Hr). destruct Hr' as [Hc Hp]. unfold argint. step Hc. step (get_proc_eq _ _ _ Hp).
  change (u32 (tf_esp (p_tframe pr) + 4 + 4 * n)) with (arg_addr pr n). set (a := arg_addr pr n) in *.
  assert (Ha : 0 ≤ a < 2 ^ 32) by apply u32_range. unfold fetchint. step (proc_sz_eq s p pr Hr).
  destruct (decide (a + 4 ≤ p_sz pr)) as [Hle|Hgt].
  - rewrite (proj2 (Z.leb_gt (p_sz pr) a)), u32_small, (proj2 (Z.ltb_ge (p_sz pr) (a + 4)))
      by (unfold KERNBASE in *; lia). cbn [orb]. by step (Hd Hle).
  - destruct (Z.leb_spec (p_sz pr) a); [done|]. cbn [orb].
    rewrite u32_small, (proj2 (Z.ltb_lt (p_sz pr) (a + 4))) by (unfold KERNBASE in *; lia). done.
Qed.

Lemma argptr_eq s p pr n size d :
  running s p pr → 0 ≤ p_sz pr ≤ KERNBASE → arg_addr pr n + 4 ≤ p_sz pr → user_read 4 (arg_addr pr n) s = Ret d s →
  let w := u32 (get32 d 0) in
  argptr n size s = Ret (if (p_sz pr <=? w) || (p_sz pr <? u32 (w + size)) then None else Some w) s.
Proof.
  intros Hr Hsz Ha Hd w. assert (Hw : u32 (s32 (get32 d 0)) = w) by (unfold w, u32, s32; lia).
  unfold argptr. step (argint_eq s p pr n d Hr Hsz (λ _, Hd)). rewrite decide_True by done.
  step (proc_sz_eq s p pr Hr). rewrite Hw. by destruct (_ || _).
Qed.

(** C35: [argptr] accepts a pointer to [size] bytes exactly if the argument itself
    and all of the [size] bytes lie below the size of the process. *)
Theorem argptr_bounds s p pr n size d :
  running s p pr → 0 ≤ p_sz pr ≤ KERNBASE → 0 ≤ size < 2 ^ 31 →
  (arg_addr pr n + 4 ≤ p_sz pr → user_read 4 (arg_addr pr n) s = Ret d s) →
  argptr n size s = Ret (if decide (arg_addr pr n + 4 ≤ p_sz pr ∧ u32 (get32 d 0) < p_sz pr ∧ u32 (get32 d 0) + size ≤ p_sz pr)
                         then Some (u32 (get32 d 0)) else None) s.
Proof.
  intros Hr Hsz Hs Hd. destruct (decide (arg_addr pr n + 4 ≤ p_sz pr)) as [Ha|Ha].
  - rewrite (argptr_eq s p pr n size d) by auto. assert (Hw := u32_range (get32 d 0)). set (w := u32 (get32 d 0)) in *.
    destruct (Z.leb_spec (p_sz pr) w); cbn [orb]; [by rewrite decide_False by lia|].
    rewrite u32_small by (unfold KERNBASE in *; lia).
    destruct (Z.ltb_spec (p_sz pr) (w + size)); [by rewrite decide_False by lia|by rewrite decide_True by lia].
  - rewrite decide_False by tauto. unfold argptr. step (argint_eq s p pr n d Hr Hsz Hd). by rewrite decide_False.
Qed.

(** A negative size passes the check of [argptr]: the pointer is accepted
    although no number of bytes was checked behind it. *)
Theorem argptr_negative_size s p pr n size d :
  running s p pr → 0 ≤ p_sz pr ≤ KERNBASE → arg_addr pr n + 4 ≤ p_sz pr → user_read 4 (arg_addr pr n) s = Ret d s →
  size < 0 → 0 ≤ u32 (get32 d 0) + size → u32 (get32 d 0) < p_sz pr →
  argptr n size s = Ret (Some (u32 (get32 d 0))) s.
Proof.
  intros Hr Hsz Ha Hd Hs Hw Hlt. rewrite (argptr_eq s p pr n size d) by done. set (w := u32 (get32 d 0)) in *.
  rewrite (proj2 (Z.leb_gt (p_sz pr) w)), u32_small, (proj2 (Z.ltb_ge (p_sz pr) (w + size)))
    by (unfold KERNBASE in *; lia). done.
Qed.
End props.

(** ** Witnesses *)

Module arg_demo.
(** A process of one page whose second argument is the address 0xF00. *)
Definition page3 : Z := 0x80115000.
Definition mem : gmap Z Z :=
  st32 (st32 (st32 ∅ page2 (Z.lor (v2p page1) 7)) page1 (Z.lor (v2p page3) 7)) (page3 + 0x808) 0xF00.
Definition pr : proc :=
  proc_zero <| p_state := RUNNING |> <| p_sz := 0x1000 |> <| p_pgdir := page2 |>
            <| p_tframe := tf_zero <| tf_esp := 0x800 |> |>.
Definition start : kstate :=
  (demo.running (k_ptable kstate_zero)) <| k_ptable ::= set pt_proc (<[0%nat := pr]>) |> <| k_mem := mem |>.
Definition arg1 : list Z := [0; 0xF; 0; 0].
End arg_demo.

Lemma argptr_bounds_witness :
  argptr 1 0x100 arg_demo.start = Ret (Some 0xF00) arg_demo.start ∧ argptr 1 0x101 arg_demo.start = Ret None arg_demo.start.
Proof.
  split.
  - apply (argptr_bounds arg_demo.start 0 arg_demo.pr 1 0x100 arg_demo.arg1); done.
  - apply (argptr_bounds arg_demo.start 0 arg_demo.pr 1 0x101 arg_demo.arg1); done.
Defined.

Lemma argptr_negative_size_witness : argptr 1 (-1) arg_demo.start = Ret (Some 0xF00) arg_demo.start.
Proof.
  apply (argptr_negative_size arg_demo.start 0 arg_demo.pr 1 (-1) arg_demo.arg1); done.
Defined.
