(* ===== verification/Sysfile.v ===== *)
(** The system calls on files (sysfile.c) and the dispatch of system calls
    (syscall.c). *)
From stdpp Require Import base numbers gmap strings option list.
From S2P Require Import Prelude State Spinlock Str Cprintf Kalloc Proc Mlf Sched Bio Blocks Log LogSpec Tx Crash Fs Pipe File Vm ProcLife Exec Syscall.

(** fcntl.h *)
Definition O_RDONLY : Z := 0.
Definition O_WRONLY : Z := 1.
Definition O_RDWR : Z := 2.
Definition O_CREATE : Z := 0x200.

Section sysfile.
Context `{kenv} `{disk} `{devsw}.

(** ** Descriptors *)

(** The descriptor and the file, or [None] for the value -1. *)
Definition argfd (n : Z) : KM (option (Z * nat)) :=
  let* o := argint n in
  match o with
  | None => ret None
  | Some fd =>
      if (fd <? 0) || (Z.of_nat NOFILE <=? fd) then ret None else
      let* p := curproc in
      let* pr := get_proc p in
      match p_ofile pr !! Z.to_nat fd with
      | Some (Some f) => ret (Some (fd, f))
      | _ => ret None
      end
  end.

(** The first free descriptor. *)
Definition free_fd (ofile : list (option nat)) : option nat :=
  fst <$> list_find (λ o, o = None) (take NOFILE ofile).

Definition fdalloc (f : nat) : KM Z :=
  let* p := curproc in
  let* pr := get_proc p in
  match free_fd (p_ofile pr) with
  | Some fd =>
      do* upd_proc p (set p_ofile (<[fd := Some f]>)) in
      ret (Z.of_nat fd)
  | None => ret (-1)
  end.

(** [proc->ofile[fd] = 0]. *)
Definition fdclear (fd : Z) : KM unit :=
  let* p := curproc in
  upd_proc p (set p_ofile (<[Z.to_nat fd := None]>)).

Definition sys_dup : KM Z :=
  arg (argfd 0) (λ '(_, f),
    let* fd := fdalloc f in
    if fd <? 0 then ret (-1) else
    let* _ := filedup f in
    ret fd).

Definition sys_read : KM Z :=
  arg (argfd 0) (λ '(_, f),
  arg (argint 2) (λ n,
  arg (argptr 1 n) (λ p,
    let* r := fileread f n in
    do* user_write p r.2 in
    ret r.1))).

Definition sys_write : KM Z :=
  arg (argfd 0) (λ '(_, f),
  arg (argint 2) (λ n,
  arg (argptr 1 n) (λ p,
    let* l := user_read (Z.to_nat n) p in
    filewrite f l n))).

Definition sys_close : KM Z :=
  arg (argfd 0) (λ '(fd, f),
    do* fdclear fd in
    do* fileclose f in
    ret 0).

(** [struct stat] in user memory: the fields at their offsets. *)
Definition stat_size : Z := 20.
Definition write_stat (a : Z) (st : stat) : KM unit :=
  do* user_write a (take 2 (le32 (st_type st))) in
  do* user_write (a + 4) (le32 (st_dev st)) in
  do* user_write (a + 8) (le32 (st_ino st)) in
  do* user_write (a + 12) (take 2 (le32 (st_nlink st))) in
  user_write (a + 16) (le32 (st_size st)).

Definition sys_fstat : KM Z :=
  arg (argfd 0) (λ '(_, f),
  arg (argptr 1 stat_size) (λ a,
    let* st := filestat f in
    match st with
    | Some st => do* write_stat a st in ret 0
    | None => ret (-1)
    end)).

(** ** Links *)

(** The label [bad] of [sys_link]: the link count goes back down. *)
Definition link_bad (ip : nat) : KM Z :=
  do* ilock (Some ip) in
  do* upd_inode ip (set i_nlink (λ n, s16 (n - 1))) in
  do* iupdate ip in
  do* iunlockput ip in
  do* commit_trans in
  ret (-1).

Definition sys_link : KM Z :=
  arg (argstr 0) (λ old,
  arg (argstr 1) (λ new,
  arg (namei old) (λ ip,
    do* begin_trans in
    do* ilock (Some ip) in
    let* x := get_inode ip in
    if i_type x =? T_DIR then
      do* iunlockput ip in
      do* commit_trans in
      ret (-1)
    else
    do* upd_inode ip (set i_nlink (λ n, s16 (n + 1))) in
    do* iupdate ip in
    do* iunlock (Some ip) in
    let* od := nameiparent new name_buf in
    match od with
    | None => link_bad ip
    | Some (dp, name) =>
        do* ilock (Some dp) in
        let* d := get_inode dp in
        let* x := get_inode ip in
        let* r := (if negb (i_dev d =? i_dev x) then ret (-1) else dirlink dp name (i_inum x)) in
        if r <? 0 then
          do* iunlockput dp in
          link_bad ip
        else
        do* iunlockput dp in
        do* iput ip in
        do* commit_trans in
        ret 0
    end))).

Fixpoint isdirempty_loop (fu : nat) (dp : nat) (off : Z) : KM bool :=
  match fu with
  | O => λ _, NoFuel
  | S fu =>
      let* x := get_inode dp in
      if off <? i_size x then
        let* r := readi dp off dirent_size in
        if negb (r.1 =? dirent_size) then panic "isdirempty: readi" else
        if negb (de_inum r.2 =? 0) then ret false else
        isdirempty_loop fu dp (off + dirent_size)
      else ret true
  end.
Definition isdirempty (dp : nat) : KM bool :=
  let* x := get_inode dp in
  isdirempty_loop (dir_fuel (i_size x)) dp (2 * dirent_size).

(** The label [bad] of [sys_unlink]. *)
Definition unlink_bad (dp : nat) : KM Z :=
  do* iunlockput dp in
  do* commit_trans in
  ret (-1).

Definition is_dots (name : list Z) : KM bool :=
  let* a := deref "namecmp" (namecmp name (cstring ".")) in
  if a =? 0 then ret true else
  let* b := deref "namecmp" (namecmp name (cstring "..")) in
  ret (b =? 0).

Definition sys_unlink : KM Z :=
  arg (argstr 0) (λ path,
  arg (nameiparent path name_buf) (λ '(dp, name),
    do* begin_trans in
    do* ilock (Some dp) in
    let* dots := is_dots name in
    if dots then unlink_bad dp else
    let* found := dirlookup dp name in
    match found with
    | None => unlink_bad dp
    | Some (ip, off) =>
        do* ilock (Some ip) in
        let* x := get_inode ip in
        if i_nlink x <? 1 then panic "unlink: nlink < 1" else
        let* busy := (if i_type x =? T_DIR then let* e := isdirempty ip in ret (negb e) else ret false) in
        if busy then do* iunlockput ip in unlink_bad dp else
        let* r := writei dp (replicate (Z.to_nat dirent_size) 0) off dirent_size in
        if negb (r =? dirent_size) then panic "unlink: writei" else
        let* x := get_inode ip in
        do* (if i_type x =? T_DIR then
               do* upd_inode dp (set i_nlink (λ n, s16 (n - 1))) in
               iupdate dp
             else ret tt) in
        do* iunlockput dp in
        do* upd_inode ip (set i_nlink (λ n, s16 (n - 1))) in
        do* iupdate ip in
        do* iunlockput ip in
        do* commit_trans in
        ret 0
    end)).

(** ** Creating *)

(** The inode, locked, or [None] for the null pointer. *)
Definition create (path : list Z) (type major minor : Z) : KM (option nat) :=
  let* od := nameiparent path name_buf in
  match od with
  | None => ret None
  | Some (dp, name) =>
      do* ilock (Some dp) in
      let* found := dirlookup dp name in
      match found with
      | Some (ip, _) =>
          do* iunlockput dp in
          do* ilock (Some ip) in
          let* x := get_inode ip in
          if (type =? T_FILE) && (i_type x =? T_FILE) then ret (Some ip) else
          do* iunlockput ip in
          ret None
      | None =>
          let* d := get_inode dp in
          let* ip := ialloc (i_dev d) type in
          do* ilock (Some ip) in
          do* upd_inode ip (λ x, x <| i_major := major |> <| i_minor := minor |> <| i_nlink := 1 |>) in
          do* iupdate ip in
          let* x := get_inode ip in
          do* (if type =? T_DIR then
                 do* upd_inode dp (set i_nlink (λ n, s16 (n + 1))) in
                 do* iupdate dp in
                 let* r1 := dirlink ip (cstring ".") (i_inum x) in
                 if r1 <? 0 then panic "create dots" else
                 let* r2 := dirlink ip (cstring "..") (i_inum d) in
                 if r2 <? 0 then panic "create dots" else ret tt
               else ret tt) in
          let* r := dirlink dp name (i_inum x) in
          if r <? 0 then panic "create: dirlink" else
          do* iunlockput dp in
          ret (Some ip)
      end
  end.

(** The inode [sys_open] opens, locked. *)
Definition open_inode (path : list Z) (omode : Z) : KM (option nat) :=
  if has omode O_CREATE then
    do* begin_trans in
    let* ip := create path T_FILE 0 0 in
    do* commit_trans in
    ret ip
  else
    let* oip := namei path in
    match oip with
    | None => ret None
    | Some ip =>
        do* ilock (Some ip) in
        let* x := get_inode ip in
        if (i_type x =? T_DIR) && negb (omode =? O_RDONLY) then
          do* iunlockput ip in
          ret None
        else ret (Some ip)
    end.

Definition b2z (b : bool) : Z := if b then 1 else 0.

Definition sys_open : KM Z :=
  arg (argstr 0) (λ path,
  arg (argint 1) (λ omode,
  arg (open_inode path omode) (λ ip,
    let* o := filealloc in
    match o with
    | None =>
        do* iunlockput ip in
        ret (-1)
    | Some f =>
        let* fd := fdalloc f in
        if fd <? 0 then
          do* fileclose f in
          do* iunlockput ip in
          ret (-1)
        else
        do* iunlock (Some ip) in
        do* upd_file f (λ x, x <| f_type := FD_INODE |> <| f_ip := Some ip |> <| f_off := 0 |>
              <| f_readable := b2z (negb (has omode O_WRONLY)) |>
              <| f_writable := b2z (has omode O_WRONLY || has omode O_RDWR) |>) in
        ret fd
    end))).

Definition sys_mkdir : KM Z :=
  do* begin_trans in
  let* o := argstr 0 in
  let* oip := (match o with Some path => create path T_DIR 0 0 | None => ret None end) in
  match oip with
  | None => do* commit_trans in ret (-1)
  | Some ip =>
      do* iunlockput ip in
      do* commit_trans in
      ret 0
  end.

(** The arguments of [sys_mknod], fetched in order. *)
Definition mknod_inode : KM (option nat) :=
  let* o := argstr 0 in
  match o with
  | None => ret None
  | Some path =>
      let* o1 := argint 1 in
      match o1 with
      | None => ret None
      | Some major =>
          let* o2 := argint 2 in
          match o2 with
          | None => ret None
          | Some minor => create path T_DEV (s16 major) (s16 minor)
          end
      end
  end.
Definition sys_mknod : KM Z :=
  do* begin_trans in
  let* oip := mknod_inode in
  match oip with
  | None => do* commit_trans in ret (-1)
  | Some ip =>
      do* iunlockput ip in
      do* commit_trans in
      ret 0
  end.

Definition sys_chdir : KM Z :=
  arg (argstr 0) (λ path,
  arg (namei path) (λ ip,
    do* ilock (Some ip) in
    let* x := get_inode ip in
    if negb (i_type x =? T_DIR) then
      do* iunlockput ip in
      ret (-1)
    else
    do* iunlock (Some ip) in
    let* p := curproc in
    let* pr := get_proc p in
    let* cwd := deref "proc->cwd" (p_cwd pr) in
    do* iput cwd in
    do* upd_proc p (set p_cwd (λ _, Some ip)) in
    ret 0)).

(** The loop of [sys_exec] with room for [n] more strings. *)
Fixpoint exec_argv (n : nat) (uargv : Z) : KM (option (list (list Z))) :=
  match n with
  | O => ret None
  | S n =>
      let* o := fetchint uargv in
      match o with
      | None => ret None
      | Some uarg =>
          if uarg =? 0 then ret (Some []) else
          let* s := fetchstr (u32 uarg) in
          match s with
          | None => ret None
          | Some s =>
              let* rest := exec_argv n (u32 (uargv + 4)) in
              ret (cons s <$> rest)
          end
      end
  end.
Definition sys_exec : KM Z :=
  arg (argstr 0) (λ path,
  arg (argint 1) (λ uargv,
  arg (exec_argv (Z.to_nat MAXARG) (u32 uargv)) (λ argv,
    exec path argv))).

Definition sys_pipe : KM Z :=
  arg (argptr 0 8) (λ a,
  arg pipealloc (λ '(rf, wf),
    let* fd0 := fdalloc rf in
    let* fd1 := (if fd0 <? 0 then ret (-1) else fdalloc wf) in
    if fd1 <? 0 then
      do* (if 0 <=? fd0 then fdclear fd0 else ret tt) in
      do* fileclose rf in
      do* fileclose wf in
      ret (-1)
    else
    do* user_write a (le32 fd0) in
    do* user_write (a + 4) (le32 fd1) in
    ret 0)).

(** ** Dispatch *)

(** syscall.h and the table [syscalls]. *)
Definition syscalls (num : Z) : option (KM Z) :=
  match num with
  | 1 => Some sys_fork | 2 => Some sys_exit | 3 => Some sys_wait | 4 => Some sys_pipe
  | 5 => Some sys_read | 6 => Some sys_kill | 7 => Some sys_exec | 8 => Some sys_fstat
  | 9 => Some sys_chdir | 10 => Some sys_dup | 11 => Some sys_getpid | 12 => Some sys_sbrk
  | 13 => Some sys_sleep | 14 => Some sys_uptime | 15 => Some sys_procstat | 16 => Some sys_set_priority
  | 17 => Some sys_open | 18 => Some sys_write | 19 => Some sys_mknod | 20 => Some sys_unlink
  | 21 => Some sys_link | 22 => Some sys_mkdir | 23 => Some sys_close
  | _ => None
  end.

(** [proc->tf->eax = v]. *)
Definition set_eax (v : Z) : KM unit :=
  let* p := curproc in
  upd_proc p (set p_tframe (set tf_eax (λ _, u32 v))).

Definition syscall : KM unit :=
  let* p := curproc in
  let* pr := get_proc p in
  let num := s32 (tf_eax (p_tframe pr)) in
  match syscalls num with
  | Some f =>
      let* r := f in
      set_eax r
  | None =>
      do* cprintf "%d %s: unknown sys call %d
" [PInt (p_pid pr); PStr (Some (p_name pr)); PInt num] in
      set_eax (-1)
  end.
End sysfile.
