(* ===== verification/Trap.v ===== *)
(** Traps and interrupts (trap.c) and the IDE driver (ide.c). *)
From stdpp Require Import base numbers gmap strings option list.
From S2P Require Import Prelude State Spinlock Str Cprintf Kalloc Proc Mlf Sched Bio Blocks Log LogSpec Tx Crash Fs Pipe File Vm ProcLife Console Exec Syscall Sysfile.

(** ** The IDE driver *)

Definition upd_idequeue (f : list nat → list nat) : KM unit := modify (λ k, k <| k_idequeue ::= f |>).

(** [b->flags] while a request is queued: valid and not dirty means done. *)
Definition ide_done (x : buf) : bool := Z.land (b_flags x) (Z.lor B_VALID B_DIRTY) =? B_VALID.

Section ide.
Context `{kenv}.

(** Commands go to the drive of the low bit of [dev]; drive 1 is the disk of
    the file system.  A write reaches the disk when its data are sent. *)
Definition idestart (ob : option nat) : KM unit :=
  match ob with
  | None => panic "idestart"
  | Some b =>
      let* x := get_buf b in
      if has (b_flags x) B_DIRTY && has (b_dev x) 1
      then modify (disk_write (Z.land (b_sector x) 0xfffffff) (b_data x)) else ret tt
  end.

(** [insl]: the data of the sector the drive has read; [None] if [idewait]
    reports an error. *)
Definition ide_data (x : buf) (err : bool) : KM (option (list Z)) :=
  let* k := gets id in
  ret (if err then None
       else if has (b_dev x) 1 then k_disk k !! Z.to_nat (Z.land (b_sector x) 0xfffffff) else None).

(** [err] is the error status of the drive. *)
Definition ideintr (err : bool) : KM unit :=
  do* acquire LkIde in
  let* k := gets id in
  match k_idequeue k with
  | [] => release LkIde
  | b :: q =>
      do* upd_idequeue (λ _, q) in
      let* x := get_buf b in
      do* (if has (b_flags x) B_DIRTY then ret tt else
           let* od := ide_data x err in
           match od with
           | Some d => upd_buf b (set b_data (λ _, d))
           | None => ret tt
           end) in
      do* upd_buf b (set b_flags (λ f, Z.ldiff (Z.lor f B_VALID) B_DIRTY)) in
      do* wakeup (ChBuf b) in
      let* k := gets id in
      do* (match k_idequeue k with
           | [] => ret tt
           | b' :: _ => idestart (Some b')
           end) in
      release LkIde
  end.

Definition ide_iderw (b : nat) : KM unit :=
  let* x := get_buf b in
  if negb (has (b_flags x) B_BUSY) then panic "iderw: buf not busy" else
  if ide_done x then panic "iderw: nothing to do" else
  let* k := gets id in
  if negb (b_dev x =? 0) && negb (k_havedisk1 k) then panic "iderw: ide disk 1 not present" else
  do* acquire LkIde in
  do* upd_idequeue (λ q, q ++ [b]) in
  let* k := gets id in
  do* (if bool_decide (head (k_idequeue k) = Some b) then idestart (Some b) else ret tt) in
  do* while fuel (let* x := get_buf b in ret (negb (ide_done x))) (sleep (ChBuf b) (Some LkIde)) in
  release LkIde.

Definition ide : disk := {| iderw := ide_iderw |}.
End ide.

(** ** Traps *)

Definition T_SYSCALL : Z := 64.
Definition T_IRQ0 : Z := 32.
Definition IRQ_TIMER : Z := 0.
Definition IRQ_KBD : Z := 1.
Definition IRQ_COM1 : Z := 4.
Definition IRQ_IDE : Z := 14.
Definition IRQ_SPURIOUS : Z := 31.

Section trap.
Context `{kenv} `{disk} `{devsw}.

Definition tvinit : KM unit := initlock LkTicks.

(** The interrupt routines of the other devices, and [cr2], the address of
    the last page fault. *)
Context (ideintr kbdintr uartintr : KM unit) (cr2 : Z).

Definition exit_if_killed : KM unit :=
  let* killed := curkilled in if killed then exit else ret tt.

(** [proc && proc->killed && (tf->cs&3) == DPL_USER]. *)
Definition exit_if_killed_user (tf : trapframe) : KM unit :=
  let* op := myproc in
  match op with
  | None => ret tt
  | Some p =>
      let* pr := get_proc p in
      if negb (p_killed pr =? 0) && (Z.land (tf_cs tf) 3 =? DPL_USER) then exit else ret tt
  end.

Definition tick : KM unit :=
  do* acquire LkTicks in
  do* modify (λ k, k <| k_ticks ::= λ t, u32 (t + 1) |>) in
  do* wakeup ChTicks in
  release LkTicks.

(** The switch on the trap number. *)
Definition trap_switch (tf : trapframe) : KM unit :=
  let n := tf_trapno tf in
  let* k := gets id in
  if n =? T_IRQ0 + IRQ_TIMER then (if (k_cpu k =? 0)%nat then tick else ret tt)
  else if n =? T_IRQ0 + IRQ_IDE then ideintr
  else if n =? T_IRQ0 + IRQ_IDE + 1 then ret tt
  else if n =? T_IRQ0 + IRQ_KBD then kbdintr
  else if n =? T_IRQ0 + IRQ_COM1 then uartintr
  else if (n =? T_IRQ0 + 7) || (n =? T_IRQ0 + IRQ_SPURIOUS) then
    cprintf "cpu%d: spurious interrupt at %x:%x
" [PInt (k_cpu k); PInt (tf_cs tf); PInt (tf_eip tf)]
  else
    let* op := myproc in
    match op with
    | Some p =>
        if Z.land (tf_cs tf) 3 =? 0 then
          do* cprintf "unexpected trap %d from cpu %d eip %x (cr2=0x%x)
" [PInt n; PInt (k_cpu k); PInt (tf_eip tf); PInt cr2] in
          panic "trap"
        else
        let* pr := get_proc p in
        do* cprintf "pid %d %s: trap %d err %d on cpu %d eip 0x%x addr 0x%x--kill proc
" [PInt (p_pid pr); PStr (Some (p_name pr)); PInt n; PInt (tf_err tf); PInt (k_cpu k); PInt (tf_eip tf); PInt cr2] in
        upd_proc p (set p_killed (λ _, 1))
    | None =>
        do* cprintf "unexpected trap %d from cpu %d eip %x (cr2=0x%x)
" [PInt n; PInt (k_cpu k); PInt (tf_eip tf); PInt cr2] in
        panic "trap"
    end.

(** The clock tick charged to the running process. *)
Definition charge_tick (tf : trapframe) : KM unit :=
  let* op := myproc in
  match op with
  | None => ret tt
  | Some p =>
      let* pr := get_proc p in
      if bool_decide (p_state pr = RUNNING) && (tf_trapno tf =? T_IRQ0 + IRQ_TIMER) then
        do* upd_proc p (set p_quantum (λ q, s32 (q + 1))) in
        let* pr := get_proc p in
        if p_quantum pr =? MAX_QUANTUM then yield else ret tt
      else ret tt
  end.

(** The trap frame of a system call is the one [proc->tf] points to. *)
Definition trap (tf : trapframe) : KM unit :=
  if tf_trapno tf =? T_SYSCALL then
    do* exit_if_killed in
    let* p := curproc in
    do* upd_proc p (set p_tframe (λ _, tf)) in
    do* syscall in
    exit_if_killed
  else
  do* trap_switch tf in
  do* exit_if_killed_user tf in
  do* charge_tick tf in
  exit_if_killed_user tf.
End trap.
