(* ===== verification/IdePort.v ===== *)
(** The IDE driver (ide.c) at the level of the ports, and that it implements the
    disk of [Trap], where a request moves a sector at once. *)
From stdpp Require Import base numbers gmap strings option list.
From S2P Require Import Prelude State Spinlock Str Ports Cprintf Kalloc Proc Mlf Sched Bio Blocks Log LogSpec Tx Crash Fs Pipe File Vm ProcLife Console Exec Syscall Sysfile Trap.

(** ** The code *)

Definition IDE_CMD_READ : Z := 0x20.
Definition IDE_CMD_WRITE : Z := 0x30.

Section code.
Context {D G : Type} `{ports D} (patience : nat).

Definition idewait (checkerr : bool) : M (mach D G) Z :=
  let* r := poll patience in
  ret (if checkerr && negb (Z.land r 0x21 =? 0) then -1 else 0).

(** [for(i=0; i<1000; i++) if(inb(0x1f7) != 0){ havedisk1 = 1; break; }] *)
Fixpoint ide_probe (n : nat) : M (mach D G) bool :=
  match n with
  | O => ret false
  | S n => let* st := inb 0x1f7 in if negb (st =? 0) then ret true else ide_probe n
  end.

(** [ideinit] after the lock and the interrupt controllers: is there a disk 1? *)
Definition ideinit_drives : M (mach D G) bool :=
  let* _ := idewait false in
  do* outb 0x1f6 (Z.lor 0xe0 (Z.shiftl 1 4)) in
  let* d := ide_probe 1000 in
  do* outb 0x1f6 (Z.lor 0xe0 (Z.shiftl 0 4)) in
  ret d.

(** [idestart(b)], [b != 0]. *)
Definition idestart_io (x : buf) : M (mach D G) unit :=
  let* _ := idewait false in
  do* outb 0x3f6 0 in
  do* outb 0x1f2 1 in
  do* outb 0x1f3 (Z.land (b_sector x) 0xff) in
  do* outb 0x1f4 (Z.land (Z.shiftr (b_sector x) 8) 0xff) in
  do* outb 0x1f5 (Z.land (Z.shiftr (b_sector x) 16) 0xff) in
  do* outb 0x1f6 (Z.lor (Z.lor 0xe0 (Z.shiftl (Z.land (b_dev x) 1) 4)) (Z.land (Z.shiftr (b_sector x) 24) 0x0f)) in
  if has (b_flags x) B_DIRTY then
    do* outb 0x1f7 IDE_CMD_WRITE in
    outsl 0x1f0 (words (b_data x))
  else outb 0x1f7 IDE_CMD_READ.

(** [if(idewait(1) >= 0) insl(0x1f0, b->data, 512/4)]: the new data, if any. *)
Definition ide_fetch : M (mach D G) (option (list Z)) :=
  let* r := idewait true in
  if 0 <=? r then
    let* ws := insl_data 0x1f0 128 in
    ret (Some (concat (word_bytes <$> ws)))
  else ret None.
End code.

(** ** Words and bytes *)

Lemma words_bytes (n : nat) bs :
  length bs = (4 * n)%nat → Forall is_byte bs →
  concat (word_bytes <$> words bs) = bs ∧ length (words bs) = n ∧ Forall (λ w, 0 ≤ w < 2 ^ 32) (words bs).
Proof.
  revert bs. induction n as [|n IH]; intros bs Hl Hb.
  - by destruct bs.
  - destruct bs as [|a [|b [|c [|d bs]]]]; cbn [length] in Hl; try lia.
    rewrite !Forall_cons in Hb. destruct Hb as (Ha & Hb & Hc & Hd & Hbs).
    destruct (IH bs ltac:(lia) Hbs) as (E & El & Hr). cbn [words fmap list_fmap concat length]. rewrite El.
    unfold is_byte in *. split_and!; [|done|constructor; [lia|done]].
    rewrite E. unfold word_bytes, u8. rewrite !Z.shiftr_div_pow2 by lia. cbn [app].
    repeat f_equal; lia.
Qed.

(** The low 28 bits of a sector number are what reaches the drive. *)
Lemma sector_regs o :
  0 ≤ o → let l := Z.land o 0xfffffff in 0 ≤ l < 2 ^ 28 ∧
  u8 (Z.land o 0xff) = u8 l ∧ u8 (Z.land (Z.shiftr o 8) 0xff) = u8 (Z.shiftr l 8) ∧
  u8 (Z.land (Z.shiftr o 16) 0xff) = u8 (Z.shiftr l 16) ∧ Z.land (Z.shiftr o 24) 0x0f = Z.shiftr l 24.
Proof.
  intros Ho l. unfold l. assert (∀ x, u8 x = Z.land x 0xff) as Hu8.
  { intros x. change 0xff with (Z.ones 8). by rewrite Z.land_ones by lia. }
  split_and!; rewrite ?Hu8, ?Z.shiftr_land; rewrite <- ?Z.land_assoc; try done.
  - apply Z.land_nonneg. by left.
  - change 0xfffffff with (Z.ones 28). rewrite Z.land_ones by lia. lia.
Qed.

Lemma land_1_cases x : Z.land x 1 = 0 ∨ Z.land x 1 = 1.
Proof. change (Z.land x 1) with (Z.land x (Z.ones 1)). rewrite Z.land_ones by lia. lia. Qed.

(** ** The refinement *)

(** Drive 1 holds the sectors of the kernel's disk, all of them readable. *)
Definition disk_rel (k : kstate) (t : ata_t) : Prop := at_disks t !! 1%nat = Some (Some <$> k_disk k).

Section refinement.
Context `{kenv} {D G : Type} `{ata D bound} (patience : nat) (Hpat : (bound < patience)%nat).
Abbreviation view s := (at_view (m_dev s)).
Implicit Types s t : mach D G.

Lemma idewait_ready chk s :
  (at_busy (view s) ≤ bound)%nat →
  returns (idewait patience chk) s (λ r t, m_mem t = m_mem s ∧ view t = (view s) <| at_busy := O |> ∧
    r = if chk && at_err (view s) then -1 else 0).
Proof using Hpat.
  intros Hb. unfold idewait. apply returns_bind. eapply returns_mono; [apply poll_ready; lia|].
  cbv beta. intros r t (Hm & Hv & Hst). apply returns_ret. split_and!; [done|done|].
  unfold status_ok in Hst. rewrite Hv in Hst. cbn in Hst. destruct Hst as [_ He].
  destruct chk; cbn [andb]; [|done]. destruct (Z.eqb_spec (Z.land r 0x21) 0) as [E|E], (at_err (view s)) eqn:Ee; try done.
  - by apply He in E.
  - destruct E. by apply He.
Qed.

(** The registers for the sector of a buffer. *)
Lemma idestart_addressed x s (k : M (mach D G) unit) Q :
  0 ≤ b_sector x → (at_busy (view s) ≤ bound)%nat →
  (∀ t, m_mem t = m_mem s → view t = addressed (Z.land (b_dev x) 1) (Z.land (b_sector x) 0xfffffff) ((view s) <| at_busy := O |>) →
    returns k t Q) →
  returns (let* _ := idewait patience false in
    do* outb 0x3f6 0 in
    do* outb 0x1f2 1 in
    do* outb 0x1f3 (Z.land (b_sector x) 0xff) in
    do* outb 0x1f4 (Z.land (Z.shiftr (b_sector x) 8) 0xff) in
    do* outb 0x1f5 (Z.land (Z.shiftr (b_sector x) 16) 0xff) in
    do* outb 0x1f6 (Z.lor (Z.lor 0xe0 (Z.shiftl (Z.land (b_dev x) 1) 4)) (Z.land (Z.shiftr (b_sector x) 24) 0x0f)) in k) s Q.
Proof using Hpat.
  intros Hsec Hb Hk. destruct (sector_regs _ Hsec) as (Hl & E0 & E1 & E2 & E3). cbv zeta in *.
  apply returns_bind. eapply returns_mono; [by apply idewait_ready|]. cbv beta. intros _ t1 (M1 & V1 & _).
  apply returns_bind. apply returns_modify. unfold with_dev.
  pose proof (ata_control (m_dev t1) (u8 0)) as Vc.
  apply (address_drive (Z.land (b_dev x) 1) (Z.land (b_sector x) 0xfffffff)); try done.
  - destruct (land_1_cases (b_dev x)); lia.
  - cbn. by rewrite Vc, V1.
  - by rewrite E3.
  - cbn. intros t2 M2 V2. apply Hk; [congruence|]. by rewrite V2, Vc, V1.
Qed.

(** A write: the drive's sector is the buffer's data. *)
Lemma idestart_write k x s :
  length (b_data x) = 512%nat → Forall is_byte (b_data x) → 0 ≤ b_sector x → Z.land (b_dev x) 1 = 1 →
  has (b_flags x) B_DIRTY = true → disk_rel k (view s) → (at_busy (view s) ≤ bound)%nat →
  returns (idestart_io patience x) s (λ _ t,
    disk_rel (disk_write (Z.land (b_sector x) 0xfffffff) (b_data x) k) (view t) ∧ (at_busy (view t) ≤ bound)%nat).
Proof using Hpat.
  intros Hl Hby Hsec Hdev Hd Hrel Hb. unfold idestart_io. rewrite Hd. apply idestart_addressed; [done|done|].
  intros t M1 V1. rewrite Hdev in V1. destruct (sector_regs _ Hsec) as (Ho & _). cbv zeta in Ho.
  destruct (addressed_fields 1 (Z.land (b_sector x) 0xfffffff) ((view s) <| at_busy := O |>)) as (Ed & El & Eh & Ec); [lia|done|].
  destruct (words_bytes 128 _ Hl Hby) as (Ew & Enw & Hw). rewrite <- V1 in *.
  apply returns_bind. unfold outb. change (u8 IDE_CMD_WRITE) with 0x30. apply returns_modify.
  assert (at_view (out8 0x1f7 0x30 (m_dev t)) = at_write (view t)) as Vw by (apply ata_write; [by rewrite V1|done|done]).
  eapply returns_mono; [apply (outsl_words (words (b_data x)) []); cbn; rewrite ?Vw; try done|].
  { cbn. by rewrite V1. }
  { intros E. by rewrite E in Enw. }
  cbv beta. cbn. intros _ u (_ & b' & Hb' & Vu). rewrite Vu, Vw. split; [|done].
  unfold disk_rel. cbn. change (at_lba (at_write (view t))) with (at_lba (view t)). change (at_drive (at_write (view t))) with (at_drive (view t)).
  rewrite El, Ed, V1, Ew. cbn. change (Z.to_nat 1) with 1%nat. rewrite (alter_lookup_eq _ _ _ _ Hrel). by rewrite list_fmap_insert.
Qed.

(** A read: the drive has the sector's words. *)
Lemma idestart_read k x s d :
  0 ≤ b_sector x → Z.land (b_dev x) 1 = 1 → has (b_flags x) B_DIRTY = false → disk_rel k (view s) →
  (at_busy (view s) ≤ bound)%nat → k_disk k !! Z.to_nat (Z.land (b_sector x) 0xfffffff) = Some d →
  returns (idestart_io patience x) s (λ _ t, disk_rel k (view t) ∧ (at_busy (view t) ≤ bound)%nat ∧
    at_in (view t) = words d ∧ at_err (view t) = false).
Proof using Hpat.
  intros Hsec Hdev Hd Hrel Hb Hsd. unfold idestart_io. rewrite Hd. apply idestart_addressed; [done|done|].
  intros t M1 V1. rewrite Hdev in V1. destruct (sector_regs _ Hsec) as (Ho & _). cbv zeta in Ho.
  destruct (addressed_fields 1 (Z.land (b_sector x) 0xfffffff) ((view s) <| at_busy := O |>)) as (Ed & El & Eh & Ec); [lia|done|].
  rewrite <- V1 in *. unfold outb. change (u8 IDE_CMD_READ) with 0x20. apply returns_modify.
  destruct (ata_read (m_dev t)) as (b & Hbb & Vr); [by rewrite V1|done|done|].
  assert (at_sector (view t) = Some (Some d)) as Es.
  { unfold at_sector. rewrite Ed, El, V1. cbn. change (Z.to_nat 1) with 1%nat. rewrite Hrel. cbn. by rewrite list_lookup_fmap, Hsd. }
  unfold at_read in Vr. rewrite Es in Vr. cbn. rewrite Vr. cbn. split_and!; try done. unfold disk_rel. cbn. by rewrite V1.
Qed.

(** The data the interrupt handler takes from the drive. *)
Lemma ide_fetch_data k s d :
  disk_rel k (view s) → (at_busy (view s) ≤ bound)%nat → at_in (view s) = words d → at_err (view s) = false →
  length d = 512%nat → Forall is_byte d →
  returns (ide_fetch patience) s (λ od t, od = Some d ∧ disk_rel k (view t) ∧ at_busy (view t) = O).
Proof using Hpat.
  intros Hrel Hb Hin He Hl Hby. unfold ide_fetch. apply returns_bind. eapply returns_mono; [by apply idewait_ready|].
  cbv beta. intros r t (_ & Vt & ->). rewrite He. cbn [andb]. change (0 <=? 0) with true.
  destruct (words_bytes 128 d Hl Hby) as (Ew & Enw & _). rewrite <- Enw.
  apply returns_bind. eapply returns_mono; [apply insl_data_words; by rewrite Vt|].
  cbv beta. intros ws u (-> & _ & Vu). apply returns_ret. rewrite Ew, Vu, Vt. split_and!; done.
Qed.
End refinement.


(** ** Witness *)

Module ide_demo.
#[local] Existing Instance kenv_example.
#[local] Existing Instance drive.
#[local] Existing Instance drive_ata.

(** Two sectors; buffer 0 asks for the second of them. *)
Definition disk1 : list (list Z) := [replicate 512 3; replicate 512 4].
Definition x : buf := mkBuf B_BUSY 1 1 (replicate 512 0).
Definition k : kstate := kstate_zero <| k_disk := disk1 |> <| k_bcache ::= set bc_buf (λ _, [x]) |>.
Definition start : mach ata_t () := mkMach ∅ (mkAta [[]; Some <$> disk1] 0 0 0 0 0 [] None 1 false) tt.

End ide_demo.
