(* ===== verification/Irq.v ===== *)
(** Interrupt controllers and timers: picirq.c, ioapic.c, lapic.c, timer.c, the start
    of uart.c, and the device part of [ideinit].  Messages on the console are left
    out. *)
From stdpp Require Import base numbers gmap strings option list.
From S2P Require Import Prelude State Spinlock Str Ports Screen Cprintf Kalloc Proc Mlf Sched Bio Blocks Log LogSpec Tx Crash Fs Pipe File Vm ProcLife Console Exec Syscall Sysfile Trap IdePort.

(** ** Variables *)

(** [irqmask] of picirq.c, [ismp], [ncpu] and [lapic] (set by [mpinit]), [uart],
    [havedisk1]. *)
Record irqvars := mkIrqvars {
  v_irqmask : Z;
  v_ismp : bool;
  v_ncpu : Z;
  v_lapic : Z;
  v_uart : bool;
  v_havedisk1 : bool;
}.
#[export] Instance eta_irqvars : Settable irqvars :=
  λ v, mkIrqvars (v_irqmask v) (v_ismp v) (v_ncpu v) (v_lapic v) (v_uart v) (v_havedisk1 v).

Definition IO_PIC1 : Z := 0x20.
Definition IO_PIC2 : Z := 0xA0.
Definition IRQ_SLAVE : Z := 2.
Definition IRQ_ERROR : Z := 19.

(** [0xFFFF & ~(1<<IRQ_SLAVE)] *)
Definition irqmask_init : Z := Z.land 0xFFFF (Z.lnot (Z.shiftl 1 IRQ_SLAVE)).

Section code.
Context {D : Type} `{ports D}.
Abbreviation IM := (M (mach D irqvars)).

Definition get_var {A} (f : irqvars → A) : IM A := gets (λ s, f (m_glob s)).
Definition upd_var (f : irqvars → irqvars) : IM unit := modify (with_glob f).

(** ** picirq.c *)

Definition picsetmask (mask : Z) : IM unit :=
  do* upd_var (set v_irqmask (λ _, mask)) in
  do* outb (IO_PIC1 + 1) mask in
  outb (IO_PIC2 + 1) (Z.shiftr mask 8).

Definition picenable (irq : Z) : IM unit :=
  let* m := get_var v_irqmask in
  picsetmask (u16 (Z.land m (Z.lnot (Z.shiftl 1 irq)))).

Definition picinit : IM unit :=
  do* outb (IO_PIC1 + 1) 0xFF in
  do* outb (IO_PIC2 + 1) 0xFF in
  do* outb IO_PIC1 0x11 in
  do* outb (IO_PIC1 + 1) T_IRQ0 in
  do* outb (IO_PIC1 + 1) (Z.shiftl 1 IRQ_SLAVE) in
  do* outb (IO_PIC1 + 1) 0x3 in
  do* outb IO_PIC2 0x11 in
  do* outb (IO_PIC2 + 1) (T_IRQ0 + 8) in
  do* outb (IO_PIC2 + 1) IRQ_SLAVE in
  do* outb (IO_PIC2 + 1) 0x3 in
  do* outb IO_PIC1 0x68 in
  do* outb IO_PIC1 0x0a in
  do* outb IO_PIC2 0x68 in
  do* outb IO_PIC2 0x0a in
  let* m := get_var v_irqmask in
  if negb (m =? 0xFFFF) then picsetmask m else ret tt.

(** ** ioapic.c *)

Definition IOAPIC : Z := 0xFEC00000.
Definition REG_ID : Z := 0x00.
Definition REG_VER : Z := 0x01.
Definition REG_TABLE : Z := 0x10.
Definition INT_DISABLED : Z := 0x10000.

(** [ioapic->reg] and [ioapic->data]. *)
Definition ioapicread (reg : Z) : IM Z :=
  do* modify (with_dev (io_store IOAPIC reg)) in
  device (io_load (IOAPIC + 16)).
Definition ioapicwrite (reg data : Z) : IM unit :=
  do* modify (with_dev (io_store IOAPIC reg)) in
  modify (with_dev (io_store (IOAPIC + 16) data)).

Definition ioapicinit : IM unit :=
  let* ismp := get_var v_ismp in
  if negb ismp then ret tt else
  let* ver := ioapicread REG_VER in
  let maxintr := Z.land (Z.shiftr ver 16) 0xFF in
  let* id := ioapicread REG_ID in
  for_each (seqZ 0 (maxintr + 1)) (λ i,
    do* ioapicwrite (REG_TABLE + 2 * i) (Z.lor INT_DISABLED (T_IRQ0 + i)) in
    ioapicwrite (REG_TABLE + 2 * i + 1) 0).

Definition ioapicenable (irq cpunum : Z) : IM unit :=
  let* ismp := get_var v_ismp in
  if negb ismp then ret tt else
  do* ioapicwrite (REG_TABLE + 2 * irq) (T_IRQ0 + irq) in
  ioapicwrite (REG_TABLE + 2 * irq + 1) (u32 (Z.shiftl cpunum 24)).

(** ** lapic.c *)

(** Registers by their index in [lapic], an array of words. *)
Definition LID : Z := 0x20 / 4.
Definition VER : Z := 0x30 / 4.
Definition TPR : Z := 0x80 / 4.
Definition EOI : Z := 0xB0 / 4.
Definition SVR : Z := 0xF0 / 4.
Definition ESR : Z := 0x280 / 4.
Definition ICRLO : Z := 0x300 / 4.
Definition ICRHI : Z := 0x310 / 4.
Definition TIMER : Z := 0x320 / 4.
Definition PCINT : Z := 0x340 / 4.
Definition LINT0 : Z := 0x350 / 4.
Definition LINT1 : Z := 0x360 / 4.
Definition ERROR : Z := 0x370 / 4.
Definition TICR : Z := 0x380 / 4.
Definition TDCR : Z := 0x3E0 / 4.
Definition ENABLE : Z := 0x100.
Definition INIT : Z := 0x500.
Definition STARTUP : Z := 0x600.
Definition DELIVS : Z := 0x1000.
Definition ASSERT : Z := 0x4000.
Definition LEVEL : Z := 0x8000.
Definition BCAST : Z := 0x80000.
Definition X1 : Z := 0xB.
Definition PERIODIC : Z := 0x20000.
Definition MASKED : Z := 0x10000.

Definition lapic_load (index : Z) : IM Z :=
  let* l := get_var v_lapic in device (io_load (l + 4 * index)).
Definition lapicw (index value : Z) : IM unit :=
  let* l := get_var v_lapic in
  do* modify (with_dev (io_store (l + 4 * index) value)) in
  let* _ := lapic_load LID in
  ret tt.

(** [patience] bounds the wait for the delivery of the message. *)
Definition lapicinit (patience : nat) : IM unit :=
  let* l := get_var v_lapic in
  if l =? 0 then ret tt else
  do* lapicw SVR (Z.lor ENABLE (T_IRQ0 + IRQ_SPURIOUS)) in
  do* lapicw TDCR X1 in
  do* lapicw TIMER (Z.lor PERIODIC (T_IRQ0 + IRQ_TIMER)) in
  do* lapicw TICR 10000000 in
  do* lapicw LINT0 MASKED in
  do* lapicw LINT1 MASKED in
  let* ver := lapic_load VER in
  do* (if 4 <=? Z.land (Z.shiftr ver 16) 0xFF then lapicw PCINT MASKED else ret tt) in
  do* lapicw ERROR (T_IRQ0 + IRQ_ERROR) in
  do* lapicw ESR 0 in
  do* lapicw ESR 0 in
  do* lapicw EOI 0 in
  do* lapicw ICRHI 0 in
  do* lapicw ICRLO (Z.lor (Z.lor BCAST INIT) LEVEL) in
  do* while patience (let* v := lapic_load ICRLO in ret (negb (Z.land v DELIVS =? 0))) (ret tt) in
  lapicw TPR 0.

(** [cpunum] with interrupts disabled. *)
Definition cpunum : IM Z :=
  let* l := get_var v_lapic in
  if negb (l =? 0) then let* v := lapic_load LID in ret (Z.shiftr v 24) else ret 0.

Definition lapiceoi : IM unit :=
  let* l := get_var v_lapic in
  if negb (l =? 0) then lapicw EOI 0 else ret tt.

Definition microdelay (us : Z) : IM unit := ret tt.

Definition IO_RTC : Z := 0x70.

(** The warm reset vector is at 40:67. *)
Definition lapicstartap (apicid addr : Z) : IM unit :=
  do* outb IO_RTC 0xF in
  do* outb (IO_RTC + 1) 0x0A in
  let wrv := p2v (Z.lor (Z.shiftl 0x40 4) 0x67) in
  do* modify (with_mem (λ m, st16 m wrv 0)) in
  do* modify (with_mem (λ m, st16 m (wrv + 2) (Z.shiftr addr 4))) in
  do* lapicw ICRHI (Z.shiftl apicid 24) in
  do* lapicw ICRLO (Z.lor (Z.lor INIT LEVEL) ASSERT) in
  do* microdelay 200 in
  do* lapicw ICRLO (Z.lor INIT LEVEL) in
  do* microdelay 100 in
  for_each (seq 0 2) (λ _,
    do* lapicw ICRHI (Z.shiftl apicid 24) in
    do* lapicw ICRLO (Z.lor STARTUP (Z.shiftr addr 12)) in
    microdelay 200).

(** ** timer.c *)

Definition IO_TIMER1 : Z := 0x40.
Definition TIMER_MODE : Z := IO_TIMER1 + 3.
Definition TIMER_FREQ : Z := 1193182.
Definition TIMER_DIV (x : Z) : Z := (TIMER_FREQ + x / 2) / x.

Definition timerinit : IM unit :=
  do* outb TIMER_MODE (Z.lor (Z.lor 0 0x04) 0x30) in
  do* outb IO_TIMER1 (TIMER_DIV 100 mod 256) in
  do* outb IO_TIMER1 (TIMER_DIV 100 / 256) in
  picenable IRQ_TIMER.

(** ** [uartinit], and [ideinit] without its lock *)

Definition uartinit : IM unit :=
  do* outb (COM1 + 2) 0 in
  do* outb (COM1 + 3) 0x80 in
  do* outb (COM1 + 0) (115200 / 9600) in
  do* outb (COM1 + 1) 0 in
  do* outb (COM1 + 3) 0x03 in
  do* outb (COM1 + 4) 0 in
  do* outb (COM1 + 1) 0x01 in
  let* st := inb (COM1 + 5) in
  if st =? 0xFF then ret tt else
  do* upd_var (set v_uart (λ _, true)) in
  let* _ := inb (COM1 + 2) in
  let* _ := inb (COM1 + 0) in
  do* picenable IRQ_COM1 in
  do* ioapicenable IRQ_COM1 0 in
  for_each (bytes "xv6...
") uart_send.

Definition ideinit (patience : nat) : IM unit :=
  do* picenable IRQ_IDE in
  let* n := get_var v_ncpu in
  do* ioapicenable IRQ_IDE (n - 1) in
  let* d := ideinit_drives patience in
  if d then upd_var (set v_havedisk1 (λ _, true)) else ret tt.
End code.

(** ** The interrupt controllers *)

(** An 8259A: the mask, the first vector, the cascade register, and how many
    initialisation words are still to come. *)
Record pic_t := mkPic { pc_mask : Z; pc_base : Z; pc_link : Z; pc_icw : nat }.

(** A byte for the command port: the word 0x11 starts an initialisation with three
    more words and clears the mask; words with bit 4 clear do not change it. *)
Definition pic_command (v : Z) (c : pic_t) : pic_t :=
  if v =? 0x11 then mkPic 0 (pc_base c) (pc_link c) 3 else c.

(** A byte for the data port: the initialisation words in order, or the mask. *)
Definition pic_data (v : Z) (c : pic_t) : pic_t :=
  match pc_icw c with
  | 3%nat => mkPic (pc_mask c) v (pc_link c) 2
  | 2%nat => mkPic (pc_mask c) (pc_base c) v 1
  | 1%nat => mkPic (pc_mask c) (pc_base c) (pc_link c) 0
  | _ => mkPic v (pc_base c) (pc_link c) 0
  end.

Class pics (D : Type) `{ports D} := {
  pic_view : D → pic_t * pic_t;
  pic_cmd1 d v : v = 0x11 ∨ Z.testbit v 4 = false → pic_view (out8 IO_PIC1 v d) = (pic_command v (pic_view d).1, (pic_view d).2);
  pic_cmd2 d v : v = 0x11 ∨ Z.testbit v 4 = false → pic_view (out8 IO_PIC2 v d) = ((pic_view d).1, pic_command v (pic_view d).2);
  pic_data1 d v : 0 ≤ v < 256 → pic_view (out8 (IO_PIC1 + 1) v d) = (pic_data v (pic_view d).1, (pic_view d).2);
  pic_data2 d v : 0 ≤ v < 256 → pic_view (out8 (IO_PIC2 + 1) v d) = ((pic_view d).1, pic_data v (pic_view d).2);
}.

(** Is line [j] masked? *)
Definition masked (p : pic_t * pic_t) (j : Z) : bool :=
  if j <? 8 then Z.testbit (pc_mask p.1) j else Z.testbit (pc_mask p.2) (j - 8).

Section pic_proofs.
Context {D : Type} `{pics D}.
Implicit Types s t : mach D irqvars.

(** The controllers are initialised and have the mask of the kernel's variable. *)
Record pic_ok (s : mach D irqvars) : Prop := {
  po_range : 0 ≤ v_irqmask (m_glob s) < 2 ^ 16;
  po_view : pic_view (m_dev s) =
    (mkPic (v_irqmask (m_glob s) mod 256) T_IRQ0 4 0, mkPic (v_irqmask (m_glob s) / 256) (T_IRQ0 + 8) 2 0);
}.

Lemma picsetmask_ok s mask m1 m2 :
  0 ≤ mask < 2 ^ 16 → pic_view (m_dev s) = (mkPic m1 T_IRQ0 4 0, mkPic m2 (T_IRQ0 + 8) 2 0) →
  returns (picsetmask mask) s (λ _ t, v_irqmask (m_glob t) = mask ∧ pic_ok t).
Proof.
  intros Hm Hv. unfold picsetmask. apply returns_bind, returns_modify, returns_bind, returns_modify, returns_modify.
  split; [done|]. split; [done|]. cbn -[T_IRQ0 u8 IO_PIC1 IO_PIC2].
  rewrite pic_data2, pic_data1, Hv by apply u8_range. cbn -[T_IRQ0 u8]. do 2 f_equal; unfold u8.
  rewrite Z.shiftr_div_pow2 by lia. f_equal. lia.
Qed.

Lemma testbit_clear m irq j : 0 ≤ m < 2 ^ 16 → 0 ≤ irq → 0 ≤ j →
  let m' := u16 (Z.land m (Z.lnot (Z.shiftl 1 irq))) in
  0 ≤ m' < 2 ^ 16 ∧ Z.testbit m' j = Z.testbit m j && negb (j =? irq).
Proof.
  intros Hm Hi Hj m'. unfold m', u16. split; [lia|].
  rewrite <- (Z.mod_small m (2 ^ 16)) at 2 by done. destruct (decide (j < 16)).
  - rewrite !Z.mod_pow2_bits_low, Z.land_spec, Z.lnot_spec, Z.shiftl_1_l, Z.pow2_bits_eqb by lia. by rewrite (Z.eqb_sym irq j).
  - by rewrite !Z.mod_pow2_bits_high by lia.
Qed.

Lemma masked_bit s j : pic_ok s → 0 ≤ j < 16 → masked (pic_view (m_dev s)) j = Z.testbit (v_irqmask (m_glob s)) j.
Proof.
  intros [Hr Hv] Hj. unfold masked. rewrite Hv. cbn [fst snd pc_mask]. change 256 with (2 ^ 8).
  destruct (Z.ltb_spec j 8); [by rewrite Z.mod_pow2_bits_low by lia|].
  rewrite Z.div_pow2_bits by lia. f_equal. lia.
Qed.

Lemma picenable_ok s irq :
  pic_ok s → 0 ≤ irq → returns (picenable irq) s (λ _ t, pic_ok t ∧
    ∀ j, 0 ≤ j < 16 → masked (pic_view (m_dev t)) j = masked (pic_view (m_dev s)) j && negb (j =? irq)).
Proof.
  intros Hs Hi. pose proof Hs as [Hr Hv]. unfold picenable. apply returns_bind, returns_gets. cbn [id].
  pose proof (λ j Hj, testbit_clear (v_irqmask (m_glob s)) irq j Hr Hi Hj) as Hb. cbv zeta in Hb.
  destruct (Hb 0 ltac:(lia)) as [Hm _]. eapply returns_mono; [by eapply picsetmask_ok|].
  cbv beta. intros _ t [Em Ht]. split; [done|]. intros j Hj. rewrite !masked_bit, Em by done. apply Hb. lia.
Qed.

Lemma picinit_ok s :
  0 ≤ v_irqmask (m_glob s) < 0xFFFF →
  returns picinit s (λ _ t, v_irqmask (m_glob t) = v_irqmask (m_glob s) ∧ pic_ok t).
Proof.
  intros Hm. unfold picinit. do 14 (apply returns_bind, returns_modify).
  apply returns_bind, returns_gets. cbn [with_dev m_dev m_glob m_mem]. rewrite (proj2 (Z.eqb_neq _ 0xFFFF)) by lia. cbn [negb].
  eapply (picsetmask_ok _ _ 0 0); [lia|]. unfold with_dev. cbn [m_dev].
  repeat match goal with |- context [u8 ?x] => let y := eval vm_compute in (u8 x) in change (u8 x) with y end.
  rewrite !pic_cmd2, !pic_cmd1, !pic_data2, !pic_cmd2, !pic_data1, !pic_cmd1, !pic_data2, !pic_data1 by (lia || (by left) || (by right)).
  by destruct (pic_view (m_dev s)).
Qed.
End pic_proofs.

(** after [picinit] and any calls of [picenable] both controllers of the
    8259A pair are initialised, the lines of the first and the second have the
    vectors from [T_IRQ0] and [T_IRQ0 + 8] on, and the lines that are not masked
    are the cascade line and those that were enabled. *)
Theorem pic_correct {D} `{pics D} (s : mach D irqvars) irqs :
  v_irqmask (m_glob s) = irqmask_init → Forall (λ i, 0 ≤ i < 16) irqs →
  returns (do* picinit in for_each irqs picenable) s (λ _ t,
    pc_icw (pic_view (m_dev t)).1 = O ∧ pc_icw (pic_view (m_dev t)).2 = O ∧
    pc_base (pic_view (m_dev t)).1 = T_IRQ0 ∧ pc_base (pic_view (m_dev t)).2 = T_IRQ0 + 8 ∧
    ∀ j, 0 ≤ j < 16 → masked (pic_view (m_dev t)) j = negb (bool_decide (j = IRQ_SLAVE ∨ j ∈ irqs))).
Proof.
  intros Hm Hi. apply returns_bind. eapply returns_mono; [apply picinit_ok; rewrite Hm; vm_compute; split; [discriminate|reflexivity]|].
  cbv beta. intros _ t [Em Ht]. rewrite Hm in Em.
  eapply (returns_mono _ _ (λ _ u, pic_ok u ∧ ∀ j, 0 ≤ j < 16 → masked (pic_view (m_dev u)) j = negb (bool_decide (j = IRQ_SLAVE ∨ j ∈ irqs)))).
  - apply (returns_for_each irqs picenable (λ l u, pic_ok u ∧ ∀ j, 0 ≤ j < 16 →
      masked (pic_view (m_dev u)) j = negb (bool_decide (j = IRQ_SLAVE ∨ j ∈ l)))).
    + split; [done|]. intros j Hj. rewrite masked_bit, Em by done. clear -Hj.
      assert (j = 0 ∨ j = 1 ∨ j = 2 ∨ j = 3 ∨ j = 4 ∨ j = 5 ∨ j = 6 ∨ j = 7 ∨ j = 8 ∨ j = 9 ∨ j = 10 ∨
        j = 11 ∨ j = 12 ∨ j = 13 ∨ j = 14 ∨ j = 15) as Hin by lia. destruct_or! Hin; subst; reflexivity.
    + intros l i rest u -> [Hu Hmu]. apply Forall_app in Hi as [_ [Hi0 _]%Forall_cons].
      eapply returns_mono; [apply picenable_ok; [done|lia]|]. cbv beta. intros _ w [Hw Hmw]. split; [done|].
      intros j Hj. rewrite Hmw, Hmu by done. rewrite <- negb_orb. f_equal.
      apply eq_bool_prop_intro. rewrite orb_True, !bool_decide_spec, elem_of_app, list_elem_of_singleton.
      destruct (Z.eqb_spec j i); cbn; naive_solver.
  - cbv beta. intros _ u [[_ Hv] Hu]. rewrite Hv in *. by split_and!.
Qed.

(** ** Witness *)

Module irq_demo.
(** The pair of controllers alone. *)
Definition pair_out8 (p v : Z) (d : pic_t * pic_t) : pic_t * pic_t :=
  if p =? IO_PIC1 then (pic_command v d.1, d.2)
  else if p =? IO_PIC1 + 1 then (pic_data v d.1, d.2)
  else if p =? IO_PIC2 then (d.1, pic_command v d.2)
  else if p =? IO_PIC2 + 1 then (d.1, pic_data v d.2)
  else d.
#[local] Instance pair_ports : ports (pic_t * pic_t) := {|
  in8 := λ _ d, (0, d); in32 := λ _ d, (0, d); out8 := pair_out8; out32 := λ _ _ d, d;
  io_load := λ _ d, (0, d); io_store := λ _ _ d, d |}.
#[local] Instance pair_pics : pics (pic_t * pic_t) := {|
  pic_view := λ d, d; pic_cmd1 := λ d v _, eq_refl; pic_cmd2 := λ d v _, eq_refl;
  pic_data1 := λ d v _, eq_refl; pic_data2 := λ d v _, eq_refl |}.

Definition start : mach (pic_t * pic_t) irqvars :=
  mkMach ∅ (mkPic 0 0 0 0, mkPic 0 0 0 0) (mkIrqvars irqmask_init false 1 0 false false).

(** The keyboard and the disk. *)
Lemma pic_correct_witness :
  v_irqmask (m_glob start) = irqmask_init ∧
  returns (do* picinit in for_each [IRQ_KBD; IRQ_IDE] picenable) start (λ _ t,
    masked (pic_view (m_dev t)) IRQ_IDE = false ∧ masked (pic_view (m_dev t)) IRQ_COM1 = true).
Proof.
  split; [reflexivity|]. eapply returns_mono.
  - apply (pic_correct start [IRQ_KBD; IRQ_IDE]); [reflexivity|]. apply (bool_decide_unpack _). vm_compute. exact I.
  - intros _ t (_ & _ & _ & _ & Hm). rewrite !Hm by (unfold IRQ_IDE, IRQ_COM1; lia). split; vm_compute; reflexivity.
Defined.
End irq_demo.
