(* ===== verification/Preempt.v ===== *)
(** Preemption: the clock ticks charged to a process (trap.c) and the
    scheduler (proc.c) put together. *)
From stdpp Require Import base numbers gmap strings option list.
From S2P Require Import Prelude State Spinlock Str Cprintf Kalloc Proc Mlf Sched Bio Blocks Log LogSpec Tx Crash Fs Pipe File Vm ProcLife Console Exec Syscall Sysfile Trap.

(** ** Time slices *)

(** Clock interrupts, one after the other, as far as they concern the process
    that runs. *)
Definition clock `{kenv} (tf : trapframe) (n : nat) : KM unit :=
  for_each (replicate n tf) charge_tick.

Definition timer_frame (tf : trapframe) : Prop := tf_trapno tf = T_IRQ0 + IRQ_TIMER.

(** The process that runs has used [n] ticks. *)
Definition used (p : nat) (n : Z) (s : kstate) : kstate :=
  s <| k_ptable ::= set pt_proc (alter (set p_quantum (λ _, n)) p) |>.

Section preempt.
Context `{Hk : kenv}.
Implicit Types (s t : kstate) (p : nat) (tf : trapframe).

Lemma charge_tick_eq s c p pr tf :
  runs_on c s → cpu_proc c = Some p → pt_proc (k_ptable s) !! p = Some pr → p_state pr = RUNNING → timer_frame tf →
  charge_tick tf s = (if s32 (p_quantum pr + 1) =? MAX_QUANTUM then yield else ret tt) (used p (s32 (p_quantum pr + 1)) s).
Proof.
  intros Hc Hp Hpr Hst Htf. unfold charge_tick.
  assert (Em : myproc s = Ret (Some p) s).
  { unfold myproc, get_cpu. mred. unfold runs_on in Hc. rewrite Hc. by rewrite Hp. }
  step Em. cbv iota. step (get_proc_eq _ _ _ Hpr). rewrite Hst, Htf, Z.eqb_refl, bool_decide_true by done. cbn [andb].
  step (upd_proc_eq s p pr (set p_quantum (λ q, s32 (q + 1))) Hpr).
  set (s' := s <| k_ptable ::= _ |>).
  assert (E : s' = used p (s32 (p_quantum pr + 1)) s).
  { unfold s', used. destruct s as [cp cps lk [ps ? ? ? ?]]. cbn in *. do 2 f_equal.
    by rewrite !(alter_insert _ _ _ pr). }
  assert (Hpr' : pt_proc (k_ptable s') !! p = Some (pr <| p_quantum := s32 (p_quantum pr + 1) |>))
    by (cbn; by rewrite list_lookup_alter_eq, Hpr).
  step (get_proc_eq _ _ _ Hpr'). rewrite E. done.
Qed.

Lemma used_used p n m s : used p m (used p n s) = used p m s.
Proof. unfold used. destruct s as [cp cps lk [ps ? ? ? ?]]. cbn. do 2 f_equal. by rewrite alter_alter_same. Qed.

Lemma used_same p pr s : pt_proc (k_ptable s) !! p = Some pr → used p (p_quantum pr) s = s.
Proof.
  intros Hpr. unfold used. destruct s as [cp cps lk [ps ? ? ? ?]]. cbn in *. do 2 f_equal.
  rewrite (alter_insert _ _ _ pr) by done. apply list_insert_id. rewrite Hpr. by destruct pr.
Qed.

Lemma used_proc p n pr s :
  pt_proc (k_ptable s) !! p = Some pr → pt_proc (k_ptable (used p n s)) !! p = Some (pr <| p_quantum := n |>).
Proof. intros Hpr. cbn. by rewrite list_lookup_alter_eq, Hpr. Qed.

(** Ticks short of the limit are only counted. *)
Lemma clock_counts n s c p pr tf :
  runs_on c s → cpu_proc c = Some p → pt_proc (k_ptable s) !! p = Some pr → p_state pr = RUNNING → timer_frame tf →
  0 ≤ p_quantum pr → p_quantum pr + Z.of_nat n < MAX_QUANTUM →
  clock tf n s = Ret tt (used p (p_quantum pr + n) s).
Proof.
  intros Hc Hp. revert s pr Hc. induction n as [|n IH]; intros s pr Hc Hpr Hst Htf H0 Hlt.
  { rewrite Z.add_0_r, (used_same p pr) by done. done. }
  unfold clock, MAX_QUANTUM in *. cbn [replicate for_each].
  assert (Eq : s32 (p_quantum pr + 1) = p_quantum pr + 1) by (apply s32_small; lia).
  erewrite bind_ret; [|rewrite (charge_tick_eq s c p pr tf) by done; rewrite Eq, (proj2 (Z.eqb_neq _ _)) by (unfold MAX_QUANTUM; lia); done].
  cbv beta. set (s1 := used p (p_quantum pr + 1) s). assert (Hpr1 := used_proc p (p_quantum pr + 1) pr s Hpr).
  rewrite (IH s1 _ Hc Hpr1) by (try done; cbn; lia). cbn [p_quantum set]. unfold s1. rewrite used_used. do 2 f_equal. cbn. lia.
Qed.

(** The tick that reaches the limit preempts. *)
Lemma clock_preempts s c p pr tf qs :
  runs_on c s → ncli c = 0 → cpu_proc c = Some p → lock_free LkPtable s → mlf_rel (k_ptable s) qs →
  pt_proc (k_ptable s) !! p = Some pr → p_state pr = RUNNING → timer_frame tf → p_quantum pr = 0 →
  ∃ t k, clock tf (Z.to_nat MAX_QUANTUM) s = Wait Swtch t k ∧
    k_ptable t = pt_enq p (down pr) (k_ptable (used p MAX_QUANTUM s)) ∧
    mlf_rel (k_ptable t) (alter (λ l, l ++ [p]) (Z.to_nat (down pr)) qs) ∧
    lock_held LkPtable t ∧ cpu_runs p t.
Proof.
  intros Hc Hn Hp Hl Hrel Hpr Hst Htf Hq. unfold clock. change (Z.to_nat MAX_QUANTUM) with (3 + 1)%nat.
  rewrite replicate_add. assert (Hcount := clock_counts 3 s c p pr tf Hc Hp Hpr Hst Htf). rewrite Hq in Hcount.
  specialize (Hcount ltac:(lia) ltac:(done)). unfold clock in Hcount.
  assert (Happ : ∀ l m u (w : kstate), for_each l charge_tick u = Ret tt w →
    for_each (l ++ m) charge_tick u = for_each m charge_tick w).
  { clear. induction l as [|a l IH]; intros m u w; cbn [for_each app]; [by intros [= ->]|].
    unfold bind. destruct (charge_tick a u); try done. cbn. apply IH. }
  rewrite (Happ _ _ _ _ Hcount). cbn [replicate for_each]. change (0 + 3%nat) with 3.
  set (s3 := used p 3 s). assert (Hpr3 := used_proc p 3 pr s Hpr). fold s3 in Hpr3.
  destruct (yield_eq (used p MAX_QUANTUM s) c p (pr <| p_quantum := MAX_QUANTUM |>) qs)
    as (t & k & E & Hpt & Hq' & Hl' & Hr & _); try done.
  - by apply neutral_rel.
  - by apply used_proc.
  - exists t. eexists. split_and!; [|exact Hpt|exact Hq'|done|done].
    erewrite bind_wait; [reflexivity|]. rewrite (charge_tick_eq s3 c p _ tf Hc Hp Hpr3) by done.
    cbn [p_quantum set]. change (s32 (3 + 1)) with MAX_QUANTUM. cbn [Z.eqb MAX_QUANTUM Pos.eqb].
    unfold s3. rewrite used_used. exact E.
Qed.

(** ** A process that only computes *)

(** From the moment it is switched to until the scheduler runs again, [p]
    stays outside the kernel but for the clock interrupts. *)
Definition computes (p : nat) (s1 t : kstate) : Prop :=
  ∃ u c tf k, k_ptable u = k_ptable s1 ∧ runs_on c u ∧ ncli c = 0 ∧ cpu_proc c = Some p ∧ lock_free LkPtable u ∧
    timer_frame tf ∧ clock tf (Z.to_nat MAX_QUANTUM) u = Wait Swtch t k.

(** [n] turns of the scheduler at level [i], each of which dispatches [p]. *)
Inductive hogs (p i : nat) : nat → kstate → kstate → Prop :=
| hogs_0 s : hogs p i 0 s s
| hogs_S n s s1 k t s' u :
    scheduler_step i s = Wait Swtch s1 k → computes p s1 t → k t = Ret (Z.of_nat i) s' →
    hogs p i n s' u → hogs p i (S n) s u.

(** The scheduler in its loop over the levels. *)
Definition scheduling (s : kstate) (qs : queues) : Prop :=
  (∃ c, runs_on c s ∧ ncli c = 1 ∧ Z.land (eflags c) FL_IF = 0) ∧ lock_held LkPtable s ∧ mlf_rel (k_ptable s) qs.

Lemma requeue (qs : queues) i p : qs !! i = Some [p] → alter (λ l, l ++ [p]) i (<[i := []]> qs) = qs.
Proof.
  intros Hi. assert (Hlt := lookup_lt_Some _ _ _ Hi). apply list_eq. intros j.
  destruct (decide (j = i)) as [->|Hne].
  - by rewrite list_lookup_alter_eq, list_lookup_insert_eq.
  - by rewrite list_lookup_alter_ne, list_lookup_insert_ne.
Qed.

(** One such turn leaves the queues as they were. *)
Lemma hog_turn s qs p pr :
  scheduling s qs → qs !! 3%nat = Some [p] → pt_proc (k_ptable s) !! p = Some pr → p_pgdir pr ≠ 0 →
  ∃ s1 k t s' pr', scheduler_step 3%nat s = Wait Swtch s1 k ∧ computes p s1 t ∧ k t = Ret (Z.of_nat 3) s' ∧
    scheduling s' qs ∧ pt_proc (k_ptable s') !! p = Some pr' ∧ p_pgdir pr' ≠ 0.
Proof.
  intros ((c & Hc & Hn & He) & Hl & Hrel) Hq Hpr Hpg.
  destruct (scheduler_step_eq s c qs 3 p [] pr) as (s1 & k & E & Hr1 & Hl1 & Hpt1 & Hrel1 & Hk1); try done; [lia|].
  destruct (rel_head _ _ _ _ _ Hrel Hq) as (pr0 & _ & _ & _ & Hp0 & Hst0 & Hlv & _). assert (pr0 = pr) as -> by congruence.
  set (c1 := cpu_uvm pr (c <| cpu_proc := Some p |>)) in *. set (c0 := c1 <| ncli := 0 |>).
  set (u := set_cpu c0 (s1 <| k_locks ::= <[LkPtable := lk_free]> |>)).
  set (pr1 := pr <| p_state := RUNNING |> <| p_quantum := 0 |>).
  assert (Hp1 : pt_proc (k_ptable u) !! p = Some pr1).
  { cbn. rewrite Hpt1. cbn. by rewrite list_lookup_alter_eq, list_lookup_alter_eq, Hp0. }
  assert (Hru : runs_on c0 u) by (by eapply runs_on_set).
  assert (Hlu : lock_free LkPtable u) by (unfold lock_free; cbn; apply lookup_insert_eq).
  set (tf := tf_zero <| tf_trapno := T_IRQ0 + IRQ_TIMER |>).
  destruct (clock_preempts u c0 p pr1 tf (<[3%nat := []]> qs)) as (t & k' & Ec & Hpt & Hrel' & Hl' & (ct & Hct & Hnt & Het & Hpt')); try done.
  assert (Hdown : down pr1 = 3) by (unfold down; cbn; rewrite Hlv; done).
  rewrite Hdown in Hpt, Hrel'. change (Z.to_nat 3) with 3%nat in Hrel'. rewrite requeue in Hrel' by done.
  set (s' := set_cpu (ct <| cr3 := v2p (k_kpgdir t) |> <| cpu_proc := None |>) t).
  destruct (enq_lookup_fwd (k_ptable (used p MAX_QUANTUM u)) p 3 p _ (used_proc p MAX_QUANTUM _ _ Hp1)) as (pr' & Hpr' & Heq).
  exists s1, k, t, s', pr'. split_and!; [done| | | | |].
  - exists u, c0, tf, k'. by split_and!.
  - rewrite (Hk1 t ct qs [p] Hct Hrel' Hq). done.
  - split_and!; [|done|done]. eexists. split; [by eapply runs_on_set|]. done.
  - cbn. rewrite Hpt. exact Hpr'.
  - rewrite Heq, decide_True by done. done.
Qed.
End preempt.

(** ** Properties *)

Section props.
Context `{Hk : kenv}.
Implicit Types (s t : kstate) (p : nat).

(** C6: A time slice is exactly [MAX_QUANTUM] clock ticks: counted from its
    dispatch, a process keeps the processor through the first
    [MAX_QUANTUM - 1] ticks, which only raise its count, and at the next one
    it goes to the tail of the next lower level (or stays at the lowest) and
    the scheduler runs, with [ptable.lock] held. *)
Theorem time_slice s c p pr tf qs :
  runs_on c s → ncli c = 0 → cpu_proc c = Some p → lock_free LkPtable s → mlf_rel (k_ptable s) qs →
  pt_proc (k_ptable s) !! p = Some pr → p_state pr = RUNNING → timer_frame tf → p_quantum pr = 0 →
  (∀ n, Z.of_nat n < MAX_QUANTUM → clock tf n s = Ret tt (used p n s)) ∧
  ∃ t k, clock tf (Z.to_nat MAX_QUANTUM) s = Wait Swtch t k ∧
    mlf_rel (k_ptable t) (alter (λ l, l ++ [p]) (Z.to_nat (down pr)) qs) ∧
    pt_step (k_ptable (used p MAX_QUANTUM s)) (k_ptable t) ∧ lock_held LkPtable t ∧ cpu_runs p t.
Proof.
  intros Hc Hn Hp Hl Hrel Hpr Hst Htf Hq. split.
  - intros n Hlt. rewrite (clock_counts n s c p pr tf) by (try done; lia). by rewrite Hq.
  - destruct (clock_preempts s c p pr tf qs) as (t & k & E & Hpt & Hrel' & Hl' & Hr); try done.
    exists t, k. split_and!; try done. rewrite Hpt.
    assert (Hu := used_proc p MAX_QUANTUM pr s Hpr).
    change (down pr) with (down (pr <| p_quantum := MAX_QUANTUM |>)). by apply step_yield.
Qed.

(** C7: The scheduler leaves a level only when it is empty, and a process that
    only computes goes back to the lowest level each time it is preempted: as
    long as it is alone there, it can be dispatched any number of times in a
    row while the queues of the higher levels stay exactly as they are, so a
    process that waits at level 0 is not dispatched. *)
Theorem lowest_level_hogs s qs p pr n :
  scheduling s qs → qs !! 3%nat = Some [p] → pt_proc (k_ptable s) !! p = Some pr → p_pgdir pr ≠ 0 →
  ∃ u, hogs p 3 n s u ∧ mlf_rel (k_ptable u) qs ∧
    ∀ w, w ∈ default [] (qs !! 0%nat) → p_state <$> pt_proc (k_ptable u) !! w = Some RUNNABLE.
Proof.
  revert s pr. induction n as [|n IH]; intros s pr Hs Hq Hpr Hpg.
  - exists s. destruct Hs as (_ & _ & Hrel). split_and!; [constructor|done|].
    intros w Hw. destruct (qs !! 0%nat) as [l|] eqn:E; [|by apply elem_of_nil in Hw].
    destruct (rel_member _ _ Hrel 0 l w E Hw) as (x & -> & Hx & _). cbn. by rewrite Hx.
  - destruct (hog_turn s qs p pr Hs Hq Hpr Hpg) as (s1 & k & t & s' & pr' & E1 & Hcomp & E2 & Hs' & Hpr' & Hpg').
    destruct (IH s' pr' Hs' Hq Hpr' Hpg') as (u & Hh & Hrel & Hw). exists u. split_and!; [|done|done].
    by eapply hogs_S.
Qed.
End props.

(** ** Witnesses *)

Module preempt_demo.
Definition ready (p : nat) (pt : ptable_t) : ptable_t :=
  (pt_alloc p pt) <| pt_proc ::= alter (set p_pgdir (λ _, 0x80113000)) p |>.
(** Process 1 waits at level 0, process 0 at level 3. *)
Definition pt : ptable_t := pt_enq 0 3 (ready 0 (pt_enq 1 0 (ready 1 (k_ptable kstate_zero)))).
Definition qs : queues := [[1%nat]; []; []; [0%nat]].

Lemma hog_rel : mlf_rel pt qs.
Proof.
  assert (H1 : mlf_rel (ready 1 (k_ptable kstate_zero)) zero_queues).
  { apply neutral_rel; [|done]. by eapply pt_alloc_rel; [apply zero_rel| |]. }
  assert (H2 : mlf_rel (pt_enq 1 0 (ready 1 (k_ptable kstate_zero))) [[1%nat]; []; []; []]).
  { by eapply (enq_rel _ zero_queues 1 _ 0); [apply H1|..]. }
  assert (H3 : mlf_rel (ready 0 (pt_enq 1 0 (ready 1 (k_ptable kstate_zero)))) [[1%nat]; []; []; []]).
  { apply neutral_rel; [|done]. by eapply pt_alloc_rel; [apply H2| |]. }
  by eapply (enq_rel _ [[1%nat]; []; []; []] 0 _ 3); [apply H3|..].
Qed.
Definition start : kstate := demo.locked LkPtable pt.
Definition frame : trapframe := tf_zero <| tf_trapno := T_IRQ0 + IRQ_TIMER |>.
End preempt_demo.

Lemma time_slice_witness :
  (∀ n, Z.of_nat n < MAX_QUANTUM →
     clock (H := kenv_example) preempt_demo.frame n (demo.running demo.pt5) = Ret tt (used 0 n (demo.running demo.pt5))) ∧
  ∃ t k, clock (H := kenv_example) preempt_demo.frame 4 (demo.running demo.pt5) = Wait Swtch t k ∧
    mlf_rel (k_ptable t) [[1%nat]; [0%nat]; []; []].
Proof.
  destruct (time_slice (Hk := kenv_example) (demo.running demo.pt5) (mkCpu 0 0 FL_IF (Some 0%nat) 0 0 0 0)
           0 (default proc_zero (pt_proc demo.pt5 !! 0%nat)) preempt_demo.frame demo.qs5) as (H1 & t & k & H2 & H3 & _);
    try reflexivity; [apply demo.rel5|].
  split; [exact H1|]. exists t, k. split; [exact H2|exact H3].
Defined.

Lemma lowest_level_hogs_witness :
  ∃ u, hogs (Hk := kenv_example) 0 3 1000 preempt_demo.start u ∧
    p_state <$> pt_proc (k_ptable u) !! 1%nat = Some RUNNABLE.
Proof.
  destruct (lowest_level_hogs (Hk := kenv_example) preempt_demo.start preempt_demo.qs 0
    (default proc_zero (pt_proc preempt_demo.pt !! 0%nat)) 1000) as (u & H1 & _ & H2); try reflexivity.
  - split_and!; [|reflexivity|apply preempt_demo.hog_rel]. by exists (mkCpu 1 FL_IF 0 (Some 0%nat) 0 0 0 0).
  - discriminate.
  - exists u. split; [exact H1|]. apply H2. cbn. by left.
Defined.
