(* ===== verification/Grep.v ===== *)
(** The regular expression matcher of user/grep.c.  A C string is the list of
    its bytes before the NUL. *)
From stdpp Require Import base numbers gmap strings option list.
From S2P Require Import Prelude State Spinlock Cprintf.

(** ** The matcher *)

Definition hat : Z := 94.
Definition star : Z := 42.
Definition dollar : Z := 36.
Definition dot : Z := 46.

(** The loop of [matchstar(c, re, text)], given [matchhere(re, _)]. *)
Fixpoint matchstar (here : list Z → bool) (c : Z) (text : list Z) : bool :=
  here text ||
  match text with
  | [] => false
  | a :: text => ((a =? c) || (c =? dot)) && matchstar here c text
  end.

Fixpoint matchhere (re text : list Z) : bool :=
  match re with
  | [] => true
  | c :: re' =>
      match re' with
      | c' :: re'' =>
          if c' =? star then matchstar (matchhere re'') c text
          else match text with
               | [] => false
               | a :: text => ((c =? dot) || (c =? a)) && matchhere re' text
               end
      | [] =>
          if c =? dollar then bool_decide (text = [])
          else match text with
               | [] => false
               | a :: text => ((c =? dot) || (c =? a)) && matchhere re' text
               end
      end
  end.

(** [match] without an anchor: every suffix of the text, the empty one too. *)
Fixpoint match_anywhere (re text : list Z) : bool :=
  matchhere re text ||
  match text with [] => false | _ :: text => match_anywhere re text end.

Definition match_ (re text : list Z) : bool :=
  match re with
  | c :: re' => if c =? hat then matchhere re' text else match_anywhere re text
  | [] => match_anywhere re text
  end.

(** ** The language *)

(** What one pattern character stands for. *)
Definition stands_for (c a : Z) : Prop := c = dot ∨ c = a.

(** The expression [re] matches some prefix of [t]. *)
Inductive matches : list Z → list Z → Prop :=
| matches_nil t : matches [] t
| matches_star c re u t : Forall (stands_for c) u → matches re t → matches (c :: star :: re) (u ++ t)
| matches_end : matches [dollar] []
| matches_char c re a t :
    head re ≠ Some star → (c = dollar → re ≠ []) → stands_for c a → matches re t → matches (c :: re) (a :: t).

Lemma stands_for_eq c a : (a =? c) || (c =? dot) = true ↔ stands_for c a.
Proof. unfold stands_for. rewrite orb_true_iff, !Z.eqb_eq. naive_solver. Qed.

Lemma matchstar_spec here c text :
  matchstar here c text = true ↔ ∃ u t, text = u ++ t ∧ Forall (stands_for c) u ∧ here t = true.
Proof.
  induction text as [|a text IH]; cbn [matchstar]; rewrite orb_true_iff.
  - split; [intros [H|]; [|done]; by exists [], []|]. intros (u & t & E & _ & H).
    symmetry in E. apply app_nil in E as [-> ->]. by left.
  - rewrite andb_true_iff, stands_for_eq, IH. split.
    + intros [H|[Hc (u & t & -> & Hu & H)]]; [by exists [], (a :: text)|]. exists (a :: u), t. split_and!; [done|by constructor|done].
    + intros ([|b u] & t & E & Hu & H); cbn in E; [left; by subst|]. injection E as -> ->. inversion Hu; subst.
      right. split; [done|]. by exists u, t.
Qed.

(** One character of the expression against one of the text. *)
Lemma char_step c text (here : list Z → bool) :
  (match text with [] => false | a :: text => ((c =? dot) || (c =? a)) && here text end) = true ↔
  ∃ a t, text = a :: t ∧ stands_for c a ∧ here t = true.
Proof.
  destruct text as [|a text]; [naive_solver|]. rewrite andb_true_iff, orb_true_iff, !Z.eqb_eq. unfold stands_for. naive_solver.
Qed.

Lemma matchhere_spec re text : matchhere re text = true ↔ matches re text.
Proof.
  revert text. assert (∀ n re, (length re < n)%nat → ∀ text, matchhere re text = true ↔ matches re text) as HH;
    [|intros text; apply (HH (S (length re))); lia].
  clear. induction n as [|n IH]; intros re Hn text; [lia|]. destruct re as [|c re].
  { split; [intros _; constructor|done]. }
  assert (Hchar : head re ≠ Some star → (c = dollar → re ≠ []) →
    (match text with [] => false | a :: text => ((c =? dot) || (c =? a)) && matchhere re text end) = true ↔ matches (c :: re) text).
  { intros Hs Hd. rewrite char_step. split.
    - intros (a & t & -> & Hc & H). constructor; try done. apply IH; [cbn in Hn; lia|done].
    - intros H. inversion H; subst; try done; [naive_solver|]. eexists _, _. split_and!; [done|done|].
      apply IH; [cbn in Hn; lia|done]. }
  cbn [matchhere]. destruct re as [|c' re].
  - destruct (Z.eqb_spec c dollar) as [->|Hne].
    + rewrite bool_decide_eq_true. split; [intros ->; constructor|]. intros H. inversion H; subst; [done|naive_solver].
    + apply Hchar; [done|by intros ->].
  - destruct (Z.eqb_spec c' star) as [->|Hne].
    + rewrite matchstar_spec. split.
      * intros (u & t & -> & Hu & H). constructor; [done|]. apply IH; [cbn in Hn; lia|done].
      * intros H. inversion H; subst; [|done]. eexists _, _. split_and!; [done|done|]. apply IH; [cbn in Hn; lia|done].
    + apply Hchar; [by intros [= ->]|done].
Qed.

Lemma match_anywhere_spec re text : match_anywhere re text = true ↔ ∃ u t, text = u ++ t ∧ matches re t.
Proof.
  induction text as [|a text IH]; cbn [match_anywhere]; rewrite orb_true_iff, matchhere_spec.
  - split; [intros [H|]; [|done]; by exists [], []|]. intros (u & t & E & H).
    symmetry in E. apply app_nil in E as [-> ->]. by left.
  - rewrite IH. split.
    + intros [H|(u & t & -> & H)]; [by exists [], (a :: text)|by exists (a :: u), t].
    + intros ([|b u] & t & E & H); cbn in E; [left; by subst|]. injection E as -> ->. right. by exists u, t.
Qed.

(** ** Property *)

(** C37: [match] decides the language of the expression: with a leading ^ whether
    the rest matches at the start of the text, and otherwise whether the
    expression matches at some position, the end of the text included. *)
Theorem match_correct re text :
  match_ re text = true ↔
    if bool_decide (head re = Some hat) then matches (tail re) text
    else ∃ u t, text = u ++ t ∧ matches re t.
Proof.
  destruct re as [|c re]; [apply match_anywhere_spec|]. unfold match_. cbn [head tail].
  destruct (Z.eqb_spec c hat) as [->|Hne].
  - rewrite bool_decide_true by done. apply matchhere_spec.
  - rewrite bool_decide_false by (by intros [= ->]). apply match_anywhere_spec.
Qed.
