(* ===== verification/Umalloc.v ===== *)
(** The memory allocator of user programs (user/umalloc.c): a circular list
    of free blocks in order of their addresses, threaded through the headers of
    the blocks themselves, in the memory of a process that [sbrk] can grow. *)
From stdpp Require Import base numbers gmap fin_sets functions strings option list.
From S2P Require Import Prelude State Str.

(** ** The process as its allocator sees it *)

(** The bytes of its memory, its size, and the variable [freep]. *)
Record ustate := mkU { u_mem : gmap Z Z; u_brk : Z; freep : Z }.
#[export] Instance eta_ustate : Settable ustate :=
  λ u, mkU (u_mem u) (u_brk u) (freep u).

Definition UM (A : Type) : Type := M ustate A.

(** A word outside the process is a page fault. *)
Definition uload (a : Z) : UM Z := λ u,
  if (0 <=? a) && (a + 4 <=? u_brk u) then Ret (ld32 (u_mem u) a) u else Undef "page fault".
Definition ustore (a v : Z) : UM unit := λ u,
  if (0 <=? a) && (a + 4 <=? u_brk u) then Ret tt (u <| u_mem ::= λ m, st32 m a v |>)
  else Undef "page fault".
Definition set_freep (p : Z) : UM unit := modify (set freep (λ _, p)).

(** [union header]: a pointer and a size in units of the header's size. *)
Definition HDR : Z := 8.
Definition hdr_ptr (p : Z) : UM Z := uload p.
Definition hdr_size (p : Z) : UM Z := uload (p + 4).
Definition set_ptr (p v : Z) : UM unit := ustore p v.
Definition set_size (p v : Z) : UM unit := ustore (p + 4) v.

(** The address of the static header [base]. *)
Class umalloc_env := { base : Z }.

(** The system call: given the number of bytes as an [int], the old end of
    the process or -1. *)
Class sbrk_sys := { sbrk : Z → UM Z }.
Definition MINUS1 : Z := 2 ^ 32 - 1.

Section umalloc.
Context `{umalloc_env} `{sbrk_sys}.

(** The walk along the list in [free], from [p]. *)
Fixpoint free_search (n : nat) (bp p : Z) : UM Z :=
  match n with
  | O => λ _, NoFuel
  | S n =>
      let* np := hdr_ptr p in
      if (p <? bp) && (bp <? np) then ret p else
      if (np <=? p) && ((p <? bp) || (bp <? np)) then ret p else
      free_search n bp np
  end.

(** More headers than fit in the process are not met on one way round. *)
Definition heap_bound (u : ustate) : nat := Z.to_nat (u_brk u / HDR).

Definition free (ap : Z) : UM unit :=
  let bp := u32 (ap - HDR) in
  let* n := gets heap_bound in
  let* f := gets freep in
  let* p := free_search n bp f in
  let* np := hdr_ptr p in
  let* bs := hdr_size bp in
  do* (if u32 (bp + bs * HDR) =? np then
         let* ns := hdr_size np in
         do* set_size bp (bs + ns) in
         let* nn := hdr_ptr np in
         set_ptr bp nn
       else set_ptr bp np) in
  let* ps := hdr_size p in
  do* (if u32 (p + ps * HDR) =? bp then
         let* bs := hdr_size bp in
         do* set_size p (ps + bs) in
         let* bn := hdr_ptr bp in
         set_ptr p bn
       else set_ptr p bp) in
  set_freep p.

Definition morecore (nu : Z) : UM Z :=
  let nu := if nu <? 4096 then 4096 else nu in
  let* p := sbrk (s32 (nu * HDR)) in
  if p =? MINUS1 then ret 0 else
  do* set_size p nu in
  do* free (u32 (p + HDR)) in
  gets freep.

(** The block [p] behind [prevp], of [sz] units, is large enough. *)
Definition malloc_take (nunits prevp p sz : Z) : UM Z :=
  let* q := (if sz =? nunits then
               let* np := hdr_ptr p in
               do* set_ptr prevp np in
               ret p
             else
               do* set_size p (sz - nunits) in
               let q := u32 (p + (sz - nunits) * HDR) in
               do* set_size q nunits in
               ret q) in
  do* set_freep prevp in
  ret (u32 (q + HDR)).

(** The loop of [malloc]. *)
Fixpoint malloc_loop (n : nat) (nunits prevp p : Z) : UM Z :=
  match n with
  | O => λ _, NoFuel
  | S n =>
      let* sz := hdr_size p in
      if nunits <=? sz then malloc_take nunits prevp p sz else
      let* f := gets freep in
      let* p' := (if p =? f then morecore nunits else ret p) in
      if (p =? f) && (p' =? 0) then ret 0 else
      let* np := hdr_ptr p' in
      malloc_loop n nunits p' np
  end.

Definition units (nbytes : Z) : Z := u32 (u32 (nbytes + HDR - 1) / HDR + 1).

Definition malloc (nbytes : Z) : UM Z :=
  let nunits := units nbytes in
  let* f := gets freep in
  let* prevp := (if f =? 0 then
                   do* set_ptr base base in
                   do* set_freep base in
                   do* set_size base 0 in
                   ret base
                 else ret f) in
  let* p := hdr_ptr prevp in
  let* n := gets heap_bound in
  malloc_loop (2 * n + 1) nunits prevp p.
End umalloc.

(** ** What the allocator relies on *)

(** A request for some bytes is refused, or the process grows by them at its
    end and keeps what it has; it stays below the kernel. *)
Class sbrk_laws `{sbrk_sys} := { sbrk_spec : ∀ n u,
  0 < n < 2 ^ 31 → 0 ≤ u_brk u ≤ KERNBASE →
  sbrk n u = Ret MINUS1 u ∨
  ∃ m, sbrk n u = Ret (u_brk u) (u <| u_brk ::= λ b, b + n |> <| u_mem := m |>) ∧
       u_brk u + n ≤ KERNBASE ∧ ∀ a, a < u_brk u → ldb m a = ldb (u_mem u) a }.

(** The system call of this kernel seen from the process ([sys_sbrk],
    [growproc]), with [limit] the size at which memory runs out: sizes are
    32-bit and a size that wraps around leaves the process as it is. *)
Definition sbrk_upto (limit : Z) : sbrk_sys := {| sbrk := λ n u,
  let sz := u_brk u in
  let newsz := u32 (sz + n) in
  if 0 <? n then
    if KERNBASE <=? newsz then Ret MINUS1 u
    else if newsz <? sz then Ret sz u
    else if limit <? newsz then Ret MINUS1 u
    else Ret sz (u <| u_brk := newsz |>)
  else if n <? 0 then
    if sz <=? newsz then Ret sz u else Ret sz (u <| u_brk := newsz |>)
  else Ret sz u |}.

#[export] Instance sbrk_upto_laws limit : @sbrk_laws (sbrk_upto limit).
Proof.
  constructor. intros n u Hn Hb. unfold KERNBASE in *. cbn. rewrite (proj2 (Z.ltb_lt 0 n)) by lia.
  rewrite u32_small by lia. destruct (Z.leb_spec KERNBASE (u_brk u + n)) as [|Hk]; [by left|].
  unfold KERNBASE in *. rewrite (proj2 (Z.ltb_ge _ _)) by lia. destruct (_ <? _); [by left|].
  right. exists (u_mem u). split; [done|]. split; [lia|done].
Qed.

(** ** The invariant *)

Definition nextp (m : gmap Z Z) (a : Z) : Z := ld32 m a.
Definition sizep (m : gmap Z Z) (a : Z) : Z := ld32 m (a + 4).

(** [nx] follows [a] in the circular order of the addresses in [D], whose
    lowest is [base]. *)
Definition follows `{umalloc_env} (D : gset Z) (a nx : Z) : Prop :=
  nx ∈ D ∧ (a < nx ∧ (∀ k, k ∈ D → k ≤ a ∨ nx ≤ k) ∨ nx = base ∧ ∀ k, k ∈ D → k ≤ a).

(** [nxt] leads round all of [D]. *)
Definition ring `{umalloc_env} (D : gset Z) (nxt : Z → Z) : Prop :=
  ∀ a, a ∈ D → base ≤ a ∧ follows D a (nxt a).

(** Blocks by address, with their units: where they may lie. *)
Definition block `{umalloc_env} (brk a n : Z) : Prop :=
  1 ≤ n ∧ base + HDR ≤ a ∧ a + n * HDR ≤ brk.

(** [F] are the free blocks, with [base], and [A] those handed out. *)
Record heap_ok `{umalloc_env} (u : ustate) (F A : gmap Z Z) : Prop := {
  ho_base : F !! base = Some 0;
  ho_addr : 0 < base ∧ base + HDR ≤ u_brk u ∧ u_brk u ≤ KERNBASE;
  ho_freep : freep u ∈ dom F;
  ho_free : ∀ a n, F !! a = Some n → a = base ∨ block (u_brk u) a n;
  ho_used : ∀ a n, A !! a = Some n → block (u_brk u) a n;
  ho_gap : ∀ a n b k, F !! a = Some n → F !! b = Some k → a < b → a + n * HDR < b;
  ho_apart : ∀ a n b k, F !! a = Some n → A !! b = Some k → a + n * HDR ≤ b ∨ b + k * HDR ≤ a;
  ho_used_apart : ∀ a n b k, A !! a = Some n → A !! b = Some k → a < b → a + n * HDR ≤ b;
  ho_fsize : ∀ a n, F !! a = Some n → sizep (u_mem u) a = n;
  ho_usize : ∀ a n, A !! a = Some n → sizep (u_mem u) a = n;
  ho_ring : ring (dom F) (nextp (u_mem u));
}.

#[global] Arguments set_freep _ _ /.

Section heap_lemmas.
Context `{umalloc_env}.
Implicit Types (u : ustate) (F A : gmap Z Z).

Lemma uload_in a u : 0 ≤ a → a + 4 ≤ u_brk u → uload a u = Ret (ld32 (u_mem u) a) u.
Proof. intros. unfold uload. by rewrite (proj2 (Z.leb_le _ _)), (proj2 (Z.leb_le _ _)). Qed.

Lemma ustore_in a v u :
  0 ≤ a → a + 4 ≤ u_brk u → ustore a v u = Ret tt (u <| u_mem ::= λ m, st32 m a v |>).
Proof. intros. unfold ustore. by rewrite (proj2 (Z.leb_le _ _)), (proj2 (Z.leb_le _ _)). Qed.

(** Where a header of a block is. *)
Lemma free_range u F A a n :
  heap_ok u F A → F !! a = Some n → 0 < a ∧ a + HDR ≤ u_brk u ∧ 0 ≤ n < 2 ^ 28 ∧ base ≤ a ∧
  a + n * HDR ≤ u_brk u ∧ (a = base → n = 0) ∧ (a ≠ base → 1 ≤ n ∧ base + HDR ≤ a).
Proof.
  intros Hk Ha. pose proof (ho_addr _ _ _ Hk). pose proof (ho_base _ _ _ Hk).
  unfold KERNBASE, HDR in *. destruct (ho_free _ _ _ Hk _ _ Ha) as [->|(? & ? & ?)].
  - simplify_eq. lia.
  - unfold HDR in *. assert (a ≠ base) by lia. lia.
Qed.

Lemma used_range u F A a n :
  heap_ok u F A → A !! a = Some n → 0 < a ∧ a + HDR ≤ u_brk u ∧ 1 ≤ n < 2 ^ 28 ∧ base + HDR ≤ a ∧
  a + n * HDR ≤ u_brk u ∧ u_brk u ≤ KERNBASE.
Proof.
  intros Hk Ha. pose proof (ho_addr _ _ _ Hk). destruct (ho_used _ _ _ Hk _ _ Ha) as (? & ? & ?).
  unfold KERNBASE, HDR in *. lia.
Qed.

(** There are no more blocks than headers fit in the process. *)
Lemma free_count_bound u F A : heap_ok u F A → (size F ≤ heap_bound u)%nat.
Proof.
  intros Hk. pose proof (ho_addr _ _ _ Hk) as Had. unfold HDR in Had. rewrite <- size_dom.
  assert (∀ a b, a ∈ dom F → b ∈ dom F → a < b → a / HDR < b / HDR) as Hlt.
  { intros a b [n Ha]%elem_of_dom [k Hb]%elem_of_dom Hab.
    pose proof (ho_gap _ _ _ Hk _ _ _ _ Ha Hb Hab). pose proof (free_range _ _ _ _ _ Hk Ha).
    pose proof (free_range _ _ _ _ _ Hk Hb). unfold HDR in *. destruct (decide (a = base)); lia. }
  change (length (elements (dom F)) ≤ heap_bound u)%nat. unfold heap_bound.
  rewrite <- (length_fmap (λ a, a / HDR) (elements (dom F))), <- (length_seqZ 0).
  apply submseteq_length, NoDup_submseteq.
  - apply NoDup_fmap_2_strong; [|apply NoDup_elements]. intros a b Ha%elem_of_elements Hb%elem_of_elements Heq.
    destruct (Ztrichotomy a b) as [Hl|[?|Hl%Z.gt_lt]]; [|done|]; [specialize (Hlt _ _ Ha Hb Hl)|specialize (Hlt _ _ Hb Ha Hl)]; lia.
  - intros x (a & -> & Ha)%list_elem_of_fmap. apply elem_of_seqZ. apply elem_of_elements, elem_of_dom in Ha as [n Ha].
    pose proof (free_range _ _ _ _ _ Hk Ha). unfold HDR in *. lia.
Qed.

(** Number of blocks the walk along the list from [p] still meets up to [f]. *)
Definition ahead (D : gset Z) (p f : Z) : gset Z :=
  filter (λ k, (p < f ∧ p < k ∧ k ≤ f) ∨ (f < p ∧ (p < k ∨ k ≤ f))) D.
Definition togo (D : gset Z) (p f : Z) : nat := size (ahead D p f).

Lemma elem_of_ahead D p f k :
  k ∈ ahead D p f ↔ k ∈ D ∧ ((p < f ∧ p < k ∧ k ≤ f) ∨ (f < p ∧ (p < k ∨ k ≤ f))).
Proof. unfold ahead. rewrite elem_of_filter. tauto. Qed.

Lemma ahead_next D nxt p f k :
  ring D nxt → p ∈ D → f ∈ D → p ≠ f → k ∈ ahead D p f ↔ k = nxt p ∨ k ∈ ahead D (nxt p) f.
Proof.
  intros Hr Hp Hf Hne. rewrite !elem_of_ahead. destruct (Hr _ Hp) as [_ [Hnx Hord]].
  destruct (Hr _ Hf) as [Hbf _]. destruct Hord as [[? Ho]|[Hb Ho]]; pose proof (Ho _ Hf); split.
  - intros [Hk ?]. pose proof (Ho _ Hk). destruct (decide (k = nxt p)); [by left|right]. split; [done|lia].
  - intros [->|[Hk ?]]; (split; [done|]); [|pose proof (Ho _ Hk)]; lia.
  - intros [Hk ?]. pose proof (Ho _ Hk). pose proof (Hr _ Hk) as [? _].
    destruct (decide (k = nxt p)); [by left|right]. split; [done|lia].
  - intros [->|[Hk ?]]; (split; [done|]); [|pose proof (Ho _ Hk)]; lia.
Qed.

Lemma togo_next D nxt p f :
  ring D nxt → p ∈ D → f ∈ D → p ≠ f → (togo D (nxt p) f < togo D p f)%nat.
Proof.
  intros Hr Hp Hf Hne. apply subset_size. split.
  - intros k Hk. apply (ahead_next D nxt); [done..|by right].
  - intros Hs. specialize (Hs (nxt p)). rewrite (ahead_next D nxt p) in Hs by done.
    specialize (Hs (or_introl eq_refl)). apply elem_of_ahead in Hs. lia.
Qed.

Lemma togo_lt D p f : p ∈ D → (togo D p f < size D)%nat.
Proof.
  intros Hp. apply subset_size. split.
  - intros k. rewrite elem_of_ahead. tauto.
  - intros Hs. specialize (Hs p Hp). rewrite elem_of_ahead in Hs. lia.
Qed.

(** The block of the list behind which [bp] belongs. *)
Definition precedes (D : gset Z) (t bp : Z) : Prop :=
  t ∈ D ∧ t < bp ∧ ∀ k, k ∈ D → k ≤ t ∨ bp < k.

Lemma precedes_exists D bp : base ∈ D → base < bp → bp ∉ D → ∃ t, precedes D t bp.
Proof.
  intros Hb Hlt Hn.
  destruct (minimal_exists_elem_of (flip Z.le) (filter (λ k, k < bp) D)) as (t & Ht & Hm).
  - intros He. apply (not_elem_of_empty (C := gset Z) base). rewrite <- He.
    by rewrite elem_of_filter.
  - rewrite elem_of_filter in Ht. exists t. split; [tauto|]. split; [tauto|].
    intros k Hk. destruct (decide (k = bp)) as [->|]; [done|].
    destruct (decide (k ≤ t)); [by left|]. right. destruct (decide (k < bp)); [|lia].
    assert (flip Z.le t k); [|cbn in *; lia]. apply Hm.
    + rewrite elem_of_filter. done.
    + cbn. lia.
Qed.

(** *** Changing the list *)

Lemma ring_ext D nxt nxt' : (∀ a, a ∈ D → nxt' a = nxt a) → ring D nxt → ring D nxt'.
Proof. intros He Hr a Ha. rewrite He by done. by apply Hr. Qed.

Lemma ring_insert D nxt t bp :
  base ∈ D → ring D nxt → precedes D t bp →
  ring ({[bp]} ∪ D) (<[t := bp]> (<[bp := nxt t]> nxt)).
Proof.
  intros Hb Hr (Ht & Htb & Hto) a Ha. destruct (Hr _ Ht) as [Hbt [Hnx Hord]].
  assert (∀ P, (∀ k, k ∈ {[bp]} ∪ D → P k) ↔ P bp ∧ (∀ k, k ∈ D → P k)) as Hall by set_solver.
  apply elem_of_union in Ha as [->%elem_of_singleton|Ha].
  - split; [lia|]. rewrite fn_lookup_insert_ne by lia. rewrite fn_lookup_insert.
    split; [set_solver|]. rewrite !Hall. pose proof (Hto _ Hnx).
    destruct Hord as [[? Ho]|[Hq Ho]]; [left|right]; split; try done; try lia; split; try lia;
      intros k Hk; pose proof (Ho _ Hk); pose proof (Hto _ Hk); lia.
  - destruct (Hr _ Ha) as [Hba [Hna Horda]]. split; [done|].
    destruct (decide (a = t)) as [->|Hne].
    + rewrite fn_lookup_insert. split; [set_solver|]. left. rewrite Hall.
      split; [done|]. split; [lia|]. intros k Hk. pose proof (Hto _ Hk). lia.
    + pose proof (Hto _ Ha). rewrite !fn_lookup_insert_ne by lia. split; [set_solver|].
      rewrite !Hall. pose proof (Hto _ Hna).
      destruct Horda as [[? Ho]|[? Ho]]; [left|right]; pose proof (Ho _ Ht);
        split; try done; split; try lia; done.
Qed.

Lemma ring_delete D nxt a :
  ring D nxt → a ∈ D → nxt a ≠ base → ring (D ∖ {[nxt a]}) (<[a := nxt (nxt a)]> nxt).
Proof.
  intros Hr Ha Hb. destruct (Hr _ Ha) as [Hba [Hna [[Hlt Ho]|[? _]]]]; [|done].
  destruct (Hr _ Hna) as [_ [Hnn Hord]].
  intros k [Hk Hne]%elem_of_difference. rewrite elem_of_singleton in Hne.
  destruct (Hr _ Hk) as [Hbk [Hnk Hordk]]. split; [done|]. pose proof (Ho _ Hk). pose proof (Ho _ Hnn).
  destruct (decide (k = a)) as [->|Hka].
  - rewrite fn_lookup_insert. destruct Hord as [[? Ho']|[Hq Ho']].
    + split; [set_solver by lia|]. left. split; [lia|]. intros j [Hj Hj']%elem_of_difference.
      rewrite elem_of_singleton in Hj'. pose proof (Ho _ Hj). pose proof (Ho' _ Hj). lia.
    + split; [set_solver by lia|]. right. split; [done|]. intros j [Hj Hj']%elem_of_difference.
      rewrite elem_of_singleton in Hj'. pose proof (Ho _ Hj). pose proof (Ho' _ Hj). lia.
  - rewrite fn_lookup_insert_ne by done. assert (nxt k ≠ nxt a).
    { destruct Hordk as [[? Hok]|[? Hok]]; pose proof (Hok _ Ha); lia. }
    split; [set_solver|].
    destruct Hordk as [[? Hok]|[? Hok]]; [left|right]; (split; [done|]); intros j [Hj _]%elem_of_difference;
      by apply Hok.
Qed.

Lemma free_search_spec n u F A bp p t :
  heap_ok u F A → p ∈ dom F → precedes (dom F) t bp → base < bp → (togo (dom F) p t < n)%nat →
  free_search n bp p u = Ret t u.
Proof.
  intros Hk Hp (Ht & Htb & Hto) Hb. pose proof (ho_ring _ _ _ Hk) as Hring.
  revert p Hp. induction n as [|n IH]; intros p Hp Hn; [lia|]. cbn.
  destruct (proj1 (elem_of_dom F p) Hp) as [sp Hsp].
  destruct (free_range _ _ _ _ _ Hk Hsp) as (? & Hr & _). unfold HDR in Hr.
  unfold hdr_ptr. step (uload_in p u ltac:(lia) ltac:(lia)).
  destruct (Hring _ Hp) as [Hbp [Hnp Hord]]. unfold nextp in Hnp, Hord. set (np := ld32 _ _) in *.
  destruct (Hring _ Ht) as [Hbt _]. pose proof (Hto _ Hnp). pose proof (Hto p Hp).
  destruct (decide (p = t)) as [->|Hne].
  - destruct Hord as [[? Ho]|[Heq Ho]].
    + rewrite (proj2 (Z.ltb_lt t bp)), (proj2 (Z.ltb_lt bp np)) by lia. done.
    + destruct (_ && _); [done|].
      rewrite (proj2 (Z.leb_le np t)), (proj2 (Z.ltb_lt t bp)) by lia. done.
  - rewrite (proj2 (andb_false_iff _ _)); [|rewrite !Z.ltb_ge;
      destruct Hord as [[? Ho]|[? Ho]]; pose proof (Ho _ Ht); lia].
    rewrite (proj2 (andb_false_iff _ _)); [|rewrite orb_false_iff, !Z.ltb_ge, Z.leb_gt;
      destruct Hord as [[? Ho]|[? Ho]]; pose proof (Ho _ Ht); lia].
    apply IH; [done|]. pose proof (togo_next _ _ _ _ Hring Hp Ht Hne) as Hlt.
    unfold nextp in Hlt. fold np in Hlt. lia.
Qed.

(** A free block [x] of [m] units beside the free blocks [D], [A'] in use. *)
Lemma heap_put u u' F A D A' x m :
  heap_ok u F A → D ⊆ F → A' ⊆ A → D !! base = Some 0 → x ≠ base → block (u_brk u) x m →
  (∀ k v, D !! k = Some v → k ≠ x → k + v * HDR < x ∨ x + m * HDR < k) →
  (∀ b v, A' !! b = Some v → b + v * HDR ≤ x ∨ x + m * HDR ≤ b) →
  u_brk u' = u_brk u → freep u' ∈ {[x]} ∪ dom D →
  (∀ k v, D !! k = Some v → k ≠ x → sizep (u_mem u') k = v) →
  (∀ b v, A' !! b = Some v → sizep (u_mem u') b = v) → sizep (u_mem u') x = m →
  ring ({[x]} ∪ dom D) (nextp (u_mem u')) →
  heap_ok u' (<[x := m]> D) A'.
Proof.
  intros Hk HD HA Hb Hx Hbl Hgap Hap Hbrk Hfp Hds Has Hxs Hring.
  assert (∀ k v, D !! k = Some v → F !! k = Some v) as HD' by (intros; by eapply lookup_weaken).
  assert (∀ k v, A' !! k = Some v → A !! k = Some v) as HA' by (intros; by eapply lookup_weaken).
  constructor; rewrite ?Hbrk, ?dom_insert_L.
  - by rewrite lookup_insert_ne.
  - apply Hk.
  - done.
  - intros a n [[-> <-]|[? ?]]%lookup_insert_Some; [by right|]. eapply Hk; eauto.
  - intros a n ?. eapply Hk; eauto.
  - intros a n b k [[<- <-]|[? ?]]%lookup_insert_Some [[<- <-]|[? ?]]%lookup_insert_Some ?; [lia|..].
    + destruct (Hgap b k) as [Hg|Hg]; [done..| |done].
      assert (0 ≤ k); [|unfold HDR in *; lia]. edestruct free_range as (_&_&?&_); [exact Hk|eauto|lia].
    + destruct (Hgap a n) as [Hg|Hg]; [done..|]. destruct Hbl. unfold HDR in *. lia.
    + eapply Hk; eauto.
  - intros a n b k [[<- <-]|[? ?]]%lookup_insert_Some ?; [|eapply Hk; eauto].
    destruct (Hap b k); [done|lia..].
  - intros a n b k ? ?. eapply Hk; eauto.
  - intros a n [[<- <-]|[? ?]]%lookup_insert_Some; eauto.
  - done.
  - done.
Qed.

Definition covers (B : gmap Z Z) (x : Z) : Prop :=
  ∃ a n, B !! a = Some n ∧ a ≤ x < a + n * HDR.
End heap_lemmas.

(** Evaluate a load from a memory with words stored in it. *)
Ltac hdr := unfold nextp, sizep, HDR in *; repeat first
  [ rewrite ld32_st32_eq | rewrite ld32_st32_ne by lia ].

(** ** [free] *)

Section free_proof.
Context `{umalloc_env} (u : ustate) (F A : gmap Z Z) (bp n t ts : Z).
Context (Hk : heap_ok u F A) (Hbp : A !! bp = Some n) (Ht : F !! t = Some ts).
Context (Hpre : precedes (dom F) t bp).
Let m : gmap Z Z := u_mem u.
Let np : Z := nextp m t.

(** Where the neighbours of [bp] lie. *)
Lemma free_around :
  t + ts * HDR ≤ bp ∧ t + HDR ≤ bp ∧ 0 < t ∧ 1 ≤ n < 2 ^ 28 ∧ 0 ≤ ts < 2 ^ 28 ∧ bp + n * HDR ≤ u_brk u ∧
  base + HDR ≤ bp ∧ u_brk u ≤ KERNBASE ∧ base ≤ t ∧ (t = base → ts = 0) ∧ (t ≠ base → base + HDR ≤ t).
Proof.
  destruct Hpre as (_ & Hlt & _). pose proof (free_range _ _ _ _ _ Hk Ht). pose proof (used_range _ _ _ _ _ Hk Hbp).
  pose proof (ho_apart _ _ _ Hk _ _ _ _ Ht Hbp). unfold HDR in *.
  destruct (decide (t = base)); lia.
Qed.

Lemma free_next : ∃ ns, F !! np = Some ns ∧ np ≠ bp ∧ 0 ≤ ns < 2 ^ 28 ∧ 0 < np ∧ np + HDR ≤ u_brk u ∧
  (np ≠ base → bp + n * HDR ≤ np ∧ 1 ≤ ns ∧ np + ns * HDR ≤ u_brk u) ∧ (np = base → ns = 0 ∧ np ≤ t).
Proof.
  assert (t ∈ dom F) as Htd by (apply elem_of_dom; eauto).
  destruct (ho_ring _ _ _ Hk _ Htd) as [_ [Hnp Hord]]. fold m np in Hnp, Hord.
  destruct Hpre as (_ & Hlt & Hto). pose proof (Hto _ Hnp) as Hno.
  apply elem_of_dom in Hnp as [ns Hns]. exists ns. split; [done|].
  pose proof free_around as Har.
  pose proof (free_range _ _ _ _ _ Hk Hns). pose proof (ho_apart _ _ _ Hk _ _ _ _ Hns Hbp).
  unfold HDR in *. destruct Hord as [[? _]|[? _]]; lia.
Qed.

(** A header of another block is not touched by writes to those of [t] and
    [bp]. *)
Lemma free_other k v : F !! k = Some v → k ≠ t →
  (k + HDR ≤ t ∨ t + HDR ≤ k) ∧ (k + HDR ≤ bp ∨ bp + HDR ≤ k) ∧ (k + v * HDR < t ∨ t + ts * HDR < k) ∧
  (k + v * HDR ≤ bp ∨ bp + n * HDR ≤ k) ∧ 0 ≤ v < 2 ^ 28 ∧ (k < t ∨ bp < k).
Proof.
  intros Hf Hne. pose proof free_around. destruct Hpre as (_ & _ & Hto).
  pose proof (Hto k ltac:(apply elem_of_dom; eauto)).
  pose proof (free_range _ _ _ _ _ Hk Hf). pose proof (ho_apart _ _ _ Hk _ _ _ _ Hf Hbp).
  pose proof (ho_gap _ _ _ Hk _ _ _ _ Hf Ht). pose proof (ho_gap _ _ _ Hk _ _ _ _ Ht Hf).
  unfold HDR in *. destruct (decide (k = base)); destruct (decide (t = base)); lia.
Qed.

Lemma used_other b k : delete bp A !! b = Some k →
  A !! b = Some k ∧ 1 ≤ k ∧ (b + k * HDR ≤ bp ∨ bp + n * HDR ≤ b) ∧
  ∀ a v, F !! a = Some v → (b + k * HDR ≤ a ∨ a + HDR ≤ b) ∧ (b + k * HDR ≤ a ∨ a + v * HDR ≤ b).
Proof.
  intros [Hne Hb]%lookup_delete_Some. pose proof (used_range _ _ _ _ _ Hk Hb). pose proof free_around.
  pose proof (ho_used_apart _ _ _ Hk _ _ _ _ Hb Hbp). pose proof (ho_used_apart _ _ _ Hk _ _ _ _ Hbp Hb).
  unfold HDR in *. split; [done|]. split; [lia|]. split; [lia|]. intros a v Ha.
  pose proof (ho_apart _ _ _ Hk _ _ _ _ Ha Hb). pose proof (free_range _ _ _ _ _ Hk Ha).
  destruct (decide (a = base)); unfold HDR in *; lia.
Qed.

(** The units joined from behind, the new successor, and the final memory. *)
Let jn : bool := bool_decide (bp + n * HDR = np).
Let jp : bool := bool_decide (t + ts * HDR = bp).
Let e : Z := n + (if jn then sizep m np else 0).
Let y : Z := if jn then nextp m np else np.
Let m1 : gmap Z Z := if jn then st32 (st32 m (bp + 4) e) bp y else st32 m bp np.
Let m2 : gmap Z Z := if jp then st32 (st32 m1 (t + 4) (ts + e)) t y else st32 m1 t bp.
Let D : gmap Z Z := if jn then delete np F else F.
Let F' : gmap Z Z := if jp then <[t := ts + e]> D else <[bp := e]> D.
Let u' : ustate := u <| u_mem := m2 |> <| freep := t |>.

Lemma free_sizes : 1 ≤ e < 2 ^ 29 ∧ bp + e * HDR ≤ u_brk u ∧
  (jn = true → np ≠ base ∧ F !! np = Some (sizep m np) ∧ bp + n * HDR = np ∧ e = n + sizep m np ∧ 1 ≤ sizep m np) ∧
  (jn = false → e = n ∧ bp + n * HDR ≠ np) ∧ 0 ≤ y < 2 ^ 32 ∧ y ∈ dom F ∧ y ≠ bp.
Proof.
  pose proof free_around as Har. destruct free_next as (ns & Hns & Hne & ? & ? & ? & Hnb & Hb).
  pose proof (ho_fsize _ _ _ Hk _ _ Hns) as Hsz. fold m in Hsz.
  assert (∀ k, k ∈ dom F → 0 ≤ k < 2 ^ 32 ∧ k ≠ bp) as Hdom.
  { intros k [v Hv]%elem_of_dom. pose proof (free_range _ _ _ _ _ Hk Hv).
    pose proof (ho_apart _ _ _ Hk _ _ _ _ Hv Hbp). unfold HDR, KERNBASE in *.
    split; [lia|]. intros ->. destruct (decide (bp = base)); lia. }
  assert (np ∈ dom F) as Hnd by (apply elem_of_dom; eauto).
  assert (y ∈ dom F) as Hy.
  { unfold y. destruct jn; [|done]. by destruct (ho_ring _ _ _ Hk _ Hnd) as [_ [? _]]. }
  pose proof (Hdom _ Hy). unfold e, jn. rewrite Hsz. unfold HDR, KERNBASE in *.
  destruct (decide (np = base)); case_bool_decide; repeat split; try done; try lia.
Qed.

Lemma free_m1 : ld32 m1 (t + 4) = ts ∧ ld32 m1 (bp + 4) = e ∧ ld32 m1 bp = y.
Proof using All.
  pose proof free_around as Har. destruct free_sizes as (He & _ & Hj & Hnj & Hy & _).
  pose proof (ho_fsize _ _ _ Hk _ _ Ht) as Hts. pose proof (ho_usize _ _ _ Hk _ _ Hbp) as Hbs.
  fold m in Hts, Hbs. unfold m1, y in *. destruct jn; hdr.
  - by rewrite !u32_small by lia.
  - destruct (Hnj eq_refl) as [-> _]. by rewrite u32_small by lia.
Qed.

Lemma free_join_next :
  (do* (if u32 (bp + n * HDR) =? np then
          let* ns := hdr_size np in
          do* set_size bp (n + ns) in
          let* nn := hdr_ptr np in
          set_ptr bp nn
        else set_ptr bp np) in ret tt) u = Ret tt (u <| u_mem := m1 |>).
Proof using All.
  pose proof free_around as Har. destruct free_sizes as (He & Hbe & Hj & Hnj & Hy & _).
  destruct free_next as (ns & Hns & Hne & Hn1 & Hn2 & Hn3 & Hnb & Hb).
  unfold hdr_ptr, hdr_size, set_ptr, set_size, HDR, KERNBASE in *. rewrite u32_small by lia.
  assert ((bp + n * 8 =? np) = jn) as ->.
  { unfold jn. case_bool_decide; [by apply Z.eqb_eq|by apply Z.eqb_neq]. }
  unfold m1, y in *. destruct jn.
  - destruct (Hj eq_refl) as (? & _ & ? & -> & _). unfold bind.
    rewrite uload_in by lia. cbn [obind]. rewrite ustore_in by lia. cbn [obind].
    rewrite uload_in by (cbn; lia). cbn [obind]. rewrite ustore_in by (cbn; lia). cbn -[st32 ld32].
    rewrite ld32_st32_ne by lia. done.
  - unfold bind. rewrite ustore_in by lia. done.
Qed.

Lemma free_join_prev :
  (do* (if u32 (t + ts * HDR) =? bp then
          let* bs := hdr_size bp in
          do* set_size t (ts + bs) in
          let* bn := hdr_ptr bp in
          set_ptr t bn
        else set_ptr t bp) in ret tt) (u <| u_mem := m1 |>) = Ret tt (u <| u_mem := m2 |>).
Proof using All.
  pose proof free_around as Har. destruct free_m1 as (H1 & H2 & H3).
  unfold hdr_ptr, hdr_size, set_ptr, set_size, HDR, KERNBASE in *. rewrite u32_small by lia.
  assert ((t + ts * 8 =? bp) = jp) as ->.
  { unfold jp. case_bool_decide; [by apply Z.eqb_eq|by apply Z.eqb_neq]. }
  unfold m2. clearbody m1. destruct jp; unfold bind.
  - rewrite uload_in by (cbn; lia). cbn [obind]. rewrite ustore_in by (cbn; lia). cbn [obind].
    rewrite uload_in by (cbn; lia). cbn [obind]. rewrite ustore_in by (cbn; lia). cbn -[st32 ld32].
    rewrite ld32_st32_ne by lia. by rewrite H2, H3.
  - by rewrite ustore_in by (cbn; lia).
Qed.

Lemma free_run : free (bp + HDR) u = Ret tt u'.
Proof using All.
  pose proof (free_count_bound _ _ _ Hk) as Hnf. pose proof free_around as Har.
  assert (t ∈ dom F) as Htd by (apply elem_of_dom; eauto).
  pose proof (ho_freep _ _ _ Hk) as Hf. unfold free.
  assert (u32 (bp + HDR - HDR) = bp) as -> by (unfold HDR, KERNBASE in *; rewrite u32_small by lia; lia).
  mstep. mstep. step (free_search_spec (heap_bound u) u F A bp (freep u) t Hk Hf Hpre ltac:(unfold HDR in *; lia)
    ltac:(pose proof (togo_lt (dom F) (freep u) t Hf); rewrite size_dom in *; lia)).
  unfold hdr_ptr at 1, hdr_size at 1. unfold HDR in Har. step (uload_in t u ltac:(lia) ltac:(lia)).
  step (uload_in (bp + 4) u ltac:(lia) ltac:(lia)).
  change (ld32 (u_mem u) t) with np. replace (ld32 (u_mem u) (bp + 4)) with n by (symmetry; exact (ho_usize _ _ _ Hk _ _ Hbp)).
  assert (∀ B (c : UM unit) (k : UM B) v w, (do* c in ret tt) v = Ret tt w → (do* c in k) v = k w) as Hseq.
  { intros B c k v w. unfold bind. destruct (c v) as [[] ?| | | |]; cbn; by intros [= ->]. }
  rewrite (Hseq _ _ _ _ _ free_join_next). unfold hdr_size at 1. destruct free_m1 as (H1 & _).
  erewrite bind_ret; [|rewrite uload_in by (cbn; lia); cbn -[ld32]; rewrite H1; reflexivity].
  cbv beta. by rewrite (Hseq _ _ _ _ _ free_join_prev).
Qed.

Lemma free_mem a : (a + 4 ≤ t ∨ t + HDR ≤ a) → (a + 4 ≤ bp ∨ bp + HDR ≤ a) → ld32 m2 a = ld32 m a.
Proof using All. intros. unfold m2, m1. destruct jp, jn; hdr; done. Qed.

Lemma free_bytes a : (a < t ∨ t + HDR ≤ a) → (a < bp ∨ bp + HDR ≤ a) → ldb m2 a = ldb m a.
Proof using All.
  intros. unfold HDR, m2, m1 in *. destruct jp, jn; by rewrite !ldb_st32_ne by lia.
Qed.

Lemma free_ring : ring (if jp then {[t]} ∪ dom D else {[bp]} ∪ dom D) (nextp m2).
Proof using All.
  destruct free_m1 as (_ & _ & Hm1).
  pose proof free_around as Har. destruct free_sizes as (He & Hbe & Hj & Hnj & Hy & _ & Hyb).
  pose proof (ho_ring _ _ _ Hk) as Hr. fold m in Hr.
  assert (t ∈ dom F) as Htd by (apply elem_of_dom; eauto).
  assert (base ∈ dom F) as Hbd by (apply elem_of_dom; eexists; apply Hk).
  assert (∀ k, k ∈ dom F → k ≠ t → nextp m2 k = nextp m k ∧ k ≠ bp) as Hext.
  { intros k [v Hv]%elem_of_dom Hne. pose proof (free_other k v Hv Hne) as Ho. unfold HDR in *.
    split; [apply free_mem; unfold HDR; lia|lia]. }
  assert (nextp m2 bp = if jp then nextp m2 bp else y) as Hnb.
  { unfold m2. destruct jp; [done|]. hdr. done. }
  assert (nextp m2 t = if jp then y else bp) as Hnt.
  { unfold m2. destruct jp; hdr; rewrite u32_small by (unfold KERNBASE in *; lia); done. }
  unfold D, y in *. clearbody m2 m1. destruct jp, jn.
  - destruct (Hj eq_refl) as (Hnb' & Hnp & _). rewrite dom_delete_L.
    assert (t ≠ np) by (intros E; rewrite E in *; unfold HDR in *; lia).
    replace ({[t]} ∪ dom F ∖ {[np]}) with (dom F ∖ {[np]}) by set_solver.
    apply (ring_ext _ (<[t := nextp m np]> (nextp m))); [|exact (ring_delete (dom F) (nextp m) t Hr Htd Hnb')].
    intros k [Hkd _]%elem_of_difference. destruct (decide (k = t)) as [->|Hne].
    + by rewrite fn_lookup_insert.
    + rewrite fn_lookup_insert_ne by done. by apply Hext.
  - replace ({[t]} ∪ dom F) with (dom F) by set_solver. apply (ring_ext _ (nextp m)); [|done].
    intros k Hkd. destruct (decide (k = t)) as [->|Hne]; [done|by apply Hext].
  - destruct (Hj eq_refl) as (Hnb' & Hnp & Hbn & _). rewrite dom_delete_L.
    replace ({[bp]} ∪ dom F ∖ {[np]}) with (({[bp]} ∪ dom F) ∖ {[np]}) by (unfold HDR in *; set_solver by lia).
    pose proof (ring_delete _ _ bp (ring_insert _ _ _ _ Hbd Hr Hpre)) as Hrd.
    rewrite fn_lookup_insert_ne, fn_lookup_insert in Hrd by (unfold HDR in *; lia).
    change (nextp m t) with np in Hrd.
    eapply ring_ext; [|apply Hrd; [set_solver|done]].
    intros k [Hkd Hkn]%elem_of_difference. destruct (decide (k = bp)) as [->|Hkb].
    + rewrite fn_lookup_insert, !fn_lookup_insert_ne by (unfold HDR in *; set_solver by lia). done.
    + rewrite fn_lookup_insert_ne by done. destruct (decide (k = t)) as [->|Hkt].
      * by rewrite fn_lookup_insert.
      * rewrite !fn_lookup_insert_ne by done. apply Hext; set_solver.
  - eapply ring_ext; [|apply (ring_insert _ _ t bp Hbd Hr Hpre)].
    intros k Hkd. destruct (decide (k = t)) as [->|Hkt]; [by rewrite fn_lookup_insert|].
    rewrite fn_lookup_insert_ne by done. destruct (decide (k = bp)) as [->|Hkb].
    + by rewrite fn_lookup_insert.
    + rewrite fn_lookup_insert_ne by done. apply Hext; set_solver.
Qed.

Lemma free_D k v : D !! k = Some v ↔ F !! k = Some v ∧ (jn = true → k ≠ np).
Proof using All. unfold D. destruct jn; rewrite ?lookup_delete_Some; naive_solver. Qed.

Lemma free_heap : heap_ok u' F' (delete bp A).
Proof using All.
  pose proof free_around as Har. destruct free_sizes as (He & Hbe & Hj & Hnj & Hy & _ & Hyb).
  pose proof free_ring as Hr. pose proof free_D as HD. pose proof free_other as Ho. pose proof used_other as Hu.
  pose proof free_mem as Hm. destruct free_m1 as (H1 & H2 & H3).
  destruct free_next as (ns & Hns & _ & _ & _ & _ & Hnb & _).
  assert (D ⊆ F) by (apply map_subseteq_spec; intros ? ? [? _]%HD; done).
  assert (delete bp A ⊆ A) by apply delete_subseteq.
  assert (D !! base = Some 0) as HDb.
  { apply HD. split; [apply Hk|]. intros E. destruct (Hj E) as [? _]. done. }
  assert (t ∈ dom D) as HtD.
  { apply elem_of_dom. exists ts. apply HD. split; [done|]. intros E. destruct (Hj E) as (_ & _ & ? & _).
    unfold HDR in *. lia. }
  assert (∀ k v, D !! k = Some v → k ≠ t → bp < k → bp + e * HDR < k) as Hafter.
  { intros k v [Hf Hne]%HD Hkt Hlt. specialize (Ho k v Hf Hkt).
    destruct jn eqn:Ej.
    - destruct (Hj eq_refl) as (_ & Hnp & ? & -> & ?). specialize (Hne eq_refl).
      pose proof (ho_gap _ _ _ Hk _ _ _ _ Hnp Hf). unfold HDR in *. lia.
    - destruct (Hnj eq_refl) as [-> Hnp].
      destruct (ho_ring _ _ _ Hk t ltac:(apply elem_of_dom; eauto)) as [_ [_ Hord]]. fold m np in Hord.
      assert (k ∈ dom F) as Hkd by (apply elem_of_dom; eauto).
      destruct Hord as [[? Hor]|[? Hor]]; pose proof (Hor _ Hkd); unfold HDR in *; lia. }
  assert (∀ b v, delete bp A !! b = Some v → sizep m2 b = v) as Has.
  { intros b v Hb. destruct (Hu b v Hb) as (HA & ? & ? & Hap). rewrite <- (ho_usize _ _ _ Hk _ _ HA).
    specialize (Hap _ _ Ht). apply Hm; unfold HDR in *; lia. }
  assert (∀ k v, D !! k = Some v → k ≠ t → sizep m2 k = v) as Hds.
  { intros k v [Hf _]%HD Hkt. rewrite <- (ho_fsize _ _ _ Hk _ _ Hf). specialize (Ho _ _ Hf Hkt).
    apply Hm; unfold HDR in *; lia. }
  assert (∀ b v, delete bp A !! b = Some v → b + v * HDR ≤ bp ∨ bp + e * HDR ≤ b) as Hbe'.
  { intros b v Hb. destruct (Hu b v Hb) as (HA & ? & ? & Hap). destruct jn eqn:Ej.
    - destruct (Hj eq_refl) as (_ & Hnp & ? & -> & _). specialize (Hap _ _ Hnp). unfold HDR in *. lia.
    - destruct (Hnj eq_refl) as [-> _]. lia. }
  unfold F'. destruct jp eqn:Ej.
  - pose proof (proj1 (bool_decide_eq_true _) Ej) as Ej'. assert (t ≠ base) by (unfold HDR in *; lia).
    apply (heap_put u u' F A); try done.
    + unfold block, HDR in *. lia.
    + intros k v HDk Hkt. pose proof (Hafter _ _ HDk Hkt). apply HD in HDk as [Hf _].
      specialize (Ho _ _ Hf Hkt). unfold HDR in *. lia.
    + intros b v Hb. specialize (Hbe' _ _ Hb). destruct (Hu b v Hb) as (_ & ? & _ & Hap).
      specialize (Hap _ _ Ht). unfold HDR in *. lia.
    + cbn. set_solver.
    + cbn. unfold m2, sizep.
      rewrite ld32_st32_ne by lia. rewrite ld32_st32_eq. apply u32_small. lia.
  - pose proof (proj1 (bool_decide_eq_false _) Ej) as Ej'. apply (heap_put u u' F A); try done.
    + unfold HDR in *. lia.
    + unfold block, HDR in *. lia.
    + intros k v HDk Hkb. pose proof (Hafter _ _ HDk). apply HD in HDk as [Hf _].
      destruct (decide (k = t)) as [->|Hkt].
      * assert (v = ts) as -> by congruence. unfold HDR in *. lia.
      * specialize (Ho _ _ Hf Hkt). unfold HDR in *. lia.
    + cbn. set_solver.
    + intros k v HDk Hkb. destruct (decide (k = t)) as [->|Hkt]; [|by apply Hds].
      apply HD in HDk as [Hf _]. assert (v = ts) as -> by congruence. cbn. unfold m2, sizep.
      by rewrite ld32_st32_ne by lia.
    + cbn. unfold m2, sizep.
      rewrite ld32_st32_ne by (unfold HDR in *; lia). done.
Qed.

Lemma free_covers x : covers F' x ↔ covers F x ∨ bp ≤ x < bp + n * HDR.
Proof using All.
  pose proof free_around as Har. destruct free_sizes as (He & Hbe & Hj & Hnj & _).
  pose proof free_D as HD. unfold covers. split.
  - intros (a & k & Hf & Hx).
    assert (F !! a = Some k ∧ a ≤ x < a + k * HDR ∨ t ≤ x < t + ts * HDR ∨ bp ≤ x < bp + e * HDR) as [?|[?|Hx']].
    { unfold F' in Hf. destruct jp eqn:Ej; apply lookup_insert_Some in Hf as [[<- <-]|[_ Hf]];
        try (apply HD in Hf as [? _]; by left); [|by right; right].
      apply bool_decide_eq_true in Ej. right. unfold HDR in *. lia. }
    + left. eauto.
    + left. eauto.
    + destruct jn.
      * destruct (Hj eq_refl) as (_ & Hnp & ? & -> & _). destruct (decide (x < bp + n * HDR)); [right; lia|left].
        exists np, (sizep m np). split; [done|]. unfold HDR in *. lia.
      * destruct (Hnj eq_refl) as [-> _]. right. done.
  - intros Hx. assert (bp ≤ x < bp + e * HDR ∨ t ≤ x < t + ts * HDR ∨
      ∃ a k, D !! a = Some k ∧ a ≠ t ∧ a ≠ bp ∧ a ≤ x < a + k * HDR) as Hc.
    { destruct Hx as [(a & k & Hf & Hx)|Hx].
      - destruct (decide (a = t)) as [->|Hat]; [right; left; congruence|].
        assert (a ≠ bp) by (pose proof (free_other a k Hf Hat); unfold HDR in *; lia).
        destruct (decide (jn = true ∧ a = np)) as [[Ej ->]|Hn].
        + destruct (Hj Ej) as (_ & Hnp & ? & -> & _). assert (k = sizep m np) as -> by congruence.
          left. unfold HDR in *. lia.
        + right; right. exists a, k. split; [|done]. apply HD. naive_solver.
      - left. unfold e, HDR in *. destruct jn; [destruct (Hj eq_refl) as (_ & _ & _ & _ & ?)|]; lia. }
    unfold F'. destruct jp eqn:Ej.
    + apply bool_decide_eq_true in Ej. destruct Hc as [?|[?|(a & k & ? & ? & ? & ?)]].
      1,2: exists t, (ts + e); rewrite lookup_insert_eq; split; [done|]; unfold HDR in *; lia.
      exists a, k. by rewrite lookup_insert_ne.
    + destruct Hc as [?|[?|(a & k & ? & ? & ? & ?)]].
      * exists bp, e. by rewrite lookup_insert_eq.
      * exists t, ts. rewrite lookup_insert_ne by (unfold HDR in *; lia). split; [|done].
        apply HD. split; [done|]. intros E. destruct (Hj E) as (_ & _ & ? & _). unfold HDR in *; lia.
      * exists a, k. by rewrite lookup_insert_ne.
Qed.

Lemma free_block_in : ∃ a k, F' !! a = Some k ∧ n ≤ k.
Proof using All.
  pose proof free_around as Har. destruct free_sizes as (He & Hbe & Hj & Hnj & _).
  assert (n ≤ e). { unfold e. destruct jn; [destruct (Hj eq_refl) as (_ & _ & _ & _ & ?)|]; lia. }
  unfold F'. destruct jp; [exists t, (ts + e)|exists bp, e]; rewrite lookup_insert_eq; (split; [done|lia]).
Qed.

Lemma free_count : (size F' ≤ S (size F))%nat.
Proof using All.
  assert (∀ k v, size (<[k := v]> D) ≤ S (size D))%nat as Hi.
  { intros k v. destruct (D !! k) eqn:E; [by rewrite map_size_insert_Some by eauto; lia|].
    by rewrite map_size_insert_None. }
  assert (size D ≤ size F)%nat. { apply map_subseteq_size. unfold D. destruct jn; [apply delete_subseteq|done]. }
  unfold F'. destruct jp; etrans; try apply Hi; lia.
Qed.

Lemma free_keeps x : covers (delete bp A) x → ldb m2 x = ldb m x.
Proof using All.
  intros (b & k & Hb & Hx). pose proof free_around as Har. destruct (used_other b k Hb) as (_ & _ & ? & Hap).
  specialize (Hap _ _ Ht). apply free_bytes; unfold HDR in *; lia.
Qed.
End free_proof.

Lemma free_ok `{umalloc_env} u F A bp n :
  heap_ok u F A → A !! bp = Some n →
  ∃ u' F', free (bp + HDR) u = Ret tt u' ∧ heap_ok u' F' (delete bp A) ∧ u_brk u' = u_brk u ∧
    (∀ x, covers F' x ↔ covers F x ∨ bp ≤ x < bp + n * HDR) ∧
    (∀ x, covers (delete bp A) x → ldb (u_mem u') x = ldb (u_mem u) x) ∧
    (size F' ≤ S (size F))%nat ∧ ∃ a k, F' !! a = Some k ∧ n ≤ k.
Proof.
  intros Hk Hbp. pose proof (used_range _ _ _ _ _ Hk Hbp) as Hr. pose proof (ho_base _ _ _ Hk) as Hb.
  destruct (precedes_exists (dom F) bp) as [t Ht].
  - apply elem_of_dom. eauto.
  - unfold HDR in *. lia.
  - intros [v Hv]%elem_of_dom. pose proof (ho_apart _ _ _ Hk _ _ _ _ Hv Hbp).
    pose proof (free_range _ _ _ _ _ Hk Hv). unfold HDR in *. destruct (decide (bp = base)); lia.
  - pose proof Ht as ([ts Hts]%elem_of_dom & _). do 2 eexists.
    split; [by eapply free_run|]. split; [by eapply free_heap|]. split; [done|].
    split; [by eapply free_covers|]. split; [by eapply free_keeps|].
    split; [by eapply free_count|by eapply free_block_in].
Qed.

(** ** [malloc] *)

Section take_proof.
Context `{umalloc_env} (u : ustate) (F A : gmap Z Z) (prevp p sz nu : Z).
Context (Hk : heap_ok u F A) (Hprev : prevp ∈ dom F) (Hnext : nextp (u_mem u) prevp = p).
Context (Hp : F !! p = Some sz) (Hnu : 1 ≤ nu ≤ sz).
Let m : gmap Z Z := u_mem u.

Lemma take_around :
  p ≠ base ∧ prevp < p ∧ prevp + HDR ≤ p ∧ 0 < prevp ∧ p + sz * HDR ≤ u_brk u ∧ base + HDR ≤ p ∧
  sz < 2 ^ 28 ∧ u_brk u ≤ KERNBASE.
Proof.
  pose proof (free_range _ _ _ _ _ Hk Hp). pose proof (ho_addr _ _ _ Hk).
  assert (p ≠ base) as Hpb by (intros ->; lia). destruct (ho_ring _ _ _ Hk _ Hprev) as [_ [_ Hord]].
  rewrite Hnext in Hord. apply elem_of_dom in Hprev as [v Hv]. pose proof (free_range _ _ _ _ _ Hk Hv).
  pose proof (ho_gap _ _ _ Hk _ _ _ _ Hv Hp). unfold HDR in *.
  destruct Hord as [[? _]|[? _]]; [|done]. destruct (decide (prevp = base)); lia.
Qed.

(** The block is unlinked. *)
Lemma take_whole : nu = sz →
  let u' := u <| u_mem := st32 m prevp (nextp m p) |> <| freep := prevp |> in
  malloc_take nu prevp p sz u = Ret (p + HDR) u' ∧ heap_ok u' (delete p F) (<[p := nu]> A).
Proof using All.
  intros Heq u'. pose proof take_around as Har. unfold HDR, KERNBASE in Har.
  assert (∀ k v, F !! k = Some v → k ≠ prevp → k + HDR ≤ prevp ∨ prevp + HDR ≤ k) as Hpa.
  { intros k v Hv Hne. pose proof (free_range _ _ _ _ _ Hk Hv). apply elem_of_dom in Hprev as [w Hw].
    pose proof (free_range _ _ _ _ _ Hk Hw).
    pose proof (ho_gap _ _ _ Hk _ _ _ _ Hv Hw). pose proof (ho_gap _ _ _ Hk _ _ _ _ Hw Hv). unfold HDR in *.
    destruct (decide (prevp = base)), (decide (k = base)); lia. }
  assert (∀ b v, A !! b = Some v → b + HDR ≤ prevp ∨ prevp + HDR ≤ b) as Hua.
  { intros b v Hv. pose proof (used_range _ _ _ _ _ Hk Hv). apply elem_of_dom in Hprev as [w Hw].
    pose proof (free_range _ _ _ _ _ Hk Hw). pose proof (ho_apart _ _ _ Hk _ _ _ _ Hw Hv).
    unfold HDR in *. destruct (decide (prevp = base)); lia. }
  assert (nextp m p ∈ dom F) as [nv Hnv]%elem_of_dom.
  { apply (ho_ring _ _ _ Hk). apply elem_of_dom. eauto. }
  pose proof (free_range _ _ _ _ _ Hk Hnv) as Hnr.
  split.
  - unfold malloc_take. rewrite (proj2 (Z.eqb_eq sz nu)) by done. unfold hdr_ptr, set_ptr, bind.
    rewrite uload_in by lia. cbn [obind]. rewrite ustore_in by lia. cbn -[st32 ld32].
    rewrite u32_small by (unfold HDR; lia). done.
  - pose proof (ho_ring _ _ _ Hk) as Hring. fold m in Hring.
    constructor; unfold u'; cbn -[st32]; rewrite ?dom_delete_L.
    + rewrite lookup_delete_ne by lia. apply Hk.
    + apply Hk.
    + set_solver by lia.
    + intros a n [_ ?]%lookup_delete_Some. by eapply Hk.
    + intros a n [[<- <-]|[_ ?]]%lookup_insert_Some; [unfold block, HDR; lia|by eapply Hk].
    + intros a n b k [_ ?]%lookup_delete_Some [_ ?]%lookup_delete_Some. by eapply Hk.
    + intros a n b k [? Ha]%lookup_delete_Some [[<- <-]|[_ ?]]%lookup_insert_Some; [|by eapply Hk].
      pose proof (ho_gap _ _ _ Hk _ _ _ _ Ha Hp). pose proof (ho_gap _ _ _ Hk _ _ _ _ Hp Ha). lia.
    + intros a n b k [[<- <-]|[? Ha]]%lookup_insert_Some [[<- <-]|[_ Hb]]%lookup_insert_Some Hlt;
        [lia| | |by eapply Hk].
      * pose proof (ho_apart _ _ _ Hk _ _ _ _ Hp Hb). pose proof (used_range _ _ _ _ _ Hk Hb). unfold HDR in *. lia.
      * pose proof (ho_apart _ _ _ Hk _ _ _ _ Hp Ha). pose proof (used_range _ _ _ _ _ Hk Ha). unfold HDR in *. lia.
    + intros a n [_ Ha]%lookup_delete_Some. rewrite <- (ho_fsize _ _ _ Hk _ _ Ha). unfold sizep.
      apply ld32_st32_ne. destruct (decide (a = prevp)) as [->|Hne]; [lia|]. specialize (Hpa _ _ Ha Hne).
      unfold HDR in *. lia.
    + intros a n [[<- <-]|[_ Ha]]%lookup_insert_Some; unfold sizep; rewrite ld32_st32_ne.
      * rewrite Heq. by apply (ho_fsize _ _ _ Hk).
      * lia.
      * by apply (ho_usize _ _ _ Hk).
      * specialize (Hua _ _ Ha). unfold HDR in *. lia.
    + assert (nextp m prevp ≠ base) as Hnb by (unfold m; rewrite Hnext; lia).
      pose proof (ring_delete _ _ prevp Hring Hprev Hnb) as Hr. rewrite !(Hnext : nextp m prevp = p) in Hr.
      eapply ring_ext; [|exact Hr]. intros a [[v Ha]%elem_of_dom _]%elem_of_difference.
      destruct (decide (a = prevp)) as [->|Hne].
      * rewrite fn_lookup_insert. unfold nextp at 1. rewrite ld32_st32_eq. apply u32_small. unfold HDR, KERNBASE in *.
        fold m. lia.
      * rewrite fn_lookup_insert_ne by done. unfold nextp. apply ld32_st32_ne. specialize (Hpa _ _ Ha Hne).
        unfold HDR in *. lia.
Qed.

(** The tail of the block is cut off. *)
Lemma take_tail : nu < sz →
  let q := p + (sz - nu) * HDR in
  let u' := u <| u_mem := st32 (st32 m (p + 4) (sz - nu)) (q + 4) nu |> <| freep := prevp |> in
  malloc_take nu prevp p sz u = Ret (q + HDR) u' ∧ heap_ok u' (<[p := sz - nu]> F) (<[q := nu]> A).
Proof using All.
  intros Hlt q u'. pose proof take_around as Har. unfold HDR, KERNBASE in Har.
  assert (p + HDR ≤ q ∧ q + nu * HDR = p + sz * HDR) as Hq by (unfold q, HDR; lia). unfold HDR in Hq.
  assert (∀ k v, F !! k = Some v → k ≠ p → k + HDR ≤ p ∨ p + sz * HDR < k) as Hpa.
  { intros k v Hv Hne. pose proof (free_range _ _ _ _ _ Hk Hv).
    pose proof (ho_gap _ _ _ Hk _ _ _ _ Hv Hp). pose proof (ho_gap _ _ _ Hk _ _ _ _ Hp Hv). unfold HDR in *.
    destruct (decide (k = base)); lia. }
  assert (∀ b v, A !! b = Some v → b + v * HDR ≤ p ∨ p + sz * HDR ≤ b) as Hua.
  { intros b v Hv. pose proof (ho_apart _ _ _ Hk _ _ _ _ Hp Hv). unfold HDR in *. lia. }
  split.
  - unfold malloc_take. rewrite (proj2 (Z.eqb_neq sz nu)) by lia. unfold set_size, bind.
    rewrite ustore_in by lia. cbn [obind]. rewrite (u32_small (p + _)) by (fold q; unfold HDR; lia). fold q.
    rewrite ustore_in by (cbn; lia). cbn -[st32 ld32]. rewrite u32_small by (unfold HDR; lia). done.
  - pose proof (ho_ring _ _ _ Hk) as Hring. fold m in Hring.
    assert (dom (<[p := sz - nu]> F) = dom F) as Hdom.
    { rewrite dom_insert_L. assert (p ∈ dom F) by (apply elem_of_dom; eauto). set_solver. }
    constructor; unfold u'; cbn -[st32]; rewrite ?Hdom.
    + rewrite lookup_insert_ne by lia. apply Hk.
    + apply Hk.
    + done.
    + intros a n [[<- <-]|[_ ?]]%lookup_insert_Some; [right; unfold block, HDR; lia|by eapply Hk].
    + intros a n [[<- <-]|[_ ?]]%lookup_insert_Some; [unfold block, HDR; lia|by eapply Hk].
    + intros a n b k [[<- <-]|[? Ha]]%lookup_insert_Some [[<- <-]|[? Hb]]%lookup_insert_Some; [lia| | |by eapply Hk].
      * pose proof (ho_gap _ _ _ Hk _ _ _ _ Hp Hb). unfold HDR in *. lia.
      * by eapply Hk.
    + intros a n b k [[<- <-]|[? Ha]]%lookup_insert_Some [[<- <-]|[_ Hb]]%lookup_insert_Some.
      * unfold HDR. lia.
      * specialize (Hua _ _ Hb). unfold HDR in *. lia.
      * pose proof (ho_gap _ _ _ Hk _ _ _ _ Ha Hp). specialize (Hpa _ _ Ha). unfold HDR in *. lia.
      * by eapply Hk.
    + intros a n b k [[<- <-]|[? Ha]]%lookup_insert_Some [[<- <-]|[_ Hb]]%lookup_insert_Some Hab;
        [lia| | |by eapply Hk].
      * specialize (Hua _ _ Hb). pose proof (used_range _ _ _ _ _ Hk Hb). unfold HDR in *. lia.
      * specialize (Hua _ _ Ha). pose proof (used_range _ _ _ _ _ Hk Ha). unfold HDR in *. lia.
    + intros a n [[<- <-]|[? Ha]]%lookup_insert_Some; unfold sizep; rewrite ld32_st32_ne.
      * rewrite ld32_st32_eq. apply u32_small. lia.
      * lia.
      * destruct (decide (a = p)) as [->|Hne]; [congruence|]. specialize (Hpa _ _ Ha Hne). unfold HDR in *.
        rewrite ld32_st32_ne by lia. by apply (ho_fsize _ _ _ Hk).
      * destruct (decide (a = p)) as [->|Hne]; [lia|]. specialize (Hpa _ _ Ha Hne). unfold HDR in *. lia.
    + intros a n [[<- <-]|[_ Ha]]%lookup_insert_Some; unfold sizep.
      * rewrite ld32_st32_eq. apply u32_small. lia.
      * specialize (Hua _ _ Ha). pose proof (used_range _ _ _ _ _ Hk Ha). unfold HDR in *.
        rewrite !ld32_st32_ne by lia. by apply (ho_usize _ _ _ Hk).
    + eapply ring_ext; [|exact Hring]. intros a [v Ha]%elem_of_dom. unfold nextp.
      destruct (decide (a = p)) as [->|Hne]; [by rewrite !ld32_st32_ne by lia|].
      specialize (Hpa _ _ Ha Hne). unfold HDR in *. by rewrite !ld32_st32_ne by lia.
Qed.

Lemma take_ok : ∃ u' F' q,
  malloc_take nu prevp p sz u = Ret (q + HDR) u' ∧ heap_ok u' F' (<[q := nu]> A) ∧ A !! q = None ∧
  u_brk u' = u_brk u ∧ (∀ x, covers F x ↔ covers F' x ∨ q ≤ x < q + nu * HDR) ∧
  ∀ x, covers A x → ldb (u_mem u') x = ldb (u_mem u) x.
Proof using All.
  pose proof take_around as Har.
  assert (∀ q, p ≤ q < p + sz * HDR → A !! q = None) as HA.
  { intros q Hq. apply eq_None_not_Some. intros [v Hv]. pose proof (used_range _ _ _ _ _ Hk Hv).
    pose proof (ho_apart _ _ _ Hk _ _ _ _ Hp Hv). unfold HDR in *. lia. }
  assert (∀ x b v, A !! b = Some v → b ≤ x < b + v * HDR → ¬ p ≤ x < p + sz * HDR) as Hxa.
  { intros x b v Hv Hx. pose proof (ho_apart _ _ _ Hk _ _ _ _ Hp Hv). unfold HDR in *. lia. }
  destruct (decide (nu = sz)) as [Heq|Hne].
  - destruct (take_whole Heq) as [Hrun Hok]. do 3 eexists. split; [exact Hrun|]. split; [exact Hok|].
    split; [apply HA; unfold HDR; lia|]. split; [done|]. split.
    + intros x. unfold covers. setoid_rewrite lookup_delete_Some. split.
      * intros (a & v & Ha & Hx). destruct (decide (p = a)) as [<-|]; [|left; by exists a, v].
        right. assert (v = sz) as -> by congruence. by rewrite Heq.
      * intros [(a & v & [_ ?] & ?)|Hx]; [eauto|]. exists p, sz. split; [done|]. by rewrite <- Heq.
    + intros x (b & v & Hb & Hx). cbn -[st32]. apply ldb_st32_ne.
      apply elem_of_dom in Hprev as [w Hw]. pose proof (ho_apart _ _ _ Hk _ _ _ _ Hw Hb).
      pose proof (free_range _ _ _ _ _ Hk Hw). pose proof (used_range _ _ _ _ _ Hk Hb). unfold HDR in *.
      destruct (decide (prevp = base)); lia.
  - assert (nu < sz) as Hlt by lia. destruct (take_tail Hlt) as [Hrun Hok]. do 3 eexists.
    split; [exact Hrun|]. split; [exact Hok|].
    split; [apply HA; unfold HDR; lia|]. split; [done|]. split.
    + intros x. unfold covers. setoid_rewrite lookup_insert_Some. split.
      * intros (a & v & Ha & Hx). destruct (decide (p = a)) as [<-|]; [|left; exists a, v; by eauto].
        assert (v = sz) as -> by congruence. destruct (decide (x < p + (sz - nu) * HDR)).
        -- left. exists p, (sz - nu). split; [by left|lia].
        -- right. unfold HDR in *. lia.
      * intros [(a & v & [[<- <-]|[_ ?]] & ?)|Hx]; [|eauto|]; exists p, sz; (split; [done|]); unfold HDR in *; lia.
    + intros x (b & v & Hb & Hx). cbn -[st32]. specialize (Hxa x b v Hb Hx). unfold HDR in *.
      by rewrite !ldb_st32_ne by lia.
Qed.
End take_proof.

Section malloc_proof.
Context `{umalloc_env} `{Hsb : sbrk_sys} `{!sbrk_laws}.

(** Memory of the process may be added to the heap as a used block. *)
Lemma heap_grow u F A m k :
  heap_ok u F A → 1 ≤ k → u_brk u + k * HDR ≤ KERNBASE →
  (∀ a, a < u_brk u → ldb m a = ldb (u_mem u) a) →
  heap_ok (u <| u_brk ::= λ b, b + k * HDR |> <| u_mem := st32 m (u_brk u + 4) k |>) F (<[u_brk u := k]> A).
Proof.
  intros Hk Hk1 Hbrk Hm. pose proof (ho_addr _ _ _ Hk) as Had.
  assert (∀ a, a + 4 ≤ u_brk u → ld32 (st32 m (u_brk u + 4) k) a = ld32 (u_mem u) a) as Hld.
  { intros a Ha. rewrite ld32_st32_ne by lia. unfold ld32. by rewrite !Hm by lia. }
  unfold HDR in *. constructor; cbn -[st32].
  - apply Hk.
  - unfold HDR. lia.
  - apply Hk.
  - intros a n Ha. destruct (ho_free _ _ _ Hk _ _ Ha) as [->|?]; [by left|right]. unfold block in *. lia.
  - intros a n [[<- <-]|[_ Ha]]%lookup_insert_Some; [unfold block, HDR; lia|].
    pose proof (ho_used _ _ _ Hk _ _ Ha). unfold block in *. lia.
  - apply Hk.
  - intros a n b v Ha [[<- <-]|[_ Hb]]%lookup_insert_Some; [|by eapply Hk].
    pose proof (free_range _ _ _ _ _ Hk Ha). lia.
  - intros a n b v [[<- <-]|[_ Ha]]%lookup_insert_Some [[<- <-]|[_ Hb]]%lookup_insert_Some ?; [lia| | |by eapply Hk].
    + pose proof (used_range _ _ _ _ _ Hk Hb). unfold HDR in *. lia.
    + pose proof (used_range _ _ _ _ _ Hk Ha). unfold HDR in *. lia.
  - intros a n Ha. pose proof (free_range _ _ _ _ _ Hk Ha). unfold sizep, HDR in *. rewrite Hld by lia.
    by apply (ho_fsize _ _ _ Hk).
  - intros a n [[<- <-]|[_ Ha]]%lookup_insert_Some; unfold sizep.
    + rewrite ld32_st32_eq. apply u32_small. unfold KERNBASE in *. lia.
    + pose proof (used_range _ _ _ _ _ Hk Ha). unfold HDR in *. rewrite Hld by lia. by apply (ho_usize _ _ _ Hk).
  - eapply ring_ext; [|apply Hk]. intros a [v Ha]%elem_of_dom. pose proof (free_range _ _ _ _ _ Hk Ha).
    unfold HDR in *. apply Hld. lia.
Qed.

Lemma morecore_ok u F A nu :
  heap_ok u F A → 1 ≤ nu → nu * HDR < 2 ^ 31 →
  morecore nu u = Ret 0 u ∨
  ∃ u' F' k, morecore nu u = Ret (freep u') u' ∧ heap_ok u' F' A ∧ nu ≤ k ∧ u_brk u' = u_brk u + k * HDR ∧
    (∀ x, covers F' x ↔ covers F x ∨ u_brk u ≤ x < u_brk u') ∧
    (∀ x, covers A x → ldb (u_mem u') x = ldb (u_mem u) x) ∧
    (size F' ≤ S (size F))%nat ∧ ∃ a v, F' !! a = Some v ∧ nu ≤ v.
Proof.
  intros Hk Hnu Hlt. unfold morecore. pose proof (ho_addr _ _ _ Hk) as Had.
  set (k := if nu <? 4096 then 4096 else nu).
  assert (nu ≤ k ∧ k * HDR < 2 ^ 31 ∧ 1 ≤ k) as (Hk1 & Hk2 & Hk3).
  { unfold k, HDR in *. destruct (Z.ltb_spec nu 4096); lia. }
  rewrite s32_small by (unfold HDR in *; lia).
  destruct (sbrk_spec (k * HDR) u) as [Hf|(m & Hr & Hb & Hm)]; [unfold HDR in *; lia|unfold HDR in *; lia| |].
  - left. step Hf. by rewrite Z.eqb_refl.
  - right. step Hr. unfold KERNBASE, HDR in Had, Hb.
    rewrite (proj2 (Z.eqb_neq _ MINUS1)) by (unfold MINUS1; lia). unfold set_size.
    erewrite bind_ret; [|apply ustore_in; cbn; unfold HDR; lia]. cbv beta. rewrite u32_small by (unfold HDR; lia).
    pose proof (heap_grow u F A m k Hk Hk3 Hb Hm) as Hg.
    destruct (free_ok _ _ _ (u_brk u) k Hg) as (u' & F' & Hrun & Hok & Hbrk & Hcov & Hkeep & Hsz & a & v & Ha & Hv);
      [by rewrite lookup_insert_eq|].
    assert (A !! u_brk u = None) as HAn.
    { apply eq_None_not_Some. intros [w Hw]. pose proof (used_range _ _ _ _ _ Hk Hw). unfold HDR in *. lia. }
    rewrite delete_insert_id in Hok, Hkeep by done.
    step Hrun. exists u', F', k. split; [done|]. split; [done|]. split; [done|]. split; [done|].
    split; [|split; [|split; [done|exists a, v; split; [done|lia]]]].
    + intros x. rewrite Hcov, Hbrk. done.
    + intros x Hx. rewrite Hkeep by done. cbn -[st32]. destruct Hx as (b & w & Hw & Hx).
      pose proof (used_range _ _ _ _ _ Hk Hw) as Hr'. unfold HDR in Hr', Hx. rewrite ldb_st32_ne by lia. apply Hm. lia.
Qed.

Lemma malloc_loop_S n u F A nu prevp p sz :
  heap_ok u F A → F !! p = Some sz →
  malloc_loop (S n) nu prevp p u =
    if nu <=? sz then malloc_take nu prevp p sz u
    else if p =? freep u then
      (let* p' := morecore nu in
       if p' =? 0 then ret 0 else
       let* np := hdr_ptr p' in malloc_loop n nu p' np) u
    else malloc_loop n nu p (nextp (u_mem u) p) u.
Proof.
  intros Hk Hsz. cbn [malloc_loop]. destruct (free_range _ _ _ _ _ Hk Hsz) as (? & Hr & _). unfold HDR in Hr.
  unfold hdr_size. step (uload_in (p + 4) u ltac:(lia) ltac:(lia)).
  change (ld32 (u_mem u) (p + 4)) with (sizep (u_mem u) p). rewrite (ho_fsize _ _ _ Hk _ _ Hsz).
  destruct (nu <=? sz); [done|]. mstep. destruct (p =? freep u); [done|].
  mstep. cbn [andb]. unfold hdr_ptr. step (uload_in p u ltac:(lia) ltac:(lia)). done.
Qed.

(** The loop up to the first block that is large enough, or once round. *)
Lemma malloc_search n u F A nu prevp p :
  heap_ok u F A → prevp ∈ dom F → nextp (u_mem u) prevp = p →
  (∀ k v, F !! k = Some v → k ≠ p → k ∉ ahead (dom F) p (freep u) → v < nu) →
  (togo (dom F) p (freep u) < n)%nat →
  (∃ pr q sz, pr ∈ dom F ∧ nextp (u_mem u) pr = q ∧ F !! q = Some sz ∧ nu ≤ sz ∧
     malloc_loop n nu prevp p u = malloc_take nu pr q sz u) ∨
  (∀ k v, F !! k = Some v → v < nu) ∧
  malloc_loop n nu prevp p u =
    (let* p' := morecore nu in
     if p' =? 0 then ret 0 else
     let* np := hdr_ptr p' in malloc_loop (n - togo (dom F) p (freep u) - 1) nu p' np) u.
Proof.
  intros Hk. pose proof (ho_ring _ _ _ Hk) as Hring. pose proof (ho_freep _ _ _ Hk) as Hfd.
  revert prevp p. induction n as [|n IH]; intros prevp p Hprev Hnext Hsmall Hn; [lia|].
  assert (p ∈ dom F) as Hpd. { rewrite <- Hnext. by destruct (Hring _ Hprev) as [_ [? _]]. }
  destruct (proj1 (elem_of_dom F p) Hpd) as [sz Hsz].
  rewrite (malloc_loop_S n u F A nu prevp p sz Hk Hsz).
  destruct (Z.leb_spec nu sz) as [Hle|Hgt]; [left; by exists prevp, p, sz|].
  destruct (Z.eqb_spec p (freep u)) as [Heq|Hne].
  - right. split.
    + intros k v Hv. destruct (decide (k = p)) as [->|]; [congruence|]. apply (Hsmall k); [done..|].
      rewrite Heq, elem_of_ahead. lia.
    + assert (togo (dom F) p (freep u) = 0%nat) as ->.
      { rewrite Heq. apply size_empty_iff. intros k. rewrite elem_of_ahead. split; [intros [_ ?]; lia|set_solver]. }
      replace (S n - 0 - 1)%nat with n by lia. done.
  - pose proof (togo_next _ _ _ _ Hring Hpd Hfd Hne) as Hlt.
    assert (togo (dom F) p (freep u) = S (togo (dom F) (nextp (u_mem u) p) (freep u))) as Htogo.
    { unfold togo. replace (ahead (dom F) p (freep u))
        with ({[nextp (u_mem u) p]} ∪ ahead (dom F) (nextp (u_mem u) p) (freep u)).
      - rewrite size_union, size_singleton; [done|]. intros k ->%elem_of_singleton.
        rewrite elem_of_ahead. lia.
      - apply set_eq. intros k. rewrite (ahead_next _ _ _ _ k Hring Hpd Hfd Hne). set_solver. }
    rewrite Htogo. cbn [Nat.sub]. apply IH; [done|done| |lia].
    intros k v Hv Hnk Hna. destruct (decide (k = p)) as [->|Hkp]; [congruence|]. apply (Hsmall k); [done..|].
    rewrite (ahead_next _ _ _ _ k Hring Hpd Hfd Hne). tauto.
Qed.

(** The whole list lies ahead of its first block after [freep]. *)
Lemma ahead_start u F A k : heap_ok u F A → k ∈ dom F → k ≠ nextp (u_mem u) (freep u) →
  k ∈ ahead (dom F) (nextp (u_mem u) (freep u)) (freep u).
Proof.
  intros Hk Hkd Hne. pose proof (ho_ring _ _ _ Hk) as Hring. pose proof (ho_freep _ _ _ Hk) as Hfd.
  destruct (Hring _ Hfd) as [? [_ Hord]]. destruct (Hring _ Hkd) as [? _]. apply elem_of_ahead. split; [done|].
  destruct Hord as [[? Ho]|[? Ho]]; pose proof (Ho _ Hkd); lia.
Qed.

Lemma malloc_loop_ok u F A nu :
  heap_ok u F A → 1 ≤ nu → nu * HDR < 2 ^ 31 →
  ∃ r u', malloc_loop (2 * heap_bound u + 1) nu (freep u) (nextp (u_mem u) (freep u)) u = Ret r u' ∧
  (r = 0 ∧ u' = u ∧ (∀ a k, F !! a = Some k → k < nu) ∨
   ∃ F' q, r = q + HDR ∧ heap_ok u' F' (<[q := nu]> A) ∧ A !! q = None ∧ u_brk u ≤ u_brk u' ∧
     (∀ x, covers F' x ∨ q ≤ x < q + nu * HDR ↔ covers F x ∨ u_brk u ≤ x < u_brk u') ∧
     ∀ x, covers A x → ldb (u_mem u') x = ldb (u_mem u) x).
Proof.
  intros Hk Hnu Hlt. pose proof (free_count_bound _ _ _ Hk) as Hb. pose proof (ho_freep _ _ _ Hk) as Hfd.
  assert (nextp (u_mem u) (freep u) ∈ dom F) as Hnd by (by destruct (ho_ring _ _ _ Hk _ Hfd) as [_ [? _]]).
  pose proof (togo_lt (dom F) _ (freep u) Hnd) as Ht. rewrite size_dom in Ht.
  destruct (malloc_search (2 * heap_bound u + 1) u F A nu (freep u) _ Hk Hfd eq_refl)
    as [(pr & q & sz & Hpr & Hq & Hsz & Hle & ->)|[Hsmall ->]].
  - intros k v Hv Hne []. eapply ahead_start; [done|by apply elem_of_dom; eauto|done].
  - lia.
  - destruct (take_ok u F A pr q sz nu Hk Hpr Hq Hsz ltac:(lia)) as (u' & F' & a & Hrun & Hok & Hn & Hbrk & Hcov & Hkeep).
    do 2 eexists. split; [exact Hrun|]. right. exists F', a. rewrite Hbrk. split_and!; try done.
    intros x. rewrite Hcov. intuition lia.
  - destruct (morecore_ok u F A nu Hk Hnu Hlt) as [Hm|(u1 & F1 & k & Hm & Hk1 & Hnk & Hbrk1 & Hcov1 & Hkeep1 & Hsz1 & a & v & Ha & Hv)].
    { step Hm. do 2 eexists. split; [done|]. by left. }
    step Hm. pose proof (ho_freep _ _ _ Hk1) as Hfd1. destruct (proj1 (elem_of_dom F1 _) Hfd1) as [fs Hfs].
    destruct (free_range _ _ _ _ _ Hk1 Hfs) as (? & Hr & _). unfold HDR in Hr.
    rewrite (proj2 (Z.eqb_neq (freep u1) 0)) by lia. unfold hdr_ptr. step (uload_in (freep u1) u1 ltac:(lia) ltac:(lia)).
    assert (nextp (u_mem u1) (freep u1) ∈ dom F1) as Hnd1 by (by destruct (ho_ring _ _ _ Hk1 _ Hfd1) as [_ [? _]]).
    pose proof (togo_lt (dom F1) _ (freep u1) Hnd1) as Ht1. rewrite size_dom in Ht1.
    edestruct (malloc_search (2 * heap_bound u + 1 - togo (dom F) (nextp (u_mem u) (freep u)) (freep u) - 1) u1 F1 A nu (freep u1) _ Hk1 Hfd1 eq_refl)
      as [(pr & q & sz & Hpr & Hq & Hsz & Hle & Hrun1)|[Hsmall1 _]].
    + intros j w Hw Hne []. eapply ahead_start; [done|by apply elem_of_dom; eauto|done].
    + lia.
    + destruct (take_ok u1 F1 A pr q sz nu Hk1 Hpr Hq Hsz ltac:(lia)) as (u' & F' & b & Hrun & Hok & Hn & Hbrk & Hcov & Hkeep).
      do 2 eexists. split; [etrans; [exact Hrun1|exact Hrun]|]. right. exists F', b. rewrite Hbrk.
      split_and!; try done; [unfold HDR in *; lia| |].
      * intros x. rewrite <- Hcov, Hcov1. done.
      * intros x Hx. by rewrite Hkeep, Hkeep1.
    + specialize (Hsmall1 _ _ Ha). lia.
Qed.

(** Before the first call: [freep] is null. *)
Definition heap_new (u : ustate) : Prop :=
  freep u = 0 ∧ 0 < base ∧ base + HDR ≤ u_brk u ∧ u_brk u ≤ KERNBASE.
Definition heap_ready (u : ustate) (F A : gmap Z Z) : Prop :=
  heap_ok u F A ∨ heap_new u ∧ F = {[base := 0]} ∧ A = ∅.

Lemma heap_init u : heap_new u →
  heap_ok (u <| u_mem ::= λ m, st32 (st32 m base base) (base + 4) 0 |> <| freep := base |>) {[base := 0]} ∅.
Proof.
  intros (Hf & Hb & He & Hkb). unfold HDR, KERNBASE in *.
  constructor; cbn -[st32 insert]; rewrite ?dom_singleton_L.
  - by rewrite lookup_singleton_eq.
  - unfold HDR, KERNBASE. lia.
  - set_solver.
  - intros a n [<- <-]%lookup_singleton_Some. by left.
  - done.
  - intros a n b k [<- <-]%lookup_singleton_Some [<- <-]%lookup_singleton_Some. lia.
  - done.
  - done.
  - intros a n [<- <-]%lookup_singleton_Some. unfold sizep. by rewrite ld32_st32_eq.
  - done.
  - intros a ->%elem_of_singleton. split; [lia|]. unfold nextp. rewrite ld32_st32_ne, ld32_st32_eq by lia.
    rewrite u32_small by lia. split; [set_solver|]. right. set_solver by lia.
Qed.

(** The first lines of [malloc], up to the search. *)
Lemma malloc_start u F A nbytes : heap_ready u F A → ∃ u1,
  malloc nbytes u =
    malloc_loop (2 * heap_bound u1 + 1) (units nbytes) (freep u1) (nextp (u_mem u1) (freep u1)) u1 ∧
  heap_ok u1 F A ∧ u_brk u1 = u_brk u ∧ ∀ x, covers A x → ldb (u_mem u1) x = ldb (u_mem u) x.
Proof.
  intros [Hk|(Hn & -> & ->)].
  - exists u. split; [|done]. pose proof (ho_freep _ _ _ Hk) as [v Hv]%elem_of_dom.
    destruct (free_range _ _ _ _ _ Hk Hv) as (? & Hr & _). unfold HDR in Hr. unfold malloc. mstep.
    rewrite (proj2 (Z.eqb_neq (freep u) 0)) by lia. mstep. unfold hdr_ptr.
    step (uload_in (freep u) u ltac:(lia) ltac:(lia)). by mstep.
  - eexists. split; [|split; [by apply heap_init|split; [done|]]].
    + destruct Hn as (Hf & ? & Hr & ?). unfold HDR in Hr. unfold malloc. mstep. rewrite Hf, Z.eqb_refl.
      unfold set_ptr, set_size, hdr_ptr.
      erewrite bind_ret; [|unfold bind; rewrite ustore_in by lia; cbn [obind set_freep modify];
        rewrite ustore_in by (cbn; lia); reflexivity].
      cbv beta. erewrite bind_ret; [|apply uload_in; cbn; lia]. cbv beta. by mstep.
    + intros x (a & n & Ha & _). done.
Qed.

Lemma malloc_ok u F A nbytes :
  heap_ready u F A → 1 ≤ units nbytes → units nbytes * HDR < 2 ^ 31 →
  ∃ r u', malloc nbytes u = Ret r u' ∧
  (r = 0 ∧ heap_ok u' F A ∧ u_brk u' = u_brk u ∧ (∀ a k, F !! a = Some k → k < units nbytes) ∧
     (∀ x, covers A x → ldb (u_mem u') x = ldb (u_mem u) x) ∨
   ∃ F' q, r = q + HDR ∧ heap_ok u' F' (<[q := units nbytes]> A) ∧ A !! q = None ∧ u_brk u ≤ u_brk u' ∧
     (∀ x, covers F' x ∨ q ≤ x < q + units nbytes * HDR ↔ covers F x ∨ u_brk u ≤ x < u_brk u') ∧
     ∀ x, covers A x → ldb (u_mem u') x = ldb (u_mem u) x).
Proof.
  intros Hr Hnu Hlt. destruct (malloc_start u F A nbytes Hr) as (u1 & -> & Hk & Hbrk & Hkeep).
  destruct (malloc_loop_ok u1 F A (units nbytes) Hk Hnu Hlt) as (r & u' & Hrun & Hres). exists r, u'. split; [done|].
  destruct Hres as [(-> & -> & Hs)|(F' & q & -> & Hok & Hn & Hb & Hcov & Hkeep')]; [by left|right].
  exists F', q. rewrite <- Hbrk. split_and!; try done. intros x Hx. by rewrite Hkeep', Hkeep.
Qed.

Lemma units_small nbytes : 0 ≤ nbytes ≤ 2 ^ 30 →
  1 ≤ units nbytes ∧ units nbytes * HDR < 2 ^ 31 ∧ nbytes ≤ (units nbytes - 1) * HDR.
Proof. intros Hn. unfold units, HDR. rewrite (u32_small (nbytes + 8 - 1)) by lia. rewrite u32_small by lia. lia. Qed.

(** Writes of the program to its own blocks. *)
Lemma heap_write u F A bp n x v :
  heap_ok u F A → A !! bp = Some n → bp + HDR ≤ x < bp + n * HDR →
  heap_ok (u <| u_mem ::= λ m, stb m x v |>) F A.
Proof.
  intros Hk Hbp Hx.
  assert (∀ a, a + 4 ≤ x ∨ x < a → ld32 (stb (u_mem u) x v) a = ld32 (u_mem u) a) as Hld.
  { intros a Ha. unfold ld32. by rewrite !ldb_stb_ne by lia. }
  assert (∀ a k, F !! a = Some k → a + HDR ≤ x ∨ x < a) as HF.
  { intros a k Ha. pose proof (ho_apart _ _ _ Hk _ _ _ _ Ha Hbp). pose proof (free_range _ _ _ _ _ Hk Ha).
    pose proof (used_range _ _ _ _ _ Hk Hbp). unfold HDR in *. destruct (decide (a = base)); lia. }
  destruct Hk as [? ? ? ? ? ? ? Hua Hfs Hus Hring]. constructor; cbn; try done.
  - intros a k Ha. rewrite <- (Hfs _ _ Ha). apply Hld. specialize (HF _ _ Ha). unfold HDR in *. lia.
  - intros a k Ha. rewrite <- (Hus _ _ Ha). apply Hld. pose proof (Hua _ _ _ _ Ha Hbp). pose proof (Hua _ _ _ _ Hbp Ha).
    assert (1 ≤ k) by (by destruct (ho_used0 _ _ Ha)). destruct (decide (a = bp)); unfold HDR in *; [subst|]; lia.
  - eapply ring_ext; [|done]. intros a [k Ha]%elem_of_dom. specialize (HF _ _ Ha). unfold HDR in *. apply Hld. lia.
Qed.

(** [malloc] with room for the request, or for which the process can grow,
    hands out a block that is large enough and overlaps no other; otherwise it
    returns null.  Every byte is then free or in use, or came with the growth of
    the process, and no block in use has changed. *)
Theorem malloc_correct u F A nbytes :
  heap_ready u F A → 0 ≤ nbytes ≤ 2 ^ 30 →
  ∃ r u', malloc nbytes u = Ret r u' ∧
  (r = 0 ∧ heap_ok u' F A ∧ u_brk u' = u_brk u ∧ (∀ a k, F !! a = Some k → (k - 1) * HDR < nbytes) ∧
     (∀ x, covers A x → ldb (u_mem u') x = ldb (u_mem u) x) ∨
   ∃ F' q n, r = q + HDR ∧ nbytes ≤ (n - 1) * HDR ∧ heap_ok u' F' (<[q := n]> A) ∧ A !! q = None ∧
     u_brk u ≤ u_brk u' ∧
     (∀ x, covers F' x ∨ q ≤ x < q + n * HDR ↔ covers F x ∨ u_brk u ≤ x < u_brk u') ∧
     ∀ x, covers A x → ldb (u_mem u') x = ldb (u_mem u) x).
Proof.
  intros Hr Hn. destruct (units_small _ Hn) as (H1 & H2 & H3).
  destruct (malloc_ok u F A nbytes Hr H1 H2) as (r & u' & Hrun & Hres). exists r, u'. split; [done|].
  destruct Hres as [(? & ? & ? & Hs & ?)|(F' & q & ? & ? & ? & ? & ? & ?)]; [left|right; by exists F', q, (units nbytes)].
  split_and!; try done. intros a k Ha. specialize (Hs _ _ Ha). unfold units, HDR in *.
  rewrite (u32_small (nbytes + 8 - 1)) in * by lia. rewrite u32_small in * by lia. lia.
Qed.

(** [free] of a block in use adds its bytes, and no others, to the free ones,
    which stay in blocks of which no two are adjacent. *)
Theorem free_correct u F A bp n :
  heap_ok u F A → A !! bp = Some n →
  ∃ u' F', free (bp + HDR) u = Ret tt u' ∧ heap_ok u' F' (delete bp A) ∧ u_brk u' = u_brk u ∧
    (∀ x, covers F' x ↔ covers F x ∨ bp ≤ x < bp + n * HDR) ∧
    (∀ x, covers (delete bp A) x → ldb (u_mem u') x = ldb (u_mem u) x).
Proof.
  intros Hk Hbp. destruct (free_ok u F A bp n Hk Hbp) as (u' & F' & ? & ? & ? & ? & ? & _). by exists u', F'.
Qed.

(** ** A program and its allocator *)

(** The program calls [malloc] and [free], and writes to the blocks it holds,
    which the second component lists. *)
Inductive hstep : ustate * gmap Z Z → ustate * gmap Z Z → Prop :=
| hs_malloc u A nbytes r u' :
    0 ≤ nbytes ≤ 2 ^ 30 → malloc nbytes u = Ret r u' →
    hstep (u, A) (u', if r =? 0 then A else <[r - HDR := units nbytes]> A)
| hs_free u A bp n u' :
    A !! bp = Some n → free (bp + HDR) u = Ret tt u' → hstep (u, A) (u', delete bp A)
| hs_write u A bp n x v :
    A !! bp = Some n → bp + HDR ≤ x < bp + n * HDR →
    hstep (u, A) (u <| u_mem ::= λ m, stb m x v |>, A).

Definition heap_inv (brk0 : Z) (c : ustate * gmap Z Z) : Prop :=
  ∃ F, heap_ready c.1 F c.2 ∧ brk0 ≤ u_brk c.1 ∧
    ∀ x, covers F x ∨ covers c.2 x ↔ brk0 ≤ x < u_brk c.1.

Lemma covers_insert A q n x : A !! q = None → covers (<[q := n]> A) x ↔ covers A x ∨ q ≤ x < q + n * HDR.
Proof.
  intros Hq. unfold covers. setoid_rewrite lookup_insert_Some. split.
  - intros (a & k & [[<- <-]|[? ?]] & ?); [by right|left; eauto].
  - intros [(a & k & ? & ?)|?]; [|exists q, n; auto]. exists a, k. split; [|done]. right. split; [congruence|done].
Qed.

Lemma covers_delete A q n x : A !! q = Some n → covers A x ↔ covers (delete q A) x ∨ q ≤ x < q + n * HDR.
Proof.
  intros Hq. rewrite <- covers_insert by apply lookup_delete_eq. by rewrite insert_delete_id.
Qed.

Lemma heap_inv_step brk0 c c' : heap_inv brk0 c → hstep c c' → heap_inv brk0 c'.
Proof.
  intros (F & Hr & Hb & Hcov) Hs.
  destruct Hs as [u A nbytes r u' Hn Hrun|u A bp n u' Hbp Hrun|u A bp n x v Hbp Hx]; cbn [fst snd] in *.
  - destruct (units_small _ Hn) as (H1 & H2 & _).
    destruct (malloc_ok u F A nbytes Hr H1 H2) as (r0 & u0 & Hrun0 & Hres).
    rewrite Hrun0 in Hrun. simplify_eq.
    destruct Hres as [(-> & Hk & Hbrk & _)|(F' & q & -> & Hk & HA & Hbrk & Hc & _)].
    + exists F. split; [by left|]. cbn. by rewrite Hbrk.
    + pose proof (used_range _ _ _ q _ Hk ltac:(by rewrite lookup_insert_eq)). unfold HDR in *.
      rewrite (proj2 (Z.eqb_neq _ 0)) by lia. replace (q + 8 - 8) with q by lia. exists F'. split; [by left|].
      cbn. split; [lia|]. intros x. rewrite covers_insert by done. specialize (Hc x). specialize (Hcov x).
      unfold HDR. split; intros Hx.
      * assert (brk0 ≤ x < u_brk u ∨ u_brk u ≤ x < u_brk u'); [|lia]. tauto.
      * destruct (decide (x < u_brk u)); [|assert (u_brk u ≤ x < u_brk u') by lia; tauto].
        assert (brk0 ≤ x < u_brk u) by lia. tauto.
  - destruct Hr as [Hk|(_ & _ & ->)]; [|done].
    destruct (free_ok u F A bp n Hk Hbp) as (u0 & F' & Hrun0 & Hk' & Hbrk & Hc & _).
    rewrite Hrun0 in Hrun. simplify_eq.
    exists F'. split; [by left|]. cbn. rewrite Hbrk. split; [done|]. intros x. rewrite <- Hcov, Hc.
    rewrite (covers_delete A bp n x) by done. tauto.
  - destruct Hr as [Hk|(_ & _ & ->)]; [|done]. exists F. split; [left; by eapply heap_write|]. done.
Qed.

Lemma heap_inv_start u : heap_new u → heap_inv (u_brk u) (u, ∅).
Proof.
  intros Hn. exists {[base := 0]}. cbn. split; [right; split_and!; done|]. split; [done|]. intros x. split; [|lia].
  intros [(a & n & [<- <-]%lookup_singleton_Some & ?)|(a & n & Ha & _)]; [unfold HDR in *; lia|done].
Qed.


(** The number of units wraps around: a request for all but the last few of
    2^32 bytes is granted with a block that has no room for any byte. *)
Theorem malloc_wraps u F A nbytes :
  heap_ok u F A → 2 ^ 32 - 7 ≤ nbytes < 2 ^ 32 → F ≠ {[base := 0]} →
  ∃ q u' F', malloc nbytes u = Ret (q + HDR) u' ∧ heap_ok u' F' (<[q := 1]> A).
Proof.
  intros Hk Hn Hne. assert (units nbytes = 1) as Hu.
  { unfold units, HDR. replace (u32 (nbytes + 8 - 1)) with (nbytes + 7 - 2 ^ 32) by (unfold u32; lia).
    rewrite u32_small by lia. lia. }
  destruct (malloc_ok u F A nbytes) as (r & u' & Hrun & Hres); [by left|rewrite Hu; lia|rewrite Hu; unfold HDR; lia|].
  rewrite Hu in Hres. destruct Hres as [(_ & _ & _ & Hs & _)|(F' & q & -> & Hok & _)]; [|by exists q, u', F'].
  exfalso. apply Hne. apply map_eq. intros a. destruct (decide (a = base)) as [->|Hab].
  - rewrite lookup_singleton_eq. apply Hk.
  - rewrite lookup_singleton_ne by done. apply eq_None_not_Some. intros [k Ha]. specialize (Hs _ _ Ha).
    destruct (free_range _ _ _ _ _ Hk Ha) as (_ & _ & _ & _ & _ & _ & [? _]); [done|lia].
Qed.
End malloc_proof.

(** ** Instances *)

Module umalloc_demo.
Definition demo_base : umalloc_env := {| base := 0x1000 |}.
Definition demo_sbrk : sbrk_sys := sbrk_upto 0x40000.
#[export] Existing Instances demo_base demo_sbrk.
Definition u0 : ustate := mkU ∅ 0x4000 0.
Definition A1 : gmap Z Z := {[0xbf90 := 14]}.
Definition u1 : ustate := match malloc 100 u0 with Ret _ u => u | _ => u0 end.
Definition F1 : gmap Z Z := {[0x1000 := 0; 0x4000 := 4082]}.

Lemma u0_new : heap_new u0.
Proof. by vm_compute. Qed.

Lemma run1 : malloc 100 u0 = Ret 0xbf98 u1.
Proof. by vm_compute. Qed.

Lemma F1_cases a n : F1 !! a = Some n → a = 0x1000 ∧ n = 0 ∨ a = 0x4000 ∧ n = 4082.
Proof. unfold F1. intros [[<- <-]|[_ [<- <-]%lookup_singleton_Some]]%lookup_insert_Some; auto. Qed.

Lemma A1_cases a n : A1 !! a = Some n → a = 0xbf90 ∧ n = 14.
Proof. unfold A1. by intros [<- <-]%lookup_singleton_Some. Qed.

Lemma u1_facts :
  u_brk u1 = 0xc000 ∧ freep u1 = 0x1000 ∧ sizep (u_mem u1) 0x1000 = 0 ∧ sizep (u_mem u1) 0x4000 = 4082 ∧
  sizep (u_mem u1) 0xbf90 = 14 ∧ nextp (u_mem u1) 0x1000 = 0x4000 ∧ nextp (u_mem u1) 0x4000 = 0x1000.
Proof. by vm_compute. Qed.

Lemma u1_ok : heap_ok u1 F1 A1.
Proof.
  generalize u1_facts. generalize u1. intros v (Hb & Hf & Hs1 & Hs2 & Hs3 & Hn1 & Hn2).
  assert (dom F1 = {[0x1000; 0x4000]}) as Hd by (by unfold F1; rewrite dom_insert_L, dom_singleton_L).
  assert (∀ P : Z → Prop, (∀ k, k ∈ ({[0x1000; 0x4000]} : gset Z) → P k) ↔ P 0x1000 ∧ P 0x4000) as Hall by set_solver.
  constructor.
  - done.
  - rewrite Hb. by vm_compute.
  - rewrite Hf, Hd. set_solver.
  - intros a n [[-> ->]|[-> ->]]%F1_cases; [by left|right]. rewrite Hb. by vm_compute.
  - intros a n [-> ->]%A1_cases. rewrite Hb. by vm_compute.
  - intros a n b k [[-> ->]|[-> ->]]%F1_cases [[-> ->]|[-> ->]]%F1_cases; unfold HDR; lia.
  - intros a n b k [[-> ->]|[-> ->]]%F1_cases [-> ->]%A1_cases; unfold HDR; lia.
  - intros a n b k [-> ->]%A1_cases [-> ->]%A1_cases. lia.
  - intros a n [[-> ->]|[-> ->]]%F1_cases; done.
  - intros a n [-> ->]%A1_cases; done.
  - unfold ring, follows. rewrite Hd, Hall, Hn1, Hn2, !Hall. change base with 0x1000. set_solver by lia.
Qed.

Lemma malloc_correct_witness :
  ∃ u' F' q n, malloc 100 u0 = Ret (q + HDR) u' ∧ 100 ≤ (n - 1) * HDR ∧ heap_ok u' F' {[q := n]}.
Proof.
  destruct (malloc_correct u0 {[base := 0]} ∅ 100) as (r & u' & Hrun & Hres).
  - right. split; [apply u0_new|done].
  - lia.
  - destruct Hres as [(-> & _)|(F' & q & n & -> & Hn & Hok & _)].
    + pose proof (f_equal (λ o, match o with Ret r _ => r | _ => 0 end) (eq_trans (eq_sym run1) Hrun)) as E.
      cbv beta iota in E. lia.
    + exists u', F', q, n. exact (conj Hrun (conj Hn Hok)).
Defined.

Lemma free_correct_witness :
  ∃ u' F', free (0xbf90 + HDR) u1 = Ret tt u' ∧ heap_ok u' F' ∅ ∧ (covers F' 0xbf94).
Proof.
  destruct (free_correct u1 F1 A1 0xbf90 14 u1_ok ltac:(reflexivity)) as (u' & F' & Hrun & Hok & _ & Hcov & _).
  exists u', F'. split; [exact Hrun|]. split; [exact Hok|]. apply Hcov. right. unfold HDR. lia.
Defined.


Lemma malloc_wraps_witness :
  ∃ q u' F', malloc 0xfffffff9 u1 = Ret (q + HDR) u' ∧ heap_ok u' F' (<[q := 1]> A1).
Proof.
  apply (malloc_wraps u1 F1 A1 0xfffffff9 u1_ok); [lia|].
  intros E. assert (F1 !! 0x4000 = Some 4082) as H by done. rewrite E in H. discriminate.
Defined.
End umalloc_demo.
