(* ===== verification/Sh.v ===== *)
(** The parser of the shell (user/sh.c): commands are structures on the heap
    that point into the line, and the parser changes one of them, an [execcmd],
    while others already point to it; [nulterminate] writes into the line. *)
From stdpp Require Import base numbers gmap strings option list.
From S2P Require Import Prelude State Str Cprintf Syscall Sysfile.

(** ** Commands *)

(** A pointer to a character of the line is its index, a pointer to a command
    its index in the heap. *)
Inductive node :=
| EXEC (argv eargv : list (option nat))
| REDIR (c : nat) (file efile : nat) (mode fd : Z)
| PIPE (left right : nat)
| LIST (left right : nat)
| BACK (c : nat).

Definition MAXARGS : nat := 10.

(** The line, the commands made so far, and what has been printed on
    descriptor 2: format and argument. *)
Record shst := mkSh { sh_buf : list Z; sh_heap : list node; sh_err : list (string * list Z) }.
#[export] Instance eta_shst : Settable shst := λ s, mkSh (sh_buf s) (sh_heap s) (sh_err s).
Definition SM (A : Type) : Type := M shst A.

(** [malloc], [memset] and the fields of a new command. *)
Definition new_node (x : node) : SM nat := λ s,
  Ret (length (sh_heap s)) (s <| sh_heap ::= λ h, h ++ [x] |>).

Definition execcmd : SM nat := new_node (EXEC (replicate MAXARGS None) (replicate MAXARGS None)).
Definition redircmd (c file efile : nat) (mode fd : Z) : SM nat := new_node (REDIR c file efile mode fd).
Definition pipecmd (l r : nat) : SM nat := new_node (PIPE l r).
Definition listcmd (l r : nat) : SM nat := new_node (LIST l r).
Definition backcmd (c : nat) : SM nat := new_node (BACK c).

(** [cmd->argv[i] = q; cmd->eargv[i] = eq]. *)
Definition set_arg (c i : nat) (q eq : option nat) : SM unit := λ s,
  match sh_heap s !! c with
  | Some (EXEC argv eargv) =>
      if decide (i < MAXARGS)%nat
      then Ret tt (s <| sh_heap ::= <[c := EXEC (<[i := q]> argv) (<[i := eq]> eargv)]> |>)
      else Undef "argv"
  | _ => Undef "execcmd"
  end.

(** ** Scanning *)

Definition ch (s : string) : list Z := bytes s.
Definition whitespace : list Z := [32; 9; 13; 10; 11].
Definition symbols : list Z := ch "<|>&;()".
Definition strchr (set : list Z) (c : Z) : bool := existsb (Z.eqb c) set.

#[global] Arguments ch _ : simpl never.
#[global] Arguments strchr _ _ : simpl never.

Definition getch (i : nat) : SM Z := λ s,
  match sh_buf s !! i with Some c => Ret c s | None => Undef "line" end.

(** [while(s < es && p( *s)) s++]: the bound is the number of characters left. *)
Fixpoint skip (p : Z → bool) (n : nat) (s es : nat) : SM nat :=
  match n with
  | O => ret s
  | S n =>
      if decide (s < es)%nat then
        let* c := getch s in
        if p c then skip p n (S s) es else ret s
      else ret s
  end.
Definition skip_ws (s es : nat) : SM nat := skip (strchr whitespace) (es - s) s es.
Definition skip_word (s es : nat) : SM nat :=
  skip (λ c, negb (strchr whitespace c) && negb (strchr symbols c)) (es - s) s es.

(** The characters the parser compares with. *)
Definition cBAR : Z := 124.
Definition cLPAR : Z := 40.
Definition cRPAR : Z := 41.
Definition cSEMI : Z := 59.
Definition cAMP : Z := 38.
Definition cLT : Z := 60.
Definition cGT : Z := 62.
Definition cPLUS : Z := 43.
Definition cA : Z := 97.

(** The token at [s] with its ends, and the position behind it. *)
Definition gettoken (s es : nat) : SM (Z * nat * nat * nat) :=
  let* s := skip_ws s es in
  let q := s in
  let* c := getch s in
  let* t := (if c =? 0 then ret (c, s)
             else if strchr (ch "|();&<") c then ret (c, S s)
             else if c =? cGT then
               let s := S s in
               let* d := getch s in
               if d =? cGT then ret (cPLUS, S s) else ret (c, s)
             else let* s := skip_word s es in ret (cA, s)) in
  let '(tok, s) := t in
  let eq := s in
  let* s := skip_ws s es in
  ret (tok, q, eq, s).

(** Whether one of [toks] is next, and the position of what is. *)
Definition peek (s es : nat) (toks : string) : SM (bool * nat) :=
  let* s := skip_ws s es in
  let* c := getch s in
  ret (negb (c =? 0) && strchr (ch toks) c, s).

(** ** Parsing *)

(** [while(peek(ps, es, "<>"))]: [n] bounds the characters left. *)
Fixpoint parseredirs (n : nat) (cmd : nat) (s es : nat) : SM (nat * nat) :=
  match n with
  | O => λ _, NoFuel
  | S n =>
      let* pk := peek s es "<>" in
      let '(b, s) := pk in
      if b then
        let* t := gettoken s es in
        let '(tok, _, _, s) := t in
        let* t := gettoken s es in
        let '(tok2, q, eq, s) := t in
        if negb (tok2 =? cA) then panic "missing file for redirection" else
        let* cmd := (if tok =? cLT then redircmd cmd q eq O_RDONLY 0
                     else if tok =? cGT then redircmd cmd q eq (Z.lor O_WRONLY O_CREATE) 1
                     else if tok =? cPLUS then redircmd cmd q eq (Z.lor O_WRONLY O_CREATE) 1
                     else ret cmd) in
        parseredirs n cmd s es
      else ret (cmd, s)
  end.

(** The loop of [parseexec] over the arguments. *)
Fixpoint parseargs (n : nat) (cmd r argc : nat) (s es : nat) : SM (nat * nat) :=
  match n with
  | O => λ _, NoFuel
  | S n =>
      let* pk := peek s es "|)&;" in
      let '(b, s) := pk in
      if b then do* set_arg cmd argc None None in ret (r, s) else
      let* t := gettoken s es in
      let '(tok, q, eq, s) := t in
      if tok =? 0 then do* set_arg cmd argc None None in ret (r, s) else
      if negb (tok =? cA) then panic "syntax" else
      do* set_arg cmd argc (Some q) (Some eq) in
      if decide (MAXARGS ≤ S argc)%nat then panic "too many args" else
      let* t := parseredirs (S (es - s)) r s es in
      let '(r, s) := t in
      parseargs n cmd r (S argc) s es
  end.

(** [while(peek(ps, es, "&"))] of [parseline]. *)
Fixpoint parseback (n : nat) (cmd : nat) (s es : nat) : SM (nat * nat) :=
  match n with
  | O => λ _, NoFuel
  | S n =>
      let* pk := peek s es "&" in
      let '(b, s) := pk in
      if b then
        let* t := gettoken s es in
        let '(_, _, _, s) := t in
        let* cmd := backcmd cmd in
        parseback n cmd s es
      else ret (cmd, s)
  end.

(** The recursive functions; [n] bounds the depth of the calls. *)
Fixpoint parseline (n : nat) (s es : nat) : SM (nat * nat) :=
  match n with
  | O => λ _, NoFuel
  | S n =>
      let* t := parsepipe n s es in
      let '(cmd, s) := t in
      let* t := parseback (S (es - s)) cmd s es in
      let '(cmd, s) := t in
      let* pk := peek s es ";" in
      let '(b, s) := pk in
      if b then
        let* t := gettoken s es in
        let '(_, _, _, s) := t in
        let* t := parseline n s es in
        let '(rest, s) := t in
        let* cmd := listcmd cmd rest in
        ret (cmd, s)
      else ret (cmd, s)
  end
with parsepipe (n : nat) (s es : nat) : SM (nat * nat) :=
  match n with
  | O => λ _, NoFuel
  | S n =>
      let* t := parseexec n s es in
      let '(cmd, s) := t in
      let* pk := peek s es "|" in
      let '(b, s) := pk in
      if b then
        let* t := gettoken s es in
        let '(_, _, _, s) := t in
        let* t := parsepipe n s es in
        let '(rest, s) := t in
        let* cmd := pipecmd cmd rest in
        ret (cmd, s)
      else ret (cmd, s)
  end
with parseexec (n : nat) (s es : nat) : SM (nat * nat) :=
  match n with
  | O => λ _, NoFuel
  | S n =>
      let* pk := peek s es "(" in
      let '(b, s) := pk in
      if b then parseblock n s es else
      let* cmd := execcmd in
      let* t := parseredirs (S (es - s)) cmd s es in
      let '(r, s) := t in
      parseargs (S (es - s)) cmd r 0 s es
  end
with parseblock (n : nat) (s es : nat) : SM (nat * nat) :=
  match n with
  | O => λ _, NoFuel
  | S n =>
      let* pk := peek s es "(" in
      let '(b, s) := pk in
      if negb b then panic "parseblock" else
      let* t := gettoken s es in
      let '(_, _, _, s) := t in
      let* t := parseline n s es in
      let '(cmd, s) := t in
      let* pk := peek s es ")" in
      let '(b, s) := pk in
      if negb b then panic "syntax - missing )" else
      let* t := gettoken s es in
      let '(_, _, _, s) := t in
      parseredirs (S (es - s)) cmd s es
  end.

(** *** Ending the strings *)

Definition putch0 (i : nat) : SM unit := λ s,
  if decide (i < length (sh_buf s))%nat then Ret tt (s <| sh_buf ::= <[i := 0]> |>) else Undef "line".

(** [for(i=0; ecmd->argv[i]; i++) *ecmd->eargv[i] = 0]. *)
Fixpoint nul_args (argv eargv : list (option nat)) : SM unit :=
  match argv with
  | [] => undef "argv"
  | None :: _ => ret tt
  | Some _ :: argv =>
      match eargv with
      | Some e :: eargv => do* putch0 e in nul_args argv eargv
      | _ => undef "eargv"
      end
  end.

(** Commands point to older ones: [n] bounds the depth. *)
Fixpoint nulterminate (n : nat) (cmd : nat) : SM unit :=
  match n with
  | O => λ _, NoFuel
  | S n =>
      let* h := gets sh_heap in
      match h !! cmd with
      | None => undef "cmd"
      | Some (EXEC argv eargv) => nul_args argv eargv
      | Some (REDIR c _ efile _ _) => do* nulterminate n c in putch0 efile
      | Some (PIPE l r) => do* nulterminate n l in nulterminate n r
      | Some (LIST l r) => do* nulterminate n l in nulterminate n r
      | Some (BACK c) => nulterminate n c
      end
  end.

(** [strlen] of the line. *)
Fixpoint linelen (l : list Z) : nat :=
  match l with [] => 0 | c :: l => if c =? 0 then 0 else S (linelen l) end.

Definition parsecmd : SM nat :=
  let* b := gets sh_buf in
  let es := linelen b in
  let* t := parseline (4 * es + 5) 0 es in
  let '(cmd, s) := t in
  let* pk := peek s es "" in
  let '(_, s) := pk in
  if decide (s ≠ es) then
    do* modify (set sh_err (λ e, e ++ [("leftovers: %s
"%string, take (es - s) (drop s b))])) in
    panic "syntax"
  else
  let* h := gets sh_heap in
  do* nulterminate (S (length h)) cmd in
  ret cmd.
