(* ===== verification/ShSpec.v ===== *)
(** The language of the shell: tokens, a grammar, and the proof that the
    parser of [Sh] accepts exactly the lines of the grammar and builds the
    command they stand for. *)
From stdpp Require Import base numbers gmap strings option list.
From S2P Require Import Prelude State Str Cprintf Syscall Sysfile Sh.

(** ** Tokens *)

(** A symbol ([cPLUS] stands for two [cGT]), or a word from [q] to [e]. *)
Inductive token := TSym (c : Z) | TWord (q e : nat).

Definition is_ws (c : Z) : bool := strchr whitespace c.
Definition is_word (c : Z) : bool := negb (strchr whitespace c) && negb (strchr symbols c).
Definition is_sym1 (c : Z) : bool := strchr (ch "|();&<") c.

(** The tokens of [line] from position [s] on. *)
Inductive lexes (line : list Z) : nat → list token → Prop :=
| lx_end : lexes line (length line) []
| lx_ws s c ts : line !! s = Some c → is_ws c = true → lexes line (S s) ts → lexes line s ts
| lx_sym s c ts :
    line !! s = Some c → is_sym1 c = true → lexes line (S s) ts → lexes line s (TSym c :: ts)
| lx_gtgt s ts :
    line !! s = Some cGT → line !! S s = Some cGT → lexes line (S (S s)) ts →
    lexes line s (TSym cPLUS :: ts)
| lx_gt s ts :
    line !! s = Some cGT → line !! S s ≠ Some cGT → lexes line (S s) ts → lexes line s (TSym cGT :: ts)
| lx_word s e ts :
    (s < e)%nat → (∀ i, (s ≤ i < e)%nat → ∃ c, line !! i = Some c ∧ is_word c = true) →
    (∀ c, line !! e = Some c → is_word c = false) → lexes line e ts → lexes line s (TWord s e :: ts).

(** ** Commands as trees *)

Inductive ast (W : Type) :=
| AExec (argv : list W)
| ARedir (a : ast W) (file : W) (mode fd : Z)
| APipe (l r : ast W)
| AList (l r : ast W)
| ABack (a : ast W).
Arguments AExec {W} _.
Arguments ARedir {W} _ _ _ _.
Arguments APipe {W} _ _.
Arguments AList {W} _ _.
Arguments ABack {W} _.

Definition span : Type := nat * nat.
Definition redir : Type := Z * span.

Definition is_redir (c : Z) : bool := (c =? cLT) || (c =? cGT) || (c =? cPLUS).
Definition redir_mode (c : Z) : Z := if c =? cLT then O_RDONLY else Z.lor O_WRONLY O_CREATE.
Definition redir_fd (c : Z) : Z := if c =? cLT then 0 else 1.

(** The last redirection is the outermost. *)
Definition wrap (a : ast span) (rs : list redir) : ast span :=
  foldl (λ a r, ARedir a r.2 (redir_mode r.1) (redir_fd r.1)) a rs.

(** ** The grammar *)

Inductive Redirs : list token → list redir → Prop :=
| rd_nil : Redirs [] []
| rd_cons c q e ts rs :
    is_redir c = true → Redirs ts rs → Redirs (TSym c :: TWord q e :: ts) ((c, (q, e)) :: rs).

(** The words and redirections of a simple command, in any order. *)
Inductive Items : list token → list span → list redir → Prop :=
| it_nil : Items [] [] []
| it_word q e ts ws rs : Items ts ws rs → Items (TWord q e :: ts) ((q, e) :: ws) rs
| it_redir c q e ts ws rs :
    is_redir c = true → Items ts ws rs → Items (TSym c :: TWord q e :: ts) ws ((c, (q, e)) :: rs).

Inductive Line : list token → ast span → Prop :=
| line_one ts a n : Pipe ts a → Line (ts ++ replicate n (TSym cAMP)) (Nat.iter n ABack a)
| line_seq ts a n ts' a' :
    Pipe ts a → Line ts' a' →
    Line (ts ++ replicate n (TSym cAMP) ++ TSym cSEMI :: ts') (AList (Nat.iter n ABack a) a')
with Pipe : list token → ast span → Prop :=
| pipe_one ts a : Exec ts a → Pipe ts a
| pipe_more ts a ts' a' : Exec ts a → Pipe ts' a' → Pipe (ts ++ TSym cBAR :: ts') (APipe a a')
with Exec : list token → ast span → Prop :=
| exec_simple ts ws rs : Items ts ws rs → (length ws < MAXARGS)%nat → Exec ts (wrap (AExec ws) rs)
| exec_block ts a ts' rs :
    Line ts a → Redirs ts' rs → Exec (TSym cLPAR :: ts ++ TSym cRPAR :: ts') (wrap a rs).

Scheme Line_mut := Minimality for Line Sort Prop
with Pipe_mut := Minimality for Pipe Sort Prop
with Exec_mut := Minimality for Exec Sort Prop.
Combined Scheme grammar_ind from Line_mut, Pipe_mut, Exec_mut.

(** ** Parsing tokens *)

Fixpoint tredirs (ts : list token) : option (list redir * list token) :=
  match ts with
  | TSym c :: ts' =>
      if is_redir c then
        match ts' with
        | TWord q e :: ts'' =>
            match tredirs ts'' with Some (rs, r) => Some ((c, (q, e)) :: rs, r) | None => None end
        | _ => None
        end
      else Some ([], ts)
  | _ => Some ([], ts)
  end.

(** At most [k] words. *)
Fixpoint titems (k : nat) (ts : list token) : option (list span * list redir * list token) :=
  match ts with
  | [] => Some ([], [], [])
  | TWord q e :: ts' =>
      match k with
      | O => None
      | S k =>
          match titems k ts' with Some (ws, rs, r) => Some ((q, e) :: ws, rs, r) | None => None end
      end
  | TSym c :: ts' =>
      if strchr (ch "|)&;") c then Some ([], [], ts) else
      if is_redir c then
        match ts' with
        | TWord q e :: ts'' =>
            match titems k ts'' with Some (ws, rs, r) => Some (ws, (c, (q, e)) :: rs, r) | None => None end
        | _ => None
        end
      else None
  end.

Fixpoint tback (a : ast span) (ts : list token) : ast span * list token :=
  match ts with
  | TSym c :: ts' => if c =? cAMP then tback (ABack a) ts' else (a, ts)
  | _ => (a, ts)
  end.

Definition next_is (c : Z) (ts : list token) : option (list token) :=
  match ts with TSym d :: ts' => if d =? c then Some ts' else None | _ => None end.

Fixpoint tline (n : nat) (ts : list token) : option (ast span * list token) :=
  match n with
  | O => None
  | S n =>
      p ← tpipe n ts;
      let '(a, ts) := tback p.1 p.2 in
      match next_is cSEMI ts with
      | Some ts => r ← tline n ts; Some (AList a r.1, r.2)
      | None => Some (a, ts)
      end
  end
with tpipe (n : nat) (ts : list token) : option (ast span * list token) :=
  match n with
  | O => None
  | S n =>
      p ← texec n ts;
      match next_is cBAR p.2 with
      | Some ts => r ← tpipe n ts; Some (APipe p.1 r.1, r.2)
      | None => Some p
      end
  end
with texec (n : nat) (ts : list token) : option (ast span * list token) :=
  match n with
  | O => None
  | S n =>
      match next_is cLPAR ts with
      | Some ts => tblock n ts
      | None => t ← titems 9 ts; Some (wrap (AExec t.1.1) t.1.2, t.2)
      end
  end
with tblock (n : nat) (ts : list token) : option (ast span * list token) :=
  match n with
  | O => None
  | S n =>
      p ← tline n ts;
      ts ← next_is cRPAR p.2;
      t ← tredirs ts;
      Some (wrap p.1 t.1, t.2)
  end.

(** ** The token parser decides the grammar *)

Lemma tredirs_sound ts : ∀ rs r, tredirs ts = Some (rs, r) → ∃ pre, ts = pre ++ r ∧ Redirs pre rs.
Proof.
  induction ts as [ts IH] using (induction_ltof1 _ (@length token)). intros rs r Hr. destruct ts as [|[c|q e] ts]; cbn in Hr.
  - simplify_eq. exists []. split; [done|constructor].
  - destruct (is_redir c) eqn:Ec; [|simplify_eq; exists []; split; [done|constructor]].
    destruct ts as [|[|q e] ts]; try done. destruct (tredirs ts) as [[rs' r']|] eqn:E; [|done].
    destruct (IH ts ltac:(unfold ltof; cbn; lia) _ _ E) as (pre & -> & Hp). simplify_eq.
    exists (TSym c :: TWord q e :: pre). split; [done|]. by constructor.
  - simplify_eq. exists []. split; [done|constructor].
Qed.

Lemma titems_sound ts : ∀ k ws rs r, titems k ts = Some (ws, rs, r) →
  (∃ pre, ts = pre ++ r ∧ Items pre ws rs) ∧ (length ws ≤ k)%nat.
Proof.
  induction ts as [ts IH] using (induction_ltof1 _ (@length token)). intros k ws rs r Hr.
  destruct ts as [|[c|q e] ts]; cbn in Hr.
  - simplify_eq. split; [|cbn; lia]. exists []. split; [done|constructor].
  - destruct (strchr _ _); [simplify_eq; split; [|cbn; lia]; exists []; split; [done|constructor]|].
    destruct (is_redir c) eqn:Ec; [|done]. destruct ts as [|[|q e] ts]; try done.
    destruct (titems k ts) as [[[ws' rs'] r']|] eqn:E; [|done].
    destruct (IH ts ltac:(unfold ltof; cbn; lia) _ _ _ _ E) as [(pre & -> & Hp) Hl]. simplify_eq. split; [|done].
    exists (TSym c :: TWord q e :: pre). split; [done|]. by constructor.
  - destruct k as [|k]; [done|]. destruct (titems k ts) as [[[ws' rs'] r']|] eqn:E; [|done].
    destruct (IH ts ltac:(unfold ltof; cbn; lia) _ _ _ _ E) as [(pre & -> & Hp) Hl]. simplify_eq.
    split; [|cbn; lia]. exists (TWord q e :: pre). split; [done|]. by constructor.
Qed.

Lemma tback_sound ts : ∀ a b r, tback a ts = (b, r) →
  ∃ n, ts = replicate n (TSym cAMP) ++ r ∧ b = Nat.iter n ABack a.
Proof.
  induction ts as [|[c|q e] ts IH]; intros a b r Hr; cbn in Hr.
  - simplify_eq. by exists 0%nat.
  - destruct (Z.eqb_spec c cAMP) as [->|]; [|simplify_eq; by exists 0%nat].
    destruct (IH _ _ _ Hr) as (n & -> & ->). exists (S n). split; [done|]. cbn. by rewrite Nat.iter_swap.
  - simplify_eq. by exists 0%nat.
Qed.

Lemma next_is_Some c ts ts' : next_is c ts = Some ts' ↔ ts = TSym c :: ts'.
Proof.
  destruct ts as [|[d|] ts]; cbn; try (split; [done|intros [=]]; fail).
  destruct (Z.eqb_spec d c) as [->|]; split; intros; simplify_eq; done.
Qed.

Lemma tparse_sound n :
  (∀ ts a r, tline n ts = Some (a, r) → ∃ pre, ts = pre ++ r ∧ Line pre a) ∧
  (∀ ts a r, tpipe n ts = Some (a, r) → ∃ pre, ts = pre ++ r ∧ Pipe pre a) ∧
  (∀ ts a r, texec n ts = Some (a, r) → ∃ pre, ts = pre ++ r ∧ Exec pre a) ∧
  (∀ ts a r, tblock n ts = Some (a, r) → ∃ pre, TSym cLPAR :: ts = pre ++ r ∧ Exec pre a).
Proof.
  induction n as [|n (IHl & IHp & IHe & IHb)]; [done|]. split_and!; intros ts a r Hr.
  - apply bind_Some in Hr as ([a1 r1] & H1 & Hr). destruct (IHp _ _ _ H1) as (pre & -> & Hp). cbn in Hr.
    destruct (tback a1 r1) as [b r2] eqn:E. destruct (tback_sound _ _ _ _ E) as (k & -> & ->).
    destruct (next_is cSEMI r2) as [r3|] eqn:En.
    + apply next_is_Some in En as ->. apply bind_Some in Hr as ([a3 r4] & H3 & Hr). simplify_eq/=.
      destruct (IHl _ _ _ H3) as (pre' & -> & Hl).
      exists (pre ++ replicate k (TSym cAMP) ++ TSym cSEMI :: pre'). split; [by rewrite <- !app_assoc|by constructor].
    + simplify_eq. exists (pre ++ replicate k (TSym cAMP)). split; [by rewrite <- app_assoc|by constructor].
  - apply bind_Some in Hr as ([a1 r1] & H1 & Hr). destruct (IHe _ _ _ H1) as (pre & -> & He). cbn in Hr.
    destruct (next_is cBAR r1) as [r3|] eqn:En.
    + apply next_is_Some in En as ->. apply bind_Some in Hr as ([a3 r4] & H3 & Hr). simplify_eq/=.
      destruct (IHp _ _ _ H3) as (pre' & -> & Hl).
      exists (pre ++ TSym cBAR :: pre'). split; [by rewrite <- app_assoc|by constructor].
    + simplify_eq. exists pre. split; [done|by constructor].
  - cbn in Hr. destruct (next_is cLPAR ts) as [r3|] eqn:En.
    + apply next_is_Some in En as ->. eauto.
    + apply bind_Some in Hr as ([[ws rs] r1] & H1 & Hr). simplify_eq/=.
      destruct (titems_sound _ _ _ _ _ H1) as [(pre & -> & Hi) Hl]. exists pre. split; [done|].
      constructor; [done|]. unfold MAXARGS. lia.
  - apply bind_Some in Hr as ([a1 r1] & H1 & Hr). destruct (IHl _ _ _ H1) as (pre & -> & Hl). cbn in Hr.
    apply bind_Some in Hr as (r2 & En & Hr). apply next_is_Some in En as ->.
    apply bind_Some in Hr as ([rs r3] & H3 & Hr). simplify_eq/=.
    destruct (tredirs_sound _ _ _ H3) as (pre' & -> & Hrd).
    exists (TSym cLPAR :: pre ++ TSym cRPAR :: pre'). split; [by cbn; rewrite <- app_assoc|by constructor].
Qed.

(** What may follow a command, a pipeline, a line. *)
Definition ends_exec (r : list token) : Prop :=
  match r with [] => True | TSym c :: _ => strchr (ch "|)&;") c = true | _ => False end.
Definition ends_pipe (r : list token) : Prop :=
  match r with [] => True | TSym c :: _ => strchr (ch ")&;") c = true | _ => False end.
Definition ends_line (r : list token) : Prop :=
  match r with [] => True | TSym c :: _ => c = cRPAR | _ => False end.

Lemma strchr_In set c : strchr set c = true ↔ c ∈ set.
Proof.
  unfold strchr. rewrite existsb_exists. setoid_rewrite Z.eqb_eq. rewrite list_elem_of_In. naive_solver.
Qed.

Lemma ends_line_pipe n r : ends_line r → ends_pipe (replicate n (TSym cAMP) ++ r).
Proof. destruct n; [|done]. destruct r as [|[c|] r]; try done. by intros ->. Qed.
Lemma ends_pipe_exec r : ends_pipe r → ends_exec r.
Proof.
  destruct r as [|[c|] r]; try done. cbn [ends_pipe ends_exec]. rewrite !strchr_In. intros Hc.
  apply list_elem_of_In. apply list_elem_of_In in Hc. vm_compute in Hc |- *. tauto.
Qed.

Lemma ends_exec_redir c r : ends_exec (TSym c :: r) → is_redir c = false.
Proof.
  cbn [ends_exec]. rewrite strchr_In, list_elem_of_In. intros Hc. vm_compute in Hc.
  by destruct Hc as [<-|[<-|[<-|[<-|[]]]]].
Qed.

Lemma tredirs_complete ts rs r : Redirs ts rs → ends_exec r → tredirs (ts ++ r) = Some (rs, r).
Proof.
  intros Hr He. induction Hr as [|c q e ts rs Hc _ IH]; cbn.
  - destruct r as [|[c|] r]; try done. cbn. by rewrite (ends_exec_redir c r He).
  - by rewrite Hc, IH.
Qed.

Lemma titems_complete ts ws rs r : Items ts ws rs → ∀ k, (length ws ≤ k)%nat → ends_exec r →
  titems k (ts ++ r) = Some (ws, rs, r).
Proof.
  induction 1 as [|q e ts ws rs _ IH|c q e ts ws rs Hc _ IH]; intros k Hk He; cbn [titems app].
  - destruct r as [|[c|] r]; try done. cbn [ends_exec] in He. cbn [titems]. by rewrite He.
  - cbn in Hk. destruct k; [lia|]. by rewrite IH by (done || lia).
  - destruct (strchr _ c) eqn:E.
    { rewrite strchr_In, list_elem_of_In in E. vm_compute in E. by destruct E as [<-|[<-|[<-|[<-|[]]]]]. }
    by rewrite Hc, IH.
Qed.

Lemma tback_complete n r : (∀ c ts, r = TSym c :: ts → c ≠ cAMP) → ∀ a,
  tback a (replicate n (TSym cAMP) ++ r) = (Nat.iter n ABack a, r).
Proof.
  intros Hr. induction n as [|n IH]; intros a; cbn.
  - destruct r as [|[c|] r]; try done. cbn. rewrite (proj2 (Z.eqb_neq _ _)); [done|by eapply Hr].
  - rewrite IH. by rewrite Nat.iter_swap.
Qed.

Lemma next_is_None c r : (∀ ts, r ≠ TSym c :: ts) → next_is c r = None.
Proof. intros Hr. destruct (next_is c r) eqn:E; [|done]. apply next_is_Some in E. by destruct (Hr l). Qed.

Lemma ends_line_next r c : ends_line r → c ≠ cRPAR → ∀ ts, r ≠ TSym c :: ts.
Proof. intros Hr Hc ts ->. cbn in Hr. congruence. Qed.

Lemma ends_pipe_next r c : ends_pipe r → c ∉ ch ")&;" → ∀ ts, r ≠ TSym c :: ts.
Proof. intros Hr Hc ts ->. cbn [ends_pipe] in Hr. by rewrite strchr_In in Hr. Qed.

Lemma Items_next ts ws rs r : Items ts ws rs → ends_exec r → ∀ ts', ts ++ r ≠ TSym cLPAR :: ts'.
Proof.
  intros [|q e ts' ws' rs'|c q e ts' ws' rs' Hc] Hr ts'' E; cbn in E; simplify_eq/=; by vm_compute in Hr.
Qed.

Lemma tparse_complete :
  (∀ ts a, Line ts a → ∀ n r, (4 * length ts + 4 ≤ n)%nat → ends_line r → tline n (ts ++ r) = Some (a, r)) ∧
  (∀ ts a, Pipe ts a → ∀ n r, (4 * length ts + 3 ≤ n)%nat → ends_pipe r → tpipe n (ts ++ r) = Some (a, r)) ∧
  (∀ ts a, Exec ts a → ∀ n r, (4 * length ts + 2 ≤ n)%nat → ends_exec r → texec n (ts ++ r) = Some (a, r)).
Proof.
  apply grammar_ind.
  - intros ts a k _ IH n r Hn Hr. rewrite length_app in Hn. destruct n as [|n]; [lia|]. cbn [tline].
    rewrite <- app_assoc, IH by (done || lia || by apply ends_line_pipe). cbn [mbind option_bind fst snd].
    rewrite tback_complete by (intros c ts' ->; cbn in Hr; by subst c).
    by rewrite next_is_None by by apply ends_line_next.
  - intros ts a k ts' a' _ IH _ IH' n r Hn Hr. rewrite !length_app in Hn. cbn [length] in Hn.
    destruct n as [|n]; [lia|]. cbn [tline]. rewrite <- !app_assoc, IH by (lia || (destruct k; done)).
    cbn [mbind option_bind fst snd].
    rewrite tback_complete by (intros c ts'' E; by injection E as <- _). cbn [next_is app].
    rewrite Z.eqb_refl, IH' by (done || lia). done.
  - intros ts a _ IH n r Hn Hr. destruct n as [|n]; [lia|]. cbn [tpipe].
    rewrite IH by (lia || by apply ends_pipe_exec). cbn [mbind option_bind fst snd].
    by rewrite next_is_None by (apply ends_pipe_next; [done|by apply (bool_decide_unpack _)]).
  - intros ts a ts' a' _ IH _ IH' n r Hn Hr. rewrite length_app in Hn. cbn [length] in Hn.
    destruct n as [|n]; [lia|]. cbn [tpipe]. rewrite <- app_assoc, IH by (lia || done). cbn [mbind option_bind fst snd].
    cbn [next_is app]. rewrite Z.eqb_refl, IH' by (done || lia). done.
  - intros ts ws rs Hi Hl n r Hn Hr. destruct n as [|n]; [lia|]. cbn [texec].
    rewrite next_is_None by by eapply Items_next. unfold MAXARGS in Hl.
    by rewrite (titems_complete _ _ _ _ Hi) by (done || lia).
  - intros ts a ts' rs _ IH Hrd n r Hn Hr. cbn [length] in Hn. rewrite length_app in Hn. cbn [length] in Hn.
    destruct n as [|[|n]]; [lia|lia|]. cbn [texec app next_is]. rewrite Z.eqb_refl. cbn [tblock].
    rewrite <- app_assoc, IH by (done || lia). cbn [mbind option_bind fst snd next_is app]. rewrite Z.eqb_refl.
    cbn [mbind option_bind]. by rewrite (tredirs_complete _ _ _ Hrd Hr).
Qed.
