(* ===== verification/ShParse.v ===== *)
(** The parser of the shell against the grammar of [ShSpec]: scanning finds the
    tokens, the recursive functions follow the token parser and build the
    commands on the heap, and [nulterminate] ends the words in place. *)
From stdpp Require Import base numbers gmap strings option list.
From S2P Require Import Prelude State Str Cprintf Syscall Sysfile Sh ShSpec.

(** ** Commands on the heap *)

(** The nodes [parseredirs] adds at [k] and the pointer it returns. *)
Fixpoint rnodes (c k : nat) (rs : list redir) : list node :=
  match rs with
  | [] => []
  | (o, (q, e)) :: rs => REDIR c q e (redir_mode o) (redir_fd o) :: rnodes k (S k) rs
  end.
Fixpoint rptr (c k : nat) (rs : list redir) : nat :=
  match rs with [] => c | _ :: rs => rptr k (S k) rs end.

Definition pad (l : list (option nat)) : list (option nat) := l ++ replicate (MAXARGS - length l) None.
Definition exec_node (ws : list span) : node :=
  EXEC (pad ((λ w, Some w.1) <$> ws)) (pad ((λ w, Some w.2) <$> ws)).

(** The command at [p] is [a]; commands point to older ones. *)
Fixpoint denotes (h : list node) (p : nat) (a : ast span) : Prop :=
  match a with
  | AExec ws => h !! p = Some (exec_node ws) ∧ (length ws < MAXARGS)%nat
  | ARedir a (q, e) m fd => ∃ c, h !! p = Some (REDIR c q e m fd) ∧ (c < p)%nat ∧ denotes h c a
  | APipe l r => ∃ x y, h !! p = Some (PIPE x y) ∧ (x < p)%nat ∧ (y < p)%nat ∧ denotes h x l ∧ denotes h y r
  | AList l r => ∃ x y, h !! p = Some (LIST x y) ∧ (x < p)%nat ∧ (y < p)%nat ∧ denotes h x l ∧ denotes h y r
  | ABack a => ∃ c, h !! p = Some (BACK c) ∧ (c < p)%nat ∧ denotes h c a
  end.

Lemma denotes_app h h' p a : denotes h p a → denotes (h ++ h') p a.
Proof.
  revert p. induction a as [ws|a IH [q e] m fd|l IHl r IHr|l IHl r IHr|a IH]; intros p; cbn.
  - intros [? ?]. split; [by apply lookup_app_l_Some|done].
  - intros (c & ? & ? & ?). exists c. split; [by apply lookup_app_l_Some|auto].
  - intros (x & y & ? & ? & ? & ? & ?). exists x, y. split; [by apply lookup_app_l_Some|auto 6].
  - intros (x & y & ? & ? & ? & ? & ?). exists x, y. split; [by apply lookup_app_l_Some|auto 6].
  - intros (c & ? & ? & ?). exists c. split; [by apply lookup_app_l_Some|auto].
Qed.

Lemma denotes_lt h p a : denotes h p a → (p < length h)%nat.
Proof. destruct a as [ws|a [q e] m fd|l r|l r|a]; cbn; firstorder eauto using lookup_lt_Some. Qed.

Lemma rnodes_app c k rs rs' :
  rnodes c k (rs ++ rs') = rnodes c k rs ++ rnodes (rptr c k rs) (k + length rs) rs'.
Proof.
  revert c k. induction rs as [|[o [q e]] rs IH]; intros c k; cbn; [by rewrite Nat.add_0_r|].
  by rewrite IH, Nat.add_succ_r.
Qed.

Lemma rptr_app c k rs rs' : rptr c k (rs ++ rs') = rptr (rptr c k rs) (k + length rs) rs'.
Proof.
  revert c k. induction rs as [|[o [q e]] rs IH]; intros c k; cbn; [by rewrite Nat.add_0_r|].
  by rewrite IH, Nat.add_succ_r.
Qed.

Lemma length_rnodes c k rs : length (rnodes c k rs) = length rs.
Proof. revert c k. induction rs as [|[o [q e]] rs IH]; intros; cbn; auto. Qed.

Lemma denotes_wrap h c a rs :
  denotes h c a → denotes (h ++ rnodes c (length h) rs) (rptr c (length h) rs) (wrap a rs).
Proof.
  revert h c a. induction rs as [|[o [q e]] rs IH]; intros h c a Ha; cbn; [by rewrite app_nil_r|].
  specialize (IH (h ++ [REDIR c q e (redir_mode o) (redir_fd o)]) (length h) (ARedir a (q, e) (redir_mode o) (redir_fd o))).
  rewrite <- app_assoc, length_app, Nat.add_comm in IH. apply IH. exists c. rewrite list_lookup_middle by done.
  split; [done|]. split; [by eapply denotes_lt|by apply denotes_app].
Qed.

(** The token parser finds redirections before the words it looks for. *)
Lemma titems_redirs k ts : titems k ts =
  match tredirs ts with
  | Some (rs, r) => match titems k r with Some (ws, rs', r') => Some (ws, rs ++ rs', r') | None => None end
  | None => None
  end.
Proof.
  induction ts as [ts IH] using (induction_ltof1 _ (@length token)). destruct ts as [|[c|q e] ts].
  - done.
  - cbn [tredirs]. destruct (is_redir c) eqn:Ec.
    + cbn [titems]. rewrite Ec. destruct (strchr _ c) eqn:Es.
      { rewrite strchr_In, list_elem_of_In in Es. vm_compute in Es. by destruct Es as [<-|[<-|[<-|[<-|[]]]]]. }
      destruct ts as [|[|q e] ts]; [done|done|]. rewrite (IH ts) by (unfold ltof; cbn; lia).
      destruct (tredirs ts) as [[rs r]|]; [|done]. by destruct (titems k r) as [[[ws rs'] r']|].
    + by destruct (titems k (TSym c :: ts)) as [[[ws rs'] r']|].
  - cbn [tredirs]. by destruct (titems k (TWord q e :: ts)) as [[[ws rs'] r']|].
Qed.

Lemma tredirs_rest ts rs r : tredirs ts = Some (rs, r) → ∀ c r', r = TSym c :: r' → is_redir c = false.
Proof.
  revert rs. induction ts as [ts IH] using (induction_ltof1 _ (@length token)). intros rs Hr c r' ->.
  destruct ts as [|[d|q e] ts]; cbn in Hr; [done| |done].
  destruct (is_redir d) eqn:Ed; [|by simplify_eq]. destruct ts as [|[|q e] ts]; [done|done|].
  destruct (tredirs ts) as [[rs' r'']|] eqn:E; [|done]. simplify_eq. eapply (IH ts); [unfold ltof; cbn; lia|done|done].
Qed.

(** The words of a command, and a line in which their ends are NUL. *)

Fixpoint spans (a : ast span) : list span :=
  match a with
  | AExec ws => ws
  | ARedir a f _ _ => spans a ++ [f]
  | APipe l r | AList l r => spans l ++ spans r
  | ABack a => spans a
  end.

Definition nul (bf : list Z) (l : list span) : list Z := foldl (λ bf w, <[w.2 := 0]> bf) bf l.

Lemma nul_app bf l l' : nul bf (l ++ l') = nul (nul bf l) l'.
Proof. apply foldl_app. Qed.
Lemma length_nul bf l : length (nul bf l) = length bf.
Proof. revert bf. induction l as [|w l IH]; intros bf; [done|]. cbn. etrans; [apply IH|]. apply length_insert. Qed.

Lemma nul_lookup bf l i : nul bf l !! i = if bool_decide (i ∈ l.*2) then (if decide (i < length bf)%nat then Some 0 else None) else bf !! i.
Proof.
  revert bf. induction l as [|w l IH]; intros bf; [done|]. cbn. rewrite (IH (<[w.2:=0]> bf)), length_insert.
  destruct (decide (i = w.2)) as [->|Hne].
  - rewrite (bool_decide_eq_true_2 (w.2 ∈ w.2 :: l.*2)) by (rewrite elem_of_cons; by left). case_bool_decide; [done|].
    case_decide; [by rewrite list_lookup_insert_eq|]. rewrite list_insert_ge by lia. apply lookup_ge_None. lia.
  - rewrite list_lookup_insert_ne by done. by rewrite (bool_decide_ext (i ∈ l.*2) (i ∈ w.2 :: l.*2)) by (rewrite elem_of_cons; tauto).
Qed.

Lemma nul_args_st ws bf h er : (length ws < MAXARGS)%nat → Forall (λ w, (w.2 < length bf)%nat) ws →
  nul_args (pad ((λ w, Some w.1) <$> ws)) (pad ((λ w, Some w.2) <$> ws)) (mkSh bf h er) = Ret tt (mkSh (nul bf ws) h er).
Proof.
  unfold pad. rewrite !length_fmap. intros Hl. assert (MAXARGS - length ws = S (MAXARGS - length ws - 1))%nat as -> by lia.
  generalize (MAXARGS - length ws - 1)%nat. intros k Hall. clear Hl. revert bf Hall.
  induction ws as [|[q e] ws IH]; intros bf Hall; [done|]. apply Forall_cons in Hall as [He Hall]. cbn in *.
  erewrite bind_ret; [|unfold putch0; cbn; rewrite decide_True by done; reflexivity]. cbn.
  apply IH. eapply Forall_impl; [done|]. intros w. by rewrite length_insert.
Qed.

Lemma nulterminate_st n p a bf h er : denotes h p a → (p < n)%nat → Forall (λ w, (w.2 < length bf)%nat) (spans a) →
  nulterminate n p (mkSh bf h er) = Ret tt (mkSh (nul bf (spans a)) h er).
Proof.
  revert p a bf. induction n as [|n IH]; intros p a bf Hd Hp Hall; [lia|]. cbn [nulterminate]. mstep. cbn [sh_heap id].
  destruct a as [ws|a [q e] m fd|l r|l r|a]; cbn [denotes spans] in *.
  - destruct Hd as [-> ?]. by apply nul_args_st.
  - destruct Hd as (c & -> & ? & Hd). apply Forall_app in Hall as [Ha [Hw _]%Forall_cons].
    step (IH c a bf Hd ltac:(lia) Ha). unfold putch0. cbn [sh_buf]. rewrite length_nul, decide_True by done.
    by rewrite nul_app.
  - destruct Hd as (x & y & -> & ? & ? & Hx & Hy). apply Forall_app in Hall as [Ha Hb].
    step (IH x l bf Hx ltac:(lia) Ha). rewrite nul_app. apply IH; [done|lia|]. by rewrite length_nul.
  - destruct Hd as (x & y & -> & ? & ? & Hx & Hy). apply Forall_app in Hall as [Ha Hb].
    step (IH x l bf Hx ltac:(lia) Ha). rewrite nul_app. apply IH; [done|lia|]. by rewrite length_nul.
  - destruct Hd as (c & -> & ? & Hd). apply IH; [done|lia|done].
Qed.

Lemma linelen_app l k : Forall (λ c, c ≠ 0) l → linelen (l ++ 0 :: k) = length l.
Proof.
  induction 1 as [|c l Hc _ IH]; cbn; [done|]. rewrite (proj2 (Z.eqb_neq _ _)) by done. by f_equal.
Qed.

Section parser.
Context (line junk : list Z) (er : list (string * list Z)).
Context (Hnz : Forall (λ c, c ≠ 0) line).
Let b : list Z := line ++ 0 :: junk.
Let es : nat := length line.
Let st (h : list node) : shst := mkSh b h er.

Lemma getch_in i c h : line !! i = Some c → getch i (st h) = Ret c (st h).
Proof. intros Hc. unfold getch, st, b; cbn. by rewrite (lookup_app_l_Some _ _ _ _ Hc). Qed.

Lemma getch_es h : getch es (st h) = Ret 0 (st h).
Proof. unfold getch, st, b, es; cbn. by rewrite list_lookup_middle. Qed.

Lemma line_nz i c : line !! i = Some c → c ≠ 0.
Proof. intros Hc. by eapply Forall_lookup_1 in Hc; [|done]. Qed.

(** Skipping stops at the first character that does not satisfy [p]. *)
Lemma skip_spec p h n s : (s ≤ es)%nat → n = (es - s)%nat → ∃ s',
  skip p n s es (st h) = Ret s' (st h) ∧ (s ≤ s' ≤ es)%nat ∧
  (∀ i, (s ≤ i < s')%nat → ∃ c, line !! i = Some c ∧ p c = true) ∧
  (∀ c, line !! s' = Some c → p c = false).
Proof.
  revert s. induction n as [|n IH]; intros s Hs Hn; cbn [skip].
  - exists s. split; [done|]. split; [lia|]. split; [lia|]. intros c Hc%lookup_lt_Some. fold es in Hc. lia.
  - destruct (decide (s < es)%nat) as [Hlt|]; [|lia]. destruct (lookup_lt_is_Some_2 line s Hlt) as [c Hc].
    step (getch_in _ _ h Hc). destruct (p c) eqn:Ep.
    + destruct (IH (S s)) as (s' & -> & ? & Hp & Hq); [lia..|]. exists s'. split; [done|]. split; [lia|].
      split; [|done]. intros i Hi. destruct (decide (i = s)) as [->|]; [eauto|apply Hp; lia].
    + exists s. split; [done|]. split; [lia|]. split; [lia|]. intros d Hd. congruence.
Qed.

Lemma is_ws_cases c : is_ws c = true → is_sym1 c = false ∧ c ≠ cGT ∧ is_word c = false.
Proof.
  intros H. pose proof H as H'. unfold is_ws in H'. rewrite strchr_In, list_elem_of_In in H'. vm_compute in H'.
  by destruct H' as [<-|[<-|[<-|[<-|[<-|[]]]]]].
Qed.

Lemma is_sym1_cases c : is_sym1 c = true → is_ws c = false ∧ c ≠ cGT ∧ is_word c = false ∧ c ≠ 0.
Proof.
  intros H. pose proof H as H'. unfold is_sym1 in H'. rewrite strchr_In, list_elem_of_In in H'. vm_compute in H'.
  by destruct H' as [<-|[<-|[<-|[<-|[<-|[<-|[]]]]]]].
Qed.

Lemma is_word_cases c : is_word c = true → is_ws c = false ∧ is_sym1 c = false ∧ c ≠ cGT ∧ strchr symbols c = false.
Proof.
  intros H. destruct (is_ws c) eqn:E1; [by apply is_ws_cases in E1 as (_ & _ & ?); congruence|].
  destruct (is_sym1 c) eqn:E2; [by apply is_sym1_cases in E2 as (_ & _ & ? & _); congruence|].
  split; [done|]. split; [done|]. split; [by intros ->|]. unfold is_word in H. by destruct (strchr symbols c); rewrite ?andb_false_r in H.
Qed.

Lemma lexes_le s ts : lexes line s ts → (s + length ts ≤ es)%nat.
Proof.
  induction 1 as [|s c ts Hc _ _ IH|s c ts Hc _ _ IH|s ts Hc _ _ IH|s ts Hc _ _ IH|s e ts ? _ _ _ IH]; cbn [length] in *; unfold es in *; lia.
Qed.

(** After white space the tokens are the same. *)
Lemma lexes_ws s ts c : lexes line s ts → line !! s = Some c → is_ws c = true → lexes line (S s) ts.
Proof.
  intros Hl Hc Hw. destruct (is_ws_cases _ Hw) as (Hs & Hg & Hwd).
  inversion Hl as [|s0 c0 ts0 Hc0|s0 c0 ts0 Hc0|s0 ts0 Hc0|s0 ts0 Hc0|s0 e ts0 Hlt Hall]; subst; try congruence.
  - apply lookup_lt_Some in Hc. lia.
  - destruct (Hall s ltac:(lia)) as (d & ? & ?). congruence.
Qed.

Lemma lexes_skip s s' ts : lexes line s ts → (s ≤ s')%nat →
  (∀ i, (s ≤ i < s')%nat → ∃ c, line !! i = Some c ∧ is_ws c = true) → lexes line s' ts.
Proof.
  intros Hl Hle. induction Hle as [|s' Hle IH]; intros Hall; [done|].
  destruct (Hall s' ltac:(lia)) as (c & Hc & Hw). eapply lexes_ws; [|done|done].
  apply IH. intros i Hi. apply Hall. lia.
Qed.

Lemma skip_ws_spec s ts h : lexes line s ts → ∃ s',
  skip_ws s es (st h) = Ret s' (st h) ∧ lexes line s' ts ∧ (s ≤ s' ≤ es)%nat ∧
  ∀ c, line !! s' = Some c → is_ws c = false.
Proof.
  intros Hl. pose proof (lexes_le _ _ Hl). destruct (skip_spec (strchr whitespace) h (es - s) s) as (s' & Hr & ? & Hall & Hend); [lia|done|].
  exists s'. split; [done|]. split; [|done]. eapply lexes_skip; [done|lia|done].
Qed.

(** What a token looks like to [gettoken]. *)
Definition tok_ret (t : token) : Z := match t with TSym c => c | TWord _ _ => cA end.

Lemma gettoken_end s h : lexes line s [] → ∃ q s', gettoken s es (st h) = Ret (0, q, q, s') (st h) ∧ lexes line s' [].
Proof.
  intros Hl. unfold gettoken. destruct (skip_ws_spec s [] h Hl) as (s1 & Hr1 & Hl1 & Hle & Hn1). step Hr1.
  assert (s1 = es) as ->. { inversion Hl1 as [|? c ? Hc Hw| | | |]; subst; [done|]. apply Hn1 in Hc. congruence. }
  step (getch_es h). rewrite Z.eqb_refl. mstep. destruct (skip_ws_spec es [] h Hl1) as (s2 & Hr2 & Hl2 & _).
  step Hr2. eauto.
Qed.

Lemma gettoken_sym s c ts h : lexes line s (TSym c :: ts) → ∃ q e s',
  gettoken s es (st h) = Ret (c, q, e, s') (st h) ∧ lexes line s' ts.
Proof.
  intros Hl. unfold gettoken. destruct (skip_ws_spec s _ h Hl) as (s1 & Hr1 & Hl1 & Hle & Hn1). step Hr1.
  inversion Hl1 as [|? d ? Hc Hw|? d ? Hc Hs Hl2|? ? Hc Hd Hl2|? ? Hc Hd Hl2|]; subst.
  - apply Hn1 in Hc. congruence.
  - step (getch_in _ _ h Hc). rewrite (proj2 (Z.eqb_neq c 0)) by by eapply line_nz.
    change (strchr (ch "|();&<") c) with (is_sym1 c). rewrite Hs. mstep.
    destruct (skip_ws_spec _ _ h Hl2) as (s2 & Hr2 & Hl3 & _). step Hr2. eauto 10.
  - step (getch_in _ _ h Hc). cbn [Z.eqb]. change (cGT =? 0) with false. change (strchr (ch "|();&<") cGT) with false.
    rewrite Z.eqb_refl. cbv iota. erewrite bind_ret; [|step (getch_in _ _ h Hd); rewrite Z.eqb_refl; reflexivity].
    cbv beta iota. destruct (skip_ws_spec _ _ h Hl2) as (s2 & Hr2 & Hl3 & _). step Hr2. eauto 10.
  - step (getch_in _ _ h Hc). change (cGT =? 0) with false. change (strchr (ch "|();&<") cGT) with false.
    rewrite Z.eqb_refl. cbv iota.
    assert (∃ d, getch (S s1) (st h) = Ret d (st h) ∧ (d =? cGT) = false) as (d & Hg & Hne).
    { pose proof (lookup_lt_Some _ _ _ Hc). destruct (line !! S s1) as [d|] eqn:E.
      - exists d. split; [by apply getch_in|]. apply Z.eqb_neq. congruence.
      - exists 0. split; [|done]. apply lookup_ge_None in E. replace (S s1) with es by (unfold es; lia). apply getch_es. }
    erewrite bind_ret; [|step Hg; rewrite Hne; reflexivity].
    cbv beta iota. destruct (skip_ws_spec _ _ h Hl2) as (s2 & Hr2 & Hl3 & _). step Hr2. eauto 10.
Qed.

Lemma gettoken_word s q e ts h : lexes line s (TWord q e :: ts) → ∃ s',
  gettoken s es (st h) = Ret (cA, q, e, s') (st h) ∧ lexes line s' ts.
Proof.
  intros Hl. unfold gettoken. destruct (skip_ws_spec s _ h Hl) as (s1 & Hr1 & Hl1 & Hle & Hn1). step Hr1.
  inversion Hl1 as [|? d ? Hc Hw| | | |? ? ? Hlt Hall Hend Hl2]; subst.
  - apply Hn1 in Hc. congruence.
  - destruct (Hall q ltac:(lia)) as (c & Hc & Hw). destruct (is_word_cases _ Hw) as (_ & Hs & Hg & _).
    step (getch_in _ _ h Hc). rewrite (proj2 (Z.eqb_neq c 0)) by by eapply line_nz.
    change (strchr (ch "|();&<") c) with (is_sym1 c). rewrite Hs, (proj2 (Z.eqb_neq c cGT)) by done.
    destruct (skip_spec is_word h (es - q) q) as (e' & Hr2 & He' & Hall' & Hend'); [lia|done|].
    assert (e' = e) as ->.
    { destruct (Nat.lt_trichotomy e e') as [?|[?|?]]; [|done|].
      - destruct (Hall' e ltac:(lia)) as (d & Hd & Hd'). specialize (Hend _ Hd). congruence.
      - destruct (Hall e' ltac:(lia)) as (d & Hd & Hd'). specialize (Hend' _ Hd). congruence. }
    erewrite bind_ret; [|unfold skip_word; step Hr2; reflexivity]. cbv beta iota.
    destruct (skip_ws_spec _ _ h Hl2) as (s2 & Hr3 & Hl3 & _). step Hr3. eauto.
Qed.

(** [peek] looks at the first character of the next token. *)
Definition tok_char (c : Z) : Z := if c =? cPLUS then cGT else c.

Lemma peek_spec s ts toks h : lexes line s ts → Forall (λ c, c ∈ symbols) (ch toks) → ∃ s',
  peek s es toks (st h) =
    Ret (match ts with TSym c :: _ => strchr (ch toks) (tok_char c) | _ => false end, s') (st h) ∧
  lexes line s' ts.
Proof.
  intros Hl Hsym. unfold peek. destruct (skip_ws_spec s _ h Hl) as (s1 & Hr1 & Hl1 & Hle & Hn1). step Hr1.
  exists s1. split; [|done].
  inversion Hl1 as [|? d ? Hc Hw|? d ? Hc Hs Hl2|? ? Hc Hd Hl2|? ? Hc Hd Hl2|? ? ? Hlt Hall Hend Hl2]; subst.
  - step (getch_es h). done.
  - apply Hn1 in Hc. congruence.
  - step (getch_in _ _ h Hc). destruct (is_sym1_cases _ Hs) as (_ & _ & _ & Hz).
    rewrite (proj2 (Z.eqb_neq d 0)) by done. unfold tok_char.
    rewrite (proj2 (Z.eqb_neq d cPLUS)) by (intros ->; by vm_compute in Hs). done.
  - by step (getch_in _ _ h Hc).
  - by step (getch_in _ _ h Hc).
  - destruct (Hall s1 ltac:(lia)) as (c & Hc & Hw). step (getch_in _ _ h Hc).
    destruct (is_word_cases _ Hw) as (_ & _ & _ & Hns). replace (strchr (ch toks) c) with false.
    + by rewrite andb_false_r.
    + symmetry. apply not_true_is_false. rewrite strchr_In. intros Hin.
      rewrite Forall_forall in Hsym. apply Hsym, strchr_In in Hin. congruence.
Qed.

Lemma lexes_syms s ts : lexes line s ts → Forall (λ t, match t with TSym c => c ≠ cA ∧ c ≠ 0 | _ => True end) ts.
Proof.
  induction 1 as [|s c ts Hc _ _ IH|s c ts Hc Hs _ IH|s ts Hc _ _ IH|s ts Hc _ _ IH|s e ts ? _ _ _ IH]; try done;
    constructor; try done. split; [intros ->; by vm_compute in Hs|by eapply line_nz].
Qed.

Lemma peek_redir c : strchr (ch "<>") (tok_char c) = is_redir c.
Proof.
  unfold tok_char, is_redir. destruct (Z.eqb_spec c cPLUS) as [->|Hne]; [done|].
  rewrite orb_false_r. unfold strchr. change (ch "<>") with [cLT; cGT]. cbn. by rewrite orb_false_r.
Qed.

Lemma peek_stop c : strchr (ch "|)&;") (tok_char c) = strchr (ch "|)&;") c.
Proof. unfold tok_char. by destruct (Z.eqb_spec c cPLUS) as [->|Hne]. Qed.

Lemma peek_one c d toks : ch toks = [d] → d ≠ cGT → d ≠ cPLUS → strchr (ch toks) (tok_char c) = (c =? d).
Proof.
  intros -> Hd Hp. unfold tok_char, strchr. cbn. rewrite orb_false_r.
  destruct (Z.eqb_spec c cPLUS) as [->|]; [|done]. by rewrite !(proj2 (Z.eqb_neq _ _)).
Qed.

Lemma sym_toks toks : forallb (λ c, strchr symbols c) (ch toks) = true → Forall (λ c, c ∈ symbols) (ch toks).
Proof. intros H. apply Forall_forall. intros c Hc. apply strchr_In. eapply forallb_forall in H; [done|]. by apply list_elem_of_In. Qed.

Lemma redircmd_st c q e m fd h : redircmd c q e m fd (st h) = Ret (length h) (st (h ++ [REDIR c q e m fd])).
Proof. done. Qed.

Lemma execcmd_st h : execcmd (st h) = Ret (length h) (st (h ++ [exec_node []])).
Proof. done. Qed.

Lemma sim_redirs n ts s h cmd : lexes line s ts → (length ts < n)%nat →
  match tredirs ts with
  | Some (rs, r) => ∃ s',
      parseredirs n cmd s es (st h) = Ret (rptr cmd (length h) rs, s') (st (h ++ rnodes cmd (length h) rs)) ∧
      lexes line s' r
  | None => ∃ m h', parseredirs n cmd s es (st h) = Panic m (st h')
  end.
Proof.
  revert ts s h cmd. induction n as [|n IH]; intros ts s h cmd Hl Hn; [lia|]. cbn [parseredirs].
  destruct (peek_spec s ts "<>" h Hl) as (s1 & Hpk & Hl1); [by apply sym_toks|].
  destruct ts as [|[c|q e] ts]; cbn [tredirs].
  - step Hpk. cbv iota. exists s1. by rewrite app_nil_r.
  - rewrite peek_redir in Hpk. destruct (is_redir c) eqn:Ec.
    + destruct (gettoken_sym _ _ _ h Hl1) as (q0 & e0 & s2 & Hg & Hl2).
      destruct ts as [|[d|q e] ts].
      * do 2 eexists. step Hpk. cbv iota. step Hg. cbv iota.
        destruct (gettoken_end _ h Hl2) as (q1 & s3 & Hg2 & _). step Hg2. cbv iota. done.
      * pose proof (lexes_syms _ _ Hl2) as [[Hd _] _]%Forall_cons.
        do 2 eexists. step Hpk. cbv iota. step Hg. cbv iota.
        destruct (gettoken_sym _ _ _ h Hl2) as (q1 & e1 & s3 & Hg2 & _). step Hg2. cbv iota.
        rewrite (proj2 (Z.eqb_neq _ _)) by done. done.
      * destruct (gettoken_word _ _ _ _ h Hl2) as (s3 & Hg2 & Hl3).
        specialize (IH ts s3 (h ++ [REDIR cmd q e (redir_mode c) (redir_fd c)]) (length h) Hl3 ltac:(cbn in *; lia)).
        assert (parseredirs (S n) cmd s es (st h) =
          parseredirs n (length h) s3 es (st (h ++ [REDIR cmd q e (redir_mode c) (redir_fd c)]))) as Hrun.
        { cbn [parseredirs]. step Hpk. cbv iota. step Hg. cbv iota. step Hg2. cbv iota. rewrite Z.eqb_refl. cbn [negb].
          unfold is_redir in Ec. unfold redir_mode, redir_fd.
          destruct (c =? cLT); [step redircmd_st; done|]. destruct (c =? cGT); [step redircmd_st; done|].
          destruct (c =? cPLUS); [step redircmd_st; done|done]. }
        cbn [parseredirs] in Hrun. rewrite length_app, Nat.add_comm in IH. cbn [length Nat.add] in IH.
        destruct (tredirs ts) as [[rs r]|].
        -- destruct IH as (s' & Hr & Hl'). exists s'. rewrite Hrun, Hr. cbn [rnodes rptr]. by rewrite <- app_assoc.
        -- destruct IH as (m & h' & Hr). exists m, h'. by rewrite Hrun.
    + step Hpk. cbv iota. exists s1. by rewrite app_nil_r.
  - step Hpk. cbv iota. exists s1. by rewrite app_nil_r.
Qed.

Lemma pad_insert (l : list (option nat)) x : (length l < MAXARGS)%nat → <[length l := x]> (pad l) = pad (l ++ [x]).
Proof.
  intros Hl. unfold pad. rewrite insert_app_r_alt by done. rewrite Nat.sub_diag, <- app_assoc. f_equal.
  rewrite length_app. cbn [length]. replace (MAXARGS - length l)%nat with (S (MAXARGS - (length l + 1))) by lia. done.
Qed.

Lemma pad_nil_insert (l : list (option nat)) : (length l < MAXARGS)%nat → <[length l := None]> (pad l) = pad l.
Proof.
  intros Hl. rewrite pad_insert by done. unfold pad. rewrite length_app, <- app_assoc. f_equal. cbn [length].
  replace (MAXARGS - length l)%nat with (S (MAXARGS - (length l + 1))) by lia. done.
Qed.

Lemma set_arg_st h0 ws nodes w : (length ws < MAXARGS)%nat →
  set_arg (length h0) (length ws) (Some w.1) (Some w.2) (st (h0 ++ exec_node ws :: nodes)) =
  Ret tt (st (h0 ++ exec_node (ws ++ [w]) :: nodes)).
Proof.
  intros Hl. unfold set_arg, st. cbn [sh_heap]. rewrite list_lookup_middle by done. unfold exec_node at 1.
  rewrite decide_True by done. cbn. unfold st. do 2 f_equal.
  rewrite insert_app_r_alt, Nat.sub_diag by done. cbn. unfold exec_node. rewrite !fmap_app. cbn.
  pose proof (pad_insert ((λ w, Some w.1) <$> ws) (Some w.1)) as H1.
  pose proof (pad_insert ((λ w, Some w.2) <$> ws) (Some w.2)) as H2. rewrite length_fmap in H1, H2.
  f_equal. f_equal. f_equal; [exact (H1 Hl)|exact (H2 Hl)].
Qed.

Lemma set_arg_none h0 ws nodes : (length ws < MAXARGS)%nat →
  set_arg (length h0) (length ws) None None (st (h0 ++ exec_node ws :: nodes)) =
  Ret tt (st (h0 ++ exec_node ws :: nodes)).
Proof.
  intros Hl. unfold set_arg, st. cbn [sh_heap]. rewrite list_lookup_middle by done. unfold exec_node at 1.
  rewrite decide_True by done. cbn. unfold st. do 2 f_equal.
  rewrite insert_app_r_alt, Nat.sub_diag by done. cbn. unfold exec_node.
  pose proof (pad_nil_insert ((λ w, Some w.1) <$> ws)) as H1.
  pose proof (pad_nil_insert ((λ w, Some w.2) <$> ws)) as H2. rewrite length_fmap in H1, H2.
  f_equal. f_equal. f_equal; [exact (H1 Hl)|exact (H2 Hl)].
Qed.

Lemma tredirs_le ts rs r : tredirs ts = Some (rs, r) → (length r ≤ length ts)%nat.
Proof. intros (pre & -> & _)%tredirs_sound. rewrite length_app. lia. Qed.

Lemma sim_args n ts s h0 ws nodes r : lexes line s ts → (length ts < n)%nat → (length ws < MAXARGS)%nat →
  (∀ c ts', ts = TSym c :: ts' → is_redir c = false) →
  let h := h0 ++ exec_node ws :: nodes in
  match titems (9 - length ws) ts with
  | Some (ws', rs, rest) => ∃ s',
      parseargs n (length h0) r (length ws) s es (st h) =
        Ret (rptr r (length h) rs, s') (st (h0 ++ exec_node (ws ++ ws') :: nodes ++ rnodes r (length h) rs)) ∧
      lexes line s' rest
  | None => ∃ m h', parseargs n (length h0) r (length ws) s es (st h) = Panic m (st h')
  end.
Proof.
  revert ts s ws nodes r. induction n as [|n IH]; intros ts s ws nodes r Hl Hn Hws Hnr h; [lia|]. cbn [parseargs].
  destruct (peek_spec s ts "|)&;" h Hl) as (s1 & Hpk & Hl1); [by apply sym_toks|].
  destruct ts as [|[c|q e] ts].
  - cbn [titems]. step Hpk. cbv iota. destruct (gettoken_end _ h Hl1) as (q1 & s2 & Hg & Hl2). step Hg. cbv iota.
    rewrite Z.eqb_refl. step (set_arg_none h0 ws nodes Hws). exists s2. by rewrite !app_nil_r.
  - rewrite peek_stop in Hpk. cbn [titems]. destruct (strchr (ch "|)&;") c) eqn:Ec.
    + step Hpk. cbv iota. step (set_arg_none h0 ws nodes Hws). exists s1. by rewrite !app_nil_r.
    + rewrite (Hnr c ts eq_refl). pose proof (lexes_syms _ _ Hl1) as [[Ha Hz] _]%Forall_cons.
      do 2 eexists. step Hpk. cbv iota. destruct (gettoken_sym _ _ _ h Hl1) as (q1 & e1 & s2 & Hg & _).
      step Hg. cbv iota. rewrite (proj2 (Z.eqb_neq c 0)), (proj2 (Z.eqb_neq c cA)) by done. done.
  - destruct (gettoken_word _ _ _ _ h Hl1) as (s2 & Hg & Hl2). pose proof (lexes_le _ _ Hl2) as Hle.
    set (h1 := h0 ++ exec_node (ws ++ [(q, e)]) :: nodes).
    assert (parseargs (S n) (length h0) r (length ws) s es (st h) =
      (if decide (MAXARGS ≤ S (length ws))%nat then panic "too many args" else
       let* t := parseredirs (S (es - s2)) r s2 es in
       let '(r, s) := t in parseargs n (length h0) r (S (length ws)) s es) (st h1)) as Hrun.
    { cbn [parseargs]. step Hpk. cbv iota. step Hg. cbv iota. change (cA =? 0) with false. rewrite Z.eqb_refl. cbn [negb].
      step (set_arg_st h0 ws nodes (q, e) Hws). done. }
    cbn [parseargs] in Hrun. rewrite Hrun. clear Hrun Hpk Hg. cbn [titems].
    destruct (decide (MAXARGS ≤ S (length ws))%nat) as [Hm|Hm]; unfold MAXARGS in *.
    { replace (9 - length ws)%nat with 0%nat by lia. eauto. }
    replace (9 - length ws)%nat with (S (9 - S (length ws))) by lia. rewrite titems_redirs.
    pose proof (sim_redirs (S (es - s2)) ts s2 h1 r Hl2 ltac:(lia)) as Hrd.
    destruct (tredirs ts) as [[rs1 r1]|] eqn:Er.
    + destruct Hrd as (s3 & Hr & Hl3).
      specialize (IH r1 s3 (ws ++ [(q, e)]) (nodes ++ rnodes r (length h1) rs1) (rptr r (length h1) rs1) Hl3).
      rewrite length_app in IH. cbn [length] in IH. rewrite Nat.add_1_r in IH.
      pose proof (tredirs_le _ _ _ Er). specialize (IH ltac:(cbn in *; lia) ltac:(lia)).
      specialize (IH (λ c ts' Heq, tredirs_rest _ _ _ Er c ts' Heq)). cbv zeta in IH.
      replace (h0 ++ exec_node (ws ++ [(q, e)]) :: nodes ++ rnodes r (length h1) rs1)
        with (h1 ++ rnodes r (length h1) rs1) in IH by (unfold h1; by rewrite <- app_assoc).
      assert (length h1 = length h) as Hlen by (unfold h1, h; by rewrite !length_app).
      destruct (titems (9 - S (length ws)) r1) as [[[ws' rs'] r']|].
      * destruct IH as (s' & Hrun & Hl'). exists s'. step Hr. cbv iota. rewrite Hrun. split; [|done].
        rewrite length_app, length_rnodes, <- rptr_app, !Hlen. do 3 f_equal. rewrite <- !app_assoc. cbn [app].
        by rewrite rnodes_app.
      * destruct IH as (m & h' & Hrun). exists m, h'. step Hr. cbv iota. done.
    + destruct Hrd as (m & h' & Hr). exists m, h'. by erewrite bind_panic by exact Hr.
Qed.

Lemma tparse_le n ts a r :
  (tline n ts = Some (a, r) → (length r ≤ length ts)%nat) ∧ (tpipe n ts = Some (a, r) → (length r ≤ length ts)%nat) ∧
  (texec n ts = Some (a, r) → (length r ≤ length ts)%nat).
Proof.
  destruct (tparse_sound n) as (Hl & Hp & He & _).
  split_and!; intros Hr; [apply Hl in Hr|apply Hp in Hr|apply He in Hr]; destruct Hr as (pre & -> & _); rewrite length_app; lia.
Qed.

Lemma sim_back n ts s h p a : lexes line s ts → (length ts < n)%nat → denotes h p a → ∃ p' s' h',
  parseback n p s es (st h) = Ret (p', s') (st (h ++ h')) ∧ lexes line s' (tback a ts).2 ∧
  denotes (h ++ h') p' (tback a ts).1.
Proof.
  revert ts s h p a. induction n as [|n IH]; intros ts s h p a Hl Hn Hd; [lia|]. cbn [parseback].
  destruct (peek_spec s ts "&" h Hl) as (s1 & Hpk & Hl1); [by apply sym_toks|]. step Hpk. cbv iota.
  destruct ts as [|[c|q e] ts]; cbn [tback].
  - exists p, s1, []. by rewrite app_nil_r.
  - rewrite (peek_one c cAMP) by done. destruct (c =? cAMP) eqn:Ec.
    + destruct (gettoken_sym _ _ _ h Hl1) as (q0 & e0 & s2 & Hg & Hl2). step Hg. cbv iota.
      unfold backcmd at 1. mstep. destruct (IH ts s2 (h ++ [BACK p]) (length h) (ABack a) Hl2) as (p' & s' & h' & Hr & Hl' & Hd').
      * cbn in Hn. lia.
      * exists p. rewrite list_lookup_middle by done. split; [done|]. split; [by eapply denotes_lt|by apply denotes_app].
      * exists p', s', ([BACK p] ++ h'). rewrite app_assoc. done.
    + exists p, s1, []. by rewrite app_nil_r.
  - exists p, s1, []. by rewrite app_nil_r.
Qed.

(** One parsing function follows the token parser. *)
Definition follows_tokens (f : SM (nat * nat)) (h : list node) (o : option (ast span * list token)) : Prop :=
  match o with
  | Some (a, r) => ∃ p s' h', f (st h) = Ret (p, s') (st (h ++ h')) ∧ lexes line s' r ∧ denotes (h ++ h') p a
  | None => ∃ m h', f (st h) = Panic m (st h')
  end.

Lemma peek_next s ts toks d h : lexes line s ts → ch toks = [d] → d ∈ symbols → d ≠ cGT → d ≠ cPLUS → ∃ s',
  peek s es toks (st h) = Ret (bool_decide (is_Some (next_is d ts)), s') (st h) ∧ lexes line s' ts.
Proof.
  intros Hl Ht Hs Hd Hp. destruct (peek_spec s ts toks h Hl) as (s1 & Hpk & Hl1); [rewrite Ht; by constructor|].
  exists s1. split; [|done]. rewrite Hpk. do 2 f_equal. destruct ts as [|[c|] ts]; try done.
  rewrite (peek_one c d) by done. cbn [next_is]. destruct (c =? d); [by rewrite bool_decide_eq_true_2 by eauto|].
  rewrite bool_decide_eq_false_2; [done|]. by intros [? ?].
Qed.

Lemma next_is_sym s d ts ts' h : lexes line s ts → next_is d ts = Some ts' → ∃ q e s',
  gettoken s es (st h) = Ret (d, q, e, s') (st h) ∧ lexes line s' ts'.
Proof. intros Hl ->%next_is_Some. by apply gettoken_sym. Qed.

Lemma sim_line n :
  (∀ ts s h, lexes line s ts → (4 * length ts + 4 ≤ n)%nat → follows_tokens (parseline n s es) h (tline n ts)) →
  (∀ ts s h, lexes line s ts → (4 * length ts + 3 ≤ n)%nat → follows_tokens (parsepipe n s es) h (tpipe n ts)) →
  ∀ ts s h, lexes line s ts → (4 * length ts + 4 ≤ S n)%nat → follows_tokens (parseline (S n) s es) h (tline (S n) ts).
Proof.
  intros IHl IHp ts s h Hl Hn. specialize (IHp ts s h Hl ltac:(lia)). pose proof (tparse_le n ts) as Hle.
  unfold follows_tokens. cbn [parseline tline]. destruct (tpipe n ts) as [[a r]|]; cbn [mbind option_bind fst snd].
  2:{ destruct IHp as (m & h' & Hr). exists m, h'. by erewrite bind_panic by exact Hr. }
  destruct IHp as (p & s1 & h1 & Hr & Hl1 & Hd). destruct (Hle a r) as (_ & Hle' & _). specialize (Hle' eq_refl).
  pose proof (lexes_le _ _ Hl1). step Hr. cbv iota.
  destruct (sim_back (S (es - s1)) r s1 (h ++ h1) p a Hl1 ltac:(lia) Hd) as (p2 & s2 & h2 & Hr2 & Hl2 & Hd2).
  step Hr2. cbv iota. destruct (tback a r) as [a2 r2] eqn:Eb. destruct (tback_sound _ _ _ _ Eb) as (k & -> & _).
  rewrite length_app in Hle'. cbn [fst snd] in *.
  destruct (peek_next s2 r2 ";" cSEMI ((h ++ h1) ++ h2) Hl2) as (s3 & Hpk & Hl3); [done|by apply strchr_In|done|done|].
  step Hpk. cbv iota. destruct (next_is cSEMI r2) as [r3|] eqn:En.
  - rewrite bool_decide_eq_true_2 by eauto.
    destruct (next_is_sym _ _ _ _ ((h ++ h1) ++ h2) Hl3 En) as (q & e & s4 & Hg & Hl4). step Hg. cbv iota.
    apply next_is_Some in En as ->. cbn [length] in Hle'.
    specialize (IHl r3 s4 ((h ++ h1) ++ h2) Hl4 ltac:(lia)). destruct (tline n r3) as [[a4 r4]|]; cbn [mbind option_bind fst snd].
    + destruct IHl as (p4 & s5 & h4 & Hr4 & Hl5 & Hd4). step Hr4. cbv iota. unfold listcmd. mstep.
      exists (length (((h ++ h1) ++ h2) ++ h4)), s5, (h1 ++ h2 ++ h4 ++ [LIST p2 p4]).
      rewrite !app_assoc. split; [done|]. split; [done|]. exists p2, p4. rewrite list_lookup_middle by done.
      pose proof (denotes_lt _ _ _ Hd2). pose proof (denotes_lt _ _ _ Hd4).
      split; [done|]. split; [rewrite !length_app in *; lia|]. split; [done|].
      split; [by do 2 apply denotes_app|by apply denotes_app].
    + destruct IHl as (m & h' & Hr4). exists m, h'. by erewrite bind_panic by exact Hr4.
  - rewrite bool_decide_eq_false_2 by (by intros [? ?]). exists p2, s3, (h1 ++ h2). rewrite app_assoc. done.
Qed.

Lemma sim_pipe n :
  (∀ ts s h, lexes line s ts → (4 * length ts + 3 ≤ n)%nat → follows_tokens (parsepipe n s es) h (tpipe n ts)) →
  (∀ ts s h, lexes line s ts → (4 * length ts + 2 ≤ n)%nat → follows_tokens (parseexec n s es) h (texec n ts)) →
  ∀ ts s h, lexes line s ts → (4 * length ts + 3 ≤ S n)%nat → follows_tokens (parsepipe (S n) s es) h (tpipe (S n) ts).
Proof.
  intros IHp IHe ts s h Hl Hn. specialize (IHe ts s h Hl ltac:(lia)). pose proof (tparse_le n ts) as Hle.
  unfold follows_tokens. cbn [parsepipe tpipe]. destruct (texec n ts) as [[a r]|]; cbn [mbind option_bind fst snd].
  2:{ destruct IHe as (m & h' & Hr). exists m, h'. by erewrite bind_panic by exact Hr. }
  destruct IHe as (p & s1 & h1 & Hr & Hl1 & Hd). destruct (Hle a r) as (_ & _ & Hle'). specialize (Hle' eq_refl).
  step Hr. cbv iota.
  destruct (peek_next s1 r "|" cBAR (h ++ h1) Hl1) as (s3 & Hpk & Hl3); [done|by apply strchr_In|done|done|].
  step Hpk. cbv iota. destruct (next_is cBAR r) as [r3|] eqn:En.
  - rewrite bool_decide_eq_true_2 by eauto.
    destruct (next_is_sym _ _ _ _ (h ++ h1) Hl3 En) as (q & e & s4 & Hg & Hl4). step Hg. cbv iota.
    apply next_is_Some in En as ->. cbn [length] in Hle'.
    specialize (IHp r3 s4 (h ++ h1) Hl4 ltac:(lia)). destruct (tpipe n r3) as [[a4 r4]|]; cbn [mbind option_bind fst snd].
    + destruct IHp as (p4 & s5 & h4 & Hr4 & Hl5 & Hd4). step Hr4. cbv iota. unfold pipecmd. mstep.
      exists (length ((h ++ h1) ++ h4)), s5, (h1 ++ h4 ++ [PIPE p p4]).
      rewrite !app_assoc. split; [done|]. split; [done|]. exists p, p4. rewrite list_lookup_middle by done.
      pose proof (denotes_lt _ _ _ Hd). pose proof (denotes_lt _ _ _ Hd4).
      split; [done|]. split; [rewrite !length_app in *; lia|]. split; [done|].
      split; [by do 2 apply denotes_app|by apply denotes_app].
    + destruct IHp as (m & h' & Hr4). exists m, h'. by erewrite bind_panic by exact Hr4.
  - rewrite bool_decide_eq_false_2 by (by intros [? ?]). exists p, s3, h1. done.
Qed.

Lemma sim_exec n :
  (∀ ts s h, lexes line s (TSym cLPAR :: ts) → (4 * length ts + 5 ≤ n)%nat →
     follows_tokens (parseblock n s es) h (tblock n ts)) →
  ∀ ts s h, lexes line s ts → (4 * length ts + 2 ≤ S n)%nat → follows_tokens (parseexec (S n) s es) h (texec (S n) ts).
Proof.
  intros IHb ts s h Hl Hn. unfold follows_tokens. cbn [parseexec texec].
  destruct (peek_next s ts "(" cLPAR h Hl) as (s1 & Hpk & Hl1); [done|by apply strchr_In|done|done|].
  destruct (next_is cLPAR ts) as [ts'|] eqn:En.
  - apply next_is_Some in En as ->. cbn [length] in Hn. specialize (IHb ts' s1 h Hl1 ltac:(lia)).
    unfold follows_tokens in IHb. erewrite bind_ret by exact Hpk. rewrite bool_decide_eq_true_2 by eauto. exact IHb.
  - rewrite bool_decide_eq_false_2 in Hpk by (by intros [? ?]). erewrite bind_ret by exact Hpk. cbv beta iota.
    erewrite bind_ret by apply execcmd_st. cbv beta. set (h1 := h ++ [exec_node []]). rewrite titems_redirs.
    pose proof (lexes_le _ _ Hl1). pose proof (sim_redirs (S (es - s1)) ts s1 h1 (length h) Hl1 ltac:(lia)) as Hrd.
    destruct (tredirs ts) as [[rs r]|] eqn:Er.
    2:{ destruct Hrd as (m & h' & Hr). exists m, h'. by erewrite bind_panic by exact Hr. }
    destruct Hrd as (s2 & Hr & Hl2). pose proof (lexes_le _ _ Hl2).
    pose proof (sim_args (S (es - s2)) r s2 h [] (rnodes (length h) (length h1) rs) (rptr (length h) (length h1) rs) Hl2) as Ha.
    specialize (Ha ltac:(lia) ltac:(unfold MAXARGS; cbn; lia) (λ c ts' Heq, tredirs_rest _ _ _ Er c ts' Heq)).
    cbv zeta in Ha. cbn [length Nat.sub] in Ha.
    replace (h ++ exec_node [] :: rnodes (length h) (length h1) rs) with (h1 ++ rnodes (length h) (length h1) rs) in Ha
      by (unfold h1; by rewrite <- app_assoc).
    destruct (titems 9 r) as [[[ws rs'] r']|] eqn:Et; cbn [mbind option_bind fst snd].
    + destruct Ha as (s3 & Hr3 & Hl3). destruct (titems_sound _ _ _ _ _ Et) as [_ Hws].
      exists (rptr (length h) (length h1) (rs ++ rs')), s3, (exec_node ws :: rnodes (length h) (length h1) (rs ++ rs')).
      split; [|split; [done|]].
      * erewrite bind_ret by exact Hr. cbv beta iota. rewrite Hr3. rewrite length_app, length_rnodes, <- rptr_app.
        rewrite rnodes_app. done.
      * replace (length h1) with (length (h ++ [exec_node ws])) by (unfold h1; by rewrite !length_app).
        replace (h ++ exec_node ws :: _) with ((h ++ [exec_node ws]) ++ rnodes (length h) (length (h ++ [exec_node ws])) (rs ++ rs'))
          by (by rewrite <- app_assoc).
        apply denotes_wrap. split; [by rewrite list_lookup_middle|]. unfold MAXARGS. lia.
    + destruct Ha as (m & h' & Hr3). exists m, h'. erewrite bind_ret by exact Hr. done.
Qed.

Lemma sim_block n :
  (∀ ts s h, lexes line s ts → (4 * length ts + 4 ≤ n)%nat → follows_tokens (parseline n s es) h (tline n ts)) →
  ∀ ts s h, lexes line s (TSym cLPAR :: ts) → (4 * length ts + 5 ≤ S n)%nat →
    follows_tokens (parseblock (S n) s es) h (tblock (S n) ts).
Proof.
  intros IHl ts s h Hl Hn. unfold follows_tokens. cbn [parseblock tblock].
  destruct (peek_next s _ "(" cLPAR h Hl) as (s1 & Hpk & Hl1); [done|by apply strchr_In|done|done|].
  cbn [next_is] in Hpk. rewrite Z.eqb_refl, bool_decide_eq_true_2 in Hpk by eauto.
  destruct (gettoken_sym _ _ _ h Hl1) as (q0 & e0 & s2 & Hg & Hl2).
  assert (∀ B (k : nat → SM B), (let* pk := peek s es "(" in let '(b, s) := pk in
    if negb b then panic "parseblock" else let* t := gettoken s es in let '(_, _, _, s) := t in k s) (st h) = k s2 (st h)) as Hstart.
  { intros B k. step Hpk. cbv iota. cbn [negb]. step Hg. done. }
  rewrite Hstart. clear Hstart Hpk Hg.
  specialize (IHl ts s2 h Hl2 ltac:(lia)). unfold follows_tokens in IHl.
  destruct (tline n ts) as [[a r]|]; cbn [mbind option_bind fst snd].
  2:{ destruct IHl as (m & h' & Hr). exists m, h'. by erewrite bind_panic by exact Hr. }
  destruct IHl as (p & s3 & h1 & Hr & Hl3 & Hd). step Hr. cbv iota.
  destruct (peek_next s3 r ")" cRPAR (h ++ h1) Hl3) as (s4 & Hpk & Hl4); [done|by apply strchr_In|done|done|].
  step Hpk. cbv iota. destruct (next_is cRPAR r) as [r4|] eqn:En; cbn [mbind option_bind].
  2:{ rewrite bool_decide_eq_false_2 by (by intros [? ?]). cbn [negb]. by do 2 eexists. }
  rewrite bool_decide_eq_true_2 by eauto. cbn [negb].
  destruct (next_is_sym _ _ _ _ (h ++ h1) Hl4 En) as (q & e & s5 & Hg & Hl5). step Hg. cbv iota. pose proof (lexes_le _ _ Hl5).
  pose proof (sim_redirs (S (es - s5)) r4 s5 (h ++ h1) p Hl5 ltac:(lia)) as Hrd.
  destruct (tredirs r4) as [[rs r6]|]; cbn [mbind option_bind fst snd]; [|done].
  destruct Hrd as (s6 & Hr6 & Hl6). exists (rptr p (length (h ++ h1)) rs), s6, (h1 ++ rnodes p (length (h ++ h1)) rs).
  rewrite app_assoc. split; [done|]. split; [done|]. by apply denotes_wrap.
Qed.

Lemma sim_parse n :
  (∀ ts s h, lexes line s ts → (4 * length ts + 4 ≤ n)%nat → follows_tokens (parseline n s es) h (tline n ts)) ∧
  (∀ ts s h, lexes line s ts → (4 * length ts + 3 ≤ n)%nat → follows_tokens (parsepipe n s es) h (tpipe n ts)) ∧
  (∀ ts s h, lexes line s ts → (4 * length ts + 2 ≤ n)%nat → follows_tokens (parseexec n s es) h (texec n ts)) ∧
  (∀ ts s h, lexes line s (TSym cLPAR :: ts) → (4 * length ts + 5 ≤ n)%nat →
     follows_tokens (parseblock n s es) h (tblock n ts)).
Proof.
  induction n as [|n (IHl & IHp & IHe & IHb)]; [split_and!; intros; lia|].
  split_and!; [by apply sim_line|by apply sim_pipe|by apply sim_exec|by apply sim_block].
Qed.

Lemma lexes_es r : lexes line es r → r = [].
Proof.
  intros Hl. pose proof (lexes_le _ _ Hl). destruct r; [done|]. cbn in *. lia.
Qed.

Lemma peek_end s r h : lexes line s r → ∃ x s',
  peek s es "" (st h) = Ret (x, s') (st h) ∧ (s' = es ↔ r = []).
Proof.
  intros Hl. unfold peek. destruct (skip_ws_spec s _ h Hl) as (s1 & Hr1 & Hl1 & Hle & Hn1). step Hr1.
  assert (∃ c, getch s1 (st h) = Ret c (st h)) as [c Hc].
  { destruct (line !! s1) as [c|] eqn:E; [exists c; by apply getch_in|].
    apply lookup_ge_None in E. exists 0. replace s1 with es by (unfold es in *; lia). apply getch_es. }
  step Hc. do 2 eexists. split; [done|]. split.
  - intros ->. by apply lexes_es.
  - intros ->. inversion Hl1 as [|? d ? Hd Hw| | | |]; subst; [done|]. apply Hn1 in Hd. congruence.
Qed.

Lemma linelen_b : linelen b = es.
Proof using Hnz. by apply linelen_app. Qed.

(** A word of the line: its characters, and what ends it. *)
Definition word_ok (w : span) : Prop :=
  (w.1 < w.2 ≤ es)%nat ∧ (∀ i, (w.1 ≤ i < w.2)%nat → ∃ c, line !! i = Some c ∧ is_word c = true) ∧
  ∀ c, line !! w.2 = Some c → is_word c = false.

Lemma lexes_words s ts q e : lexes line s ts → TWord q e ∈ ts → word_ok (q, e).
Proof.
  induction 1 as [|s c ts Hc _ _ IH|s c ts Hc _ _ IH|s ts Hc _ _ IH|s ts Hc _ _ IH|s e' ts Hlt Hall Hend Hl IH];
    rewrite ?elem_of_cons; try set_solver.
  intros [[= -> ->]|?]; [|auto]. pose proof (lexes_le _ _ Hl). split; [cbn; lia|done].
Qed.
End parser.

Lemma Redirs_words ts rs : Redirs ts rs → ∀ w, w ∈ rs.*2 → TWord w.1 w.2 ∈ ts.
Proof. induction 1; intros w; cbn; set_solver. Qed.

Lemma Items_words ts ws rs : Items ts ws rs → ∀ w, w ∈ ws ∨ w ∈ rs.*2 → TWord w.1 w.2 ∈ ts.
Proof. induction 1; intros w; cbn; set_solver. Qed.

Lemma spans_wrap a rs : spans (wrap a rs) = spans a ++ rs.*2.
Proof.
  revert a. induction rs as [|[o f] rs IH]; intros a; cbn; [by rewrite app_nil_r|]. rewrite IH. cbn. by rewrite <- app_assoc.
Qed.

Lemma spans_back n a : spans (Nat.iter n ABack a) = spans a.
Proof. induction n; [done|]. done. Qed.

Lemma Line_words :
  (∀ ts a, Line ts a → ∀ w, w ∈ spans a → TWord w.1 w.2 ∈ ts) ∧
  (∀ ts a, Pipe ts a → ∀ w, w ∈ spans a → TWord w.1 w.2 ∈ ts) ∧
  (∀ ts a, Exec ts a → ∀ w, w ∈ spans a → TWord w.1 w.2 ∈ ts).
Proof.
  apply grammar_ind.
  - intros ts a n _ IH w. rewrite spans_back. set_solver.
  - intros ts a n ts' a' _ IH _ IH' w. cbn. rewrite spans_back. set_solver.
  - done.
  - intros ts a ts' a' _ IH _ IH' w. cbn. set_solver.
  - intros ts ws rs Hi _ w. rewrite spans_wrap. pose proof (Items_words _ _ _ Hi w). set_solver.
  - intros ts a ts' rs _ IH Hr w. rewrite spans_wrap. pose proof (Redirs_words _ _ Hr w). set_solver.
Qed.

(** ** What the parsed command says *)

(** The C string at [q] is [w]. *)
Definition cstr_at (bf : list Z) (q : nat) (w : list Z) : Prop :=
  Forall (λ c, c ≠ 0) w ∧ (∀ i c, w !! i = Some c → bf !! (q + i)%nat = Some c) ∧ bf !! (q + length w)%nat = Some 0.

(** The command at [p] with its strings read from [bf]; an argument list ends
    with a null pointer, and commands point to older ones. *)
Fixpoint holds (h : list node) (bf : list Z) (p : nat) (a : ast (list Z)) : Prop :=
  match a with
  | AExec ws => ∃ argv eargv, h !! p = Some (EXEC argv eargv) ∧
      (∀ i w, ws !! i = Some w → ∃ q, argv !! i = Some (Some q) ∧ cstr_at bf q w) ∧ argv !! length ws = Some None
  | ARedir a f m fd => ∃ c q e, h !! p = Some (REDIR c q e m fd) ∧ (c < p)%nat ∧ cstr_at bf q f ∧ holds h bf c a
  | APipe l r => ∃ x y, h !! p = Some (PIPE x y) ∧ (x < p)%nat ∧ (y < p)%nat ∧ holds h bf x l ∧ holds h bf y r
  | AList l r => ∃ x y, h !! p = Some (LIST x y) ∧ (x < p)%nat ∧ (y < p)%nat ∧ holds h bf x l ∧ holds h bf y r
  | ABack a => ∃ c, h !! p = Some (BACK c) ∧ (c < p)%nat ∧ holds h bf c a
  end.

(** The characters of a word. *)
Definition word_of (line : list Z) (w : span) : list Z := take (w.2 - w.1) (drop w.1 line).
Fixpoint words (line : list Z) (a : ast span) : ast (list Z) :=
  match a with
  | AExec ws => AExec (word_of line <$> ws)
  | ARedir a f m fd => ARedir (words line a) (word_of line f) m fd
  | APipe l r => APipe (words line l) (words line r)
  | AList l r => AList (words line l) (words line r)
  | ABack a => ABack (words line a)
  end.

Lemma denotes_holds h bf line a : ∀ p, denotes h p a →
  (∀ w, w ∈ spans a → cstr_at bf w.1 (word_of line w)) → holds h bf p (words line a).
Proof.
  induction a as [ws|a IH [q e] m fd|l IHl r IHr|l IHl r IHr|a IH]; intros p; cbn [denotes spans words holds].
  - intros [Hp Hl] Hw. do 2 eexists. split; [exact Hp|]. split.
    + intros i w. rewrite list_lookup_fmap. intros (x & Hx & ->)%fmap_Some. exists x.1. split.
      * unfold pad. apply lookup_app_l_Some.
        etrans; [exact (list_lookup_fmap (λ w : span, Some w.1) ws i)|]. by rewrite Hx.
      * apply Hw. by eapply list_elem_of_lookup_2.
    + unfold pad. rewrite length_fmap, lookup_app_r by (by rewrite length_fmap).
      rewrite !length_fmap, Nat.sub_diag. apply lookup_replicate_2. unfold MAXARGS, span in *. lia.
  - intros (c & Hp & ? & Hd) Hw. exists c, q, e. do 2 (split; [done|]). split; [apply (Hw (q, e))|apply IH]; set_solver.
  - intros (x & y & Hp & ? & ? & Hx & Hy) Hw. exists x, y. do 3 (split; [done|]). split; [apply IHl|apply IHr]; set_solver.
  - intros (x & y & Hp & ? & ? & Hx & Hy) Hw. exists x, y. do 3 (split; [done|]). split; [apply IHl|apply IHr]; set_solver.
  - intros (c & Hp & ? & Hd) Hw. exists c. do 2 (split; [done|]). by apply IH.
Qed.

(** A word is a string once the ends of all words are NUL. *)
Lemma nul_cstr line junk l w : Forall (λ c, c ≠ 0) line → (∀ x, x ∈ l → word_ok line x) → w ∈ l →
  cstr_at (nul (line ++ 0 :: junk) l) w.1 (word_of line w).
Proof.
  intros Hnz Hall Hw. pose proof (Hall _ Hw) as (Hr & Hch & _).
  assert (length (word_of line w) = (w.2 - w.1)%nat) as Hlen.
  { unfold word_of. rewrite length_take, length_drop. lia. }
  split; [|split].
  - unfold word_of. by apply Forall_take, Forall_drop.
  - intros i c Hc. pose proof (lookup_lt_Some _ _ _ Hc). unfold word_of in Hc. rewrite lookup_take_lt, lookup_drop in Hc by lia.
    rewrite nul_lookup, bool_decide_eq_false_2; [by apply lookup_app_l_Some|].
    intros (x & Hx & Hxl)%list_elem_of_fmap. destruct (Hall _ Hxl) as (_ & _ & Hend).
    destruct (Hch (w.1 + i)%nat ltac:(lia)) as (d & Hd & Hd'). rewrite Hx in Hd. specialize (Hend _ Hd). congruence.
  - rewrite Hlen. replace (w.1 + (w.2 - w.1))%nat with w.2 by lia. rewrite nul_lookup.
    rewrite bool_decide_eq_true_2 by (by apply list_elem_of_fmap_2). rewrite decide_True; [done|].
    rewrite length_app. cbn. lia.
Qed.

(** Every line has tokens. *)
Lemma lexes_total line : ∀ n s, (s ≤ length line)%nat → n = (length line - s)%nat → ∃ ts, lexes line s ts.
Proof.
  induction n as [n IH] using (well_founded_induction lt_wf). intros s Hs ->.
  destruct (decide (s = length line)) as [->|Hne]; [eexists; constructor|].
  destruct (lookup_lt_is_Some_2 line s ltac:(lia)) as [c Hc].
  assert (∀ s', (s < s' ≤ length line)%nat → ∃ ts, lexes line s' ts) as Hnext.
  { intros s' ?. eapply IH; [|lia|done]. lia. }
  destruct (Hnext (S s) ltac:(lia)) as [ts Hts].
  destruct (is_ws c) eqn:Ew; [eexists; by eapply lx_ws|]. destruct (is_sym1 c) eqn:Es; [eexists; by eapply lx_sym|].
  destruct (decide (c = cGT)) as [->|Hg].
  - destruct (decide (line !! S s = Some cGT)) as [Hd|Hd]; [|eexists; by eapply lx_gt].
    destruct (Hnext (S (S s))) as [ts' Hts']; [|eexists; by eapply lx_gtgt].
    apply lookup_lt_Some in Hd. lia.
  - assert (is_word c = true) as Hw.
    { unfold is_word. unfold is_ws in Ew. rewrite Ew. cbn. apply negb_true_iff, not_true_is_false.
      intros Hsym. rewrite strchr_In, list_elem_of_In in Hsym. vm_compute in Hsym.
      by destruct Hsym as [<-|[<-|[<-|[<-|[<-|[<-|[<-|[]]]]]]]]. }
    assert (∀ k, (s < k ≤ length line)%nat → (∀ i, (s ≤ i < k)%nat → ∃ c, line !! i = Some c ∧ is_word c = true) →
      ∃ e, (k ≤ e ≤ length line)%nat ∧ (∀ i, (s ≤ i < e)%nat → ∃ c, line !! i = Some c ∧ is_word c = true) ∧
        ∀ c, line !! e = Some c → is_word c = false) as Hend.
    { intros k. remember (length line - k)%nat as d eqn:Hd. revert k Hd. induction d as [|d IHd]; intros k Hd Hk Hall.
      - exists k. split; [lia|]. split; [done|]. intros x Hx%lookup_lt_Some. lia.
      - destruct (lookup_lt_is_Some_2 line k ltac:(lia)) as [x Hx]. destruct (is_word x) eqn:Ex.
        + destruct (IHd (S k) ltac:(lia) ltac:(lia)) as (e & ? & ? & ?); [|exists e; split; [lia|done]].
          intros i Hi. destruct (decide (i = k)) as [->|]; [eauto|apply Hall; lia].
        + exists k. split; [lia|]. split; [done|]. intros y Hy. congruence. }
    destruct (Hend (S s) ltac:(lia)) as (e & He & Hall & Hne'); [intros i Hi; replace i with s by lia; eauto|].
    destruct (Hnext e ltac:(lia)) as [ts' Hts']. exists (TWord s e :: ts'). apply lx_word; [lia|done|done|done].
Qed.

(** Running the parser on a line whose tokens are known. *)
Lemma parsecmd_line line junk h ts :
  Forall (λ c, c ≠ 0) line → lexes line 0 ts →
  (∀ a, Line ts a → ∃ p st, parsecmd (mkSh (line ++ 0 :: junk) h []) = Ret p st ∧
     holds (sh_heap st) (sh_buf st) p (words line a)) ∧
  ((∀ a, ¬ Line ts a) → ∃ m st, parsecmd (mkSh (line ++ 0 :: junk) h []) = Panic m st ∧
     (sh_err st = [] ∨ ∃ rest, sh_err st = [("leftovers: %s
"%string, rest)])).
Proof.
  intros Hnz Hlex. pose proof (lexes_le line _ _ Hlex) as Hle.
  set (n := (4 * length line + 5)%nat).
  destruct (sim_parse line junk [] Hnz n) as [Hsim _].
  specialize (Hsim ts 0%nat h Hlex ltac:(unfold n; lia)). unfold follows_tokens in Hsim.
  assert (∀ a, Line ts a → tline n ts = Some (a, [])) as Hc.
  { intros a Ha. rewrite <- (app_nil_r ts) at 1. apply (proj1 tparse_complete); [done|unfold n; lia|done]. }
  unfold parsecmd. erewrite !bind_ret by reflexivity. cbn [sh_buf]. rewrite linelen_app by done. fold n.
  destruct (tline n ts) as [[a r]|] eqn:Et.
  2:{ destruct Hsim as (m & h' & Hr). split; [intros a Ha; by specialize (Hc a Ha)|].
      intros _. exists m, (mkSh (line ++ 0 :: junk) h' []). split; [by erewrite bind_panic by exact Hr|by left]. }
  destruct Hsim as (p & s1 & h1 & Hr & Hl1 & Hd). erewrite !bind_ret by exact Hr. cbv beta iota.
  destruct (peek_end line junk [] s1 r (h ++ h1) Hl1) as (x & s2 & Hpk & Hend).
  erewrite !bind_ret by exact Hpk. cbv beta iota.
  destruct (decide (s2 ≠ length line)) as [Hne|He].
  - split.
    + intros a' Ha'. specialize (Hc _ Ha'). simplify_eq. destruct Hne. by apply Hend.
    + intros _. do 2 eexists. split; [mstep; done|]. right. by eexists.
  - apply dec_stable in He. apply Hend in He as ->.
    destruct (proj1 (tparse_sound n) _ _ _ Et) as (pre & Hpre & Ha). rewrite app_nil_r in Hpre. subst pre.
    split; [|intros Hno; by destruct (Hno a)]. intros a' Ha'. specialize (Hc _ Ha'). simplify_eq.
    assert (∀ w, w ∈ spans a' → word_ok line w) as Hok.
    { intros [q e] Hw. eapply (lexes_words line); [exact Hnz|exact Hlex|]. by apply (proj1 Line_words _ _ Ha (q, e)). }
    erewrite !bind_ret by reflexivity. cbn [sh_heap].
    pose proof (denotes_lt _ _ _ Hd).
    erewrite bind_ret; [|apply nulterminate_st; [exact Hd|lia|]].
    + do 2 eexists. split; [done|]. cbn [sh_heap sh_buf]. apply denotes_holds; [done|].
      intros w Hw. by apply nul_cstr.
    + apply Forall_forall. intros w Hw. destruct (Hok _ Hw) as (? & _). rewrite length_app. cbn. lia.
Qed.

(** C32: The parser accepts exactly the lines of the grammar, and the command it
    returns is the one the grammar gives, with the words of the line as the
    strings it points to; every other line ends in [panic]. *)
Theorem parsecmd_correct line junk h :
  Forall (λ c, c ≠ 0) line →
  (∃ ts, lexes line 0 ts) ∧
  ∀ ts, lexes line 0 ts →
  (∀ a, Line ts a → ∃ p st, parsecmd (mkSh (line ++ 0 :: junk) h []) = Ret p st ∧
     holds (sh_heap st) (sh_buf st) p (words line a)) ∧
  ((∀ a, ¬ Line ts a) → ∃ m st, parsecmd (mkSh (line ++ 0 :: junk) h []) = Panic m st).
Proof.
  intros Hnz. split; [apply (lexes_total line (length line)); lia|]. intros ts Hlex.
  destruct (parsecmd_line line junk h ts Hnz Hlex) as [Hok Hno]. split; [done|].
  intros Hn. destruct (Hno Hn) as (m & st & Hr & _). by exists m, st.
Qed.

(** A line: [a < b | c] in the background. *)
Module sh_demo.
Definition line : list Z := bytes "a<b|c&".
Definition ts : list token := [TWord 0 1; TSym cLT; TWord 2 3; TSym cBAR; TWord 4 5; TSym cAMP].
Definition tree : ast span := ABack (APipe (ARedir (AExec [(0, 1)]) (2, 3) O_RDONLY 0) (AExec [(4, 5)]))%nat.

Lemma demo_nz : Forall (λ c, c ≠ 0) line.
Proof. by apply (bool_decide_unpack _). Qed.

Lemma line_lexes : lexes line 0 ts.
Proof.
  assert (∀ s c ts, line !! s = Some c → is_word c = true → (∀ d, line !! S s = Some d → is_word d = false) →
    lexes line (S s) ts → lexes line s (TWord s (S s) :: ts)) as Hw.
  { intros s c ts' Hs Hc Hd Hl. apply lx_word; [lia| |done|done]. intros i Hi. replace i with s by lia. by exists c. }
  apply (Hw 0%nat 97); [reflexivity..|by intros d [= <-]|]. apply lx_sym; [reflexivity..|].
  apply (Hw 2%nat 98); [reflexivity..|by intros d [= <-]|]. apply lx_sym; [reflexivity..|].
  apply (Hw 4%nat 99); [reflexivity..|by intros d [= <-]|]. apply lx_sym; [reflexivity..|]. apply lx_end.
Qed.

Lemma line_tree : Line ts tree.
Proof.
  apply (line_one [TWord 0 1; TSym cLT; TWord 2 3; TSym cBAR; TWord 4 5] _ 1).
  apply (pipe_more [TWord 0 1; TSym cLT; TWord 2 3] (ARedir (AExec [(0, 1)]) (2, 3) O_RDONLY 0)%nat [TWord 4 5] (AExec [(4, 5)%nat])).
  - apply (exec_simple _ [(0, 1)%nat] [(cLT, (2, 3)%nat)]); [|unfold MAXARGS; cbn; lia].
    apply it_word, it_redir; [reflexivity|]. apply it_nil.
  - apply pipe_one, (exec_simple _ [(4, 5)%nat] []); [|unfold MAXARGS; cbn; lia]. apply it_word, it_nil.
Qed.

Lemma parsecmd_correct_witness :
  ∃ p st, parsecmd (mkSh (line ++ 0 :: []) [] []) = Ret p st ∧
    holds (sh_heap st) (sh_buf st) p
      (ABack (APipe (ARedir (AExec [bytes "a"]) (bytes "b") O_RDONLY 0) (AExec [bytes "c"]))).
Proof.
  destruct (parsecmd_correct line [] [] demo_nz) as [_ Hp].
  destruct (proj1 (Hp ts line_lexes) tree line_tree) as (p & st & Hr & Hh).
  exists p, st. split; [exact Hr|exact Hh].
Defined.
End sh_demo.
