(* ===== verification/User.v ===== *)
(** User programs: a program is a tree of system calls (user/user.h) whose
    branches are the results the kernel may give.  With the library every
    program is linked with: user/ulib.c and user/printf.c. *)
From stdpp Require Import base numbers gmap strings option list.
From S2P Require Import Prelude State Spinlock Str Cprintf Syscall Sysfile.

(** ** System calls *)

(** What [fstat] gives: type, device, inode number, links, size. *)
Record ustat := mkUstat { us_type : Z; us_dev : Z; us_ino : Z; us_nlink : Z; us_size : Z }.

(** The calls with their results; [pipe] gives the two descriptors and [read]
    the bytes beside the count. *)
Inductive call : Set → Type :=
| Cfork : call Z
| Cwait : call Z
| Cpipe : call (option (Z * Z))
| Cwrite (fd : Z) (bs : list Z) : call Z
| Cread (fd n : Z) : call (Z * list Z)
| Cclose (fd : Z) : call Z
| Ckill (pid : Z) : call Z
| Cexec (path : list Z) (argv : list (list Z)) : call Z
| Copen (path : list Z) (mode : Z) : call Z
| Cmknod (path : list Z) (major minor : Z) : call Z
| Cunlink (path : list Z) : call Z
| Cfstat (fd : Z) : call (option ustat)
| Clink (old new : list Z) : call Z
| Cmkdir (path : list Z) : call Z
| Cchdir (path : list Z) : call Z
| Cdup (fd : Z) : call Z
| Cgetpid : call Z
| Csleep (n : Z) : call Z
| Cuptime : call Z
| Cprocstat : call Z
| Cset_priority (n : Z) : call Z.

(** [UExit] is [exit()], which does not return. *)
Inductive uprog (A : Type) : Type :=
| UDone (a : A)
| UExit
| UCall (R : Set) (c : call R) (k : R → uprog A)
| UUndef (why : string)
| UFuel.
Arguments UDone {A} _.
Arguments UExit {A}.
Arguments UCall {A R} _ _.
Arguments UUndef {A} _.
Arguments UFuel {A}.

Fixpoint ubind {A B} (p : uprog A) (f : A → uprog B) : uprog B :=
  match p with
  | UDone a => f a
  | UExit => UExit
  | UCall c k => UCall c (λ r, ubind (k r) f)
  | UUndef w => UUndef w
  | UFuel => UFuel
  end.
Definition sys {R : Set} (c : call R) : uprog R := UCall c UDone.

Declare Scope u_scope.
Delimit Scope u_scope with U.
Notation "'let!' x ':=' c 'in' k" := (ubind c (λ x, k))
  (at level 10, x binder, c at level 200, k at level 200,
   format "'[v' 'let!'  x  ':='  c  'in' '/' k ']'") : u_scope.
#[global] Open Scope u_scope.

Fixpoint ufor {A} (l : list A) (body : A → uprog unit) : uprog unit :=
  match l with
  | [] => UDone tt
  | x :: l => let! _ := body x in ufor l body
  end.

(** ** ulib.c *)

(** Strings are the lists of their characters; [strcmp] compares unsigned
    characters, and reads the NUL behind the shorter string. *)
Fixpoint ustrcmp (p q : list Z) : Z :=
  match p, q with
  | a :: p, b :: q => if a =? b then ustrcmp p q else u8 a - u8 b
  | a :: _, [] => u8 a
  | [], b :: _ => - u8 b
  | [], [] => 0
  end.

(** [while('0' <= *s && *s <= '9') n = n*10 + *s++ - '0']. *)
Fixpoint atoi_loop (n : Z) (s : list Z) : Z :=
  match s with
  | [] => n
  | c :: s => if (48 <=? c) && (c <=? 57) then atoi_loop (s32 (n * 10 + c - 48)) s else n
  end.
Definition atoi (s : list Z) : Z := atoi_loop 0 s.

(** [while(n-- > 0) *dst++ = *src++]: upwards whatever the addresses are. *)
Definition umemmove (m : gmap Z Z) (dst src n : Z) : gmap Z Z := memmove_up m dst src (Z.to_nat n).

(** [while(( *s++ = *t++) != 0)], for at most [n] characters. *)
Fixpoint ustrcpy (n : nat) (m : gmap Z Z) (s t : Z) : option (gmap Z Z) :=
  match n with
  | O => None
  | S n =>
      let c := ldb m t in
      let m := stb m s c in
      if c =? 0 then Some m else ustrcpy n m (s + 1) (t + 1)
  end.

Definition umemset (m : gmap Z Z) (dst c : Z) (n : nat) : gmap Z Z := stosb m dst c n.

(** The loop of [gets]: the characters read, at most [max - 1]. *)
Fixpoint gets_loop (n : nat) : uprog (list Z) :=
  match n with
  | O => UDone []
  | S n =>
      let! r := sys (Cread 0 1) in
      if r.1 <? 1 then UDone [] else
      match r.2 with
      | c :: _ =>
          if (c =? 10) || (c =? 13) then UDone [c]
          else let! l := gets_loop n in UDone (c :: l)
      | [] => UUndef "gets"
      end
  end.
Definition ugets (max : nat) : uprog (list Z) := gets_loop (max - 1).

Definition ustat_path (path : list Z) : uprog (option ustat) :=
  let! fd := sys (Copen path O_RDONLY) in
  if fd <? 0 then UDone None else
  let! r := sys (Cfstat fd) in
  let! _ := sys (Cclose fd) in
  UDone r.

(** ** printf.c *)

Definition putc (fd c : Z) : uprog unit :=
  let! _ := sys (Cwrite fd [u8 c]) in UDone tt.

Definition udigits : list Z := bytes "0123456789ABCDEF".
Fixpoint uprintint_loop (n : nat) (x base : Z) : list Z :=
  match n with
  | O => []
  | S n =>
      default 0 (udigits !! Z.to_nat (x mod base)) ::
      (if x / base =? 0 then [] else uprintint_loop n (x / base) base)
  end.
Definition uprintint_buf (xx base : Z) (sgn : bool) : list Z :=
  let neg := sgn && (xx <? 0) in
  let x := if neg then u32 (- xx) else u32 xx in
  uprintint_loop 32 x base ++ (if neg then bytes "-" else []).
Definition uprintint (fd xx base : Z) (sgn : bool) : uprog unit :=
  ufor (rev (uprintint_buf xx base sgn)) (putc fd).

(** The loop of [printf]; [pct] is the variable [state]. *)
Fixpoint printf_loop (fd : Z) (fmt : list Z) (pct : bool) (args : list parg) : uprog unit :=
  match fmt with
  | [] => UDone tt
  | f :: fmt =>
      if f =? 0 then UDone tt else
      let c := Z.land f 0xff in
      if negb pct then
        if c =? 37 then printf_loop fd fmt true args
        else let! _ := putc fd c in printf_loop fd fmt false args
      else if c =? 100 then
        match args with
        | PInt z :: args => let! _ := uprintint fd (s32 z) 10 true in printf_loop fd fmt false args
        | _ => UUndef "printf: argument"
        end
      else if (c =? 120) || (c =? 112) then
        match args with
        | PInt z :: args => let! _ := uprintint fd (s32 z) 16 false in printf_loop fd fmt false args
        | _ => UUndef "printf: argument"
        end
      else if c =? 115 then
        match args with
        | PStr s :: args =>
            let! _ := ufor (upto_nul (default (bytes "(null)") s)) (putc fd) in
            printf_loop fd fmt false args
        | _ => UUndef "printf: argument"
        end
      else if c =? 99 then
        match args with
        | PInt z :: args => let! _ := putc fd z in printf_loop fd fmt false args
        | _ => UUndef "printf: argument"
        end
      else if c =? 37 then let! _ := putc fd c in printf_loop fd fmt false args
      else
        let! _ := putc fd 37 in
        let! _ := putc fd c in printf_loop fd fmt false args
  end.
Definition printf (fd : Z) (fmt : string) (args : list parg) : uprog unit :=
  printf_loop fd (bytes fmt) false args.

(** ** Running a program *)

Inductive ures (S A : Type) :=
| ROk (a : A) (s : S)
| RExit (s : S)
| RUndef (why : string)
| RFuel.
Arguments ROk {S A} _ _.
Arguments RExit {S A} _.
Arguments RUndef {S A} _.
Arguments RFuel {S A}.

(** The kernel as one process that does not fork sees it. *)
Definition uhandler (S : Type) : Type := ∀ R : Set, call R → S → R * S.

Fixpoint urun {S A} (h : uhandler S) (p : uprog A) (s : S) : ures S A :=
  match p with
  | UDone a => ROk a s
  | UExit => RExit s
  | UCall c k => let '(r, s) := h _ c s in urun h (k r) s
  | UUndef w => RUndef w
  | UFuel => RFuel
  end.

(** ** Properties of the library *)

(** The text a format and its arguments denote. *)
Fixpoint uformat (fmt : list Z) (args : list parg) : option (list Z) :=
  match fmt with
  | [] => Some []
  | f :: fmt' =>
      if f =? 0 then Some [] else
      let c := Z.land f 0xff in
      if negb (c =? 37) then cons (u8 c) <$> uformat fmt' args else
      match fmt' with
      | [] => Some []
      | f' :: fmt'' =>
          if f' =? 0 then Some [] else
          let d := Z.land f' 0xff in
          if d =? 100 then
            match args with
            | PInt z :: args => app (rev (uprintint_buf (s32 z) 10 true)) <$> uformat fmt'' args
            | _ => None
            end
          else if (d =? 120) || (d =? 112) then
            match args with
            | PInt z :: args => app (rev (uprintint_buf (s32 z) 16 false)) <$> uformat fmt'' args
            | _ => None
            end
          else if d =? 115 then
            match args with
            | PStr s :: args => app (u8 <$> upto_nul (default (bytes "(null)") s)) <$> uformat fmt'' args
            | _ => None
            end
          else if d =? 99 then
            match args with PInt z :: args => cons (u8 z) <$> uformat fmt'' args | _ => None end
          else if d =? 37 then cons 37 <$> uformat fmt'' args
          else (λ o, 37 :: u8 d :: o) <$> uformat fmt'' args
      end
  end.

(** One [write] of one byte per character. *)
Definition put_all (fd : Z) (l : list Z) : uprog unit :=
  ufor l (λ c, let! _ := sys (Cwrite fd [c]) in UDone tt).

Lemma put_all_cons fd c l : put_all fd (c :: l) = UCall (Cwrite fd [c]) (λ _, put_all fd l).
Proof. done. Qed.

(** Putting characters, then going on with code that puts [out]. *)
Lemma put_then fd l (p : uprog unit) out :
  p = put_all fd out → ubind (ufor l (putc fd)) (λ _, p) = put_all fd ((u8 <$> l) ++ out).
Proof.
  intros ->. induction l as [|c l IH]; [done|]. cbn [fmap list_fmap app]. rewrite put_all_cons, <- IH. done.
Qed.

Lemma putc_then fd c (p : uprog unit) out :
  p = put_all fd out → ubind (putc fd c) (λ _, p) = put_all fd (u8 c :: out).
Proof. by intros ->. Qed.

Lemma uprintint_bytes xx base sgn : u8 <$> rev (uprintint_buf xx base sgn) = rev (uprintint_buf xx base sgn).
Proof.
  assert (∀ n x, Forall (λ c, u8 c = c) (uprintint_loop n x base)) as Hl.
  { induction n as [|n IH]; intros x; cbn [uprintint_loop]; [constructor|]. constructor.
    - assert (Forall (λ c, u8 c = c) udigits) as Hd by (by apply (bool_decide_unpack _)).
      destruct (udigits !! _) eqn:E; [|done]. by eapply Forall_lookup_1 in Hd.
    - destruct (_ =? 0); [constructor|done]. }
  assert (Forall (λ c, u8 c = c) (rev (uprintint_buf xx base sgn))) as Hf.
  { apply Forall_rev. unfold uprintint_buf. apply Forall_app. split; [done|].
    destruct (_ && _); by apply (bool_decide_unpack _). }
  induction Hf as [|c l Hc _ IH]; [done|]. cbn. by rewrite Hc, IH.
Qed.

(** [printf] is exactly the writes of the characters of its text, one at a
    time, on the given descriptor: its state machine agrees with reading the
    conversions two characters at a time. *)
Lemma printf_writes fd fmt args out :
  uformat (bytes fmt) args = Some out → printf fd fmt args = put_all fd out.
Proof.
  unfold printf. generalize (bytes fmt). clear fmt. intros fmt. revert args out.
  induction fmt as [|c|c d fmt IH1 IH2] using format_ind; intros args out; cbn [printf_loop uformat].
  - by intros [= <-].
  - destruct (_ =? 0); [by intros [= <-]|]. cbn [negb]. destruct (_ =? 37); cbn [negb]; [by intros [= <-]|].
    intros [= <-]. by apply putc_then.
  - destruct (c =? 0); [by intros [= <-]|]. cbn [negb]. destruct (Z.land c 255 =? 37) eqn:E37; cbn [negb].
    2:{ intros (o & Ho & ->)%fmap_Some. apply putc_then. by apply IH1. }
    destruct (d =? 0); [by intros [= <-]|].
    destruct (Z.land d 255 =? 100); [|destruct (_ || _); [|destruct (Z.land d 255 =? 115);
      [|destruct (Z.land d 255 =? 99); [|destruct (Z.land d 255 =? 37) eqn:Ed]]]].
    1-2: destruct args as [|[z|str] args]; try done; intros (o & Ho & ->)%fmap_Some;
      rewrite <- (uprintint_bytes _ _ _); apply put_then; auto.
    1-2: destruct args as [|[z|str] args]; try done; intros (o & Ho & ->)%fmap_Some;
      first [apply put_then|apply putc_then]; auto.
    + intros (o & Ho & ->)%fmap_Some. apply Z.eqb_eq in Ed. rewrite Ed. apply putc_then. auto.
    + intros (o & Ho & ->)%fmap_Some. rewrite (putc_then fd 37 _ (u8 (Z.land d 255) :: o)); [done|]. apply putc_then. auto.
Qed.

(** *** Strings *)

Lemma memmove_up_before m d s n a : a < d → ldb (memmove_up m d s n) a = ldb m a.
Proof.
  revert m d s. induction n as [|n IH]; intros m d s Ha; cbn [memmove_up]; [done|].
  rewrite IH by lia. by rewrite ldb_stb_ne by lia.
Qed.

Lemma memmove_up_overlap m d s (n : nat) i :
  s < d → 0 ≤ i < n → ldb (memmove_up m d s n) (d + i) = u8 (ldb m (s + i mod (d - s))).
Proof.
  intros Hsd. revert m d s i Hsd. induction n as [|n IH]; intros m d s i Hsd Hi; [lia|]. cbn [memmove_up].
  destruct (decide (i = 0)) as [->|Hne].
  - rewrite Z.add_0_r, memmove_up_before, ldb_stb_eq by lia. by rewrite Zmod_0_l, Z.add_0_r.
  - replace (d + i) with (d + 1 + (i - 1)) by lia. rewrite IH by lia.
    replace (d + 1 - (s + 1)) with (d - s) by lia. set (j := (i - 1) mod (d - s)).
    pose proof (Z.mod_pos_bound (i - 1) (d - s) ltac:(lia)) as Hj. fold j in Hj.
    assert (i mod (d - s) = (j + 1) mod (d - s)) as ->.
    { unfold j. rewrite Zplus_mod_idemp_l. f_equal. lia. }
    destruct (decide (j + 1 = d - s)) as [He|He].
    + rewrite He, Z_mod_same_full, Z.add_0_r. replace (s + 1 + j) with d by lia. by rewrite ldb_stb_eq, u8_u8.
    + rewrite Z.mod_small by lia. rewrite ldb_stb_ne by lia. do 2 f_equal. lia.
Qed.

(** [memmove] of the library copies the bytes that were at [src] if the
    destination does not start inside them; if it does, it repeats the first
    [dst - src] of them, unlike the kernel's. *)
Theorem umemmove_correct m dst src n i :
  0 ≤ i < n →
  ldb (umemmove m dst src n) (dst + i) =
    u8 (ldb m (src + if bool_decide (src < dst < src + n) then i mod (dst - src) else i)).
Proof.
  intros Hi. unfold umemmove. case_bool_decide as Hov.
  - by rewrite memmove_up_overlap by lia.
  - rewrite ldb_memmove_up by lia. rewrite decide_True by lia. do 2 f_equal. lia.
Qed.

Lemma umemmove_correct_witness :
  ldb (umemmove (list_to_map [(10, 1); (11, 2); (12, 3)]) 11 10 3) 13 = 1.
Proof. rewrite (umemmove_correct _ 11 10 3 2 ltac:(lia)). reflexivity. Defined.

(** [strcmp] of strings of bytes is zero exactly for equal ones, and otherwise
    has the sign of their lexicographic order. *)
Theorem ustrcmp_correct p q :
  Forall (λ c, 0 < c < 256) p → Forall (λ c, 0 < c < 256) q →
  (ustrcmp p q = 0 ↔ p = q) ∧ ustrcmp q p = - ustrcmp p q.
Proof.
  intros Hp. revert q. induction Hp as [|a p Ha _ IH]; intros q Hq; destruct Hq as [|b q Hb Hq]; cbn.
  - done.
  - unfold u8. rewrite Z.mod_small by lia. split; [|lia]. split; [lia|done].
  - unfold u8. rewrite Z.mod_small by lia. split; [|lia]. split; [lia|done].
  - rewrite (Z.eqb_sym b a). destruct (Z.eqb_spec a b) as [->|Hne].
    + destruct (IH q Hq) as [Hz Hs]. split; [|done]. rewrite Hz. split; [by intros ->|congruence].
    + unfold u8. rewrite !Z.mod_small by lia. split; [|lia]. split; [lia|congruence].
Qed.

Lemma ustrcmp_correct_witness : ustrcmp (bytes "sh") (bytes "shell") < 0.
Proof.
  assert (Forall (λ c, 0 < c < 256) (bytes "sh") ∧ Forall (λ c, 0 < c < 256) (bytes "shell")) as [H1 H2]
    by (split; by apply (bool_decide_unpack _)).
  destruct (ustrcmp_correct _ _ H1 H2) as [Hz _]. vm_compute. reflexivity.
Defined.

(** The value of a string of digits. *)
Definition decimal (l : list Z) : Z := foldl (λ n c, n * 10 + (c - 48)) 0 l.

Lemma decimal_mono l k :
  Forall (λ c, 48 ≤ c ≤ 57) l → 0 ≤ k → k ≤ foldl (λ n c, n * 10 + (c - 48)) k l.
Proof.
  intros Hl. revert k. induction Hl as [|c l Hc _ IH]; intros k Hk; cbn; [lia|].
  specialize (IH (k * 10 + (c - 48)) ltac:(lia)). lia.
Qed.

Lemma atoi_loop_digits l rest n :
  Forall (λ c, 48 ≤ c ≤ 57) l → (∀ c r, rest = c :: r → ¬ 48 ≤ c ≤ 57) → 0 ≤ n →
  foldl (λ n c, n * 10 + (c - 48)) n l < 2 ^ 31 →
  atoi_loop n (l ++ rest) = foldl (λ n c, n * 10 + (c - 48)) n l.
Proof.
  intros Hl Hr. revert n. induction Hl as [|c l Hc Hl IH]; intros n Hn Hlt; cbn [app atoi_loop foldl] in *.
  - destruct rest as [|c rest]; [done|]. cbn [atoi_loop]. specialize (Hr c rest eq_refl).
    destruct (Z.leb_spec 48 c), (Z.leb_spec c 57); try done. lia.
  - rewrite (proj2 (Z.leb_le 48 c)), (proj2 (Z.leb_le c 57)) by lia. cbn [andb].
    pose proof (decimal_mono l (n * 10 + (c - 48)) Hl ltac:(lia)).
    rewrite s32_small by lia. replace (n * 10 + c - 48) with (n * 10 + (c - 48)) by lia. apply IH; lia.
Qed.

(** [atoi] reads the digits up to the first other character. *)
Theorem atoi_correct l rest :
  Forall (λ c, 48 ≤ c ≤ 57) l → (∀ c r, rest = c :: r → ¬ 48 ≤ c ≤ 57) → decimal l < 2 ^ 31 →
  atoi (l ++ rest) = decimal l.
Proof. intros Hl Hr Hlt. by apply atoi_loop_digits. Qed.

Lemma atoi_correct_witness : atoi (bytes "123x") = 123.
Proof.
  apply (atoi_correct (bytes "123") (bytes "x")).
  - by apply (bool_decide_unpack _).
  - intros c r E. assert (c = 120) as -> by (vm_compute in E; congruence). lia.
  - vm_compute. reflexivity.
Defined.
