(* ===== verification/Programs.v ===== *)
(** The user programs cat, wc, grep, echo, ls, init and the smaller ones as
    trees of system calls, and what the filters print for every way in which
    their input may arrive. *)
From stdpp Require Import base numbers gmap strings option list.
From S2P Require Import Prelude State Spinlock Str Cprintf Syscall Sysfile Sh Grep User.

Definition T_DIR : Z := 1.
Definition T_FILE : Z := 2.

(** A string argument of [printf]. *)
Definition PS (s : list Z) : parg := PStr (Some s).
Definition newline : Z := 10.

(** ** cat.c *)

Fixpoint cat (n : nat) (fd : Z) : uprog unit :=
  match n with
  | O => UFuel
  | S n =>
      let! r := sys (Cread fd 512) in
      if 0 <? r.1 then
        let! _ := sys (Cwrite 1 (take (Z.to_nat r.1) r.2)) in
        cat n fd
      else if r.1 <? 0 then
        let! _ := printf 1 "cat: read error
" [] in UExit
      else UDone tt
  end.

(** The loop over the arguments that cat, wc and grep share. *)
Fixpoint each_file (msg : string) (body : Z → list Z → uprog unit) (files : list (list Z)) : uprog unit :=
  match files with
  | [] => UExit
  | f :: files =>
      let! fd := sys (Copen f 0) in
      if fd <? 0 then let! _ := printf 1 msg [PS f] in UExit else
      let! _ := body fd f in
      let! _ := sys (Cclose fd) in
      each_file msg body files
  end.

(** [argv] without [argv[0]]. *)
Definition cat_main (n : nat) (args : list (list Z)) : uprog unit :=
  match args with
  | [] => let! _ := cat n 0 in UExit
  | _ => each_file "cat: cannot open %s
" (λ fd _, cat n fd) args
  end.

(** ** wc.c *)

Record counts := mkCounts { wc_l : Z; wc_w : Z; wc_c : Z; wc_inword : bool }.
Definition wc_space : list Z := [32; 13; 9; 10; 11].

Definition wc_char (k : counts) (x : Z) : counts :=
  let l := if x =? newline then s32 (wc_l k + 1) else wc_l k in
  let c := s32 (wc_c k + 1) in
  if strchr wc_space x then mkCounts l (wc_w k) c false
  else if negb (wc_inword k) then mkCounts l (s32 (wc_w k + 1)) c true
  else mkCounts l (wc_w k) c true.

Fixpoint wc_loop (n : nat) (fd : Z) (k : counts) : uprog counts :=
  match n with
  | O => UFuel
  | S n =>
      let! r := sys (Cread fd 512) in
      if 0 <? r.1 then wc_loop n fd (foldl wc_char k (take (Z.to_nat r.1) r.2))
      else if r.1 <? 0 then
        let! _ := printf 1 "wc: read error
" [] in UExit
      else UDone k
  end.

Definition wc (n : nat) (fd : Z) (name : list Z) : uprog unit :=
  let! k := wc_loop n fd (mkCounts 0 0 0 false) in
  printf 1 "%d %d %d %s
" [PInt (wc_l k); PInt (wc_w k); PInt (wc_c k); PS name].

Definition wc_main (n : nat) (args : list (list Z)) : uprog unit :=
  match args with
  | [] => let! _ := wc n 0 [] in UExit
  | _ => each_file "cat: cannot open %s
" (wc n) args
  end.

(** ** grep.c *)

Definition GBUF : nat := 1024.

(** [strchr(p, '\n')] in the array: [Some None] is null, [None] runs past the
    end of the array. *)
Fixpoint find_nl (l : list Z) : option (option nat) :=
  match l with
  | [] => None
  | c :: l =>
      if c =? 0 then Some None else
      if c =? newline then Some (Some 0%nat) else
      match find_nl l with Some (Some i) => Some (Some (S i)) | o => o end
  end.

(** The loop over the lines from [p] on: the final [p], and the array, in
    which the ends of lines that do not match are NUL. *)
Fixpoint grep_lines (n : nat) (pattern buf : list Z) (p : nat) : uprog (nat * list Z) :=
  match n with
  | O => UFuel
  | S n =>
      match find_nl (drop p buf) with
      | None => UUndef "grep: buf"
      | Some None => UDone (p, buf)
      | Some (Some i) =>
          let text := take i (drop p buf) in
          if match_ pattern text then
            let! _ := sys (Cwrite 1 (text ++ [newline])) in
            grep_lines n pattern buf (p + i + 1)%nat
          else grep_lines n pattern (<[(p + i)%nat := 0]> buf) (p + i + 1)%nat
      end
  end.

(** [memmove(buf, p, m)]: nothing for a negative count. *)
Definition buf_move (buf : list Z) (src : nat) (m : Z) : list Z :=
  take (Z.to_nat m) (drop src buf) ++ drop (Z.to_nat m) buf.

(** [buf] outlives a call: it is given to the next one. *)
Fixpoint grep_loop (n : nat) (pattern : list Z) (fd : Z) (buf : list Z) (m : Z) : uprog (list Z) :=
  match n with
  | O => UFuel
  | S n =>
      let! r := sys (Cread fd (Z.of_nat GBUF - m)) in
      if 0 <? r.1 then
        if m <? 0 then UUndef "grep: buf" else
        let buf := take (Z.to_nat m) buf ++ take (Z.to_nat r.1) r.2 ++ drop (Z.to_nat (m + r.1)) buf in
        let m := m + r.1 in
        let! t := grep_lines (S GBUF) pattern buf 0 in
        let '(p, buf) := t in
        let m := if decide (p = 0%nat) then 0 else m in
        if 0 <? m then
          let m := m - Z.of_nat p in
          grep_loop n pattern fd (buf_move buf p m) m
        else grep_loop n pattern fd buf m
      else UDone buf
  end.

Definition grep (n : nat) (pattern : list Z) (fd : Z) (buf : list Z) : uprog (list Z) :=
  grep_loop n pattern fd buf 0.

Fixpoint grep_files (n : nat) (pattern : list Z) (files : list (list Z)) (buf : list Z) : uprog unit :=
  match files with
  | [] => UExit
  | f :: files =>
      let! fd := sys (Copen f 0) in
      if fd <? 0 then let! _ := printf 1 "grep: cannot open %s
" [PS f] in UExit else
      let! buf := grep n pattern fd buf in
      let! _ := sys (Cclose fd) in
      grep_files n pattern files buf
  end.

Definition grep_main (n : nat) (args : list (list Z)) : uprog unit :=
  let buf := replicate GBUF 0 in
  match args with
  | [] => let! _ := printf 2 "usage: grep pattern [file ...]
" [] in UExit
  | pattern :: [] => let! _ := grep n pattern 0 buf in UExit
  | pattern :: files => grep_files n pattern files buf
  end.

(** ** echo.c, kill.c, ln.c, mkdir.c, rm.c, zombie.c, ps.c *)

Fixpoint echo_main (args : list (list Z)) : uprog unit :=
  match args with
  | [] => UExit
  | a :: args =>
      let! _ := printf 1 "%s%s" [PS a; PS (match args with [] => [newline] | _ => [32] end)] in
      echo_main args
  end.

Definition kill_main (args : list (list Z)) : uprog unit :=
  let! _ := ufor args (λ a, let! _ := sys (Ckill (atoi a)) in UDone tt) in UExit.

Definition ln_main (args : list (list Z)) : uprog unit :=
  match args with
  | [old; new] =>
      let! r := sys (Clink old new) in
      if r <? 0 then let! _ := printf 2 "link %s %s: failed
" [PS old; PS new] in UExit else UExit
  | _ => let! _ := printf 2 "Usage: ln old new
" [] in UExit
  end.

(** The loop of mkdir and rm: up to the first failure. *)
Fixpoint until_fail (msg : string) (f : list Z → call Z) (args : list (list Z)) : uprog unit :=
  match args with
  | [] => UExit
  | a :: args =>
      let! r := sys (f a) in
      if r <? 0 then let! _ := printf 2 msg [PS a] in UExit else until_fail msg f args
  end.

Definition mkdir_main (args : list (list Z)) : uprog unit :=
  match args with
  | [] => let! _ := printf 2 "Usage: mkdir files...
" [] in UExit
  | _ => until_fail "mkdir: %s failed to create
" Cmkdir args
  end.

Definition rm_main (args : list (list Z)) : uprog unit :=
  match args with
  | [] => let! _ := printf 2 "Usage: rm files...
" [] in UExit
  | _ => until_fail "rm: %s failed to delete
" Cunlink args
  end.

Definition zombie_main : uprog unit :=
  let! pid := sys Cfork in
  if 0 <? pid then let! _ := sys (Csleep 5) in UExit else UExit.

Definition ps_main : uprog unit :=
  let! _ := sys (Cset_priority 3) in
  let! _ := sys Cprocstat in
  UExit.

(** ** init.c *)

(** [while((wpid=wait()) >= 0 && wpid != pid)]. *)
Fixpoint init_wait (n : nat) (pid : Z) : uprog unit :=
  match n with
  | O => UFuel
  | S n =>
      let! wpid := sys Cwait in
      if (0 <=? wpid) && negb (wpid =? pid) then
        let! _ := printf 1 "zombie!
" [] in init_wait n pid
      else UDone tt
  end.

Fixpoint init_loop (n : nat) : uprog unit :=
  match n with
  | O => UFuel
  | S n =>
      let! _ := printf 1 "init: starting sh
" [] in
      let! pid := sys Cfork in
      if pid <? 0 then let! _ := printf 1 "init: fork failed
" [] in UExit else
      if pid =? 0 then
        let! _ := sys (Cexec (bytes "sh") [bytes "sh"]) in
        let! _ := printf 1 "init: exec sh failed
" [] in UExit
      else
      let! _ := init_wait n pid in
      init_loop n
  end.

Definition init_main (n : nat) : uprog unit :=
  let! fd := sys (Copen (bytes "console") O_RDWR) in
  let! _ := (if fd <? 0 then
               let! _ := sys (Cmknod (bytes "console") 1 1) in
               let! _ := sys (Copen (bytes "console") O_RDWR) in UDone tt
             else UDone tt) in
  let! _ := sys (Cdup 0) in
  let! _ := sys (Cdup 0) in
  init_loop n.

(** ** ls.c *)

Definition SLASH : Z := 47.
Definition LS_BUF : Z := 512.

(** [for(p=path+strlen(path); p >= path && *p != '/'; p--)]: [p - path]. *)
Fixpoint slash_before (path : list Z) (i : nat) : Z :=
  if bool_decide (path !! i = Some SLASH) then i else
  match i with O => -1 | S i => slash_before path i end.

(** What is behind the last slash, padded with blanks to [DIRSIZ]. *)
Definition fmtname (path : list Z) : list Z :=
  let p := drop (Z.to_nat (slash_before path (length path) + 1)) path in
  if DIRSIZ <=? Z.of_nat (length p) then p else p ++ replicate (Z.to_nat DIRSIZ - length p) 32.

Definition ls_print (name : list Z) (st : ustat) : uprog unit :=
  printf 1 "%s %d %d %d
" [PS (fmtname name); PInt (us_type st); PInt (us_ino st); PInt (us_size st)].

(** The loop over the entries of a directory of 16 bytes: number and name. *)
Fixpoint ls_entries (n : nat) (path : list Z) (fd : Z) : uprog unit :=
  match n with
  | O => UFuel
  | S n =>
      let! r := sys (Cread fd 16) in
      if r.1 =? 16 then
        let inum := default 0 (r.2 !! 0%nat) + 256 * default 0 (r.2 !! 1%nat) in
        if inum =? 0 then ls_entries n path fd else
        let buf := path ++ [SLASH] ++ upto_nul (take (Z.to_nat DIRSIZ) (drop 2 r.2)) in
        let! o := ustat_path buf in
        match o with
        | None =>
            let! _ := printf 1 "ls: cannot stat %s
" [PS buf] in ls_entries n path fd
        | Some st => let! _ := ls_print buf st in ls_entries n path fd
        end
      else UDone tt
  end.

Definition ls (n : nat) (path : list Z) : uprog unit :=
  let! fd := sys (Copen path 0) in
  if fd <? 0 then printf 2 "ls: cannot open %s
" [PS path] else
  let! o := sys (Cfstat fd) in
  match o with
  | None =>
      let! _ := printf 2 "ls: cannot stat %s
" [PS path] in
      let! _ := sys (Cclose fd) in UDone tt
  | Some st =>
      let! _ := (if us_type st =? T_FILE then ls_print path st
                 else if us_type st =? T_DIR then
                   if LS_BUF <? Z.of_nat (length path) + 1 + DIRSIZ + 1
                   then printf 1 "ls: path too long
" []
                   else ls_entries n path fd
                 else UDone tt) in
      let! _ := sys (Cclose fd) in UDone tt
  end.

Definition ls_main (n : nat) (args : list (list Z)) : uprog unit :=
  match args with
  | [] => let! _ := ls n (bytes ".") in UExit
  | _ => let! _ := ufor args (ls n) in UExit
  end.

(** ** forktest.c, stressfs.c *)

(** Its own [printf]: the format as it is. *)
Definition fprint (s : string) : uprog unit :=
  let! _ := sys (Cwrite 1 (bytes s)) in UDone tt.

Definition FORKS : nat := 1000.

(** [for(n=0; n<N; n++)]: the number of children, from [i] on. *)
Fixpoint forktest_fork (k i : nat) : uprog nat :=
  match k with
  | O => UDone i
  | S k =>
      let! pid := sys Cfork in
      if pid <? 0 then UDone i else
      if pid =? 0 then UExit else
      let! _ := (if decide (i = 5%nat) then let! _ := sys Cprocstat in UDone tt else UDone tt) in
      forktest_fork k (S i)
  end.

Fixpoint forktest_wait (n : nat) : uprog unit :=
  match n with
  | O => UDone tt
  | S n =>
      let! r := sys Cwait in
      if r <? 0 then let! _ := fprint "wait stopped early
" in UExit else forktest_wait n
  end.

Definition forktest : uprog unit :=
  let! _ := fprint "fork test
" in
  let! n := forktest_fork FORKS 0 in
  if decide (n = FORKS) then let! _ := fprint "fork claimed to work N times!
" in UExit else
  let! _ := forktest_wait n in
  let! r := sys Cwait in
  if negb (r =? -1) then let! _ := fprint "wait got too many
" in UExit else
  let! _ := fprint "fork test OK
" in UExit.

Fixpoint stressfs_fork (k i : nat) : uprog nat :=
  match k with
  | O => UDone i
  | S k => let! pid := sys Cfork in if 0 <? pid then UDone i else stressfs_fork k (S i)
  end.

Definition stressfs : uprog unit :=
  let! _ := printf 1 "stressfs starting
" [] in
  let data := replicate 512 97 in
  let! i := stressfs_fork 4 0 in
  let! _ := printf 1 "write %d
" [PInt i] in
  let path := alter (λ c, u8 (c + i)) 8%nat (bytes "stressfs0") in
  let! fd := sys (Copen path (Z.lor O_CREATE O_RDWR)) in
  let! _ := ufor (seq 0 20) (λ _, let! _ := sys (Cwrite fd data) in UDone tt) in
  let! _ := sys (Cclose fd) in
  let! _ := printf 1 "read
" [] in
  let! fd := sys (Copen path O_RDONLY) in
  let! _ := ufor (seq 0 20) (λ _, let! _ := sys (Cread fd 512) in UDone tt) in
  let! _ := sys (Cclose fd) in
  let! _ := sys Cwait in
  UExit.

(** ** Filters and their input *)

(** Reading [fd] delivers the input in pieces of any size up to the one asked
    for, at least one byte until it ends; writing to 1 appends. *)
Class stream_io {S : Type} (h : uhandler S) (fd : Z) := {
  st_in : S → list Z;
  st_out : S → list Z;
  st_read : ∀ s n, 0 < n → ∃ k s',
    h _ (Cread fd n) s = ((k, take (Z.to_nat k) (st_in s)), s') ∧ 0 ≤ k ≤ n ∧
    k ≤ Z.of_nat (length (st_in s)) ∧ (k = 0 → st_in s = []) ∧
    st_in s' = drop (Z.to_nat k) (st_in s) ∧ st_out s' = st_out s;
  st_write : ∀ s bs, ∃ r s',
    h _ (Cwrite 1 bs) s = (r, s') ∧ st_in s' = st_in s ∧ st_out s' = st_out s ++ bs;
}.

Lemma urun_bind {S A B} (h : uhandler S) (p : uprog A) (f : A → uprog B) s :
  urun h (ubind p f) s =
    match urun h p s with
    | ROk a s => urun h (f a) s
    | RExit s => RExit s
    | RUndef w => RUndef w
    | RFuel => RFuel
    end.
Proof. revert s. induction p as [a| |R c k IH|w|]; intros s; cbn; try done. destruct (h R c s). apply IH. Qed.

Section filters.
Context {S : Type} (h : uhandler S) (fd : Z) `{Hio : !stream_io h fd}.

Lemma put_all_run l s : ∃ s', urun h (put_all 1 l) s = ROk tt s' ∧ st_in s' = st_in s ∧ st_out s' = st_out s ++ l.
Proof.
  revert s. induction l as [|c l IH]; intros s; [exists s; by rewrite app_nil_r|].
  rewrite put_all_cons. cbn [urun]. destruct (st_write s [c]) as (r & s1 & -> & Hi & Ho).
  destruct (IH s1) as (s2 & -> & Hi2 & Ho2). exists s2. split; [done|]. rewrite Hi2, Ho2, Hi, Ho. by rewrite <- app_assoc.
Qed.

(** [printf] to descriptor 1 adds exactly the text of its format and arguments
    to the output, and takes nothing from the input. *)
Theorem printf_correct fmt args out s :
  uformat (bytes fmt) args = Some out →
  ∃ s', urun h (printf 1 fmt args) s = ROk tt s' ∧ st_in s' = st_in s ∧ st_out s' = st_out s ++ out.
Proof. intros Hf. rewrite (printf_writes _ _ _ _ Hf). apply put_all_run. Qed.

(** cat copies its input to its output, however the input arrives. *)
Theorem cat_correct n s :
  (length (st_in s) < n)%nat → ∃ s', urun h (cat n fd) s = ROk tt s' ∧ st_in s' = [] ∧ st_out s' = st_out s ++ st_in s.
Proof.
  revert s. induction n as [|n IH]; intros s Hn; [lia|]. cbn [cat ubind sys urun].
  destruct (st_read s 512 ltac:(lia)) as (k & s1 & -> & Hk & Hk' & Hz & Hi & Ho). cbn [fst snd].
  destruct (Z.ltb_spec 0 k) as [Hpos|Hnp].
  - cbn [ubind sys urun]. rewrite take_take, Nat.min_id.
    destruct (st_write s1 (take (Z.to_nat k) (st_in s))) as (r & s2 & -> & Hi2 & Ho2).
    destruct (IH s2) as (s3 & Hrun & Hi3 & Ho3); [rewrite Hi2, Hi, length_drop; lia|].
    exists s3. split; [done|]. split; [done|]. rewrite Ho3, Ho2, Ho, Hi2, Hi, <- app_assoc. by rewrite take_drop.
  - assert (k = 0) as -> by lia. cbn. exists s1. split; [done|]. rewrite Hi, Ho, (Hz eq_refl). by rewrite app_nil_r.
Qed.

Lemma wc_loop_run n s k :
  (length (st_in s) < n)%nat →
  ∃ s', urun h (wc_loop n fd k) s = ROk (foldl wc_char k (st_in s)) s' ∧ st_in s' = [] ∧ st_out s' = st_out s.
Proof.
  revert s k. induction n as [|n IH]; intros s k Hn; [lia|]. cbn [wc_loop ubind sys urun].
  destruct (st_read s 512 ltac:(lia)) as (j & s1 & -> & Hk & Hk' & Hz & Hi & Ho). cbn [fst snd].
  destruct (Z.ltb_spec 0 j) as [Hpos|Hnp].
  - rewrite take_take, Nat.min_id. destruct (IH s1 (foldl wc_char k (take (Z.to_nat j) (st_in s)))) as (s2 & Hrun & Hi2 & Ho2);
      [rewrite Hi, length_drop; lia|].
    exists s2. rewrite Hi, <- foldl_app, take_drop in Hrun. rewrite Ho2. done.
  - assert (j = 0) as -> by lia. cbn. exists s1. rewrite Hi, (Hz eq_refl). done.
Qed.
End filters.

(** *** What wc counts *)

(** A word starts at a character that is no space, at the start of the input
    or behind a space. *)
Definition starts_word (l : list Z) (i : nat) : bool :=
  match l !! i with
  | Some c =>
      negb (strchr wc_space c) &&
      match i with O => true | S j => strchr wc_space (default 0 (l !! j)) end
  | None => false
  end.
Definition n_words (l : list Z) : Z := length (filter (λ i, starts_word l i = true) (seq 0 (length l))).
Definition n_lines (l : list Z) : Z := length (filter (λ c, c = newline) l).

Lemma starts_word_app l x i : (i < length l)%nat → starts_word (l ++ [x]) i = starts_word l i.
Proof.
  intros Hi. unfold starts_word. rewrite lookup_app_l by done. destruct (l !! i); [|done]. f_equal.
  destruct i as [|j]; [done|]. by rewrite lookup_app_l by lia.
Qed.

Lemma filter_ext_in {A} (P Q : A → Prop) `{!∀ x, Decision (P x), !∀ x, Decision (Q x)} (l : list A) :
  (∀ x, x ∈ l → P x ↔ Q x) → filter P l = filter Q l.
Proof.
  induction l as [|x l IH]; intros Hl; [done|]. rewrite !filter_cons.
  assert (P x ↔ Q x) as Hx by (apply Hl; by left). rewrite IH by (intros; apply Hl; by right).
  destruct (decide (P x)), (decide (Q x)); tauto.
Qed.

Lemma n_words_snoc l x : n_words (l ++ [x]) = n_words l + (if starts_word (l ++ [x]) (length l) then 1 else 0).
Proof.
  unfold n_words. rewrite length_app, Nat.add_1_r, seq_S, Nat.add_0_l, filter_app, length_app.
  assert (filter (λ i, starts_word (l ++ [x]) i = true) (seq 0 (length l)) = filter (λ i, starts_word l i = true) (seq 0 (length l))) as ->.
  { apply filter_ext_in. intros i Hi%elem_of_seq. by rewrite starts_word_app by lia. }
  rewrite filter_cons. destruct (decide _) as [->|H%not_true_is_false]; cbn; [lia|rewrite H; lia].
Qed.

Lemma wc_counts l : Z.of_nat (length l) < 2 ^ 31 →
  foldl wc_char (mkCounts 0 0 0 false) l =
    mkCounts (n_lines l) (n_words l) (length l) (match last l with Some c => negb (strchr wc_space c) | None => false end).
Proof.
  induction l as [|x l IH] using rev_ind; [done|]. rewrite length_app. cbn [length]. intros Hl. rewrite foldl_app, IH by lia.
  assert (n_lines (l ++ [x]) = n_lines l + (if x =? newline then 1 else 0)) as ->.
  { unfold n_lines. rewrite filter_app, length_app, filter_cons.
    destruct (Z.eqb_spec x newline) as [->|Hne]; [rewrite decide_True by done|rewrite decide_False by done]; cbn; lia. }
  assert (0 ≤ n_lines l ≤ Z.of_nat (length l)) as Hb1. { unfold n_lines. pose proof (length_filter (λ c, c = newline) l). lia. }
  assert (0 ≤ n_words l ≤ Z.of_nat (length l)) as Hb2.
  { unfold n_words. pose proof (length_filter (λ i, starts_word l i = true) (seq 0 (length l))) as Hf.
    rewrite length_seq in Hf. lia. }
  rewrite n_words_snoc, last_snoc. unfold starts_word. rewrite list_lookup_middle by done.
  cbn [foldl]. unfold wc_char. cbn [wc_l wc_w wc_c wc_inword]. rewrite (s32_small (length l + 1)) by lia.
  replace (Z.of_nat (length l + 1)) with (Z.of_nat (length l) + 1) by lia.
  assert ((if x =? newline then s32 (n_lines l + 1) else n_lines l) = n_lines l + (if x =? newline then 1 else 0)) as ->.
  { destruct (x =? newline); [rewrite s32_small by lia|]; lia. }
  destruct (strchr wc_space x); cbn [negb andb]; [f_equal; lia|].
  assert ((match length l with O => true | S j => strchr wc_space (default 0 ((l ++ [x]) !! j)) end) =
    negb (match last l with Some c => negb (strchr wc_space c) | None => false end)) as ->.
  { destruct l as [|y l _] using rev_ind; [done|]. rewrite last_snoc, length_app, Nat.add_1_r.
    rewrite lookup_app_l by (rewrite length_app; cbn; lia). rewrite list_lookup_middle by done. cbn. by rewrite negb_involutive. }
  destruct (negb _); [rewrite s32_small by lia|]; f_equal; lia.
Qed.

(** The text of a number printed with %d. *)
Definition number (z : Z) : list Z := rev (uprintint_buf (s32 z) 10 true).

#[local] Opaque uprintint_buf s32 upto_nul.
Lemma wc_format l w c name : uformat (bytes "%d %d %d %s
") [PInt l; PInt w; PInt c; PS name] =
  Some (number l ++ [32] ++ number w ++ [32] ++ number c ++ [32] ++ (u8 <$> upto_nul name) ++ [newline]).
Proof. reflexivity. Qed.
#[local] Transparent uprintint_buf s32 upto_nul.

Section wc.
Context {S : Type} (h : uhandler S) (fd : Z) `{Hio : !stream_io h fd}.

(** wc prints the numbers of lines, words and characters of its input, however
    the input arrives. *)
Theorem wc_correct n s name :
  (length (st_in s) < n)%nat → Z.of_nat (length (st_in s)) < 2 ^ 31 →
  ∃ s', urun h (wc n fd name) s = ROk tt s' ∧
    st_out s' = st_out s ++ number (n_lines (st_in s)) ++ [32] ++ number (n_words (st_in s)) ++ [32] ++
      number (length (st_in s)) ++ [32] ++ (u8 <$> upto_nul name) ++ [newline].
Proof.
  intros Hn Hl. unfold wc. rewrite urun_bind.
  destruct (wc_loop_run h fd n s (mkCounts 0 0 0 false) Hn) as (s1 & -> & _ & Ho). rewrite wc_counts by done.
  cbn [wc_l wc_w wc_c]. rewrite (printf_writes 1 _ _ _ (wc_format _ _ _ _)).
  edestruct (put_all_run h fd) as (s2 & -> & _ & Ho2). exists s2. by rewrite Ho2, Ho.
Qed.
End wc.

(** ** What grep prints *)

(** The lines of [l] that match, with their ends; [cur] is the beginning of the
    first line.  Text behind the last end of line is no line. *)
Fixpoint matching_lines (pattern cur l : list Z) : list Z :=
  match l with
  | [] => []
  | c :: l =>
      if c =? newline then
        (if match_ pattern cur then cur ++ [newline] else []) ++ matching_lines pattern [] l
      else matching_lines pattern (cur ++ [c]) l
  end.

Lemma matching_lines_app pattern cur a l :
  newline ∉ a → matching_lines pattern cur (a ++ l) = matching_lines pattern (cur ++ a) l.
Proof.
  revert cur. induction a as [|c a IH]; intros cur Hn; [by rewrite app_nil_r|]. cbn [app matching_lines].
  rewrite (proj2 (Z.eqb_neq c newline)) by (intros ->; set_solver). rewrite IH by set_solver. by rewrite <- app_assoc.
Qed.

(** The search for an end of line in a text that a NUL follows. *)
Lemma find_nl_text text z : 0 ∉ text →
  ((newline ∉ text) ∧ find_nl (text ++ 0 :: z) = Some None) ∨
  ∃ a b, text = a ++ newline :: b ∧ (newline ∉ a) ∧ find_nl (text ++ 0 :: z) = Some (Some (length a)).
Proof.
  induction text as [|c text IH]; intros H0; [left; split; [set_solver|done]|]. cbn [app find_nl].
  rewrite (proj2 (Z.eqb_neq c 0)) by (intros ->; set_solver). destruct (Z.eqb_spec c newline) as [->|Hne].
  - right. exists [], text. split; [done|]. split; [set_solver|done].
  - destruct IH as [[Hn ->]|(a & b & -> & Hn & ->)]; [set_solver| |].
    + left. split; [set_solver|done].
    + right. exists (c :: a), b. split; [done|]. split; [set_solver|done].
Qed.

Section grep.
Context {S : Type} (h : uhandler S) (fd : Z) `{Hio : !stream_io h fd}.

Lemma grep_lines_run pattern n buf p text z s :
  drop p buf = text ++ 0 :: z → 0 ∉ text → (length text < n)%nat →
  ∃ p' buf' s', urun h (grep_lines n pattern buf p) s = ROk (p', buf') s' ∧ (p ≤ p' ≤ p + length text)%nat ∧
    st_in s' = st_in s ∧ st_out s' = st_out s ++ matching_lines pattern [] text ∧ length buf' = length buf.
Proof.
  revert buf p text s. induction n as [|n IH]; intros buf p text s Hd H0 Hn; [lia|]. cbn [grep_lines]. rewrite Hd.
  destruct (find_nl_text text z H0) as [[Hnl ->]|(a & b & -> & Ha & ->)].
  - exists p, buf, s. cbn [urun]. split; [done|]. split; [lia|]. split; [done|]. split; [|done].
    rewrite <- (app_nil_r text), matching_lines_app by done. by rewrite app_nil_r.
  - rewrite length_app in Hn. cbn [length] in Hn. rewrite <- app_assoc, take_app_length. cbn [app].
    rewrite matching_lines_app by done. cbn [app matching_lines]. rewrite Z.eqb_refl.
    assert (∀ bf, drop (p + length a + 1) bf = drop (p + length a + 1) buf → drop (p + length a + 1) bf = b ++ 0 :: z) as Hdrop.
    { intros bf ->. rewrite <- Nat.add_assoc, <- drop_drop, Hd, <- app_assoc. rewrite drop_app_ge by lia.
      by replace (length a + 1 - length a)%nat with 1%nat by lia. }
    rewrite length_app. cbn [length]. destruct (match_ pattern a).
    + cbn [ubind sys urun]. destruct (st_write s (a ++ [newline])) as (r & s1 & -> & Hi & Ho).
      destruct (IH buf (p + length a + 1)%nat b s1) as (p' & buf' & s2 & Hrun & Hp & Hi2 & Ho2 & Hl); [by apply Hdrop|set_solver|lia|].
      exists p', buf', s2. split; [done|]. split; [lia|]. split; [congruence|]. split; [|done].
      rewrite Ho2, Ho. by rewrite <- app_assoc.
    + destruct (IH (<[(p + length a)%nat := 0]> buf) (p + length a + 1)%nat b s) as (p' & buf' & s2 & Hrun & Hp & Hi2 & Ho2 & Hl).
      * apply Hdrop. by rewrite drop_insert_lt by lia.
      * set_solver.
      * lia.
      * exists p', buf', s2. split; [done|]. split; [lia|]. split; [done|]. split; [done|]. by rewrite Hl, length_insert.
Qed.

(** With an input of fewer than 1024 characters, none of them NUL, that the
    first read delivers as a whole, grep prints exactly the lines that match. *)
Theorem grep_correct pattern n s :
  (2 ≤ n)%nat → (length (st_in s) < GBUF)%nat → 0 ∉ st_in s →
  (h _ (Cread fd (Z.of_nat GBUF)) s).1.1 = Z.of_nat (length (st_in s)) →
  ∃ buf s', urun h (grep n pattern fd (replicate GBUF 0)) s = ROk buf s' ∧
    st_out s' = st_out s ++ matching_lines pattern [] (st_in s).
Proof.
  intros Hn Hlen H0 Hall. destruct n as [|n]; [lia|]. unfold grep. cbn [grep_loop ubind sys urun].
  rewrite Z.sub_0_r. destruct (st_read s (Z.of_nat GBUF) ltac:(unfold GBUF; lia)) as (k & s1 & Hr & Hk & Hk' & Hz & Hi & Ho).
  rewrite Hr in Hall |- *. cbn [fst snd] in *. subst k. rewrite Nat2Z.id in *.
  rewrite drop_all in Hi. destruct (Z.ltb_spec 0 (length (st_in s))) as [Hpos|Hnp].
  2:{ assert (st_in s = []) as E by (destruct (st_in s); [done|cbn in *; lia]). exists (replicate GBUF 0), s1.
      cbn. split; [done|]. by rewrite Ho, E, app_nil_r. }
  change (0 <? 0) with false. cbv iota. rewrite Z.add_0_l, Nat2Z.id, take_take, Nat.min_id, (take_ge (st_in s) (length (st_in s))) by done.
  set (buf := take (Z.to_nat 0) _ ++ _).
  assert (drop 0 buf = st_in s ++ 0 :: replicate (GBUF - length (st_in s) - 1) 0) as Hbuf.
  { unfold buf. rewrite drop_replicate, drop_0. change (take (Z.to_nat 0) (replicate GBUF 0)) with (@nil Z). rewrite app_nil_l.
    f_equal. destruct (GBUF - length (st_in s))%nat as [|k] eqn:E; [lia|]. cbn. by rewrite Nat.sub_0_r. }
  rewrite urun_bind.
  destruct (grep_lines_run pattern (Datatypes.S GBUF) buf 0 (st_in s) _ s1 Hbuf H0 ltac:(lia)) as (p & buf' & s2 & -> & Hp & Hi2 & Ho2 & _).
  assert (∀ b m, m < Z.of_nat GBUF → ∃ s3, urun h (grep_loop n pattern fd b m) s2 = ROk b s3 ∧ st_out s3 = st_out s2) as Hend.
  { intros b m Hm. destruct n as [|n]; [lia|]. cbn [grep_loop ubind sys urun].
    destruct (st_read s2 (Z.of_nat GBUF - m) ltac:(lia)) as (k & s3 & -> & Hk3 & Hk3' & _ & _ & Ho3).
    rewrite Hi2, Hi in Hk3'. cbn [length] in Hk3'. assert (k = 0) as -> by lia. cbn. eauto. }
  destruct (0 <? _).
  - destruct (Hend (buf_move buf' p ((if decide (p = 0%nat) then 0 else Z.of_nat (length (st_in s))) - p))
      ((if decide (p = 0%nat) then 0 else Z.of_nat (length (st_in s))) - p)) as (s3 & -> & Ho3).
    { case_decide; unfold GBUF in *; lia. }
    do 2 eexists. split; [done|]. by rewrite Ho3, Ho2, Ho.
  - destruct (Hend buf' (if decide (p = 0%nat) then 0 else Z.of_nat (length (st_in s)))) as (s3 & -> & Ho3).
    { case_decide; unfold GBUF in *; lia. }
    do 2 eexists. split; [done|]. by rewrite Ho3, Ho2, Ho.
Qed.
End grep.

(** ** An input in pieces *)

(** The input left, the sizes of the pieces it comes in, and the output. *)
Record io := mkIo { io_in : list Z; io_chunks : list nat; io_out : list Z }.

Definition io_handler : uhandler io := λ R c,
  match c in call R return io → R * io with
  | Cread _ n => λ s,
      let k := Z.to_nat (Z.min (Z.min n (length (io_in s))) (Z.max 1 (default 1%nat (head (io_chunks s))))) in
      ((Z.of_nat k, take k (io_in s)), mkIo (drop k (io_in s)) (tail (io_chunks s)) (io_out s))
  | Cwrite _ bs => λ s, (Z.of_nat (length bs), mkIo (io_in s) (io_chunks s) (io_out s ++ bs))
  | Cpipe => λ s, (None, s)
  | Cfstat _ => λ s, (None, s)
  | _ => λ s, (-1, s)
  end.

Lemma io_read fd s n : 0 < n → ∃ k s',
  io_handler _ (Cread fd n) s = ((k, take (Z.to_nat k) (io_in s)), s') ∧ 0 ≤ k ≤ n ∧
  k ≤ Z.of_nat (length (io_in s)) ∧ (k = 0 → io_in s = []) ∧
  io_in s' = drop (Z.to_nat k) (io_in s) ∧ io_out s' = io_out s.
Proof.
  intros Hn. cbn [io_handler]. set (k := Z.to_nat _).
  assert (0 ≤ Z.of_nat k ≤ n ∧ Z.of_nat k ≤ length (io_in s) ∧ (k = 0%nat → io_in s = [])) as (H1 & H2 & H3).
  { unfold k. split; [lia|]. split; [lia|]. destruct (io_in s); [done|]. cbn [length]. lia. }
  exists (Z.of_nat k), (mkIo (drop k (io_in s)) (tail (io_chunks s)) (io_out s)).
  rewrite Nat2Z.id. split_and!; try done; try lia. intros E. apply H3. lia.
Qed.

Lemma io_write s bs : ∃ r s',
  io_handler _ (Cwrite 1 bs) s = (r, s') ∧ io_in s' = io_in s ∧ io_out s' = io_out s ++ bs.
Proof. by do 2 eexists. Qed.

#[export] Instance io_stream fd : stream_io io_handler fd :=
  {| st_in := io_in; st_out := io_out; st_read := io_read fd; st_write := io_write |}.

Module filter_demo.
Definition text : list Z := bytes "ab cd
 x
".
Definition s0 : io := mkIo text [3; 100]%nat [].

Lemma printf_correct_witness : ∃ s',
  urun io_handler (printf 1 "%d %x %c%s%%" [PInt (-12); PInt 255; PInt 65; PStr None]) s0 = ROk tt s' ∧ io_out s' = bytes "-12 FF A(null)%".
Proof.
  destruct (printf_correct io_handler 0 "%d %x %c%s%%" [PInt (-12); PInt 255; PInt 65; PStr None] (bytes "-12 FF A(null)%") s0
    ltac:(vm_compute; reflexivity)) as (s' & Hr & _ & Ho). exists s'. split; [exact Hr|exact Ho].
Defined.

Lemma cat_correct_witness : ∃ s', urun io_handler (cat 20 0) s0 = ROk tt s' ∧ io_out s' = text.
Proof.
  destruct (cat_correct io_handler 0 20 s0 ltac:(apply Nat.ltb_lt; reflexivity)) as (s' & Hr & _ & Ho). exists s'. split; [exact Hr|exact Ho].
Defined.

Lemma wc_correct_witness : ∃ s', urun io_handler (wc 20 0 (bytes "f")) s0 = ROk tt s' ∧ io_out s' = bytes "2 3 9 f
".
Proof.
  destruct (wc_correct io_handler 0 20 s0 (bytes "f") ltac:(apply Nat.ltb_lt; reflexivity) ltac:(vm_compute; reflexivity)) as (s' & Hr & Ho).
  exists s'. split; [exact Hr|]. etransitivity; [exact Ho|]. vm_compute. reflexivity.
Defined.

Lemma grep_correct_witness :
  ∃ buf s', urun io_handler (grep 2 (bytes "b") 0 (replicate GBUF 0)) (mkIo text [100%nat] []) = ROk buf s' ∧ io_out s' = bytes "ab cd
".
Proof.
  destruct (grep_correct io_handler 0 (bytes "b") 2 (mkIo text [100%nat] [])) as (buf & s' & Hr & Ho).
  - lia.
  - apply Nat.ltb_lt. reflexivity.
  - by apply (bool_decide_unpack _).
  - vm_compute. reflexivity.
  - exists buf, s'. split; [exact Hr|]. exact Ho.
Defined.
End filter_demo.

(** The array is not NUL-terminated behind what a read delivers: when a second
    piece is shorter than what is left of the first, lines of the first are
    found, and printed, again. *)
Theorem grep_repeats_lines :
  ∃ pattern input chunks buf s,
    (length input < GBUF)%nat ∧ urun io_handler (grep 10 pattern 0 (replicate GBUF 0)) (mkIo input chunks []) = ROk buf s ∧
    matching_lines pattern [] input = bytes "ab
" ∧ io_out s = bytes "ab
ab
".
Proof.
  exists (bytes "ab"), (bytes "x
ab
c
"), [6; 1]%nat.
  eexists _, _. split; [apply Nat.ltb_lt; reflexivity|]. split; [vm_compute; reflexivity|]. split; vm_compute; reflexivity.
Qed.
