(* ===== verification/ShRun.v ===== *)
(** The rest of the shell (user/sh.c): running a parsed command, the prompt
    and the main loop, as trees of system calls; and what processes a command
    line starts, with which files open. *)
From stdpp Require Import base numbers gmap strings option list.
From S2P Require Import Prelude State Spinlock Str Cprintf Syscall Sysfile Sh ShSpec ShParse User Programs.

(** ** Running a command *)

Definition sh_panic {A} (s : string) : uprog A :=
  let! _ := printf 2 "%s
" [PS (bytes s)] in UExit.

Definition fork1 : uprog Z :=
  let! pid := sys Cfork in
  if pid =? -1 then sh_panic "fork" else UDone pid.

Definition cstring_at (bf : list Z) (q : nat) : list Z := upto_nul (drop q bf).

(** The strings of an argument list, up to its null pointer. *)
Fixpoint arg_strings (bf : list Z) (argv : list (option nat)) : list (list Z) :=
  match argv with
  | Some q :: argv => cstring_at bf q :: arg_strings bf argv
  | _ => []
  end.

(** [runcmd] of the command at [p]; [n] bounds the depth of the command. *)
Fixpoint runcmd (n : nat) (h : list node) (bf : list Z) (p : nat) : uprog unit :=
  match n with
  | O => UFuel
  | S n =>
      match h !! p with
      | None => UUndef "cmd"
      | Some (EXEC argv _) =>
          match argv with
          | Some q :: _ =>
              let! _ := sys (Cexec (cstring_at bf q) (arg_strings bf argv)) in
              let! _ := printf 2 "exec %s failed
" [PS (cstring_at bf q)] in
              UExit
          | _ => UExit
          end
      | Some (REDIR c file _ mode fd) =>
          let! _ := sys (Cclose fd) in
          let! r := sys (Copen (cstring_at bf file) mode) in
          if r <? 0 then
            let! _ := printf 2 "open %s failed
" [PS (cstring_at bf file)] in UExit
          else
          let! _ := runcmd n h bf c in UExit
      | Some (LIST l r) =>
          let! pid := fork1 in
          let! _ := (if pid =? 0 then runcmd n h bf l else UDone tt) in
          let! _ := sys Cwait in
          let! _ := runcmd n h bf r in UExit
      | Some (PIPE l r) =>
          let! o := sys Cpipe in
          match o with
          | None => sh_panic "pipe"
          | Some (p0, p1) =>
              let! pid := fork1 in
              let! _ := (if pid =? 0 then
                           let! _ := sys (Cclose 1) in
                           let! _ := sys (Cdup p1) in
                           let! _ := sys (Cclose p0) in
                           let! _ := sys (Cclose p1) in
                           runcmd n h bf l
                         else UDone tt) in
              let! pid := fork1 in
              let! _ := (if pid =? 0 then
                           let! _ := sys (Cclose 0) in
                           let! _ := sys (Cdup p0) in
                           let! _ := sys (Cclose p0) in
                           let! _ := sys (Cclose p1) in
                           runcmd n h bf r
                         else UDone tt) in
              let! _ := sys (Cclose p0) in
              let! _ := sys (Cclose p1) in
              let! _ := sys Cwait in
              let! _ := sys Cwait in
              UExit
          end
      | Some (BACK c) =>
          let! pid := fork1 in
          let! _ := (if pid =? 0 then runcmd n h bf c else UDone tt) in
          UExit
      end
  end.

(** ** The main loop *)

Definition SH_BUF : nat := 100.

(** [getcmd]: the line, or [None] at the end of the input. *)
Definition getcmd : uprog (option (list Z)) :=
  let! _ := printf 2 "$ " [] in
  let! l := ugets SH_BUF in
  match l with
  | [] => UDone None
  | c :: _ => UDone (if c =? 0 then None else Some l)
  end.

(** [while((fd = open("console", O_RDWR)) >= 0)]. *)
Fixpoint sh_open (n : nat) : uprog unit :=
  match n with
  | O => UFuel
  | S n =>
      let! fd := sys (Copen (bytes "console") O_RDWR) in
      if 0 <=? fd then
        if 3 <=? fd then let! _ := sys (Cclose fd) in UDone tt else sh_open n
      else UDone tt
  end.

(** The child for one line: parse it in the buffer of 100 bytes, and run it.
    A panic of the parser prints its message and exits. *)
Definition sh_child (l : list Z) : uprog unit :=
  match parsecmd (mkSh (l ++ replicate (SH_BUF - length l) 0) [] []) with
  | Ret p st => runcmd (S (length (sh_heap st))) (sh_heap st) (sh_buf st) p
  | Panic m st =>
      let! _ := ufor (sh_err st) (λ e, printf 2 e.1 [PS e.2]) in
      sh_panic m
  | Undef w => UUndef w
  | _ => UFuel
  end.

(** [buf[0] == 'c' && buf[1] == 'd' && buf[2] == ' ']. *)
Definition is_cd (l : list Z) : bool := bool_decide (take 3 l = bytes "cd ").

Fixpoint sh_loop (n : nat) : uprog unit :=
  match n with
  | O => UFuel
  | S n =>
      let! o := getcmd in
      match o with
      | None => UExit
      | Some l =>
          if is_cd l then
            let dir := upto_nul (drop 3 (take (length (upto_nul l) - 1) l)) in
            let! r := sys (Cchdir dir) in
            let! _ := (if r <? 0 then printf 2 "cannot cd %s
" [PS dir] else UDone tt) in
            sh_loop n
          else
          let! pid := fork1 in
          let! _ := (if pid =? 0 then sh_child l else UDone tt) in
          let! _ := sys Cwait in
          sh_loop n
      end
  end.

Definition sh_main (n : nat) : uprog unit :=
  let! _ := sh_open n in
  sh_loop n.

(** ** Processes and descriptors *)

(** What a descriptor refers to: inherited, opened by name, or an end of the
    pipe with the given number. *)
Inductive ufile := UInherited (n : nat) | UOpened (path : list Z) (mode : Z) | UPipeR (i : nat) | UPipeW (i : nat).
Abbreviation fdt := (list (option ufile)).

(** The lowest free descriptor, as [fdalloc] in the kernel chooses it. *)
Fixpoint low_fd {A} (t : list (option A)) : option nat :=
  match t with
  | [] => None
  | None :: _ => Some 0%nat
  | Some _ :: t => S <$> low_fd t
  end.

Lemma free_fd_low ofile : free_fd ofile = low_fd (take NOFILE ofile).
Proof.
  unfold free_fd. induction (take NOFILE ofile) as [|[f|] l IH]; [done| |done].
  cbn [low_fd]. rewrite <- IH. cbn. by destruct (list_find _ l) as [[i x]|].
Qed.

(** A program that a process has become: its arguments and descriptors. *)
Definition started : Type := list (list Z) * fdt.

Section processes.
(** Whether a file can be opened in a mode, and whether a program exists. *)
Context (open_ok : list Z → Z → bool) (exec_ok : list Z → bool).

Definition CHILD : Z := 2.

(** The programs started by a process and its children, and the number of the
    next pipe: each process has its own descriptors, and a child starts with a
    copy of its parent's. *)
Definition outcome_t : Type := option (list started * nat).

Definition do_call {R : Set} (c : call R) (i : nat) (t : fdt) : (R → nat → fdt → outcome_t) → outcome_t :=
  match c in call R return (R → nat → fdt → outcome_t) → outcome_t with
  | Cfork => λ go,
      '(xs, j) ← go 0 i t;
      '(ys, k) ← go CHILD j t;
      Some (xs ++ ys, k)
  | Cwait => λ go, go CHILD i t
  | Cpipe => λ go,
      match low_fd t with
      | Some a =>
          let t1 := <[a := Some (UPipeR i)]> t in
          match low_fd t1 with
          | Some b => go (Some (Z.of_nat a, Z.of_nat b)) (S i) (<[b := Some (UPipeW i)]> t1)
          | None => go None i t
          end
      | None => go None i t
      end
  | Cclose fd => λ go,
      match t !! Z.to_nat fd with
      | Some (Some _) => go 0 i (<[Z.to_nat fd := None]> t)
      | _ => go (-1) i t
      end
  | Cdup fd => λ go,
      match t !! Z.to_nat fd, low_fd t with
      | Some (Some f), Some a => go (Z.of_nat a) i (<[a := Some f]> t)
      | _, _ => go (-1) i t
      end
  | Copen path mode => λ go,
      match low_fd t with
      | Some a => if open_ok path mode then go (Z.of_nat a) i (<[a := Some (UOpened path mode)]> t) else go (-1) i t
      | None => go (-1) i t
      end
  | Cexec path argv => λ go, if exec_ok path then Some ([(argv, t)], i) else go (-1) i t
  | Cwrite _ bs => λ go, go (Z.of_nat (length bs)) i t
  | Cread _ _ => λ go, go (0, []) i t
  | Cfstat _ => λ go, go None i t
  | _ => λ go, go 0 i t
  end.

Fixpoint processes (p : uprog unit) (i : nat) (t : fdt) : outcome_t :=
  match p with
  | UDone _ | UExit => Some ([], i)
  | UCall c k => do_call c i t (λ r, processes (k r))
  | UUndef _ | UFuel => None
  end.

(** ** What a command means *)

(** The programs a command starts: a redirection replaces one descriptor, a
    pipe one of each side, and nothing else changes. *)
Fixpoint meaning (a : ast (list Z)) (i : nat) (t : fdt) : list started * nat :=
  match a with
  | AExec [] => ([], i)
  | AExec (w :: ws) => (if exec_ok w then [(w :: ws, t)] else [], i)
  | ARedir a f m fd =>
      if open_ok f m then meaning a i (<[Z.to_nat fd := Some (UOpened f m)]> t) else ([], i)
  | APipe l r =>
      let '(xs, j) := meaning l (S i) (<[1%nat := Some (UPipeW i)]> t) in
      let '(ys, k) := meaning r j (<[0%nat := Some (UPipeR i)]> t) in
      (xs ++ ys, k)
  | AList l r =>
      let '(xs, j) := meaning l i t in
      let '(ys, k) := meaning r j t in
      (xs ++ ys, k)
  | ABack a => meaning a i t
  end.

(** Descriptors 0, 1 and 2 are open. *)
Definition std_open (t : fdt) : Prop := ∀ j, (j < 3)%nat → ∃ f, t !! j = Some (Some f).
(** Two more can be opened. *)
Definition two_free (t : fdt) : Prop :=
  ∃ x y, (3 ≤ x)%nat ∧ (x < y)%nat ∧ low_fd t = Some x ∧ t !! y = Some None ∧ ∀ j, (j < y)%nat → j ≠ x → ∃ f, t !! j = Some (Some f).

Fixpoint redirs_std (a : ast (list Z)) : Prop :=
  match a with
  | AExec _ => True
  | ARedir a _ _ fd => (fd = 0 ∨ fd = 1) ∧ redirs_std a
  | APipe l r | AList l r => redirs_std l ∧ redirs_std r
  | ABack a => redirs_std a
  end.

Lemma low_fd_Some {A} (t : list (option A)) x :
  low_fd t = Some x ↔ t !! x = Some None ∧ ∀ j, (j < x)%nat → ∃ f, t !! j = Some (Some f).
Proof.
  revert x. induction t as [|[f|] t IH]; intros x; cbn [low_fd].
  - split; [done|]. intros [? _]. done.
  - rewrite fmap_Some. setoid_rewrite IH. split.
    + intros (y & [Hy Hl] & ->). split; [done|]. intros [|j] Hj; [by exists f|]. apply Hl. lia.
    + intros [Hx Hl]. destruct x as [|x]; [done|]. exists x. split; [|done]. split; [done|].
      intros j Hj. apply (Hl (S j)). lia.
  - split; [intros [= <-]; split; [done|lia]|]. intros [Hx Hl]. destruct x as [|x]; [done|].
    destruct (Hl 0%nat ltac:(lia)) as [f ?]. done.
Qed.

Lemma low_fd_is {A} (t : list (option A)) x :
  t !! x = Some None → (∀ j, (j < x)%nat → ∃ f, t !! j = Some (Some f)) → low_fd t = Some x.
Proof. intros. by apply low_fd_Some. Qed.

(** Replacing an open descriptor below 3. *)
Lemma std_open_insert (t : fdt) j f : std_open t → std_open (<[j := Some f]> t).
Proof.
  intros Ht k Hk. destruct (Ht k Hk) as [g Hg]. destruct (decide (j = k)) as [->|Hne].
  - exists f. apply list_lookup_insert_eq. by eapply lookup_lt_Some.
  - exists g. by rewrite list_lookup_insert_ne.
Qed.

Lemma used_insert (t : fdt) j f k : (∃ g, t !! k = Some (Some g)) → ∃ g, <[j := Some f]> t !! k = Some (Some g).
Proof.
  intros [g Hg]. destruct (decide (j = k)) as [->|Hne].
  - exists f. apply list_lookup_insert_eq. by eapply lookup_lt_Some.
  - exists g. by rewrite list_lookup_insert_ne.
Qed.

Lemma two_free_insert (t : fdt) j f : (j < 3)%nat → two_free t → two_free (<[j := Some f]> t).
Proof.
  intros Hj (x & y & Hx & Hxy & Hl & Hy & Hall). apply low_fd_Some in Hl as [Hlx Hlj].
  exists x, y. split; [done|]. split; [done|]. split; [|split].
  - apply low_fd_is; [by rewrite list_lookup_insert_ne by lia|]. intros k Hk. by apply used_insert, Hlj.
  - by rewrite list_lookup_insert_ne by lia.
  - intros k Hk Hne. by apply used_insert, Hall.
Qed.

(** *** Programs that do not return *)

Fixpoint never_done {A} (p : uprog A) : Prop :=
  match p with
  | UDone _ => False
  | UCall c k => ∀ r, never_done (k r)
  | _ => True
  end.

Lemma do_call_ext {R : Set} (c : call R) i t go go' :
  (∀ r i t, go r i t = go' r i t) → do_call c i t go = do_call c i t go'.
Proof.
  intros Hgo. destruct c; cbn; rewrite ?Hgo; try (repeat (case_match; rewrite ?Hgo; try done)); try done.
  destruct (go' 0 i t) as [[xs j]|]; [|done]. cbn. by rewrite Hgo.
Qed.

Lemma processes_bind_never {A} (p : uprog A) (f g : A → uprog unit) i t :
  never_done p → processes (ubind p f) i t = processes (ubind p g) i t.
Proof.
  revert i t. induction p as [a| |R c k IH|w|]; intros i t Hn; cbn; try done. apply do_call_ext. intros r i' t'. by apply IH.
Qed.

Lemma processes_exit (p : uprog unit) i t : processes (ubind p (λ _, UExit)) i t = processes p i t.
Proof.
  revert i t. induction p as [a| |R c k IH|w|]; intros i t; cbn; try done. apply do_call_ext. intros r i' t'. by apply IH.
Qed.

Lemma processes_never (p : uprog unit) (f : unit → uprog unit) i t :
  never_done p → processes (ubind p f) i t = processes p i t.
Proof. intros Hn. rewrite <- (processes_exit p). by apply processes_bind_never. Qed.

Lemma never_done_bind {A B} (p : uprog A) (f : A → uprog B) : (∀ a, never_done (f a)) → never_done (ubind p f).
Proof. intros Hf. induction p; cbn; auto. Qed.

Lemma runcmd_never n h bf p : never_done (runcmd n h bf p).
Proof.
  revert p. induction n as [|n IH]; intros p; [done|]. cbn [runcmd]. destruct (h !! p) as [[argv eargv|c f e m fd|l r|l r|c]|]; [| | | | |done].
  - destruct argv as [|[q|] argv]; try done. apply never_done_bind. intros _. by apply never_done_bind.
  - apply never_done_bind. intros _. apply never_done_bind. intros k. destruct (k <? 0); by apply never_done_bind.
  - apply never_done_bind. intros [[p0 p1]|]; [|by apply never_done_bind].
    do 8 (apply never_done_bind; intros ?). done.
  - apply never_done_bind. intros k. do 2 (apply never_done_bind; intros _). by apply never_done_bind.
  - apply never_done_bind. intros k. by apply never_done_bind.
Qed.

Lemma put_all_processes fd l (k : uprog unit) i t : processes (ubind (put_all fd l) (λ _, k)) i t = processes k i t.
Proof. induction l as [|c l IH]; [done|]. exact IH. Qed.

(** Printing starts no process. *)
Lemma printf_then fd fmt args out (k : uprog unit) i t :
  uformat (bytes fmt) args = Some out → processes (ubind (printf fd fmt args) (λ _, k)) i t = processes k i t.
Proof. intros Hf. rewrite (printf_writes _ _ _ _ Hf). apply put_all_processes. Qed.

Lemma printf_exit fd fmt args out i t :
  uformat (bytes fmt) args = Some out → processes (ubind (printf fd fmt args) (λ _, UExit)) i t = Some ([], i).
Proof. intros Hf. by rewrite (printf_then _ _ _ _ _ _ _ Hf). Qed.
End processes.

#[local] Opaque upto_nul.
Lemma exec_failed_format s : uformat (bytes "exec %s failed
") [PS s] = Some (bytes "exec " ++ (u8 <$> upto_nul s) ++ bytes " failed
").
Proof. reflexivity. Qed.
Lemma open_failed_format s : uformat (bytes "open %s failed
") [PS s] = Some (bytes "open " ++ (u8 <$> upto_nul s) ++ bytes " failed
").
Proof. reflexivity. Qed.
Lemma leftovers_format s : uformat (bytes "leftovers: %s
") [PS s] = Some (bytes "leftovers: " ++ (u8 <$> upto_nul s) ++ bytes "
").
Proof. reflexivity. Qed.
Lemma panic_format s : uformat (bytes "%s
") [PS s] = Some ((u8 <$> upto_nul s) ++ bytes "
").
Proof. reflexivity. Qed.
#[local] Transparent upto_nul.

(** *** Strings of a command *)

Lemma cstr_at_string bf q w : cstr_at bf q w → cstring_at bf q = w.
Proof.
  unfold cstring_at, cstr_at. intros (Hnz & Hch & Hend). revert q Hch Hend.
  induction Hnz as [|c w Hc _ IH]; intros q Hch Hend; cbn in Hend.
  - rewrite Nat.add_0_r in Hend. by rewrite (drop_S _ _ _ Hend).
  - pose proof (Hch 0%nat c eq_refl) as H0. rewrite Nat.add_0_r in H0. rewrite (drop_S _ _ _ H0). cbn [upto_nul].
    rewrite (proj2 (Z.eqb_neq c 0)) by done. f_equal. apply IH.
    + intros i d Hd. rewrite Nat.add_succ_comm. by apply Hch.
    + by rewrite Nat.add_succ_comm.
Qed.

Lemma holds_args bf ws : ∀ argv,
  (∀ i w, ws !! i = Some w → ∃ q, argv !! i = Some (Some q) ∧ cstr_at bf q w) → argv !! length ws = Some None →
  arg_strings bf argv = ws.
Proof.
  induction ws as [|w ws IH]; intros argv Hw He; cbn in He.
  - destruct argv as [|[|] argv]; try done.
  - destruct (Hw 0%nat w eq_refl) as (q & Hq & Hs). destruct argv as [|[q'|] argv]; try done. cbn in Hq. simplify_eq.
    cbn [arg_strings]. rewrite (cstr_at_string _ _ _ Hs). f_equal. apply IH; [|done]. intros i x Hx. by apply (Hw (S i)).
Qed.

(** *** Descriptor tables *)

(** A descriptor below 3 that is closed is the next to be opened. *)
Lemma low_fd_closed (t : fdt) d :
  (d < 3)%nat → std_open t → low_fd (<[d := None]> t) = Some d.
Proof.
  intros Hd Ht. apply low_fd_is.
  - destruct (Ht d Hd) as [f Hf]. apply list_lookup_insert_eq. by eapply lookup_lt_Some.
  - intros j Hj. destruct (Ht j ltac:(lia)) as [f Hf]. exists f. by rewrite list_lookup_insert_ne by lia.
Qed.

(** Solves an equality of tables, one descriptor at a time. *)
Ltac solve_table :=
  apply list_eq; intros k; rewrite !list_lookup_insert, ?length_insert;
  repeat case_decide; try done; intuition (try lia; subst; try congruence).

Section tables.
Context (t : fdt) (x y : nat) (R W : ufile).
Hypothesis Hx : (3 ≤ x)%nat.
Hypothesis Hxy : (x < y)%nat.
Hypothesis Htx : t !! x = Some None.
Hypothesis Hty : t !! y = Some None.
Hypothesis Hbelow : ∀ j, (j < y)%nat → j ≠ x → ∃ f, t !! j = Some (Some f).

Let t2 : fdt := <[y := Some W]> (<[x := Some R]> t).

Lemma len_xy : (x < length t)%nat ∧ (y < length t)%nat.
Proof using Htx Hty. split; by eapply lookup_lt_Some. Qed.

Lemma low_fd_second : low_fd (<[x := Some R]> t) = Some y.
Proof using All.
  pose proof len_xy as [Hlx Hly]. apply low_fd_is; [by rewrite list_lookup_insert_ne by lia|].
  intros j Hj. destruct (decide (j = x)) as [->|Hne]; [exists R; by apply list_lookup_insert_eq|].
  destruct (Hbelow j Hj Hne) as [f Hf]. exists f. by rewrite list_lookup_insert_ne by done.
Qed.

Lemma pipe_std : std_open t2.
Proof using All.
  subst t2. do 2 apply std_open_insert. intros j Hj. apply Hbelow; lia.
Qed.

Lemma pipe_read_end d : (d < 3)%nat → <[d := None]> t2 !! x = Some (Some R).
Proof using All.
  pose proof len_xy as [Hlx Hly]. intros Hd. subst t2. rewrite !list_lookup_insert_ne by lia. by apply list_lookup_insert_eq.
Qed.

Lemma pipe_write_end d : (d < 3)%nat → <[d := None]> t2 !! y = Some (Some W).
Proof using All.
  pose proof len_xy as [Hlx Hly]. intros Hd. subst t2. rewrite list_lookup_insert_ne by lia.
  apply list_lookup_insert_eq. by rewrite length_insert.
Qed.

(** What the child of a pipe is left with, and its parent. *)
Lemma pipe_child d f : (d < 3)%nat →
  <[y := None]> (<[x := None]> (<[d := Some f]> (<[d := None]> t2))) = <[d := Some f]> t.
Proof using All. pose proof len_xy as [Hlx Hly]. intros Hd. subst t2. solve_table. Qed.
End tables.

(** ** The processes of a command *)

Section meaning.
Context (open_ok : list Z → Z → bool) (exec_ok : list Z → bool).
#[local] Abbreviation procs := (processes open_ok exec_ok).
#[local] Abbreviation means := (meaning open_ok exec_ok).

Lemma procs_close fd (k : uprog unit) i t f :
  t !! Z.to_nat fd = Some (Some f) →
  procs (let! _ := sys (Cclose fd) in k) i t = procs k i (<[Z.to_nat fd := None]> t).
Proof. intros Hf. cbn. by rewrite Hf. Qed.

Lemma procs_dup fd (k : uprog unit) i t f a :
  t !! Z.to_nat fd = Some (Some f) → low_fd t = Some a →
  procs (let! _ := sys (Cdup fd) in k) i t = procs k i (<[a := Some f]> t).
Proof. intros Hf Ha. cbn. by rewrite Hf, Ha. Qed.

Lemma procs_fork1 (k : Z → uprog unit) i t xs j ys m :
  procs (k 0) i t = Some (xs, j) → procs (k CHILD) j t = Some (ys, m) →
  procs (ubind fork1 k) i t = Some (xs ++ ys, m).
Proof. intros Hx Hy. cbn. unfold CHILD in *. cbn. by rewrite Hx; cbn; rewrite Hy. Qed.

Lemma procs_wait (k : uprog unit) i t : procs (let! _ := sys Cwait in k) i t = procs k i t.
Proof. done. Qed.

Lemma procs_pipe (k : option (Z * Z) → uprog unit) i t a b :
  low_fd t = Some a → low_fd (<[a := Some (UPipeR i)]> t) = Some b →
  procs (ubind (sys Cpipe) k) i t =
  procs (k (Some (Z.of_nat a, Z.of_nat b))) (S i) (<[b := Some (UPipeW i)]> (<[a := Some (UPipeR i)]> t)).
Proof. intros Ha Hb. cbn. by rewrite Ha, Hb. Qed.

(** The child that becomes one side of a pipe. *)
Lemma procs_pipe_end (k : uprog unit) i t x y R W d f q :
  (d < 3)%nat → (3 ≤ x)%nat → (x < y)%nat → t !! x = Some None → t !! y = Some None →
  (∀ j, (j < y)%nat → j ≠ x → ∃ f, t !! j = Some (Some f)) →
  (q = x ∧ f = R ∨ q = y ∧ f = W) →
  procs (let! _ := sys (Cclose (Z.of_nat d)) in
         let! _ := sys (Cdup (Z.of_nat q)) in
         let! _ := sys (Cclose (Z.of_nat x)) in
         let! _ := sys (Cclose (Z.of_nat y)) in k) i (<[y := Some W]> (<[x := Some R]> t)) =
  procs k i (<[d := Some f]> t).
Proof.
  intros Hd Hx Hxy Htx Hty Hb Hq.
  pose proof (pipe_std t x y R W Hx Hxy Htx Hty Hb) as Hstd.
  destruct (Hstd d Hd) as [g Hg].
  pose proof (pipe_read_end t x y R W Hx Hxy Htx Hty Hb d Hd) as Hre.
  pose proof (pipe_write_end t x y R W Hx Hxy Htx Hty Hb d Hd) as Hwe.
  pose proof (pipe_child t x y R W Hx Hxy Htx Hty Hb d f Hd) as Hch.
  rewrite (procs_close _ _ _ _ g) by (by rewrite Nat2Z.id).
  rewrite Nat2Z.id. rewrite (procs_dup _ _ _ _ f d); [|rewrite Nat2Z.id; naive_solver|by apply low_fd_closed].
  rewrite (procs_close _ _ _ _ R) by (rewrite Nat2Z.id, list_lookup_insert_ne by lia; done).
  rewrite (procs_close _ _ _ _ W) by (rewrite !Nat2Z.id; do 2 rewrite list_lookup_insert_ne by lia; done).
  by rewrite !Nat2Z.id, Hch.
Qed.

Lemma runcmd_redir n h bf p c q e m fd f a i t :
  h !! p = Some (REDIR c q e m fd) → cstr_at bf q f → fd = 0 ∨ fd = 1 → std_open t → two_free t →
  (∀ t', std_open t' → two_free t' → procs (runcmd n h bf c) i t' = Some (means a i t')) →
  procs (runcmd (S n) h bf p) i t = Some (means (ARedir a f m fd) i t).
Proof.
  intros Hp Hq Hfd Ht H2 IH. cbn [runcmd meaning]. rewrite Hp, (cstr_at_string _ _ _ Hq).
  assert (∃ d, fd = Z.of_nat d ∧ (d < 3)%nat) as (d & -> & Hd)
    by (destruct Hfd as [-> | ->]; [exists 0%nat|exists 1%nat]; split; (reflexivity || lia)).
  destruct (Ht d Hd) as [g Hg]. rewrite (procs_close _ _ _ _ g) by (by rewrite Nat2Z.id). rewrite Nat2Z.id.
  cbn [processes ubind sys do_call]. rewrite low_fd_closed by done. destruct (open_ok f m).
  - rewrite (proj2 (Z.ltb_ge (Z.of_nat d) 0)) by lia. rewrite list_insert_insert_eq.
    rewrite processes_exit. apply IH; [by apply std_open_insert|by apply two_free_insert].
  - cbn [Z.ltb Z.compare]. apply (printf_exit _ _ _ _ _ _ _ _ (open_failed_format f)).
Qed.

Lemma runcmd_pipe n h bf p x y l r i t :
  h !! p = Some (PIPE x y) → std_open t → two_free t →
  (∀ i t', std_open t' → two_free t' → procs (runcmd n h bf x) i t' = Some (means l i t')) →
  (∀ i t', std_open t' → two_free t' → procs (runcmd n h bf y) i t' = Some (means r i t')) →
  procs (runcmd (S n) h bf p) i t = Some (means (APipe l r) i t).
Proof.
  intros Hp Ht H2 IHl IHr. cbn [runcmd meaning]. rewrite Hp.
  pose proof H2 as (a & b & Ha & Hab & Hl & Hb & Hall). pose proof (proj1 (low_fd_Some _ _) Hl) as [Hla _].
  rewrite (procs_pipe _ _ _ _ _ Hl (low_fd_second t a b (UPipeR i) (UPipeW i) Ha Hab Hla Hb Hall)).
  specialize (IHl (S i) _ (std_open_insert t 1 (UPipeW i) Ht) (two_free_insert t 1 (UPipeW i) ltac:(lia) H2)).
  destruct (means l _ _) as [xs j].
  specialize (IHr j _ (std_open_insert t 0 (UPipeR i) Ht) (two_free_insert t 0 (UPipeR i) ltac:(lia) H2)).
  destruct (means r _ _) as [ys k].
  apply procs_fork1 with (j := j).
  - cbn [Z.eqb]. rewrite processes_never by (repeat (apply never_done_bind; intros _); apply runcmd_never).
    rewrite <- IHl. apply (procs_pipe_end _ _ _ _ _ _ _ 1%nat); auto with lia.
  - unfold CHILD. cbn [Z.eqb Pos.eqb ubind]. rewrite <- (app_nil_r ys).
    apply procs_fork1 with (j := k).
    + cbn [Z.eqb]. rewrite processes_never by (repeat (apply never_done_bind; intros _); apply runcmd_never).
      rewrite <- IHr. apply (procs_pipe_end _ _ _ _ _ _ _ 0%nat); auto with lia.
    + cbn. repeat case_match; done.
Qed.

Lemma runcmd_exec n h bf p ws i t argv eargv :
  h !! p = Some (EXEC argv eargv) →
  (∀ i w, ws !! i = Some w → ∃ q, argv !! i = Some (Some q) ∧ cstr_at bf q w) → argv !! length ws = Some None →
  procs (runcmd (S n) h bf p) i t = Some (means (AExec ws) i t).
Proof.
  intros Hp Hw He. pose proof (holds_args bf ws argv Hw He) as Hargs. cbn [runcmd meaning]. rewrite Hp, Hargs.
  destruct ws as [|w ws]; [by destruct argv as [|[q|] argv]|].
  destruct (Hw 0%nat w eq_refl) as (q & Hq & Hs). destruct argv as [|[q'|] argv]; try done. cbn in Hq. simplify_eq.
  rewrite (cstr_at_string _ _ _ Hs). cbn [processes ubind sys do_call]. destruct (exec_ok w); [done|].
  apply (printf_exit _ _ _ _ _ _ _ _ (exec_failed_format w)).
Qed.

(** A process that runs a command starts the programs of its meaning. *)
Lemma runcmd_meaning h bf a : ∀ n p i t,
  holds h bf p a → (p < n)%nat → redirs_std a → std_open t → two_free t →
  procs (runcmd n h bf p) i t = Some (means a i t).
Proof.
  induction a as [ws|a IH f m fd|l IHl r IHr|l IHl r IHr|a IH]; intros [|n] p i t Hh Hn Hr Ht H2; try lia; cbn [redirs_std] in Hr.
  - destruct Hh as (argv & eargv & Hp & Hw & He). by eapply runcmd_exec.
  - destruct Hh as (c & q & e & Hp & Hc & Hq & Hh). destruct Hr as [Hfd Hr].
    eapply runcmd_redir; [done..|]. intros t' Ht' H2'. apply IH; [done|lia|done..].
  - destruct Hh as (x & y & Hp & Hx & Hy & Hl & Hr'). destruct Hr as [Hsl Hsr].
    eapply runcmd_pipe; [done..| |]; intros j t' Ht' H2'; [apply IHl|apply IHr]; (done || lia).
  - destruct Hh as (x & y & Hp & Hx & Hy & Hl & Hr'). destruct Hr as [Hsl Hsr]. cbn [runcmd meaning]. rewrite Hp.
    specialize (IHl n x i t Hl ltac:(lia) Hsl Ht H2). destruct (means l i t) as [xs j].
    specialize (IHr n y j t Hr' ltac:(lia) Hsr Ht H2). destruct (means r j t) as [ys k].
    apply procs_fork1 with (j := j).
    + cbn [Z.eqb]. by rewrite processes_never by apply runcmd_never.
    + unfold CHILD. cbn [Z.eqb Pos.eqb ubind]. by rewrite procs_wait, processes_exit.
  - destruct Hh as (c & Hp & Hc & Hh). cbn [runcmd meaning]. rewrite Hp.
    specialize (IH n c i t Hh ltac:(lia) Hr Ht H2). destruct (means a i t) as [xs j].
    rewrite <- (app_nil_r xs). apply procs_fork1 with (j := j); [|done].
    cbn [Z.eqb]. by rewrite processes_never by apply runcmd_never.
Qed.
End meaning.

(** *** Commands of the grammar *)

Lemma redirs_std_wrap line rs : ∀ a, redirs_std (words line a) → redirs_std (words line (wrap a rs)).
Proof.
  induction rs as [|[c w] rs IH]; intros a Ha; [done|]. apply IH. cbn. split; [|done].
  unfold redir_fd. case_match; auto.
Qed.

Lemma redirs_std_back line n a : redirs_std (words line a) → redirs_std (words line (Nat.iter n ABack a)).
Proof. intros Ha. by induction n as [|n IH]. Qed.

Lemma grammar_redirs_std line :
  (∀ ts a, Line ts a → redirs_std (words line a)) ∧
  (∀ ts a, Pipe ts a → redirs_std (words line a)) ∧
  (∀ ts a, Exec ts a → redirs_std (words line a)).
Proof.
  apply grammar_ind; intros; cbn; auto using redirs_std_back, redirs_std_wrap.
  by apply redirs_std_wrap.
Qed.

Lemma holds_lt h bf p a : holds h bf p a → (p < length h)%nat.
Proof. destruct a; cbn; naive_solver eauto using lookup_lt_Some. Qed.

(** A line in the buffer of the shell. *)
Lemma sh_buffer (line : list Z) : (length line < SH_BUF)%nat →
  line ++ replicate (SH_BUF - length line) 0 = line ++ 0 :: replicate (SH_BUF - length line - 1) 0.
Proof. intros Hl. f_equal. by destruct (SH_BUF - length line)%nat as [|k] eqn:E; [lia|]; rewrite Nat.sub_1_r. Qed.

Lemma sh_panic_processes open_ok exec_ok m i t :
  processes open_ok exec_ok (sh_panic m) i t = Some ([], i).
Proof. apply (printf_exit _ _ _ _ _ _ _ _ (panic_format _)). Qed.

(** Messages about a syntax error start no process. *)
Lemma syntax_error_processes open_ok exec_ok m err i t :
  (err = [] ∨ ∃ rest, err = [("leftovers: %s
"%string, rest)]) →
  processes open_ok exec_ok (let! _ := ufor err (λ e, printf 2 e.1 [PS e.2]) in sh_panic m) i t = Some ([], i).
Proof.
  intros [-> | [rest ->]]; [apply sh_panic_processes|]. cbn [ufor fst snd].
  rewrite (printf_writes _ _ _ _ (leftovers_format rest)).
  induction (_ ++ _) as [|c l IH]; [apply sh_panic_processes|exact IH].
Qed.


Module shrun_demo.
Import sh_demo.
Definition table : fdt := [Some (UInherited 0); Some (UInherited 1); Some (UInherited 2); None; None].

Lemma table_std : std_open table.
Proof. intros [|[|[|j]]] Hj; [by eexists..|lia]. Qed.

Lemma table_free : two_free table.
Proof.
  exists 3%nat, 4%nat. split_and!; [lia|lia|done|done|].
  intros [|[|[|[|j]]]] Hj Hne; [by eexists|by eexists|by eexists|lia|lia].
Qed.

End shrun_demo.
